(** * METAR-TAF: NOTAM and TAF decoders

    A shallow embedding of the decoding core of the repository
    ([taf_decoder.py], [notam_decoder.py] and the raw-NOTAM field extraction
    of [collect_notam.py]) and the properties its specification states.

    Conventions of the embedding.
    - A Python [str] is a [text], a list of bytes ([ascii]).  Input texts are
      ASCII ([ascii_text]): on them the classes [is_space], [is_digit] and
      [is_word] are Python's [\s], [\d] and [\w].  The Cyrillic and emoji
      literals of the source are kept as their UTF-8 bytes and only ever
      copied, never inspected.
    - [re] patterns are values of [Re.regex]; the matcher [Re.rmatch] is a
      backtracking matcher that lists the matches at one position in the
      order in which Python's engine tries them, so the head of the list is
      the match [re] reports.
    - Python [float] is IEEE binary64, here Rocq's primitive [float].
    - An exception is a value of [exn]; code under [try] runs in the
      state-and-error monad [M]. *)

From Stdlib Require Import String Ascii DecimalString.
From Stdlib Require Import List ZArith Lia Bool Arith.
From Stdlib Require Import Floats Uint63.
Import ListNotations.

Set Warnings "-inexact-float".

Definition text := list ascii.

Definition str (s : string) : text := list_ascii_of_string s.

(** ** Character classes *)

(** The code of a character. *)
Definition code (c : ascii) : N := N_of_ascii c.

Definition between (lo hi : N) (c : ascii) : bool :=
  ((lo <=? code c) && (code c <=? hi))%N.

(** [\d] on ASCII text. *)
Definition is_digit (c : ascii) : bool := between 48 57 c.

(** [A-Z]. *)
Definition is_upper (c : ascii) : bool := between 65 90 c.

Definition is_lower (c : ascii) : bool := between 97 122 c.

(** [\s] and [str.isspace] on ASCII: TAB, LF, VT, FF, CR, FS, GS, RS, US and
    the blank. *)
Definition is_space (c : ascii) : bool :=
  between 9 13 c || between 28 32 c.

(** [\w]: letters, digits and the underscore; a byte above 127 belongs to
    the UTF-8 encoding of a letter of a translation and counts as a word
    character, as the letter does in Python. *)
Definition is_word (c : ascii) : bool :=
  is_digit c || is_upper c || is_lower c || (code c =? 95)%N || (128 <=? code c)%N.

Definition is_char (x : ascii) (c : ascii) : bool := Ascii.eqb c x.

(** A bracket class that lists its members, as [[NRC]]. *)
Definition one_of (s : string) (c : ascii) : bool :=
  existsb (Ascii.eqb c) (str s).

Definition not_newline (c : ascii) : bool := negb (code c =? 10)%N.

Definition any_char (c : ascii) : bool := true.

(** Lower-casing of an ASCII letter, for [re.IGNORECASE]. *)
Definition to_lower (c : ascii) : ascii :=
  if is_upper c then ascii_of_N (code c + 32) else c.

Definition is_char_i (x : ascii) (c : ascii) : bool :=
  Ascii.eqb (to_lower c) (to_lower x).

Definition is_ascii (c : ascii) : bool := (code c <? 128)%N.

(** A text of ASCII characters only, the input the embedding is made for:
    a character above 127 is a byte of a longer UTF-8 sequence here and a
    whole character in Python, where a no-break space is a [\s] and a digit
    of another script a [\d]. *)
Definition ascii_text (t : text) : Prop := forallb is_ascii t = true.

(** ** Python string primitives *)

Module Py.

(** [prefix in s] at the head of [s]: [s.startswith(prefix)]. *)
Fixpoint startswith (s prefix : text) {struct prefix} : bool :=
  match prefix, s with
  | [], _ => true
  | p :: prefix', c :: s' => Ascii.eqb c p && startswith s' prefix'
  | _ :: _, [] => false
  end.

(** [needle in s] for strings. *)
Fixpoint contains (s needle : text) : bool :=
  startswith s needle ||
  match s with
  | [] => false
  | _ :: s' => contains s' needle
  end.

Fixpoint lstrip (s : text) : text :=
  match s with
  | c :: s' => if is_space c then lstrip s' else s
  | [] => []
  end.

Definition rstrip (s : text) : text := rev (lstrip (rev s)).

(** [s.strip()]. *)
Definition strip (s : text) : text := rstrip (lstrip s).

(** [s.split()]: the maximal runs of non-blank characters.  [cur] is the
    run being read, reversed. *)
Fixpoint split_ws_aux (s : text) (cur : text) : list text :=
  match s with
  | [] => match cur with [] => [] | _ => [rev cur] end
  | c :: s' =>
      if is_space c
      then match cur with
           | [] => split_ws_aux s' []
           | _ => rev cur :: split_ws_aux s' []
           end
      else split_ws_aux s' (c :: cur)
  end.

Definition split_ws (s : text) : list text := split_ws_aux s [].

(** [sep.join(parts)]. *)
Fixpoint join (sep : text) (parts : list text) : text :=
  match parts with
  | [] => []
  | [p] => p
  | p :: rest => p ++ sep ++ join sep rest
  end.

(** [a == b] for strings. *)
Fixpoint text_eqb (a b : text) : bool :=
  match a, b with
  | [], [] => true
  | x :: a', y :: b' => Ascii.eqb x y && text_eqb a' b'
  | _, _ => false
  end.

(** [x in xs] for a list of strings. *)
Definition mem (x : text) (xs : list text) : bool := existsb (text_eqb x) xs.

(** [s[i:j]]. *)
Definition slice (s : text) (i j : nat) : text := firstn (j - i) (skipn i s).

End Py.

(** ** Regular expressions: the fragment of [re] the decoders use *)

Module Re.

(** Repetition is only ever applied to a character class in the source
    ([\s+], [\d{2,3}], [[A-Z]+], [.+?], [[^\n]+]); [x?] on a group is
    [Alt x Eps].  Flags are resolved when the pattern is written down:
    [.] is [Cls not_newline], or [Cls any_char] under [re.DOTALL], and a
    letter is [Cls (is_char_i _)] under [re.IGNORECASE]. *)
Inductive regex : Type :=
| Eps                                   (* the empty pattern *)
| Cls (p : ascii -> bool)               (* one character of a class *)
| Seq (r1 r2 : regex)                   (* r1r2 *)
| Alt (r1 r2 : regex)                   (* r1|r2, r1 tried first *)
| Rep (p : ascii -> bool) (lo : nat) (hi : option nat) (greedy : bool)
                                        (* p{lo,hi}, or p{lo,hi}? when lazy *)
| Grp (n : nat) (r : regex)             (* capturing group number n *)
| Ahead (r : regex)                     (* (?=r); r holds no group *)
| Bol                                   (* ^ *)
| Eol                                   (* $ *)
| WordB.                                (* \b *)

(** Captured groups, the most recent capture first. *)
Definition caps := list (nat * text).

Fixpoint group (c : caps) (n : nat) : option text :=
  match c with
  | [] => None
  | (k, w) :: c' => if Nat.eqb k n then Some w else group c' n
  end.

(** Length of the longest prefix of [a] inside the class [p]. *)
Fixpoint run (p : ascii -> bool) (a : text) : nat :=
  match a with
  | x :: a' => if p x then S (run p a') else 0
  | [] => 0
  end.

(** The repetition counts from [lo] to [m], in the order they are tried. *)
Definition counts (lo m : nat) (greedy : bool) : list nat :=
  let l := seq lo (S m - lo) in if greedy then rev l else l.

Definition at_eol (a : text) : bool :=
  match a with
  | [] => true
  | [c] => (code c =? 10)%N
  | _ => false
  end.

Definition head_is_word (a : text) : bool :=
  match a with
  | x :: _ => is_word x
  | [] => false
  end.

(** A position in the subject is the pair of the text before it, reversed,
    and the text after it.  [rmatch r b a c] lists the ways [r] matches at
    the position [(b, a)] with the captures [c] so far: each is the position
    where the match ends and the captures then. *)
Fixpoint rmatch (r : regex) (b a : text) (c : caps)
  : list (text * text * caps) :=
  match r with
  | Eps => [(b, a, c)]
  | Cls p =>
      match a with
      | x :: a' => if p x then [(x :: b, a', c)] else []
      | [] => []
      end
  | Seq r1 r2 =>
      flat_map (fun m => let '(b1, a1, c1) := m in rmatch r2 b1 a1 c1)
               (rmatch r1 b a c)
  | Alt r1 r2 => rmatch r1 b a c ++ rmatch r2 b a c
  | Rep p lo hi greedy =>
      let m := match hi with
               | Some h => Nat.min h (run p a)
               | None => run p a
               end in
      map (fun k => (rev (firstn k a) ++ b, skipn k a, c)) (counts lo m greedy)
  | Grp n r1 =>
      map (fun m => let '(b1, a1, c1) := m in
                    (b1, a1, (n, firstn (length a - length a1) a) :: c1))
          (rmatch r1 b a c)
  | Ahead r1 =>
      match rmatch r1 b a c with
      | [] => []
      | _ :: _ => [(b, a, c)]
      end
  | Bol => match b with [] => [(b, a, c)] | _ :: _ => [] end
  | Eol => if at_eol a then [(b, a, c)] else []
  | WordB => if xorb (head_is_word b) (head_is_word a) then [(b, a, c)] else []
  end.

(** A match object: the text before the match (reversed), the matched text
    (group 0), the text before the end of the match (reversed), the text
    after it and the groups. *)
Record found : Type := Found {
  f_pre : text;
  f_text : text;
  f_end : text;
  f_rest : text;
  f_caps : caps
}.

(** [re.search] continued from the position [(b, a)]: the leftmost match. *)
Fixpoint search_from (r : regex) (b a : text) : option found :=
  match rmatch r b a [] with
  | (b1, a1, c1) :: _ =>
      Some (Found b (firstn (length a - length a1) a) b1 a1 c1)
  | [] =>
      match a with
      | [] => None
      | x :: a' => search_from r (x :: b) a'
      end
  end.

(** [re.search(r, s)]. *)
Definition search (r : regex) (s : text) : option found := search_from r [] s.

(** [m.group(n)], [None] when the group took no part in the match. *)
Definition grp (m : found) (n : nat) : option text := group (f_caps m) n.

(** The text between the position [(b, _)] and the start of the match [m]
    found from there. *)
Definition gap (b : text) (m : found) : text :=
  rev (firstn (length (f_pre m) - length b) (f_pre m)).

(** One step past the end of the match [m]: the position where the scan
    resumes.  Every pattern the source scans with consumes a character; an
    empty match moves on by one character. *)
Definition resume (m : found) : option (text * text) :=
  match f_text m with
  | _ :: _ => Some (f_end m, f_rest m)
  | [] => match f_rest m with
          | [] => None
          | x :: a' => Some (x :: f_end m, a')
          end
  end.

(** [re.finditer]: the successive matches, left to right, not overlapping. *)
Fixpoint finditer_from (fuel : nat) (r : regex) (b a : text) : list found :=
  match fuel with
  | 0 => []
  | S fuel' =>
      match search_from r b a with
      | None => []
      | Some m =>
          m :: match resume m with
               | None => []
               | Some (b', a') => finditer_from fuel' r b' a'
               end
      end
  end.

Definition finditer (r : regex) (s : text) : list found :=
  finditer_from (S (length s)) r [] s.

(** [re.split(r, s)] for a pattern with [ngroups] groups: the pieces
    between the matches, each followed by the groups of the match that ends
    it.  Both patterns the source splits on begin with [\s+], so a match is
    never empty; the model stops splitting at an empty match. *)
Fixpoint split_from (fuel : nat) (r : regex) (ngroups : nat) (b a : text)
  : list (option text) :=
  match fuel with
  | 0 => [Some a]
  | S fuel' =>
      match search_from r b a with
      | None => [Some a]
      | Some m =>
          match f_text m with
          | [] => [Some a]
          | _ :: _ =>
              Some (gap b m) :: map (grp m) (seq 1 ngroups)
                ++ split_from fuel' r ngroups (f_end m) (f_rest m)
          end
      end
  end.

Definition split (r : regex) (ngroups : nat) (s : text) : list (option text) :=
  split_from (S (length s)) r ngroups [] s.

(** [re.sub(r, repl, s)] for a replacement without back-references. *)
Fixpoint sub_from (fuel : nat) (r : regex) (repl : text) (b a : text) : text :=
  match fuel with
  | 0 => a
  | S fuel' =>
      match search_from r b a with
      | None => a
      | Some m =>
          gap b m ++ repl ++
          match f_text m, f_rest m with
          | _ :: _, _ => sub_from fuel' r repl (f_end m) (f_rest m)
          | [], [] => []
          | [], x :: a' => x :: sub_from fuel' r repl (x :: f_end m) a'
          end
      end
  end.

Definition sub (r : regex) (repl : text) (s : text) : text :=
  sub_from (S (length s)) r repl [] s.

(** *** Writing patterns down *)

Definition seqs (rs : list regex) : regex := fold_right Seq Eps rs.

(** A literal string. *)
Definition lit (s : string) : regex :=
  seqs (map (fun x => Cls (is_char x)) (str s)).

(** A literal string under [re.IGNORECASE]. *)
Definition lit_i (s : text) : regex :=
  seqs (map (fun x => Cls (is_char_i x)) s).

(** [r?] *)
Definition opt (r : regex) : regex := Alt r Eps.

(** [p+], [p*], [p{n}] and [p{lo,hi}]. *)
Definition plus (p : ascii -> bool) : regex := Rep p 1 None true.
Definition star (p : ascii -> bool) : regex := Rep p 0 None true.
Definition times (p : ascii -> bool) (n : nat) : regex := Rep p n (Some n) true.
Definition upto (p : ascii -> bool) (lo hi : nat) : regex :=
  Rep p lo (Some hi) true.

End Re.

(** ** Exceptions, [int] and number formatting *)

Inductive exn : Type :=
| ValueError
| TypeError
| IndexError
| AttributeError
| OverflowError.

Inductive result (A : Type) : Type :=
| Ok (a : A)
| Raise (e : exn).

Arguments Ok {A} a.
Arguments Raise {A} e.

Definition bind {A B : Type} (x : result A) (f : A -> result B) : result B :=
  match x with
  | Ok a => f a
  | Raise e => Raise e
  end.

Notation "x <- e1 ;; e2" := (bind e1 (fun x => e2))
  (at level 61, e1 at next level, right associativity).

Open Scope Z_scope.

Definition digit_val (c : ascii) : Z := Z.of_N (code c - 48).

Fixpoint int_acc (s : text) (acc : Z) : option Z :=
  match s with
  | [] => Some acc
  | c :: s' => if is_digit c then int_acc s' (10 * acc + digit_val c) else None
  end.

(** [int(s)] on a string of decimal digits, the only strings the decoders
    convert (every argument is a [\d] group of a match); anything else is
    the [ValueError] of Python. *)
Definition int (s : text) : result Z :=
  match s with
  | [] => Raise ValueError
  | _ :: _ => match int_acc s 0 with
              | Some z => Ok z
              | None => Raise ValueError
              end
  end.

(** [str(n)] and the [{n}] of an f-string. *)
Definition str_of_Z (n : Z) : text := str (NilZero.string_of_int (Z.to_int n)).

(** [{n:02d}] for [0 <= n]. *)
Definition fmt02 (n : Z) : text :=
  if n <? 10 then str "0" ++ str_of_Z n else str_of_Z n.

(** [{n:04d}] for [0 <= n]. *)
Definition fmt04 (n : Z) : text :=
  let d := str_of_Z n in repeat "0"%char (4 - length d) ++ d.

(** [{n:+d}]. *)
Definition fmt_signed (n : Z) : text :=
  if n <? 0 then str_of_Z n else str "+" ++ str_of_Z n.

(** ** Floating point *)

Definition float_of_Z (z : Z) : float := PrimFloat.of_uint63 (Uint63.of_Z z).

(** [int(x)] of a float: truncation toward zero; an infinity raises
    [OverflowError] and NaN raises [ValueError]. *)
Definition int_of_float (x : float) : result Z :=
  match Prim2SF x with
  | S754_zero _ => Ok 0
  | S754_finite s m e =>
      let v := if 0 <=? e then Z.shiftl (Zpos m) e else Z.shiftr (Zpos m) (- e) in
      Ok (if s then - v else v)
  | S754_infinity _ => Raise OverflowError
  | S754_nan => Raise ValueError
  end.

(** [{x:.1f}]: the decimal with one digit after the point nearest to the
    exact value of [x], ties to the even digit. *)
Definition fmt_1f (x : float) : text :=
  match Prim2SF x with
  | S754_zero s => (if s then str "-" else []) ++ str "0.0"
  | S754_finite s m e =>
      let num := if 0 <=? e then Z.shiftl (Zpos m) e * 10 else Zpos m * 10 in
      let den := if 0 <=? e then 1 else Z.shiftl 1 (- e) in
      let q := num / den in
      let r := num mod den in
      let t := if 2 * r <? den then q
               else if den <? 2 * r then q + 1
               else if Z.even q then q else q + 1 in
      (if s then str "-" else []) ++
      str_of_Z (t / 10) ++ str "." ++ str_of_Z (t mod 10)
  | S754_infinity s => (if s then str "-" else []) ++ str "inf"
  | S754_nan => str "nan"
  end.

(** ** Dictionaries *)

(** A [dict] with string keys and values, in insertion order. *)
Definition dict := list (text * text).

Fixpoint dict_set (d : dict) (k v : text) : dict :=
  match d with
  | [] => [(k, v)]
  | (k', v') :: d' =>
      if Py.text_eqb k' k then (k', v) :: d' else (k', v') :: dict_set d' k v
  end.

(** The dictionary a literal [{k1: v1, k2: v2, ...}] builds: a key written
    twice keeps its first place and its last value. *)
Definition dict_of (entries : list (text * text)) : dict :=
  fold_left (fun d kv => dict_set d (fst kv) (snd kv)) entries [].

(** [k in d] and [d[k]]. *)
Fixpoint dict_find (d : dict) (k : text) : option text :=
  match d with
  | [] => None
  | (k', v) :: d' => if Py.text_eqb k' k then Some v else dict_find d' k
  end.

(** [d.get(k, default)]. *)
Definition dict_get (d : dict) (k : text) (default : text) : text :=
  match dict_find d k with
  | Some v => v
  | None => default
  end.

(** * taf_decoder.py *)

(** ** Reference tables *)

Definition CLOUD_COVER : dict :=
  dict_of
    [(str "SKC", str "ясно");
     (str "CLR", str "ясно");
     (str "NSC", str "нет значимой облачности");
     (str "NCD", str "нет облаков (автоматическая станция)");
     (str "FEW", str "малооблачно (1-2 окты)");
     (str "SCT", str "рассеянная облачность (3-4 окты)");
     (str "BKN", str "значительная облачность (5-7 окт)");
     (str "OVC", str "сплошная облачность (8 окт)");
     (str "VV", str "вертикальная видимость")].

Definition CLOUD_TYPES : dict :=
  dict_of
    [(str "CB", str "кучево-дождевые (грозовые)");
     (str "TCU", str "мощно-кучевые");
     (str "CI", str "перистые");
     (str "CC", str "перисто-кучевые");
     (str "CS", str "перисто-слоистые");
     (str "AC", str "высоко-кучевые");
     (str "AS", str "высоко-слоистые");
     (str "NS", str "слоисто-дождевые");
     (str "SC", str "слоисто-кучевые");
     (str "ST", str "слоистые");
     (str "CU", str "кучевые")].

Definition WEATHER_PHENOMENA : dict :=
  dict_of
    [(str "-", str "слабая");
     (str "+", str "сильная");
     (str "VC", str "в окрестности");
     (str "MI", str "низкая");
     (str "BC", str "клочковатая");
     (str "PR", str "частичная");
     (str "DR", str "низовая");
     (str "BL", str "поземок");
     (str "SH", str "ливневая");
     (str "TS", str "гроза");
     (str "FZ", str "переохлажденная");
     (str "DZ", str "морось");
     (str "RA", str "дождь");
     (str "SN", str "снег");
     (str "SG", str "снежные зёрна");
     (str "IC", str "ледяные кристаллы");
     (str "PL", str "ледяная крупа");
     (str "GR", str "град");
     (str "GS", str "мелкий град");
     (str "UP", str "неопределённые осадки");
     (str "BR", str "дымка");
     (str "FG", str "туман");
     (str "FU", str "дым");
     (str "VA", str "вулканический пепел");
     (str "DU", str "пыль");
     (str "SA", str "песок");
     (str "HZ", str "мгла");
     (str "PY", str "водяные брызги");
     (str "PO", str "пыльные вихри");
     (str "SQ", str "шквал");
     (str "FC", str "воронкообразное облако/торнадо");
     (str "SS", str "песчаная буря");
     (str "DS", str "пыльная буря")].

(** ** The decoded record *)

Record issue_time : Type := {
  it_day : Z;
  it_hour : Z;
  it_minute : Z;
  it_text : text
}.

Record valid_period : Type := {
  from_day : Z;
  from_hour : Z;
  to_day : Z;
  to_hour : Z;
  vp_text : text
}.

(** The ['direction'] of a wind: [None] for calm, the word for variable, or
    the degrees. *)
Inductive wind_direction : Type :=
| NoDirection
| VariableDirection
| Degrees (d : Z).

Record wind : Type := {
  speed : Z;
  direction : wind_direction;
  direction_text : option text;
  gusts : option Z;
  w_text : text
}.

Record visibility : Type := {
  meters : Z;
  quality : option text;
  v_text : text
}.

Record phenomenon : Type := {
  wx_code : text;
  wx_text : text
}.

Record cloud : Type := {
  cover : text;
  cover_text : text;
  height_ft : Z;
  height_m : Z;
  cloud_type : option text;
  c_text : text
}.

Record temperature : Type := {
  t_type : text;
  t_value : Z;
  t_text : text
}.

Record change : Type := {
  indicator : text;
  indicator_text : text;
  ch_wind : option wind;
  ch_visibility : option visibility;
  ch_weather : list phenomenon;
  ch_clouds : list cloud
}.

(** [self.decoded]; [error] is the key the handler of [decode] adds. *)
Record decoded : Type := {
  raw : text;
  human_readable : text;
  station : option text;
  d_issue_time : option issue_time;
  d_valid_period : option valid_period;
  d_wind : option wind;
  d_visibility : option visibility;
  d_weather : list phenomenon;
  d_clouds : list cloud;
  d_temperature : option temperature;
  changes : list change;
  remarks : option text;
  error : option exn
}.

(** ** Field parsers *)

Module TAFDecoder.

(** [m.group(n)] handed to [int]. *)
Definition int_group (m : Re.found) (n : nat) : result Z :=
  match Re.grp m n with
  | Some w => int w
  | None => Raise TypeError
  end.

(** [int(m.group(n)) if m.group(n) else None]. *)
Definition int_group_opt (m : Re.found) (n : nat) : result (option Z) :=
  match Re.grp m n with
  | Some ((_ :: _) as w) => z <- int w ;; Ok (Some z)
  | _ => Ok None
  end.

(** The truth value of an optional integer: [if gusts]. *)
Definition truthy (g : option Z) : bool :=
  match g with
  | Some z => negb (z =? 0)
  | None => false
  end.

(** [int(v * 0.514)]. *)
Definition kt_to_mps (v : Z) : result Z :=
  int_of_float (PrimFloat.mul (float_of_Z v) 0.514).

(** [int(gusts * 0.514) if gusts else None]. *)
Definition gusts_to_mps (g : option Z) : result (option Z) :=
  match g with
  | Some z => if negb (z =? 0) then r <- kt_to_mps z ;; Ok (Some r) else Ok None
  | None => Ok None
  end.

(** [f', порывы до {gusts_mps} м/с' if gusts else '']. *)
Definition gust_text (g gusts_mps : option Z) : text :=
  if truthy g
  then str ", порывы до " ++
       match gusts_mps with Some z => str_of_Z z | None => str "None" end ++
       str " м/с"
  else [].

(** [VRB(\d{2,3})(G(\d{2,3}))?(KT|MPS)] *)
Definition vrb_re : Re.regex :=
  Re.seqs [Re.lit "VRB"; Re.Grp 1 (Re.upto is_digit 2 3);
           Re.opt (Re.Grp 2 (Re.Seq (Re.lit "G") (Re.Grp 3 (Re.upto is_digit 2 3))));
           Re.Grp 4 (Re.Alt (Re.lit "KT") (Re.lit "MPS"))].

(** [(\d{3})(\d{2,3})(G(\d{2,3}))?(KT|MPS)] *)
Definition wind_re : Re.regex :=
  Re.seqs [Re.Grp 1 (Re.times is_digit 3); Re.Grp 2 (Re.upto is_digit 2 3);
           Re.opt (Re.Grp 3 (Re.Seq (Re.lit "G") (Re.Grp 4 (Re.upto is_digit 2 3))));
           Re.Grp 5 (Re.Alt (Re.lit "KT") (Re.lit "MPS"))].

Definition directions : list text :=
  [str "С"; str "СВ"; str "В"; str "ЮВ"; str "Ю"; str "ЮЗ"; str "З"; str "СЗ"].

(** [int((direction + 22.5) / 45) % 8]. *)
Definition dir_idx (d : Z) : result Z :=
  q <- int_of_float
         (PrimFloat.div (PrimFloat.add (float_of_Z d) 22.5) (float_of_Z 45)) ;;
  Ok (q mod 8).

(** [directions[i]] for [0 <= i]. *)
Definition directions_at (i : Z) : result text :=
  match nth_error directions (Z.to_nat i) with
  | Some t => Ok t
  | None => Raise IndexError
  end.

Definition _parse_wind (t : text) : result (option wind) :=
  if Py.contains t (str "00000KT") || Py.contains t (str "00000MPS")
  then Ok (Some {| speed := 0; direction := NoDirection; direction_text := None;
                   gusts := None; w_text := str "🌬️ штиль" |})
  else
  match Re.search vrb_re t with
  | Some m =>
      v <- int_group m 1 ;;
      g <- int_group_opt m 3 ;;
      sg <- (if Py.text_eqb (match Re.grp m 4 with Some u => u | None => [] end)
                            (str "KT")
             then speed_mps <- kt_to_mps v ;;
                  gusts_mps <- gusts_to_mps g ;;
                  Ok (speed_mps, gusts_mps)
             else Ok (v, g)) ;;
      let '(speed_mps, gusts_mps) := sg in
      Ok (Some {| speed := speed_mps; direction := VariableDirection;
                  direction_text := None; gusts := gusts_mps;
                  w_text := str "🌬️ ветер переменного направления " ++
                            str_of_Z speed_mps ++ str " м/с" ++
                            gust_text g gusts_mps |})
  | None =>
  match Re.search wind_re t with
  | Some m =>
      d <- int_group m 1 ;;
      v <- int_group m 2 ;;
      g <- int_group_opt m 4 ;;
      sg <- (if Py.text_eqb (match Re.grp m 5 with Some u => u | None => [] end)
                            (str "KT")
             then speed_mps <- kt_to_mps v ;;
                  gusts_mps <- gusts_to_mps g ;;
                  Ok (speed_mps, gusts_mps)
             else Ok (v, g)) ;;
      let '(speed_mps, gusts_mps) := sg in
      i <- dir_idx d ;;
      dir_text <- directions_at i ;;
      Ok (Some {| speed := speed_mps; direction := Degrees d;
                  direction_text := Some dir_text; gusts := gusts_mps;
                  w_text := str "🌬️ ветер " ++ dir_text ++ str " (" ++
                            str_of_Z d ++ str "°) " ++ str_of_Z speed_mps ++
                            str " м/с" ++ gust_text g gusts_mps |})
  | None => Ok None
  end
  end.

(** [\s(\d{4})\s] *)
Definition vis_re : Re.regex :=
  Re.seqs [Re.Cls is_space; Re.Grp 1 (Re.times is_digit 4); Re.Cls is_space].

Definition cavok_text : text :=
  str "👁️ видимость более 10 км, без облачности ниже 1500м, без грозовых явлений (CAVOK)".

Definition vis_9999_text : text := str "👁️ видимость 10 км и более".

(** The quality tier of a visibility in metres. *)
Definition vis_quality (m : Z) : text :=
  if 5000 <=? m then str "хорошая"
  else if 3000 <=? m then str "средняя"
  else if 1000 <=? m then str "ограниченная"
  else str "плохая".

Definition _parse_visibility (t : text) : result (option visibility) :=
  if Py.contains t (str "CAVOK")
  then Ok (Some {| meters := 10000; quality := None; v_text := cavok_text |})
  else if Py.contains t (str "9999")
  then Ok (Some {| meters := 10000; quality := None; v_text := vis_9999_text |})
  else
  match Re.search vis_re t with
  | Some m =>
      mt <- int_group m 1 ;;
      let q := vis_quality mt in
      let txt :=
        if 1000 <=? mt
        then str "👁️ видимость " ++
             fmt_1f (PrimFloat.div (float_of_Z mt) (float_of_Z 1000)) ++
             str " км (" ++ q ++ str ")"
        else str "👁️ видимость " ++ str_of_Z mt ++ str " м (" ++ q ++ str ")" in
      Ok (Some {| meters := mt; quality := Some q; v_text := txt |})
  | None => Ok None
  end.

Definition _get_weather_emoji (code : text) : text :=
  if Py.contains code (str "TS") then str "⛈️"
  else if Py.contains code (str "RA") then str "🌧️"
  else if Py.contains code (str "SN") then str "❄️"
  else if Py.contains code (str "FG") then str "🌫️"
  else if Py.contains code (str "BR") then str "🌫️"
  else if Py.contains code (str "SH") then str "🌦️"
  else if Py.contains code (str "GR") || Py.contains code (str "GS") then str "🌨️"
  else str "☁️".

(** The [while] loop of [_decode_weather_code] on the suffix [code[i:]]:
    the window [code[i:i+2]] is looked up; a hit is appended and [i] moves
    by two, a miss moves [i] by one. *)
Fixpoint scan_phenomena (code : text) : list text :=
  match code with
  | [] => []
  | c1 :: rest =>
      match dict_find WEATHER_PHENOMENA (c1 :: firstn 1 rest) with
      | Some d => d :: match rest with
                       | [] => []
                       | _ :: rest' => scan_phenomena rest'
                       end
      | None => scan_phenomena rest
      end
  end.

(** The intensity prefix stripped by [_decode_weather_code]: its word and
    the rest of the code. *)
Definition strip_intensity (code : text) : list text * text :=
  if Py.startswith code (str "-") then ([str "слабый"], skipn 1 code)
  else if Py.startswith code (str "+") then ([str "сильный"], skipn 1 code)
  else if Py.startswith code (str "VC") then ([str "в окрестности"], skipn 2 code)
  else ([], code).

(** The list [parts] when the loop ends. *)
Definition weather_parts (code : text) : list text :=
  let '(parts, rest) := strip_intensity code in parts ++ scan_phenomena rest.

Definition _decode_weather_code (code : text) : option text :=
  let '(parts, rest) := strip_intensity code in
  match parts ++ scan_phenomena rest with
  | [] => None
  | ps => Some (_get_weather_emoji rest ++ str " " ++ Py.join (str " ") ps)
  end.

(** [(?:^|\s)([-+]|VC)?([A-Z]{2,6})(?=\s|$)] *)
Definition weather_re : Re.regex :=
  Re.seqs [Re.Alt Re.Bol (Re.Cls is_space);
           Re.opt (Re.Grp 1 (Re.Alt (Re.Cls (one_of "-+")) (Re.lit "VC")));
           Re.Grp 2 (Re.upto is_upper 2 6);
           Re.Ahead (Re.Alt (Re.Cls is_space) Re.Eol)].

Definition not_weather : list text :=
  [str "CAVOK"; str "NSC"; str "SKC"; str "CLR"; str "NCD"].

Definition cloud_prefixes : list text :=
  [str "FEW"; str "SCT"; str "BKN"; str "OVC"; str "VV"].

(** The body of the [for] loop of [_parse_weather] for one match. *)
Definition weather_of_match (m : Re.found) : list phenomenon :=
  let intensity := match Re.grp m 1 with Some w => w | None => [] end in
  let code := match Re.grp m 2 with Some w => w | None => [] end in
  if Py.mem code not_weather then []
  else if existsb (Py.startswith code) cloud_prefixes then []
  else match _decode_weather_code (intensity ++ code) with
       | Some ((_ :: _) as description) =>
           [{| wx_code := intensity ++ code; wx_text := description |}]
       | _ => []
       end.

Definition _parse_weather (t : text) : list phenomenon :=
  flat_map weather_of_match (Re.finditer weather_re t).

(** [(FEW|SCT|BKN|OVC|VV)(\d{3})(CB|TCU)?] *)
Definition cloud_re : Re.regex :=
  Re.seqs [Re.Grp 1 (Re.Alt (Re.lit "FEW") (Re.Alt (Re.lit "SCT")
             (Re.Alt (Re.lit "BKN") (Re.Alt (Re.lit "OVC") (Re.lit "VV")))));
           Re.Grp 2 (Re.times is_digit 3);
           Re.opt (Re.Grp 3 (Re.Alt (Re.lit "CB") (Re.lit "TCU")))].

(** [int(height_ft * 0.3048)]. *)
Definition ft_to_m (ft : Z) : result Z :=
  int_of_float (PrimFloat.mul (float_of_Z ft) 0.3048).

(** The body of the [for] loop of [_parse_clouds] for one match. *)
Definition cloud_of_match (m : Re.found) : result cloud :=
  let cv := match Re.grp m 1 with Some w => w | None => [] end in
  h <- int_group m 2 ;;
  let ft := h * 100 in
  mt <- ft_to_m ft ;;
  let cv_text := dict_get CLOUD_COVER cv cv in
  let ty := match Re.grp m 3 with Some ((_ :: _) as w) => Some w | _ => None end in
  let type_text := match ty with
                   | Some w => str ", " ++ dict_get CLOUD_TYPES w w
                   | None => []
                   end in
  Ok {| cover := cv; cover_text := cv_text; height_ft := ft; height_m := mt;
        cloud_type := Re.grp m 3;
        c_text := str "☁️ " ++ cv_text ++ str " на высоте " ++ str_of_Z mt ++
                  str "м (" ++ str_of_Z ft ++ str "фт)" ++ type_text |}.

Fixpoint collect {A B : Type} (f : A -> result B) (l : list A) : result (list B) :=
  match l with
  | [] => Ok []
  | x :: l' => y <- f x ;; ys <- collect f l' ;; Ok (y :: ys)
  end.

Definition _parse_clouds (t : text) : result (list cloud) :=
  collect cloud_of_match (Re.finditer cloud_re t).

(** [T([XN])M?(\d{2})/(\d{4})Z] *)
Definition temp_re : Re.regex :=
  Re.seqs [Re.lit "T"; Re.Grp 1 (Re.Cls (one_of "XN")); Re.opt (Re.lit "M");
           Re.Grp 2 (Re.times is_digit 2); Re.lit "/";
           Re.Grp 3 (Re.times is_digit 4); Re.lit "Z"].

Definition _parse_temperature (t : text) : result (option temperature) :=
  match Re.search temp_re t with
  | Some m =>
      let temp_type :=
        if Py.text_eqb (match Re.grp m 1 with Some w => w | None => [] end) (str "X")
        then str "максимальная" else str "минимальная" in
      v <- int_group m 2 ;;
      let temp := if Py.contains t (str "M") then - v else v in
      Ok (Some {| t_type := temp_type; t_value := temp;
                  t_text := str "🌡️ " ++ temp_type ++ str " температура " ++
                            fmt_signed temp ++ str "°C" |})
  | None => Ok None
  end.

Definition _decode_change_indicator (ind : text) : text :=
  if Py.startswith ind (str "FM") then
    let time := skipn 2 ind in
    str "С " ++ Py.slice time 0 2 ++ str " числа " ++ Py.slice time 2 4 ++
    str ":" ++ Py.slice time 4 6 ++ str " UTC"
  else if Py.startswith ind (str "PROB") then
    str "Вероятность " ++ Py.slice ind 4 6 ++ str "%"
  else if Py.text_eqb ind (str "TEMPO") then str "Временами"
  else if Py.text_eqb ind (str "BECMG") then str "Постепенное изменение"
  else ind.

(** ** The decoder object: state and exceptions *)

(** A method of [TAFDecoder] reads and updates [self.decoded] and may
    raise; the state reached when it raises is kept. *)
Definition M (A : Type) : Type := decoded -> decoded * result A.

Definition ret {A : Type} (a : A) : M A := fun d => (d, Ok a).

Definition mbind {A B : Type} (m : M A) (f : A -> M B) : M B :=
  fun d => match m d with
           | (d', Ok a) => f a d'
           | (d', Raise e) => (d', Raise e)
           end.

Definition lift {A : Type} (r : result A) : M A := fun d => (d, r).

Definition modify (f : decoded -> decoded) : M unit := fun d => (f d, Ok tt).

Definition get : M decoded := fun d => (d, Ok d).

Notation "x <~ e1 ;; e2" := (mbind e1 (fun x => e2))
  (at level 61, e1 at next level, right associativity).
Notation "e1 ;;; e2" := (mbind e1 (fun _ => e2))
  (at level 61, right associativity).

Definition set_station (v : option text) (d : decoded) : decoded :=
  {| raw := raw d; human_readable := human_readable d; station := v;
     d_issue_time := d_issue_time d; d_valid_period := d_valid_period d;
     d_wind := d_wind d; d_visibility := d_visibility d;
     d_weather := d_weather d; d_clouds := d_clouds d;
     d_temperature := d_temperature d; changes := changes d;
     remarks := remarks d; error := error d |}.

Definition set_issue_time (v : option issue_time) (d : decoded) : decoded :=
  {| raw := raw d; human_readable := human_readable d; station := station d;
     d_issue_time := v; d_valid_period := d_valid_period d;
     d_wind := d_wind d; d_visibility := d_visibility d;
     d_weather := d_weather d; d_clouds := d_clouds d;
     d_temperature := d_temperature d; changes := changes d;
     remarks := remarks d; error := error d |}.

Definition set_valid_period (v : option valid_period) (d : decoded) : decoded :=
  {| raw := raw d; human_readable := human_readable d; station := station d;
     d_issue_time := d_issue_time d; d_valid_period := v;
     d_wind := d_wind d; d_visibility := d_visibility d;
     d_weather := d_weather d; d_clouds := d_clouds d;
     d_temperature := d_temperature d; changes := changes d;
     remarks := remarks d; error := error d |}.

Definition set_wind (v : option wind) (d : decoded) : decoded :=
  {| raw := raw d; human_readable := human_readable d; station := station d;
     d_issue_time := d_issue_time d; d_valid_period := d_valid_period d;
     d_wind := v; d_visibility := d_visibility d;
     d_weather := d_weather d; d_clouds := d_clouds d;
     d_temperature := d_temperature d; changes := changes d;
     remarks := remarks d; error := error d |}.

Definition set_visibility (v : option visibility) (d : decoded) : decoded :=
  {| raw := raw d; human_readable := human_readable d; station := station d;
     d_issue_time := d_issue_time d; d_valid_period := d_valid_period d;
     d_wind := d_wind d; d_visibility := v;
     d_weather := d_weather d; d_clouds := d_clouds d;
     d_temperature := d_temperature d; changes := changes d;
     remarks := remarks d; error := error d |}.

Definition set_weather (v : list phenomenon) (d : decoded) : decoded :=
  {| raw := raw d; human_readable := human_readable d; station := station d;
     d_issue_time := d_issue_time d; d_valid_period := d_valid_period d;
     d_wind := d_wind d; d_visibility := d_visibility d;
     d_weather := v; d_clouds := d_clouds d;
     d_temperature := d_temperature d; changes := changes d;
     remarks := remarks d; error := error d |}.

Definition set_clouds (v : list cloud) (d : decoded) : decoded :=
  {| raw := raw d; human_readable := human_readable d; station := station d;
     d_issue_time := d_issue_time d; d_valid_period := d_valid_period d;
     d_wind := d_wind d; d_visibility := d_visibility d;
     d_weather := d_weather d; d_clouds := v;
     d_temperature := d_temperature d; changes := changes d;
     remarks := remarks d; error := error d |}.

Definition set_temperature (v : option temperature) (d : decoded) : decoded :=
  {| raw := raw d; human_readable := human_readable d; station := station d;
     d_issue_time := d_issue_time d; d_valid_period := d_valid_period d;
     d_wind := d_wind d; d_visibility := d_visibility d;
     d_weather := d_weather d; d_clouds := d_clouds d;
     d_temperature := v; changes := changes d;
     remarks := remarks d; error := error d |}.

Definition set_changes (v : list change) (d : decoded) : decoded :=
  {| raw := raw d; human_readable := human_readable d; station := station d;
     d_issue_time := d_issue_time d; d_valid_period := d_valid_period d;
     d_wind := d_wind d; d_visibility := d_visibility d;
     d_weather := d_weather d; d_clouds := d_clouds d;
     d_temperature := d_temperature d; changes := v;
     remarks := remarks d; error := error d |}.

Definition set_human_readable (v : text) (d : decoded) : decoded :=
  {| raw := raw d; human_readable := v; station := station d;
     d_issue_time := d_issue_time d; d_valid_period := d_valid_period d;
     d_wind := d_wind d; d_visibility := d_visibility d;
     d_weather := d_weather d; d_clouds := d_clouds d;
     d_temperature := d_temperature d; changes := changes d;
     remarks := remarks d; error := error d |}.

Definition set_error (v : option exn) (d : decoded) : decoded :=
  {| raw := raw d; human_readable := human_readable d; station := station d;
     d_issue_time := d_issue_time d; d_valid_period := d_valid_period d;
     d_wind := d_wind d; d_visibility := d_visibility d;
     d_weather := d_weather d; d_clouds := d_clouds d;
     d_temperature := d_temperature d; changes := changes d;
     remarks := remarks d; error := v |}.

(** [TAF\s+(?:AMD\s+|COR\s+)?([A-Z]{4})] *)
Definition station_re : Re.regex :=
  Re.seqs [Re.lit "TAF"; Re.plus is_space;
           Re.opt (Re.Alt (Re.Seq (Re.lit "AMD") (Re.plus is_space))
                          (Re.Seq (Re.lit "COR") (Re.plus is_space)));
           Re.Grp 1 (Re.times is_upper 4)].

(** [[0-3]\d], [[0-2]\d] and [[0-5]\d] *)
Definition two_digits (hi : N) : Re.regex :=
  Re.Seq (Re.Cls (between 48 hi)) (Re.Cls is_digit).

(** [([0-3]\d)([0-2]\d)([0-5]\d)Z] *)
Definition issue_re : Re.regex :=
  Re.seqs [Re.Grp 1 (two_digits 51); Re.Grp 2 (two_digits 50);
           Re.Grp 3 (two_digits 53); Re.lit "Z"].

(** [([0-3]\d)([0-2]\d)/([0-3]\d)([0-2]\d)] *)
Definition valid_re : Re.regex :=
  Re.seqs [Re.Grp 1 (two_digits 51); Re.Grp 2 (two_digits 50); Re.lit "/";
           Re.Grp 3 (two_digits 51); Re.Grp 4 (two_digits 50)].

Definition _parse_header (taf : text) : M unit :=
  match Re.search station_re taf with
  | Some m => modify (set_station (Re.grp m 1))
  | None => ret tt
  end ;;;
  match Re.search issue_re taf with
  | Some m =>
      day <~ lift (int_group m 1) ;;
      hour <~ lift (int_group m 2) ;;
      minute <~ lift (int_group m 3) ;;
      modify (set_issue_time (Some
        {| it_day := day; it_hour := hour; it_minute := minute;
           it_text := fmt02 day ++ str " число, " ++ fmt02 hour ++ str ":" ++
                      fmt02 minute ++ str " UTC" |}))
  | None => ret tt
  end ;;;
  match Re.search valid_re taf with
  | Some m =>
      fd <~ lift (int_group m 1) ;;
      fh <~ lift (int_group m 2) ;;
      td <~ lift (int_group m 3) ;;
      th <~ lift (int_group m 4) ;;
      modify (set_valid_period (Some
        {| from_day := fd; from_hour := fh; to_day := td; to_hour := th;
           vp_text := str "с " ++ fmt02 fd ++ str " числа " ++ fmt02 fh ++
                      str ":00 до " ++ fmt02 td ++ str " числа " ++ fmt02 th ++
                      str ":00 UTC" |}))
  | None => ret tt
  end.

(** [\s+(FM|TEMPO|BECMG|PROB)] *)
Definition main_split_re : Re.regex :=
  Re.Seq (Re.plus is_space)
         (Re.Grp 1 (Re.Alt (Re.lit "FM") (Re.Alt (Re.lit "TEMPO")
                      (Re.Alt (Re.lit "BECMG") (Re.lit "PROB"))))).

(** [re.split(...)[0]]. *)
Definition main_part (taf : text) : result text :=
  match Re.split main_split_re 1 taf with
  | Some p :: _ => Ok p
  | None :: _ => Raise TypeError
  | [] => Raise IndexError
  end.

Definition _parse_main_forecast (taf : text) : M unit :=
  part <~ lift (main_part taf) ;;
  w <~ lift (_parse_wind part) ;;
  modify (set_wind w) ;;;
  v <~ lift (_parse_visibility part) ;;
  modify (set_visibility v) ;;;
  modify (set_weather (_parse_weather part)) ;;;
  c <~ lift (_parse_clouds part) ;;
  modify (set_clouds c) ;;;
  t <~ lift (_parse_temperature part) ;;
  modify (set_temperature t).

(** [\s+(FM\d{6}|TEMPO|BECMG|PROB\d{2}\s+TEMPO|PROB\d{2})] *)
Definition change_split_re : Re.regex :=
  Re.Seq (Re.plus is_space)
    (Re.Grp 1
       (Re.Alt (Re.Seq (Re.lit "FM") (Re.times is_digit 6))
       (Re.Alt (Re.lit "TEMPO")
       (Re.Alt (Re.lit "BECMG")
       (Re.Alt (Re.seqs [Re.lit "PROB"; Re.times is_digit 2; Re.plus is_space;
                         Re.lit "TEMPO"])
               (Re.Seq (Re.lit "PROB") (Re.times is_digit 2))))))).

(** [s.strip()] of an entry of the list [re.split] returns. *)
Definition strip_part (p : option text) : result text :=
  match p with
  | Some s => Ok (Py.strip s)
  | None => Raise AttributeError
  end.

(** The [for i in range(1, len(parts), 2)] loop of [_parse_changes] on
    [parts[i:]]. *)
Fixpoint changes_of (parts : list (option text)) : result (list change) :=
  match parts with
  | p_ind :: p_content :: rest =>
      ind <- strip_part p_ind ;;
      content <- strip_part p_content ;;
      w <- _parse_wind content ;;
      v <- _parse_visibility content ;;
      c <- _parse_clouds content ;;
      let ch := {| indicator := ind;
                   indicator_text := _decode_change_indicator ind;
                   ch_wind := w; ch_visibility := v;
                   ch_weather := _parse_weather content; ch_clouds := c |} in
      more <- changes_of rest ;;
      Ok (ch :: more)
  | _ => Ok []
  end.

Definition _parse_changes (taf : text) : M unit :=
  cs <~ lift (changes_of (tl (Re.split change_split_re 1 taf))) ;;
  modify (set_changes cs).

Definition rule : text := str "━━━━━━━━━━━━━━━━━━━━━━━━━━━━━━━━━━━━━━━━━━━━━━".

Definition opt_line {A : Type} (o : option A) (f : A -> text) : list text :=
  match o with
  | Some x => [f x]
  | None => []
  end.

Definition change_lines (ch : change) : list text :=
  [[]; str "▸ " ++ indicator_text ch ++ str ":"]
  ++ opt_line (ch_wind ch) (fun w => str "  " ++ w_text w)
  ++ opt_line (ch_visibility ch) (fun v => str "  " ++ v_text v)
  ++ map (fun wx => str "  " ++ wx_text wx) (ch_weather ch)
  ++ map (fun c => str "  " ++ c_text c) (ch_clouds ch).

Definition human_lines (d : decoded) : list text :=
  opt_line (station d) (fun s => str "📍 АЭРОДРОМ: " ++ s)
  ++ opt_line (d_issue_time d) (fun t => str "📅 Выпущен: " ++ it_text t)
  ++ opt_line (d_valid_period d) (fun p => str "⏰ Действителен: " ++ vp_text p)
  ++ [[]; rule; str "🌤️  ОСНОВНОЙ ПРОГНОЗ"; rule; []]
  ++ opt_line (d_wind d) w_text
  ++ opt_line (d_visibility d) v_text
  ++ map wx_text (d_weather d)
  ++ match d_clouds d with
     | _ :: _ => map c_text (d_clouds d)
     | [] => match d_visibility d with
             | Some v => if 10000 <=? meters v
                         then [str "☁️ без значимой облачности"] else []
             | None => []
             end
     end
  ++ opt_line (d_temperature d) t_text
  ++ match changes d with
     | _ :: _ => [[]; rule; str "🔄 ОЖИДАЕМЫЕ ИЗМЕНЕНИЯ"; rule]
                 ++ flat_map change_lines (changes d)
     | [] => []
     end.

Definition newline : text := [ascii_of_N 10].

Definition _generate_human_text : M unit :=
  d <~ get ;;
  modify (set_human_readable (Py.join newline (human_lines d))).

(** [self.decoded] as [decode] first sets it. *)
Definition initial (raw_taf : text) : decoded :=
  {| raw := raw_taf; human_readable := []; station := None;
     d_issue_time := None; d_valid_period := None; d_wind := None;
     d_visibility := None; d_weather := []; d_clouds := [];
     d_temperature := None; changes := []; remarks := None; error := None |}.

(** The body of the [try] block of [decode]. *)
Definition decode_body (raw_taf : text) : M unit :=
  let taf := Py.join (str " ") (Py.split_ws raw_taf) in
  _parse_header taf ;;;
  _parse_main_forecast taf ;;;
  _parse_changes taf ;;;
  _generate_human_text.

(** [TAFDecoder.decode]: an exception raised in the body is caught and
    recorded under the key ['error']. *)
Definition decode (taf_text : text) : decoded :=
  let raw_taf := Py.strip taf_text in
  match decode_body raw_taf (initial raw_taf) with
  | (d, Ok _) => d
  | (d, Raise e) => set_error (Some e) d
  end.

End TAFDecoder.

(** [decode_taf_text]: the text under ['human_readable'] of the record a
    new decoder returns. *)
Definition decode_taf_text (taf_text : text) : text :=
  human_readable (TAFDecoder.decode taf_text).

(** * collect_notam.py: the extraction of the fields of a raw NOTAM *)

(** The ['q_data'] dictionary when the Q-line matched. *)
Record q_data : Type := {
  fir : text;
  q_code_ : text;
  traffic : text;
  purpose : text;
  scope : text;
  lower : text;
  upper : text;
  coordinates : text;
  radius : option text
}.

(** The dictionary [_parse_raw_notam] returns. *)
Record notam : Type := {
  notam_id : text;
  notam_type : text;
  q_code : option text;
  location : option text;
  valid_from : option text;
  valid_to : option text;
  is_permanent : bool;
  schedule : option text;
  description_raw : option text;
  lower_limit : option text;
  upper_limit : option text;
  q_data_ : option q_data;
  notam_raw : text
}.

Module NOTAMCollector.

(** *** [datetime] *)

Definition is_leap (y : Z) : bool :=
  (y mod 4 =? 0) && (negb (y mod 100 =? 0) || (y mod 400 =? 0)).

Definition days_in_month (y m : Z) : Z :=
  if m =? 2 then (if is_leap y then 29 else 28)
  else if (m =? 4) || (m =? 6) || (m =? 9) || (m =? 11) then 30
  else 31.

Definition in_range (lo x hi : Z) : bool := (lo <=? x) && (x <=? hi).

(** The checks of the constructor [datetime(year, month, day, hour, minute)]. *)
Definition datetime_ok (y mo d h mi : Z) : bool :=
  in_range 1 y 9999 && in_range 1 mo 12 && in_range 1 d (days_in_month y mo)
  && in_range 0 h 23 && in_range 0 mi 59.

(** [datetime(y, mo, d, h, mi).isoformat() + 'Z']; the constructor raises
    [ValueError] on a field out of range. *)
Definition isoformat_z (y mo d h mi : Z) : result text :=
  if datetime_ok y mo d h mi
  then Ok (fmt04 y ++ str "-" ++ fmt02 mo ++ str "-" ++ fmt02 d ++ str "T" ++
           fmt02 h ++ str ":" ++ fmt02 mi ++ str ":00" ++ str "Z")
  else Raise ValueError.

(** The century rule for a two-digit year; [now_year] is
    [datetime.now().year]. *)
Definition century (now_year yy : Z) : Z :=
  let current_year := now_year mod 100 in
  if current_year + 5 <? yy then 1900 + yy else 2000 + yy.

(** The body of the [try] block of [_parse_notam_datetime]; [None] when
    neither branch is taken. *)
Definition datetime_body (now_year : Z) (dt_str : text)
  : result (option text) :=
  if (length dt_str =? 10)%nat then
    yy <- int (Py.slice dt_str 0 2) ;;
    let year := century now_year yy in
    month <- int (Py.slice dt_str 2 4) ;;
    day <- int (Py.slice dt_str 4 6) ;;
    hour <- int (Py.slice dt_str 6 8) ;;
    minute <- int (Py.slice dt_str 8 10) ;;
    iso <- isoformat_z year month day hour minute ;;
    Ok (Some iso)
  else if (length dt_str =? 12)%nat then
    year <- int (Py.slice dt_str 0 4) ;;
    month <- int (Py.slice dt_str 4 6) ;;
    day <- int (Py.slice dt_str 6 8) ;;
    hour <- int (Py.slice dt_str 8 10) ;;
    minute <- int (Py.slice dt_str 10 12) ;;
    iso <- isoformat_z year month day hour minute ;;
    Ok (Some iso)
  else Ok None.

(** [except Exception: pass] and the final [return None]. *)
Definition _parse_notam_datetime (now_year : Z) (dt_str : text) : option text :=
  match datetime_body now_year dt_str with
  | Ok r => r
  | Raise _ => None
  end.

(** *** The field patterns *)

(** [([A-Z]\d{4}/\d{2})\s+NOTAM([NRC])] *)
Definition id_re : Re.regex :=
  Re.seqs [Re.Grp 1 (Re.seqs [Re.Cls is_upper; Re.times is_digit 4; Re.lit "/";
                              Re.times is_digit 2]);
           Re.plus is_space; Re.lit "NOTAM"; Re.Grp 2 (Re.Cls (one_of "NRC"))].

(** [Q\)\s*([A-Z]{4})/(Q[A-Z]{4})/([IV]{1,2})/([A-Z]+)/([AEW]+)/(\d{3})/(\d{3})/(\d{4}[NS]\d{5}[EW])(\d{3})?] *)
Definition q_re : Re.regex :=
  Re.seqs [Re.lit "Q)"; Re.star is_space;
           Re.Grp 1 (Re.times is_upper 4); Re.lit "/";
           Re.Grp 2 (Re.Seq (Re.lit "Q") (Re.times is_upper 4)); Re.lit "/";
           Re.Grp 3 (Re.upto (one_of "IV") 1 2); Re.lit "/";
           Re.Grp 4 (Re.plus is_upper); Re.lit "/";
           Re.Grp 5 (Re.plus (one_of "AEW")); Re.lit "/";
           Re.Grp 6 (Re.times is_digit 3); Re.lit "/";
           Re.Grp 7 (Re.times is_digit 3); Re.lit "/";
           Re.Grp 8 (Re.seqs [Re.times is_digit 4; Re.Cls (one_of "NS");
                              Re.times is_digit 5; Re.Cls (one_of "EW")]);
           Re.opt (Re.Grp 9 (Re.times is_digit 3))].

(** [A\)\s*([A-Z]{4})] *)
Definition a_re : Re.regex :=
  Re.seqs [Re.lit "A)"; Re.star is_space; Re.Grp 1 (Re.times is_upper 4)].

(** [B\)\s*(\d{10,12})] *)
Definition b_re : Re.regex :=
  Re.seqs [Re.lit "B)"; Re.star is_space; Re.Grp 1 (Re.upto is_digit 10 12)].

(** [C\)\s*(\d{10,12}|PERM|EST)] *)
Definition c_re : Re.regex :=
  Re.seqs [Re.lit "C)"; Re.star is_space;
           Re.Grp 1 (Re.Alt (Re.upto is_digit 10 12)
                            (Re.Alt (Re.lit "PERM") (Re.lit "EST")))].

(** [X\)\s*([^\n]+)] for the fields D, F and G. *)
Definition line_re (letter : string) : Re.regex :=
  Re.seqs [Re.lit letter; Re.lit ")"; Re.star is_space;
           Re.Grp 1 (Re.plus not_newline)].

(** [E\)\s*(.+?)(?=\s*[FG]\)|$)] with [re.DOTALL] *)
Definition e_re : Re.regex :=
  Re.seqs [Re.lit "E)"; Re.star is_space;
           Re.Grp 1 (Re.Rep any_char 1 None false);
           Re.Ahead (Re.Alt (Re.seqs [Re.star is_space; Re.Cls (one_of "FG");
                                      Re.lit ")"])
                            Re.Eol)].

(** [m.group(n)] for a group that takes part in every match of its
    pattern.  A missing group, which Python would hand on as [None], has no
    place in a field of type [text] and is reported as an exception. *)
Definition group_str (m : Re.found) (n : nat) : result text :=
  match Re.grp m n with
  | Some w => Ok w
  | None => Raise AttributeError
  end.

(** [m.group(1).strip() if m else None]. *)
Definition stripped_group (m : option Re.found) : result (option text) :=
  match m with
  | Some f => w <- group_str f 1 ;; Ok (Some (Py.strip w))
  | None => Ok None
  end.

(** The Q-line of [text], [{}] being [None]. *)
Definition parse_q (t : text) : result (option q_data) :=
  match Re.search q_re t with
  | Some m =>
      g1 <- group_str m 1 ;; g2 <- group_str m 2 ;; g3 <- group_str m 3 ;;
      g4 <- group_str m 4 ;; g5 <- group_str m 5 ;; g6 <- group_str m 6 ;;
      g7 <- group_str m 7 ;; g8 <- group_str m 8 ;;
      Ok (Some {| fir := g1; q_code_ := g2; traffic := g3; purpose := g4;
                  scope := g5; lower := g6; upper := g7; coordinates := g8;
                  radius := match Re.grp m 9 with
                            | Some ((_ :: _) as w) => Some w
                            | _ => None
                            end |})
  | None => Ok None
  end.

(** The C) field: [valid_to] and [is_permanent]. *)
Definition parse_c (now_year : Z) (t : text) : result (option text * bool) :=
  match Re.search c_re t with
  | Some m =>
      c_value <- group_str m 1 ;;
      if Py.text_eqb c_value (str "PERM") then Ok (None, true)
      else if Py.text_eqb c_value (str "EST") then Ok (Some (str "EST"), false)
      else Ok (_parse_notam_datetime now_year c_value, false)
  | None => Ok (None, false)
  end.

(** The body of the [try] block of [_parse_raw_notam]. *)
Definition raw_notam_body (now_year : Z) (t : text) : result (option notam) :=
  match Re.search id_re t with
  | None => Ok None
  | Some id_match =>
      id_ <- group_str id_match 1 ;;
      ty <- group_str id_match 2 ;;
      q <- parse_q t ;;
      loc <- match Re.search a_re t with
             | Some m => w <- group_str m 1 ;; Ok (Some w)
             | None => Ok (option_map fir q)
             end ;;
      vf <- match Re.search b_re t with
            | Some m => w <- group_str m 1 ;;
                        Ok (_parse_notam_datetime now_year w)
            | None => Ok None
            end ;;
      c <- parse_c now_year t ;;
      sch <- stripped_group (Re.search (line_re "D") t) ;;
      descr <- stripped_group (Re.search e_re t) ;;
      lo <- stripped_group (Re.search (line_re "F") t) ;;
      up <- stripped_group (Re.search (line_re "G") t) ;;
      Ok (Some {| notam_id := id_; notam_type := ty;
                  q_code := option_map q_code_ q; location := loc;
                  valid_from := vf; valid_to := fst c; is_permanent := snd c;
                  schedule := sch; description_raw := descr;
                  lower_limit := lo; upper_limit := up; q_data_ := q;
                  notam_raw := Py.strip t |})
  end.

(** [_parse_raw_notam]: [except Exception] prints and returns [None]. *)
Definition _parse_raw_notam (now_year : Z) (t : text) : option notam :=
  match raw_notam_body now_year t with
  | Ok r => r
  | Raise _ => None
  end.

(** *** [_is_notam_text] *)

(** [[A-Z]\d{4}/\d{2}\s+NOTAM], [Q\)\s*[A-Z]{4}/Q[A-Z]{4}] and
    [A\)\s*UA[A-Z]{2}] *)
Definition markers : list Re.regex :=
  [Re.seqs [Re.Cls is_upper; Re.times is_digit 4; Re.lit "/";
            Re.times is_digit 2; Re.plus is_space; Re.lit "NOTAM"];
   Re.seqs [Re.lit "Q)"; Re.star is_space; Re.times is_upper 4; Re.lit "/Q";
            Re.times is_upper 4];
   Re.seqs [Re.lit "A)"; Re.star is_space; Re.lit "UA"; Re.times is_upper 2]].

Definition _is_notam_text (t : text) : bool :=
  existsb (fun marker => match Re.search marker t with
                         | Some _ => true
                         | None => false
                         end) markers.

(** *** The fourth attempt of [_extract_notam_blocks] *)

(** [([A-Z]\d{4}/\d{2}\s+NOTAM[NRC].*?)(?=[A-Z]\d{4}/\d{2}\s+NOTAM|$)] with
    [re.DOTALL] *)
Definition notam_pattern : Re.regex :=
  Re.Seq
    (Re.Grp 1 (Re.seqs [Re.Cls is_upper; Re.times is_digit 4; Re.lit "/";
                        Re.times is_digit 2; Re.plus is_space; Re.lit "NOTAM";
                        Re.Cls (one_of "NRC"); Re.Rep any_char 0 None false]))
    (Re.Ahead (Re.Alt (Re.seqs [Re.Cls is_upper; Re.times is_digit 4; Re.lit "/";
                                Re.times is_digit 2; Re.plus is_space;
                                Re.lit "NOTAM"])
                      Re.Eol)).

(** The blocks the full-text search appends, [match.group(1)] for every
    match in [full_text]. *)
Definition full_text_blocks (full_text : text) : list (option text) :=
  map (fun m => Re.grp m 1) (Re.finditer notam_pattern full_text).

End NOTAMCollector.

(** * notam_decoder.py *)

(** ** Reference tables *)

Definition Q_CODES : dict :=
  dict_of
    [(str "QFALC", str "аэродром закрыт");
     (str "QFALT", str "альтернативный аэродром доступен");
     (str "QFAXX", str "аэродром: прочее");
     (str "QMRLC", str "ВПП закрыта");
     (str "QMRLT", str "ВПП частично закрыта");
     (str "QMRXX", str "ВПП: прочее");
     (str "QMRAS", str "ВПП: длина сокращена");
     (str "QMRCC", str "ВПП: состояние покрытия изменено");
     (str "QMXLC", str "рулёжная дорожка закрыта");
     (str "QMXLT", str "рулёжная дорожка частично закрыта");
     (str "QMXXX", str "рулёжная дорожка: прочее");
     (str "QMALC", str "перрон закрыт");
     (str "QMALT", str "перрон частично закрыт");
     (str "QMAXX", str "перрон: прочее");
     (str "QMGXX", str "огни аэродрома: прочее");
     (str "QMGLU", str "огни ВПП не работают");
     (str "QMGLT", str "огни рулёжных дорожек не работают");
     (str "QMGLA", str "огни перрона не работают");
     (str "QNIAS", str "ILS не работает");
     (str "QNIAT", str "ILS ограничено работает");
     (str "QNIXX", str "ILS: прочее");
     (str "QNVXX", str "VOR: прочее");
     (str "QNVAU", str "VOR не работает");
     (str "QNDXX", str "DME: прочее");
     (str "QNDAU", str "DME не работает");
     (str "QNNXX", str "NDB: прочее");
     (str "QNNAU", str "NDB не работает");
     (str "QRRCA", str "ограничение воздушного пространства активно");
     (str "QRRCT", str "временное ограничение воздушного пространства");
     (str "QRPCA", str "запретная зона активна");
     (str "QRDCA", str "опасная зона активна");
     (str "QRTCA", str "временная зона активна");
     (str "QRAXX", str "воздушное пространство: прочее");
     (str "QOBXX", str "препятствие: прочее");
     (str "QOBCE", str "препятствие установлено");
     (str "QOBCL", str "препятствие освещено");
     (str "QFAXX", str "средства связи: прочее");
     (str "QFPXX", str "процедуры полётов: прочее");
     (str "QWFXX", str "прогноз погоды: прочее");
     (str "QWEAU", str "метеостанция не работает");
     (str "QSAXX", str "аэронавигационное обслуживание: прочее");
     (str "QSXXX", str "службы: прочее");
     (str "QSFAU", str "топливо недоступно");
     (str "QSUAS", str "поисково-спасательная служба: прочее");
     (str "QSGAS", str "обслуживание наземной техникой ограничено");
     (str "QXXXX", str "прочее")].

Definition ABBREVIATIONS : dict :=
  dict_of
    [(str "RWY", str "ВПП");
     (str "TWY", str "рулёжная дорожка");
     (str "APRON", str "перрон");
     (str "TERMINAL", str "терминал");
     (str "PARKING", str "стоянка");
     (str "CLSD", str "закрыт");
     (str "CLOSED", str "закрыт");
     (str "OPEN", str "открыт");
     (str "AVBL", str "доступен");
     (str "AVAILABLE", str "доступен");
     (str "U/S", str "не работает");
     (str "UNSERVICEABLE", str "не работает");
     (str "OPS", str "эксплуатация");
     (str "OPR", str "работает");
     (str "OPERATIONAL", str "в работе");
     (str "MAINT", str "техобслуживание");
     (str "MAINTENANCE", str "техобслуживание");
     (str "WIP", str "строительные работы");
     (str "WORK IN PROGRESS", str "строительные работы");
     (str "CONST", str "строительство");
     (str "CONSTRUCTION", str "строительство");
     (str "REPAIR", str "ремонт");
     (str "INSP", str "инспекция");
     (str "INSPECTION", str "инспекция");
     (str "ILS", str "система инструментальной посадки");
     (str "VOR", str "всенаправленный радиомаяк");
     (str "DME", str "дальномерное оборудование");
     (str "NDB", str "ненаправленный радиомаяк");
     (str "PAPI", str "индикатор глиссады");
     (str "VASIS", str "визуальная система захода на посадку");
     (str "LGT", str "огни");
     (str "LIGHTS", str "огни");
     (str "ALS", str "огни захода на посадку");
     (str "EDGE", str "кромочные огни");
     (str "CL", str "осевые огни");
     (str "CENTERLINE", str "осевые огни");
     (str "SFC", str "поверхность");
     (str "GND", str "земля");
     (str "AGL", str "над уровнем земли");
     (str "AMSL", str "над уровнем моря");
     (str "FT", str "футов");
     (str "FL", str "эшелон");
     (str "DAILY", str "ежедневно");
     (str "MON", str "понедельник");
     (str "TUE", str "вторник");
     (str "WED", str "среда");
     (str "THU", str "четверг");
     (str "FRI", str "пятница");
     (str "SAT", str "суббота");
     (str "SUN", str "воскресенье");
     (str "UTC", str "всемирное время");
     (str "PERM", str "постоянно");
     (str "TEMPO", str "временно");
     (str "INFO", str "информация");
     (str "ADZ", str "зона аэродрома");
     (str "CTR", str "диспетчерская зона");
     (str "FIR", str "район полётной информации");
     (str "TMA", str "диспетчерский район");
     (str "FREQ", str "частота");
     (str "ATIS", str "автоматическая информация")].

(** The names of [AIRPORTS] of [collect_notam.py], which
    [_get_location_name] imports. *)
Definition AIRPORTS : dict :=
  dict_of
    [(str "UAAA", str "Алматы (Almaty)");
     (str "UAAT", str "Талдыкорган (Taldykorgan)");
     (str "UACC", str "Астана (Nursultan Nazarbayev)");
     (str "UATT", str "Актобе (Aktobe)");
     (str "UATG", str "Атырау (Atyrau)");
     (str "UARR", str "Уральск (Oral/Uralsk)");
     (str "UAKK", str "Караганда (Sary-Arka)");
     (str "UAAH", str "Балхаш (Balkhash)");
     (str "UAUU", str "Костанай (Kostanay)");
     (str "UAOO", str "Кызылорда (Kyzylorda)");
     (str "UAOL", str "Байконур (Baikonur)");
     (str "UATE", str "Актау (Aktau)");
     (str "UASP", str "Павлодар (Pavlodar)");
     (str "UACP", str "Петропавловск (Petropavlovsk)");
     (str "UAII", str "Шымкент (Shymkent)");
     (str "UATA", str "Туркестан (Turkistan)");
     (str "UASK", str "Усть-Каменогорск (Oskemen)");
     (str "UASB", str "Семей (Semey)")].

(** The dictionary [NOTAMDecoder.decode] returns, without the rendering
    ['human_readable']. *)
Record decoded_notam : Type := {
  dn_id : text;
  dn_type : text;
  type_text : text;
  severity : option text;
  severity_emoji : option text;
  dn_q_code : option text;
  q_decoded : option text;
  dn_location : option text;
  location_name : option text;
  dn_valid_from : option text;
  dn_valid_to : option text;
  dn_is_permanent : bool;
  dn_schedule : option text;
  dn_description_raw : option text;
  description_decoded : option text;
  dn_lower_limit : option text;
  dn_upper_limit : option text;
  dn_raw : text
}.

Module NOTAMDecoder.

Definition _decode_type (notam_type : text) : text :=
  dict_get (dict_of [(str "N", str "новый"); (str "R", str "замена");
                     (str "C", str "отмена")])
           notam_type notam_type.

Definition critical_patterns : list text :=
  [str "QFALC"; str "QMRLC"; str "QMXLC"; str "QNIAS"].

Definition warning_patterns : list text :=
  [str "QMRLT"; str "QMALC"; str "QMGLU"; str "QRRCA"; str "QOBXX"].

Definition _classify_severity (q : text) : text :=
  if Py.mem q critical_patterns then str "critical"
  else if existsb (fun pattern => Py.startswith q (firstn 4 pattern))
                  warning_patterns
  then str "warning"
  else str "info".

Definition _get_severity_emoji (sev : text) : text :=
  dict_get (dict_of [(str "critical", str "🔴"); (str "warning", str "🟡");
                     (str "info", str "🔵")])
           sev (str "⚪").

(** [r'\b' + re.escape(abbr) + r'\b'] under [re.IGNORECASE]. *)
Definition abbr_re (abbr : text) : Re.regex :=
  Re.seqs [Re.WordB; Re.lit_i abbr; Re.WordB].

(** The [for] loop of [_decode_description] over the entries that remain. *)
Fixpoint substitute (entries : dict) (decoded : text) : text :=
  match entries with
  | [] => decoded
  | (abbr, translation) :: rest =>
      substitute rest (Re.sub (abbr_re abbr) translation decoded)
  end.

Definition _decode_description (description : text) : text :=
  substitute ABBREVIATIONS description.

Definition _get_location_name (loc : option text) : option text :=
  match loc with
  | Some l => match dict_find AIRPORTS l with
              | Some name => Some name
              | None => loc
              end
  | None => None
  end.

(** The truth value of an optional string. *)
Definition nonempty (o : option text) : option text :=
  match o with
  | Some ((_ :: _) as w) => Some w
  | _ => None
  end.

Definition decode (n : notam) : decoded_notam :=
  let sev := option_map _classify_severity (nonempty (q_code n)) in
  {| dn_id := notam_id n;
     dn_type := notam_type n;
     type_text := _decode_type (notam_type n);
     severity := sev;
     severity_emoji := option_map _get_severity_emoji sev;
     dn_q_code := q_code n;
     q_decoded := option_map (fun q => dict_get Q_CODES q q) (nonempty (q_code n));
     dn_location := location n;
     location_name := _get_location_name (location n);
     dn_valid_from := valid_from n;
     dn_valid_to := valid_to n;
     dn_is_permanent := is_permanent n;
     dn_schedule := schedule n;
     dn_description_raw := description_raw n;
     description_decoded :=
       option_map _decode_description (nonempty (description_raw n));
     dn_lower_limit := lower_limit n;
     dn_upper_limit := upper_limit n;
     dn_raw := notam_raw n |}.

End NOTAMDecoder.

(** * Specification-side definitions *)

(** ** What it means for a pattern to match

    [matches r b w a c c']: at the position with [b] before it (reversed)
    the pattern [r] matches the word [w], leaving [a], and turns the
    captures [c] into [c']. *)
Inductive matches : Re.regex -> text -> text -> text -> Re.caps -> Re.caps -> Prop :=
| M_Eps : forall b a c, matches Re.Eps b [] a c c
| M_Cls : forall p x b a c, p x = true -> matches (Re.Cls p) b [x] a c c
| M_Seq : forall r1 r2 b w1 w2 a c c1 c2,
    matches r1 b w1 (w2 ++ a) c c1 ->
    matches r2 (rev w1 ++ b) w2 a c1 c2 ->
    matches (Re.Seq r1 r2) b (w1 ++ w2) a c c2
| M_AltL : forall r1 r2 b w a c c1,
    matches r1 b w a c c1 -> matches (Re.Alt r1 r2) b w a c c1
| M_AltR : forall r1 r2 b w a c c1,
    matches r2 b w a c c1 -> matches (Re.Alt r1 r2) b w a c c1
| M_Rep : forall p lo hi g b w a c,
    forallb p w = true ->
    (lo <= length w)%nat ->
    match hi with Some h => (length w <= h)%nat | None => True end ->
    matches (Re.Rep p lo hi g) b w a c c
| M_Grp : forall n r b w a c c1,
    matches r b w a c c1 -> matches (Re.Grp n r) b w a c ((n, w) :: c1)
| M_Ahead : forall r b w a' a c c1,
    matches r b w a' c c1 -> a = w ++ a' -> matches (Re.Ahead r) b [] a c c
| M_Bol : forall a c, matches Re.Bol [] [] a c c
| M_Eol : forall b a c, Re.at_eol a = true -> matches Re.Eol b [] a c c
| M_WordB : forall b a c,
    xorb (Re.head_is_word b) (Re.head_is_word a) = true ->
    matches Re.WordB b [] a c c.

(** A string of between [lo] and [hi] decimal digits. *)
Definition digits (lo hi : nat) (w : text) : Prop :=
  forallb is_digit w = true /\ (lo <= length w <= hi)%nat.

(** Group [n] is bound to a string of digits. *)
Definition num_group (c : Re.caps) (n lo hi : nat) : Prop :=
  exists w, Re.group c n = Some w /\ digits lo hi w.

(** What a match object of the pattern [r] found from the position
    [(b, a)] is. *)
Definition found_from (r : Re.regex) (b a : text) (m : Re.found) : Prop :=
  exists pre,
    a = pre ++ Re.f_text m ++ Re.f_rest m /\
    Re.f_pre m = rev pre ++ b /\
    Re.f_end m = rev (Re.f_text m) ++ Re.f_pre m /\
    matches r (Re.f_pre m) (Re.f_text m) (Re.f_rest m) [] (Re.f_caps m).

(** The list [split] returns starts with a piece and goes on with pairs
    of a group and a piece; the groups are those of matches. *)
Inductive split_shape (r : Re.regex) : list (option text) -> Prop :=
| SS_last : forall p, split_shape r [Some p]
| SS_more : forall p m rest,
    matches r (Re.f_pre m) (Re.f_text m) (Re.f_rest m) [] (Re.f_caps m) ->
    split_shape r rest ->
    split_shape r (Some p :: Re.grp m 1 :: rest).

(** No match of [r] begins inside the stretch [g] of a text; [b] is what
    stands before [g], reversed, and [a] what stands after it. *)
Definition none_begins (r : Re.regex) (b g a : text) : Prop :=
  forall g1 g2 w rest c,
    g = g1 ++ g2 -> g2 <> [] -> g2 ++ a = w ++ rest ->
    ~ matches r (rev g1 ++ b) w rest [] c.

(** [found_in_turn r b a ms]: the matches [ms] are those of [r] in the
    text [a], which follows [b] (reversed), read from left to right: each
    is a match of [r], no match begins between the end of one and the start
    of the next, and none after the last. *)
Inductive found_in_turn (r : Re.regex) : text -> text -> list Re.found -> Prop :=
| FT_end : forall b a,
    (forall g1 g2 w rest c,
       a = g1 ++ g2 -> g2 = w ++ rest -> ~ matches r (rev g1 ++ b) w rest [] c) ->
    found_in_turn r b a []
| FT_next : forall b g m ms,
    Re.f_pre m = rev g ++ b ->
    Re.f_end m = rev (Re.f_text m) ++ Re.f_pre m ->
    matches r (Re.f_pre m) (Re.f_text m) (Re.f_rest m) [] (Re.f_caps m) ->
    none_begins r b g (Re.f_text m ++ Re.f_rest m) ->
    found_in_turn r (Re.f_end m) (Re.f_rest m) ms ->
    found_in_turn r b (g ++ Re.f_text m ++ Re.f_rest m) (m :: ms).

(** The text [s] stands somewhere in [t]: [s in t]. *)
Definition stands_in (s t : text) : Prop := exists pre post, t = pre ++ s ++ post.

(** The unit group of the two wind patterns. *)
Definition unit_group (c : Re.caps) (n : nat) : Prop :=
  Re.group c n = Some (str "KT") \/ Re.group c n = Some (str "MPS").

Definition result_is (r : result Z) (z : Z) : bool :=
  match r with
  | Ok v => v =? z
  | Raise _ => false
  end.

(** ** The wind conversion, in exact arithmetic *)

(** The speed and the gusts in metres per second: with the unit [KT] each
    is multiplied by 0.514 and truncated, a gust of zero counting as no
    gust; with [MPS] both are kept. *)
Definition mps_pair (kt : bool) (v : Z) (g : option Z) : Z * option Z :=
  if kt
  then (v * 514 / 1000,
        match g with
        | Some z => if z =? 0 then None else Some (z * 514 / 1000)
        | None => None
        end)
  else (v, g).

(** The compass sector of a direction in degrees:
    [floor((d + 22.5) / 45) mod 8]. *)
Definition sector (d : Z) : Z := ((2 * d + 45) / 90) mod 8.

Definition small (g : option Z) : Prop :=
  match g with
  | Some z => 0 <= z < 1000
  | None => True
  end.

(** The calm test of [_parse_wind]. *)
Definition calm (t : text) : bool :=
  Py.contains t (str "00000KT") || Py.contains t (str "00000MPS").

(** The unit a wind match captured in group [n]. *)
Definition unit_of (m : Re.found) (n : nat) : text :=
  match Re.grp m n with Some u => u | None => [] end.

Definition is_kt (m : Re.found) (n : nat) : bool :=
  Py.text_eqb (unit_of m n) (str "KT").

(** A method that ends normally and leaves the key ['error'] alone. *)
Definition quiet (m : TAFDecoder.M unit) : Prop :=
  forall d, exists d', m d = (d', Ok tt) /\ error d' = error d.

(** ** Groups every match binds *)

(** [binds r n]: the group [n] takes part in every match of [r]. *)
Fixpoint binds (r : Re.regex) (n : nat) : bool :=
  match r with
  | Re.Grp k r1 => Nat.eqb k n || binds r1 n
  | Re.Seq r1 r2 => binds r1 n || binds r2 n
  | Re.Alt r1 r2 => binds r1 n && binds r2 n
  | _ => false
  end.

(** ** The shape of a NOTAM number *)

Definition blanks (ws : text) : Prop :=
  forallb is_space ws = true /\ ws <> [].

(** [<Letter><4 digits>/<2 digits>] *)
Definition id_shape (w : text) : Prop :=
  exists l d4 d2,
    w = l :: d4 ++ str "/" ++ d2 /\
    is_upper l = true /\ digits 4 4 d4 /\ digits 2 2 d2.

(** The text [t] holds, after [pre], a number [id], blanks, the word NOTAM
    and the letter [k] of a kind. *)
Definition id_at (t pre id : text) (k : ascii) : Prop :=
  exists ws post,
    t = pre ++ (id ++ ws ++ str "NOTAM" ++ [k]) ++ post /\
    id_shape id /\ blanks ws /\ one_of "NRC" k = true.

(** ** The C) field of a NOTAM *)

(** A value the pattern of the C) field allows: ten to twelve digits, PERM
    or EST. *)
Definition c_value_form (v : text) : Prop :=
  digits 10 12 v \/ v = str "PERM" \/ v = str "EST".

(** The text [t] holds, after [pre], a C) field with the value [v]: the
    letter and the bracket, blanks or none, and the value. *)
Definition c_field_at (t pre v : text) : Prop :=
  exists ws post,
    t = pre ++ str "C)" ++ ws ++ v ++ post /\
    forallb is_space ws = true /\ c_value_form v.

(** The first C) field of [t] reads PERM. *)
Definition reads_perm (t : text) : Prop :=
  exists pre,
    c_field_at t pre (str "PERM") /\
    forall pre1 v1, c_field_at t pre1 v1 -> (length pre <= length pre1)%nat.

(** ** Visibility tokens *)

(** Four digits [n] stand in [t] after [pre] and a blank, and a blank
    follows them. *)
Definition token_at (t pre n : text) : Prop :=
  exists x y post,
    t = pre ++ [x] ++ n ++ [y] ++ post /\
    is_space x = true /\ is_space y = true /\ digits 4 4 n.

(** The visibility decoded from the four digits of [n] between two blanks:
    that many metres with the tier of [n], and 10000 metres without a tier
    for 9999. *)
Definition vis_token_check (n : Z) : bool :=
  match TAFDecoder._parse_visibility (str " " ++ fmt04 n ++ str " ") with
  | Ok (Some v) =>
      (meters v =? (if n =? 9999 then 10000 else n)) &&
      match quality v with
      | Some q => Py.text_eqb q (TAFDecoder.vis_quality n)
      | None => n =? 9999
      end
  | _ => false
  end.

(** The check of the thousand tokens from [1000 * k]. *)
Definition vis_thousand_check (k : Z) : bool :=
  forallb (fun i => vis_token_check (1000 * k + i)) (map Z.of_nat (seq 0 1000)).

(** ** Cloud layers and weather tokens *)

(** The layer [c] as it is read from the match [m] of the cloud pattern:
    the cover, three digits, and the type when CB or TCU follows the
    digits. *)
Definition layer_read (m : Re.found) (c : cloud) : Prop :=
  exists d1 d2 d3,
    Re.f_text m = cover c ++ [d1; d2; d3] ++
                  match cloud_type c with Some ty => ty | None => [] end /\
    In (cover c) TAFDecoder.cloud_prefixes /\
    is_digit d1 = true /\ is_digit d2 = true /\ is_digit d3 = true /\
    match cloud_type c with
    | Some ty => ty = str "CB" \/ ty = str "TCU"
    | None => Py.startswith (Re.f_rest m) (str "CB") = false /\
              Py.startswith (Re.f_rest m) (str "TCU") = false
    end /\
    height_ft c = 100 * (100 * digit_val d1 + 10 * digit_val d2 + digit_val d3) /\
    height_m c = height_ft c * 3048 / 10000 /\
    dict_find CLOUD_COVER (cover c) = Some (cover_text c).

(** What the match [m] of the weather pattern gives: its token is a blank,
    or nothing at the start of the text, then at most one of the marks "-",
    "+" and VC, then two to six capital letters, and a blank or the end of
    the text follows.  VC is read as a mark whenever two letters or more
    follow it.  The token gives no entry when its letters are one of
    CAVOK, NSC, SKC, CLR and NCD, begin with a cloud cover, or decode to
    nothing, and else the one entry of its code. *)
Definition weather_read (m : Re.found) (ps : list phenomenon) : Prop :=
  exists lead intensity code,
    Re.f_text m = lead ++ intensity ++ code /\
    (lead = [] /\ Re.f_pre m = [] \/ exists s, lead = [s] /\ is_space s = true) /\
    In intensity [[]; str "-"; str "+"; str "VC"] /\
    forallb is_upper code = true /\ (2 <= length code <= 6)%nat /\
    (intensity = [] -> Py.startswith code (str "VC") = true ->
     (length code <= 3)%nat) /\
    (Re.at_eol (Re.f_rest m) = true \/
     exists y r, Re.f_rest m = y :: r /\ is_space y = true) /\
    ((ps = [] /\
      (In code TAFDecoder.not_weather \/
       (exists pre, In pre TAFDecoder.cloud_prefixes /\
                    Py.startswith code pre = true) \/
       TAFDecoder._decode_weather_code (intensity ++ code) = None)) \/
     (exists p,
        ps = [p] /\ wx_code p = intensity ++ code /\
        ~ In code TAFDecoder.not_weather /\
        (forall pre, In pre TAFDecoder.cloud_prefixes ->
                     Py.startswith code pre = false) /\
        TAFDecoder._decode_weather_code (wx_code p) = Some (wx_text p) /\
        wx_text p <> [])).

(** ** Timestamps *)

(** The string [isoformat() + 'Z'] of a date and time without seconds. *)
Definition iso_text (y mo d h mi : Z) : text :=
  fmt04 y ++ str "-" ++ fmt02 mo ++ str "-" ++ fmt02 d ++ str "T" ++
  fmt02 h ++ str ":" ++ fmt02 mi ++ str ":00Z".

(** What [_parse_notam_datetime] returns for the fields of a timestamp:
    the string when they are in range, nothing otherwise. *)
Definition stamp (y mo d h mi : Z) : option text :=
  if NOTAMCollector.datetime_ok y mo d h mi
  then Some (iso_text y mo d h mi) else None.

(** ** The weather code read by pairs *)

(** The scan as the specification words it: the remainder is cut in spans
    of two characters from its start; a span found in the table is
    decoded, a span not found is skipped whole. *)
Fixpoint scan_by_pairs (code : text) : list text :=
  match code with
  | c1 :: c2 :: rest =>
      match dict_find WEATHER_PHENOMENA [c1; c2] with
      | Some d => d :: scan_by_pairs rest
      | None => scan_by_pairs rest
      end
  | _ => []
  end.

Definition weather_parts_by_pairs (code : text) : list text :=
  let '(parts, rest) := TAFDecoder.strip_intensity code in
  parts ++ scan_by_pairs rest.

(** A code made of entries of the phenomenon table, each of two
    characters. *)
Definition known_pair (k : text) : Prop :=
  length k = 2%nat /\ dict_find WEATHER_PHENOMENA k <> None.

(** ** Whole words *)

(** Equal up to the case of the ASCII letters. *)
Definition same_caseless (w k : text) : Prop := map to_lower w = map to_lower k.

(** A word boundary between the text [b] (reversed) and the text [a]. *)
Definition boundary (b a : text) : Prop :=
  xorb (Re.head_is_word b) (Re.head_is_word a) = true.

(** The abbreviation [k], in any case, stands in [s] right after [pre]
    with a word boundary on each side. *)
Definition whole_word_at (k s pre : text) : Prop :=
  exists w post,
    s = pre ++ w ++ post /\ same_caseless w k /\
    boundary (rev pre) (w ++ post) /\ boundary (rev w ++ rev pre) post.

Definition is_none {A : Type} (o : option A) : bool :=
  match o with
  | Some _ => false
  | None => true
  end.

(** The abbreviation [k] begins and ends with a word character. *)
Definition word_ends (k : text) : bool :=
  Re.head_is_word k && Re.head_is_word (rev k).

(** What is checked of the entry [(k, tr)] of a dictionary between the
    entries [before] and [after] it: no earlier abbreviation stands as a
    whole word in [k], and no later one in the translation [tr]. *)
Definition entry_alone (before : dict) (k tr : text) (after : dict) : bool :=
  word_ends k &&
  forallb (fun e => is_none (Re.search (NOTAMDecoder.abbr_re (fst e))
                                       (map to_lower k))) before &&
  forallb (fun e => is_none (Re.search (NOTAMDecoder.abbr_re (fst e)) tr)) after.

Fixpoint entries_alone (before rest : dict) : bool :=
  match rest with
  | [] => true
  | (k, tr) :: after =>
      entry_alone before k tr after && entries_alone (before ++ [(k, tr)]) after
  end.

(** ** A description read piece by piece *)

(** An ASCII word character. *)
Definition plain (c : ascii) : bool := is_word c && is_ascii c.

Definition head_plain (a : text) : bool :=
  match a with
  | x :: _ => plain x
  | [] => false
  end.

Definition caseless_eqb (w k : text) : bool :=
  Py.text_eqb (map to_lower w) (map to_lower k).

(** A description in pieces: a first piece [w0] and then, in [rest],
    separators, characters that are not word characters, each with the
    piece that follows it.  [glue f w0 rest] is the text put together, each
    piece through [f]; [after f rest] is what follows the first piece. *)
Fixpoint glue (f : text -> text) (w0 : text) (rest : list (ascii * text)) : text :=
  match rest with
  | [] => f w0
  | (c, w1) :: rest' => f w0 ++ c :: glue f w1 rest'
  end.

Definition after (f : text -> text) (rest : list (ascii * text)) : text :=
  match rest with
  | [] => []
  | (c, w1) :: rest' => c :: glue f w1 rest'
  end.

Definition separators (rest : list (ascii * text)) : Prop :=
  Forall (fun cw => is_word (fst cw) = false) rest.

(** The expansion of the first entry whose abbreviation is the piece [w]
    up to case, and [w] itself when there is none. *)
Definition expand_with (entries : dict) (w : text) : text :=
  match find (fun e => caseless_eqb w (fst e)) entries with
  | Some e => snd e
  | None => w
  end.

(** The abbreviation [k], in any case, stands right at the position with
    [b] before it (reversed) and [a] after it, between two word
    boundaries. *)
Definition stands (k b a : text) : Prop :=
  exists w a',
    a = w ++ a' /\ same_caseless w k /\
    boundary b a /\ boundary (rev w ++ b) a'.

(** Wherever [k] stands in the description, from a position inside a
    piece, it is that whole piece. *)
Fixpoint only_pieces (k b w0 : text) (rest : list (ascii * text)) : Prop :=
  (forall p1 p2,
     w0 = p1 ++ p2 -> p2 <> [] ->
     stands k (rev p1 ++ b) (p2 ++ after (fun w => w) rest) ->
     p1 = [] /\ same_caseless w0 k) /\
  match rest with
  | [] => True
  | (c, w1) :: rest' => only_pieces k (c :: rev w0 ++ b) w1 rest'
  end.

(** The same, decided with the matcher: no match from any position inside
    a piece but the start of a piece that spells [k]. *)
Fixpoint no_match_within (k b p a : text) : bool :=
  match p with
  | [] => true
  | x :: p' =>
      is_none (hd_error (Re.rmatch (NOTAMDecoder.abbr_re k) b (p ++ a) []))
      && no_match_within k (x :: b) p' a
  end.

Fixpoint pieces_checked (k b w0 : text) (rest : list (ascii * text)) : bool :=
  (match w0 with
   | [] => true
   | x :: w0' =>
       (caseless_eqb w0 k
        || is_none (hd_error (Re.rmatch (NOTAMDecoder.abbr_re k) b
                                        (w0 ++ after (fun w => w) rest) [])))
       && no_match_within k (x :: b) w0' (after (fun w => w) rest)
   end)
  && match rest with
     | [] => true
     | (c, w1) :: rest' => pieces_checked k (c :: rev w0 ++ b) w1 rest'
     end.

(** The description cut at every character that is not a word character:
    the pieces are its words, some of them empty. *)
Fixpoint split_words (s : text) : text * list (ascii * text) :=
  match s with
  | [] => ([], [])
  | c :: s' =>
      let '(w, r) := split_words s' in
      if is_word c then (c :: w, r) else ([], (c, w) :: r)
  end.

(** The translation as the specification words it, for a description of
    single words: every word that is an abbreviation of the dictionary, in
    any case, is replaced by its expansion, and everything else is kept. *)
Definition translate_words (s : text) : text :=
  let '(w0, rest) := split_words s in glue (expand_with ABBREVIATIONS) w0 rest.

(** No abbreviation that is written in several words stands in [s]. *)
Definition single_words (s : text) : bool :=
  forallb (fun e => forallb is_word (fst e)
                    || is_none (Re.search (NOTAMDecoder.abbr_re (fst e)) s))
          ABBREVIATIONS.

(** A text put in the place of a piece: it is not empty, holds no ASCII
    word character, and begins and ends with a word character. *)
Definition alienb (t : text) : bool :=
  forallb (fun c => negb (plain c)) t &&
  Re.head_is_word t && Re.head_is_word (rev t).

Definition alien (t : text) : Prop := alienb t = true.

(** A piece as it was written, or a piece that began and ended with a word
    character and has a translation in its place. *)
Definition kept_or_put (f : text -> text) (w : text) : Prop :=
  f w = w \/
  (Re.head_is_word w = true /\ Re.head_is_word (rev w) = true /\
   alien (f w) /\ f w <> w).

(** The pieces after the pass of the loop for the entry [(k, tr)]: a piece
    still as it was written that spells [k] becomes [tr]. *)
Definition next_with (f : text -> text) (k tr : text) (w : text) : text :=
  if Py.text_eqb (f w) w && caseless_eqb w k then tr else f w.

(** [swapped s s']: the text [s'] is [s] with some of its pieces replaced
    by texts put in their place. *)
Inductive swapped : text -> text -> Prop :=
| S_nil : swapped [] []
| S_keep : forall c s s', swapped s s' -> swapped (c :: s) (c :: s')
| S_swap : forall w t s s',
    Re.head_is_word w = true -> alien t -> swapped s s' ->
    swapped (w ++ s) (t ++ s').

(** What is checked of an entry of the dictionary: the abbreviation is an
    ASCII text that begins and ends with a word character, and the
    translation holds no ASCII word character and begins and ends with a
    word character. *)
Definition entry_ok (e : text * text) : bool :=
  forallb is_ascii (fst e) && head_plain (fst e) &&
  Re.head_is_word (rev (fst e)) && alienb (snd e).

(** The check of the pieces for every abbreviation of the dictionary. *)
Definition all_checked (w0 : text) (rest : list (ascii * text)) : bool :=
  forallb (fun e => pieces_checked (fst e) [] w0 rest) ABBREVIATIONS.

(** ** A reported failure *)

(** [decode] reports a failure by the key ['error'] of its result. *)
Definition reports_failure (d : decoded) : Prop := error d <> None.

(** ** The parts of a decoded forecast *)

(** The words that end the main part of a forecast. *)
Definition main_end_words : list text :=
  [str "FM"; str "TEMPO"; str "BECMG"; str "PROB"].

(** The text that follows each of the matches [ms] found one after the
    other: from the end of the match to the start of the next one, and
    after the last match the rest of the subject. *)
Fixpoint following (ms : list Re.found) : list text :=
  match ms with
  | [] => []
  | m :: ms' =>
      match ms' with
      | [] => Re.f_rest m
      | m' :: _ => Re.gap (Re.f_end m) m'
      end :: following ms'
  end.

(** The texts of the indicator of a change group: what stands for FM and
    six digits, for TEMPO, for BECMG, and for PROB and two digits, with or
    without TEMPO. *)
Definition indicator_form (ind txt : text) : Prop :=
  (exists dd hh mm,
     digits 2 2 dd /\ digits 2 2 hh /\ digits 2 2 mm /\
     ind = str "FM" ++ dd ++ hh ++ mm /\
     txt = str "С " ++ dd ++ str " числа " ++ hh ++ str ":" ++ mm ++ str " UTC") \/
  (ind = str "TEMPO" /\ txt = str "Временами") \/
  (ind = str "BECMG" /\ txt = str "Постепенное изменение") \/
  (exists pp,
     digits 2 2 pp /\
     (ind = str "PROB" ++ pp \/
      exists ws, blanks ws /\ ind = str "PROB" ++ pp ++ ws ++ str "TEMPO") /\
     txt = str "Вероятность " ++ pp ++ str "%").

(** The change group [ch] read from the text [content] that follows the
    indicator [ind]. *)
Definition change_read (ind content : text) (ch : change) : Prop :=
  indicator ch = ind /\
  indicator_text ch = TAFDecoder._decode_change_indicator ind /\
  TAFDecoder._parse_wind content = Ok (ch_wind ch) /\
  TAFDecoder._parse_visibility content = Ok (ch_visibility ch) /\
  ch_weather ch = TAFDecoder._parse_weather content /\
  TAFDecoder._parse_clouds content = Ok (ch_clouds ch).

(** The four digits [n] stand in [t] between two blanks. *)
Definition between_blanks (t n : text) : Prop :=
  exists pre x y post,
    t = pre ++ [x] ++ n ++ [y] ++ post /\
    is_space x = true /\ is_space y = true /\ digits 4 4 n.

(** ** The header of a forecast *)

(** What the header of a forecast may hold between TAF and the station. *)
Definition amendment (w : text) : Prop :=
  w = [] \/
  exists ws, blanks ws /\ (w = str "AMD" ++ ws \/ w = str "COR" ++ ws).

(** The issue time [it] as the digits [dd], [hh] and [mi] give it. *)
Definition issue_of (dd hh mi : text) (it : issue_time) : Prop :=
  int dd = Ok (it_day it) /\ int hh = Ok (it_hour it) /\
  int mi = Ok (it_minute it) /\
  0 <= it_day it <= 39 /\ 0 <= it_hour it <= 29 /\ 0 <= it_minute it <= 59 /\
  it_text it = dd ++ str " число, " ++ hh ++ str ":" ++ mi ++ str " UTC".

(** The period [vp] as the digits of its two ends give it. *)
Definition period_of (fd fh td th : text) (vp : valid_period) : Prop :=
  int fd = Ok (from_day vp) /\ int fh = Ok (from_hour vp) /\
  int td = Ok (to_day vp) /\ int th = Ok (to_hour vp) /\
  0 <= from_day vp <= 39 /\ 0 <= from_hour vp <= 29 /\
  0 <= to_day vp <= 39 /\ 0 <= to_hour vp <= 29 /\
  vp_text vp = str "с " ++ fd ++ str " числа " ++ fh ++ str ":00 до " ++
               td ++ str " числа " ++ th ++ str ":00 UTC".

(** ** Digits written back *)

(** The ten digits. *)
Definition digit_chars : text := str "0123456789".

(** [f"{int(w):02d}"] is [w] for the two digits [a], [b] of [w]. *)
Definition keeps2 (a b : ascii) : bool :=
  match int [a; b] with
  | Ok z => Py.text_eqb (fmt02 z) [a; b]
  | Raise _ => false
  end.

(** [f"{int(w):04d}"] is [w] for the four digits of [w]. *)
Definition keeps4 (a b c d : ascii) : bool :=
  match int [a; b; c; d] with
  | Ok z => Py.text_eqb (fmt04 z) [a; b; c; d]
  | Raise _ => false
  end.

(** The year of a stamp of ten digits, written with its century. *)
Definition keeps_century (a b : ascii) : bool :=
  match int [a; b] with
  | Ok z => Py.text_eqb (fmt04 (1900 + z)) (str "19" ++ [a; b]) &&
            Py.text_eqb (fmt04 (2000 + z)) (str "20" ++ [a; b])
  | Raise _ => false
  end.

(** ** Fields the methods leave alone *)

(** [keeps p m]: the method [m] leaves the part [p] of the record as it is. *)
Definition keeps {A B : Type} (p : decoded -> B) (m : TAFDecoder.M A) : Prop :=
  forall d, p (fst (m d)) = p d.

(** The record with another text under the key ['raw']. *)
Definition set_raw (v : text) (d : decoded) : decoded :=
  {| raw := v; human_readable := human_readable d; station := station d;
     d_issue_time := d_issue_time d; d_valid_period := d_valid_period d;
     d_wind := d_wind d; d_visibility := d_visibility d;
     d_weather := d_weather d; d_clouds := d_clouds d;
     d_temperature := d_temperature d; changes := changes d;
     remarks := remarks d; error := error d |}.

(** Two records that differ at most under the key ['raw']. *)
Definition same_but_raw (d1 d2 : decoded) : Prop := set_raw [] d1 = set_raw [] d2.

(** A method whose result and whose effect on the record do not depend on
    the text under ['raw']. *)
Definition respects {A : Type} (m : TAFDecoder.M A) : Prop :=
  forall d1 d2,
    same_but_raw d1 d2 ->
    snd (m d1) = snd (m d2) /\ same_but_raw (fst (m d1)) (fst (m d2)).

(** ** The fields of a NOTAM *)

(** A stamp [YYYY-MM-DDTHH:MM:00Z]. *)
Definition stamp_form (r : text) : Prop :=
  exists yyyy mm dd hh mi,
    digits 4 4 yyyy /\ digits 2 2 mm /\ digits 2 2 dd /\ digits 2 2 hh /\
    digits 2 2 mi /\
    r = yyyy ++ str "-" ++ mm ++ str "-" ++ dd ++ str "T" ++ hh ++ str ":" ++
        mi ++ str ":00Z".

(** Four capital letters. *)
Definition four_capitals (w : text) : Prop :=
  forallb is_upper w = true /\ length w = 4%nat.

(** The fields of a Q-line as its pattern allows them. *)
Definition q_line_form (q : q_data) : Prop :=
  four_capitals (fir q) /\
  (exists l, q_code_ q = str "Q" ++ l /\ four_capitals l) /\
  (forallb (one_of "IV") (traffic q) = true /\ (1 <= length (traffic q) <= 2)%nat) /\
  (forallb is_upper (purpose q) = true /\ purpose q <> []) /\
  (forallb (one_of "AEW") (scope q) = true /\ scope q <> []) /\
  digits 3 3 (lower q) /\ digits 3 3 (upper q) /\
  (exists la ns lo ew,
     coordinates q = la ++ [ns] ++ lo ++ [ew] /\ digits 4 4 la /\
     one_of "NS" ns = true /\ digits 5 5 lo /\ one_of "EW" ew = true) /\
  match radius q with
  | Some r => digits 3 3 r
  | None => True
  end.

(** The three marks of a severity. *)
Definition severity_marks : list text := [str "🔴"; str "🟡"; str "🔵"].

(** ** The text fields of a NOTAM *)

(** The field of the letter [letter] read from [t]: the text after the
    letter, a bracket and blanks, to the end of the line, stripped. *)
Definition line_field (letter : string) (t : text) (field : option text) : Prop :=
  match Re.search (NOTAMCollector.line_re letter) t with
  | Some m =>
      exists ws g,
        Re.f_text m = str letter ++ str ")" ++ ws ++ g /\
        forallb is_space ws = true /\ g <> [] /\
        forallb not_newline g = true /\ field = Some (Py.strip g)
  | None => field = None
  end /\
  forall w, field = Some w -> Py.strip w = w /\ forallb not_newline w = true.

(** The text [rest] begins, after blanks, with F) or G), or is at its end. *)
Definition description_stop (rest : text) : Prop :=
  (exists ws k post,
     rest = ws ++ [k] ++ str ")" ++ post /\ forallb is_space ws = true /\
     one_of "FG" k = true) \/
  Re.at_eol rest = true.

(** [(?=\s*[FG]\)|$)] *)
Definition stop_re : Re.regex :=
  Re.Alt (Re.seqs [Re.star is_space; Re.Cls (one_of "FG"); Re.lit ")"]) Re.Eol.

(** * Properties *)

(** ** The matcher computes the matches *)

Section Matcher.

Lemma in_counts (lo m k : nat) (g : bool) :
  In k (Re.counts lo m g) <-> (lo <= k <= m)%nat.
Proof.
  unfold Re.counts. destruct g.
  - rewrite <- in_rev, in_seq. lia.
  - rewrite in_seq. lia.
Qed.

Lemma run_firstn (p : ascii -> bool) (a : text) (k : nat) :
  (k <= Re.run p a)%nat ->
  forallb p (firstn k a) = true /\ length (firstn k a) = k.
Proof.
  revert k. induction a as [|x a IH]; intros k Hk; simpl in *.
  - replace k with 0%nat by lia. simpl. auto.
  - destruct k as [|k]; simpl; [auto|].
    destruct (p x) eqn:Hp; [|lia].
    destruct (IH k) as [H1 H2]; [lia|]. rewrite H1, H2. auto.
Qed.

Lemma run_app (p : ascii -> bool) (w a : text) :
  forallb p w = true -> (length w <= Re.run p (w ++ a))%nat.
Proof.
  induction w as [|x w IH]; simpl; intros H; [lia|].
  apply andb_prop in H. destruct H as [Hx Hw]. rewrite Hx.
  specialize (IH Hw). lia.
Qed.

Lemma firstn_exact (w a : text) : firstn (length w) (w ++ a) = w.
Proof.
  rewrite firstn_app, Nat.sub_diag, firstn_all. simpl. apply app_nil_r.
Qed.

Lemma skipn_exact (w a : text) : skipn (length w) (w ++ a) = a.
Proof.
  rewrite skipn_app, Nat.sub_diag, skipn_all. reflexivity.
Qed.

Lemma captured_exact (w a : text) :
  firstn (length (w ++ a) - length a) (w ++ a) = w.
Proof.
  rewrite length_app, Nat.add_sub. apply firstn_exact.
Qed.

(** Every entry of [rmatch] is a match. *)
Lemma rmatch_sound (r : Re.regex) :
  forall b a c b' a' c',
    In (b', a', c') (Re.rmatch r b a c) ->
    exists w, a = w ++ a' /\ b' = rev w ++ b /\ matches r b w a' c c'.
Proof.
  induction r as [|p|r1 IH1 r2 IH2|r1 IH1 r2 IH2|p lo hi g|n r IH|r IH| | |];
    intros b a c b' a' c' Hin; simpl in Hin.
  - destruct Hin as [E|[]]. inversion E; subst.
    exists []. repeat split. constructor.
  - destruct a as [|x a]; [contradiction|].
    destruct (p x) eqn:Hp; [|contradiction].
    destruct Hin as [E|[]]. inversion E; subst.
    exists [x]. repeat split. constructor. exact Hp.
  - apply in_flat_map in Hin. destruct Hin as [[[b1 a1] c1] [H1 H2]].
    apply IH1 in H1. destruct H1 as (w1 & -> & -> & M1).
    apply IH2 in H2. destruct H2 as (w2 & -> & -> & M2).
    exists (w1 ++ w2). rewrite rev_app_distr, <- !app_assoc.
    repeat split. econstructor; eassumption.
  - apply in_app_or in Hin. destruct Hin as [H|H].
    + apply IH1 in H. destruct H as (w & -> & -> & M).
      exists w. repeat split. apply M_AltL. exact M.
    + apply IH2 in H. destruct H as (w & -> & -> & M).
      exists w. repeat split. apply M_AltR. exact M.
  - apply in_map_iff in Hin. destruct Hin as (k & E & Hk).
    inversion E; subst. apply in_counts in Hk.
    assert (Hrun : (k <= Re.run p a)%nat) by (destruct hi; lia).
    destruct (run_firstn p a k Hrun) as [Hall Hlen].
    exists (firstn k a). rewrite firstn_skipn. repeat split.
    constructor; [exact Hall|lia|destruct hi; [lia|exact I]].
  - apply in_map_iff in Hin. destruct Hin as ([[b1 a1] c1] & E & H).
    inversion E; subst. apply IH in H. destruct H as (w & -> & -> & M).
    exists w. rewrite captured_exact. repeat split. constructor. exact M.
  - destruct (Re.rmatch r b a c) as [|[[b1 a1] c1] l] eqn:E; [contradiction|].
    destruct Hin as [E'|[]]. inversion E'; subst.
    destruct (IH b' a' c' b1 a1 c1) as (w & Ha & _ & M); [rewrite E; left; reflexivity|].
    exists []. repeat split. econstructor; eassumption.
  - destruct b; [|contradiction]. destruct Hin as [E|[]]. inversion E; subst.
    exists []. repeat split. constructor.
  - destruct (Re.at_eol a) eqn:He; [|contradiction].
    destruct Hin as [E|[]]. inversion E; subst.
    exists []. repeat split. constructor. exact He.
  - destruct (xorb _ _) eqn:He; [|contradiction].
    destruct Hin as [E|[]]. inversion E; subst.
    exists []. repeat split. constructor. exact He.
Qed.

(** Every match is an entry of [rmatch]. *)
Lemma rmatch_complete (r : Re.regex) :
  forall b w a c c',
    matches r b w a c c' -> In (rev w ++ b, a, c') (Re.rmatch r b (w ++ a) c).
Proof.
  intros b w a c c' M. induction M; simpl.
  - left. reflexivity.
  - rewrite H. left. reflexivity.
  - apply in_flat_map. exists (rev w1 ++ b, w2 ++ a, c1). split.
    + rewrite <- app_assoc. exact IHM1.
    + rewrite rev_app_distr, <- app_assoc. exact IHM2.
  - apply in_or_app. left. exact IHM.
  - apply in_or_app. right. exact IHM.
  - apply in_map_iff. exists (length w). split.
    + rewrite firstn_exact, skipn_exact. reflexivity.
    + apply in_counts. pose proof (run_app p w a H). destruct hi; lia.
  - apply in_map_iff. exists (rev w ++ b, a, c1). split.
    + rewrite captured_exact. reflexivity.
    + exact IHM.
  - subst a. destruct (Re.rmatch r b (w ++ a') c) eqn:E; [contradiction|].
    left. reflexivity.
  - left. reflexivity.
  - rewrite H. left. reflexivity.
  - rewrite H. left. reflexivity.
Qed.

End Matcher.

(** ** [search], [finditer] and [split] *)

Lemma found_head (r : Re.regex) (b a b1 a1 : text) (c1 : Re.caps) l :
  Re.rmatch r b a [] = (b1, a1, c1) :: l ->
  found_from r b a (Re.Found b (firstn (length a - length a1) a) b1 a1 c1).
Proof.
  intros E.
  destruct (rmatch_sound r b a [] b1 a1 c1) as (w & Ha & Hb & M);
    [rewrite E; left; reflexivity|].
  subst a. rewrite captured_exact. exists []. simpl. auto.
Qed.

Lemma search_from_sound (r : Re.regex) :
  forall a b m, Re.search_from r b a = Some m -> found_from r b a m.
Proof.
  induction a as [|x a IH]; intros b m H; simpl in H.
  - destruct (Re.rmatch r b [] []) as [|[[b1 a1] c1] l] eqn:E; [discriminate|].
    inversion H; subst; clear H. exact (found_head r b [] b1 a1 c1 l E).
  - destruct (Re.rmatch r b (x :: a) []) as [|[[b1 a1] c1] l] eqn:E.
    + apply IH in H. destruct H as (pre & H1 & H2 & H3 & H4).
      exists (x :: pre). simpl. rewrite <- H1, <- app_assoc. simpl. auto.
    + inversion H; subst; clear H. exact (found_head r b (x :: a) b1 a1 c1 l E).
Qed.

(** [search] finds nothing only when no position matches. *)
Lemma search_from_none (r : Re.regex) :
  forall a b, Re.search_from r b a = None ->
    forall pre rest, a = pre ++ rest -> Re.rmatch r (rev pre ++ b) rest [] = [].
Proof.
  induction a as [|x a IH]; intros b H pre rest E; simpl in H.
  - destruct pre; [|discriminate]. simpl in *. subst rest.
    destruct (Re.rmatch r b [] []) as [|[[? ?] ?] ?]; [reflexivity|discriminate].
  - destruct (Re.rmatch r b (x :: a) []) as [|[[? ?] ?] ?] eqn:E0; [|discriminate].
    destruct pre as [|y pre]; simpl in E.
    + subst rest. exact E0.
    + inversion E; subst. simpl. rewrite <- app_assoc. apply (IH _ H). reflexivity.
Qed.

(** A match anywhere in the subject makes [search] succeed. *)
Lemma search_complete (r : Re.regex) (pre w rest : text) (c : Re.caps) :
  matches r (rev pre) w rest [] c ->
  Re.search r (pre ++ w ++ rest) <> None.
Proof.
  intros M H. unfold Re.search in H.
  pose proof (search_from_none r _ _ H pre (w ++ rest) eq_refl) as E.
  rewrite app_nil_r in E. apply rmatch_complete in M. rewrite E in M. exact M.
Qed.

Lemma search_sound (r : Re.regex) (s : text) (m : Re.found) :
  Re.search r s = Some m ->
  exists pre, s = pre ++ Re.f_text m ++ Re.f_rest m /\
              matches r (rev pre) (Re.f_text m) (Re.f_rest m) [] (Re.f_caps m).
Proof.
  intros H. apply search_from_sound in H. destruct H as (pre & H1 & H2 & _ & H4).
  exists pre. rewrite app_nil_r in H2. rewrite <- H2. auto.
Qed.

(** Every match object [finditer] yields is a match of the pattern. *)
Lemma finditer_from_sound (r : Re.regex) :
  forall fuel b a m, In m (Re.finditer_from fuel r b a) ->
    matches r (Re.f_pre m) (Re.f_text m) (Re.f_rest m) [] (Re.f_caps m).
Proof.
  induction fuel as [|fuel IH]; intros b a m H; simpl in H; [contradiction|].
  destruct (Re.search_from r b a) as [m0|] eqn:E; [|contradiction].
  destruct H as [<-|H].
  - apply search_from_sound in E. destruct E as (pre & _ & _ & _ & M). exact M.
  - destruct (Re.resume m0) as [[b' a']|]; [|contradiction]. eapply IH; eassumption.
Qed.

Lemma finditer_sound (r : Re.regex) (s : text) (m : Re.found) :
  In m (Re.finditer r s) ->
  matches r (Re.f_pre m) (Re.f_text m) (Re.f_rest m) [] (Re.f_caps m).
Proof. apply finditer_from_sound. Qed.

Lemma split_from_shape (r : Re.regex) :
  forall fuel b a, split_shape r (Re.split_from fuel r 1 b a).
Proof.
  induction fuel as [|fuel IH]; intros b a; simpl; [constructor|].
  destruct (Re.search_from r b a) as [m|] eqn:E; [|constructor].
  destruct (Re.f_text m) eqn:Et; [constructor|].
  simpl. constructor; [|apply IH].
  apply search_from_sound in E. destruct E as (pre & _ & _ & _ & M). exact M.
Qed.

(** ** The first match at a place, and the matches in turn *)

(** Before the match [search] reports no position matches. *)
Lemma search_from_first (r : Re.regex) :
  forall a b m, Re.search_from r b a = Some m ->
    forall pre rest, a = pre ++ rest ->
      (length pre < length (Re.f_pre m) - length b)%nat ->
      Re.rmatch r (rev pre ++ b) rest [] = [].
Proof.
  induction a as [|x a IH]; intros b m H pre rest E Hlen; simpl in H.
  - destruct (Re.rmatch r b [] []) as [|[[b1 a1] c1] l]; [discriminate|].
    inversion H; subst m; simpl in Hlen. lia.
  - destruct (Re.rmatch r b (x :: a) []) as [|[[b1 a1] c1] l] eqn:E0.
    + destruct pre as [|y pre]; simpl in E.
      * subst rest. exact E0.
      * inversion E; subst. simpl. rewrite <- app_assoc.
        apply (IH _ _ H); [reflexivity|]. simpl in *. lia.
    + inversion H; subst m; simpl in Hlen. lia.
Qed.

Lemma flat_map_first {A B : Type} (f : A -> list B) (l : list A) (x : B) (r : list B) :
  flat_map f l = x :: r ->
  exists l1 y l2 r',
    l = l1 ++ y :: l2 /\ Forall (fun z => f z = []) l1 /\ f y = x :: r'.
Proof.
  induction l as [|a l IH]; simpl; [discriminate|].
  destruct (f a) as [|x0 r0] eqn:E; simpl; intros H.
  - destruct (IH H) as (l1 & y & l2 & r' & -> & F & Ey).
    exists (a :: l1), y, l2, r'. repeat split; [constructor; assumption|exact Ey].
  - injection H as -> _. exists [], a, l, r0. repeat split; [constructor|exact E].
Qed.

Lemma first_of_seq {B : Type} (f : nat -> list B) (cnt : nat) :
  forall lo x r,
    flat_map f (seq lo cnt) = x :: r ->
    exists j r', (lo <= j < lo + cnt)%nat /\ f j = x :: r' /\
                 forall i, (lo <= i < j)%nat -> f i = [].
Proof.
  induction cnt as [|cnt IH]; intros lo x r; simpl; [discriminate|].
  destruct (f lo) as [|x0 r0] eqn:E; simpl; intros H.
  - destruct (IH (S lo) x r H) as (j & r' & Hj & Ej & Hi).
    exists j, r'. split; [lia|]. split; [exact Ej|].
    intros i Hi'. destruct (Nat.eq_dec i lo) as [->|Hne]; [exact E|apply Hi; lia].
  - injection H as -> _. exists lo, r0. split; [lia|]. split; [exact E|].
    intros i Hi. lia.
Qed.

Lemma flat_map_map {A B C : Type} (g : A -> B) (f : B -> list C) (l : list A) :
  flat_map f (map g l) = flat_map (fun x => f (g x)) l.
Proof. induction l as [|a l IH]; simpl; [reflexivity|]. rewrite IH. reflexivity. Qed.

Lemma head_captured (r : Re.regex) b a b1 a1 c1 l :
  Re.rmatch r b a [] = (b1, a1, c1) :: l ->
  firstn (length a - length a1) a ++ a1 = a.
Proof.
  intros E. destruct (rmatch_sound r b a [] b1 a1 c1) as (w & Ha & _);
    [rewrite E; left; reflexivity|].
  subst a. rewrite captured_exact. reflexivity.
Qed.

(** The match [search] reports is the first entry of [rmatch] at its place. *)
Lemma search_from_head (r : Re.regex) :
  forall a b m, Re.search_from r b a = Some m ->
    exists l,
      Re.rmatch r (Re.f_pre m) (Re.f_text m ++ Re.f_rest m) []
      = (Re.f_end m, Re.f_rest m, Re.f_caps m) :: l.
Proof.
  induction a as [|x a IH]; intros b m H; cbn [Re.search_from] in H.
  - destruct (Re.rmatch r b [] []) as [|[[b1 a1] c1] l] eqn:E; [discriminate|].
    assert (Em : m = Re.Found b (firstn (length (@nil ascii) - length a1) []) b1 a1 c1)
      by congruence.
    subst m. cbn [Re.f_pre Re.f_text Re.f_rest Re.f_end Re.f_caps].
    rewrite (head_captured r b [] b1 a1 c1 l E). eauto.
  - destruct (Re.rmatch r b (x :: a) []) as [|[[b1 a1] c1] l] eqn:E.
    + exact (IH _ _ H).
    + assert (Em : m = Re.Found b (firstn (length (x :: a) - length a1) (x :: a))
                           b1 a1 c1) by congruence.
      subst m. cbn [Re.f_pre Re.f_text Re.f_rest Re.f_end Re.f_caps].
      rewrite (head_captured r b (x :: a) b1 a1 c1 l E). eauto.
Qed.

(** Every match [finditer] yields is the first way its pattern matches at
    its place. *)
Lemma finditer_from_head (r : Re.regex) :
  forall fuel b a m, In m (Re.finditer_from fuel r b a) ->
    exists l,
      Re.rmatch r (Re.f_pre m) (Re.f_text m ++ Re.f_rest m) []
      = (Re.f_end m, Re.f_rest m, Re.f_caps m) :: l.
Proof.
  induction fuel as [|fuel IH]; intros b a m H; simpl in H; [contradiction|].
  destruct (Re.search_from r b a) as [m0|] eqn:E; [|contradiction].
  destruct H as [<-|H].
  - exact (search_from_head _ _ _ _ E).
  - destruct (Re.resume m0) as [[b' a']|]; [|contradiction]. eapply IH; eassumption.
Qed.

(** [finditer] finds the matches of a pattern that matches no empty text
    one after the other. *)
Lemma finditer_in_turn (r : Re.regex) :
  (forall b w a c, matches r b w a [] c -> w <> []) ->
  forall fuel b a,
    (length a < fuel)%nat -> found_in_turn r b a (Re.finditer_from fuel r b a).
Proof.
  intros Hne. induction fuel as [|fuel IH]; intros b a Hf; [lia|].
  cbn [Re.finditer_from].
  destruct (Re.search_from r b a) as [m|] eqn:E.
  - pose proof (search_from_sound _ _ _ _ E) as (pre & Ea & Ep & Ee & M).
    pose proof (Hne _ _ _ _ M) as Hw. unfold Re.resume.
    destruct (Re.f_text m) as [|x w] eqn:Et; [contradiction|]. rewrite <- Et in *.
    rewrite Ea. apply FT_next; try assumption.
    + intros g1 g2 w' rest c Eg Hg2 Ew Mw.
      apply rmatch_complete in Mw. rewrite <- Ew in Mw.
      rewrite (search_from_first _ _ _ _ E g1 (g2 ++ Re.f_text m ++ Re.f_rest m)) in Mw.
      * exact Mw.
      * rewrite Ea, Eg, <- app_assoc. reflexivity.
      * rewrite Ep, Eg, length_app, length_rev, length_app.
        destruct g2; [contradiction|]. simpl. lia.
    + apply IH. rewrite Ea, Et, !length_app in Hf. simpl in Hf. lia.
  - apply FT_end. intros g1 g2 w rest c Ea Eg M. subst g2.
    apply rmatch_complete in M.
    rewrite (search_from_none _ _ _ E g1 (w ++ rest) Ea) in M. exact M.
Qed.

Lemma matches_grow (r : Re.regex) b w a c c' :
  matches r b w a c c' -> exists c1, c' = c1 ++ c.
Proof.
  induction 1; try (exists []; reflexivity); try assumption.
  - destruct IHmatches1 as (c1' & ->). destruct IHmatches2 as (c2' & ->).
    exists (c2' ++ c1'). rewrite app_assoc. reflexivity.
  - destruct IHmatches as (c1' & ->). exists ((n, w) :: c1'). reflexivity.
Qed.

Lemma group_kept (c1 c : Re.caps) (k : nat) :
  Re.group c k <> None -> Re.group (c1 ++ c) k <> None.
Proof.
  intros H. induction c1 as [|[n w] c1 IH]; simpl; [exact H|].
  destruct (Nat.eqb n k); [discriminate|exact IH].
Qed.

(** When the first way a pattern that begins with an optional group
    matches leaves the group out, the pattern has no match that takes the
    group. *)
Lemma opt_group_first (k : nat) (r R : Re.regex) b a c x l :
  Re.rmatch (Re.Seq (Re.opt (Re.Grp k r)) R) b a c = x :: l ->
  Re.group (snd x) k = None ->
  In x (Re.rmatch R b a c) /\
  forall w1 w2 rest c1 c2,
    a = w1 ++ w2 ++ rest ->
    matches r b w1 (w2 ++ rest) c c1 ->
    ~ matches R (rev w1 ++ b) w2 rest ((k, w1) :: c1) c2.
Proof.
  unfold Re.opt. cbn [Re.rmatch]. rewrite flat_map_app. cbn [flat_map].
  rewrite app_nil_r. intros E Hg.
  match type of E with
  | ?L ++ _ = _ => destruct L as [|x' l'] eqn:F
  end.
  - simpl in E. split; [rewrite E; left; reflexivity|].
    intros w1 w2 rest c1 c2 Ea M1 M2. subst a.
    apply rmatch_complete in M1, M2.
    assert (Hin : In (rev w2 ++ rev w1 ++ b, rest, c2)
                    (flat_map (fun m => let '(b1, a1, c1) := m in Re.rmatch R b1 a1 c1)
                       (map (fun m => let '(b1, a1, c1) := m in
                                      (b1, a1, (k, firstn (length (w1 ++ w2 ++ rest)
                                                           - length a1) (w1 ++ w2 ++ rest))
                                               :: c1))
                            (Re.rmatch r b (w1 ++ w2 ++ rest) c)))).
    { apply in_flat_map. exists (rev w1 ++ b, w2 ++ rest, (k, w1) :: c1). split.
      - apply in_map_iff. exists (rev w1 ++ b, w2 ++ rest, c1).
        split; [|exact M1]. rewrite captured_exact. reflexivity.
      - exact M2. }
    rewrite F in Hin. exact Hin.
  - exfalso. simpl in E. injection E as -> _.
    assert (Hin : In x (x :: l')) by (left; reflexivity).
    rewrite <- F in Hin. apply in_flat_map in Hin.
    destruct Hin as ([[b1 a1] c1] & H1 & H2).
    apply in_map_iff in H1. destruct H1 as ([[b0 a0] c0] & E0 & _).
    injection E0 as <- <- <-.
    destruct x as [[b2 a2] c2]. apply rmatch_sound in H2.
    destruct H2 as (w & _ & _ & M). apply matches_grow in M.
    destruct M as (c' & ->). cbn [snd] in Hg. revert Hg.
    apply group_kept. simpl. rewrite Nat.eqb_refl. discriminate.
Qed.

(** ** [startswith] and [in] *)

Lemma startswith_iff (s p : text) :
  Py.startswith s p = true <-> exists r, s = p ++ r.
Proof.
  revert s. induction p as [|x p IH]; intros s; simpl.
  - split; [intros _; exists s; reflexivity|reflexivity].
  - destruct s as [|c s].
    + split; [discriminate|intros (r & E); discriminate E].
    + rewrite andb_true_iff, Ascii.eqb_eq, IH. split.
      * intros (-> & r & ->). exists r. reflexivity.
      * intros (r & E). injection E as -> ->. eauto.
Qed.

Lemma contains_iff (t s : text) :
  Py.contains t s = true <-> stands_in s t.
Proof.
  induction t as [|c t IH]; cbn [Py.contains].
  - rewrite orb_false_r, startswith_iff. split.
    + intros (r & E). exists [], r. exact E.
    + intros (pre & post & E). destruct pre; [|discriminate E]. eauto.
  - rewrite orb_true_iff, startswith_iff, IH. split.
    + intros [(r & E)|(pre & post & E)].
      * exists [], r. exact E.
      * exists (c :: pre), post. rewrite E. reflexivity.
    + intros (pre & post & E). destruct pre as [|x pre].
      * left. exists post. exact E.
      * right. injection E as _ E. exists pre, post. exact E.
Qed.

Lemma contains_not (t s : text) :
  Py.contains t s = false <-> ~ stands_in s t.
Proof.
  rewrite <- contains_iff. destruct (Py.contains t s); split; congruence.
Qed.

(** ** Numbers *)

Lemma digit_val_bound (c : ascii) :
  is_digit c = true -> 0 <= digit_val c <= 9.
Proof.
  unfold is_digit, between, digit_val. intros H.
  apply andb_prop in H. destruct H as [H1 H2].
  apply N.leb_le in H1. apply N.leb_le in H2. lia.
Qed.

Lemma int_acc_digits (w : text) :
  forallb is_digit w = true ->
  forall acc, 0 <= acc ->
    exists z, int_acc w acc = Some z /\
              acc * 10 ^ Z.of_nat (length w) <= z
              < (acc + 1) * 10 ^ Z.of_nat (length w).
Proof.
  induction w as [|x w IH]; intros Hd acc Hacc; cbn [forallb int_acc length] in *.
  - exists acc. split; [reflexivity|simpl; lia].
  - apply andb_prop in Hd. destruct Hd as [Hx Hw]. rewrite Hx.
    pose proof (digit_val_bound x Hx) as Hv.
    destruct (IH Hw (10 * acc + digit_val x)) as (z & Ez & Hz); [lia|].
    exists z. split; [exact Ez|].
    rewrite Nat2Z.inj_succ, Z.pow_succ_r by lia.
    assert (0 < 10 ^ Z.of_nat (length w)) by (apply Z.pow_pos_nonneg; lia).
    nia.
Qed.

(** [int] succeeds on a string of digits; the value is below [10 ^ hi]. *)
Lemma int_digits (lo hi : nat) (w : text) :
  digits lo hi w -> (1 <= lo)%nat ->
  exists z, int w = Ok z /\ 0 <= z < 10 ^ Z.of_nat hi.
Proof.
  intros [Hd [Hlo Hhi]] H1. destruct (int_acc_digits w Hd 0) as (z & Ez & Hz); [lia|].
  exists z. unfold int. destruct w as [|x w]; [simpl in Hlo; lia|].
  rewrite Ez. split; [reflexivity|].
  assert (10 ^ Z.of_nat (length (x :: w)) <= 10 ^ Z.of_nat hi)
    by (apply Z.pow_le_mono_r; lia).
  lia.
Qed.

Lemma int_group_num (m : Re.found) (n lo hi : nat) :
  num_group (Re.f_caps m) n lo hi -> (1 <= lo)%nat ->
  exists z, TAFDecoder.int_group m n = Ok z /\ 0 <= z < 10 ^ Z.of_nat hi.
Proof.
  intros (w & E & D) H. unfold TAFDecoder.int_group, Re.grp. rewrite E.
  eapply int_digits; eassumption.
Qed.

(** A property checked on every integer below [n] holds of each. *)
Lemma below_all (P : Z -> bool) (n : nat) :
  forallb P (map Z.of_nat (seq 0 n)) = true ->
  forall z, 0 <= z < Z.of_nat n -> P z = true.
Proof.
  intros H z Hz. rewrite forallb_forall in H. apply H.
  apply in_map_iff. exists (Z.to_nat z). split; [lia|].
  apply in_seq. lia.
Qed.

Lemma result_is_ok (r : result Z) (z : Z) : result_is r z = true -> r = Ok z.
Proof.
  destruct r; simpl; [|discriminate]. intros H. apply Z.eqb_eq in H. congruence.
Qed.

(** The floating-point product [v * 0.514], truncated, is the integer part
    of the exact product for every speed of at most three digits. *)
Lemma kt_to_mps_exact (v : Z) :
  0 <= v < 1000 -> TAFDecoder.kt_to_mps v = Ok (v * 514 / 1000).
Proof.
  intros H. apply result_is_ok.
  apply (below_all (fun v => result_is (TAFDecoder.kt_to_mps v) (v * 514 / 1000)) 1000);
    [vm_compute; reflexivity|lia].
Qed.

(** [int((d + 22.5) / 45) % 8] is the integer part of the exact quotient,
    reduced modulo 8, for every direction of three digits. *)
Lemma dir_idx_exact (d : Z) :
  0 <= d < 1000 -> TAFDecoder.dir_idx d = Ok (sector d).
Proof.
  intros H. apply result_is_ok.
  apply (below_all (fun d => result_is (TAFDecoder.dir_idx d) (sector d)) 1000);
    [vm_compute; reflexivity|lia].
Qed.

(** [int(height_ft * 0.3048)] for a height of three digits of hundreds of
    feet. *)
Lemma ft_to_m_exact (h : Z) :
  0 <= h < 1000 -> TAFDecoder.ft_to_m (h * 100) = Ok (h * 100 * 3048 / 10000).
Proof.
  intros H. apply result_is_ok.
  apply (below_all (fun h => result_is (TAFDecoder.ft_to_m (h * 100))
                                       (h * 100 * 3048 / 10000)) 1000);
    [vm_compute; reflexivity|lia].
Qed.

Lemma directions_at_ok (i : Z) :
  0 <= i < 8 -> exists t, TAFDecoder.directions_at i = Ok t.
Proof.
  intros H. unfold TAFDecoder.directions_at.
  destruct (nth_error TAFDecoder.directions (Z.to_nat i)) eqn:E; [eauto|].
  apply nth_error_None in E. simpl in E. lia.
Qed.

(** ** What the patterns capture *)

Ltac inv_step :=
  match goal with
  | H : matches Re.Eps _ _ _ _ _ |- _ => inversion H; subst; clear H
  | H : matches (Re.Cls _) _ _ _ _ _ |- _ => inversion H; subst; clear H
  | H : matches (Re.Seq _ _) _ _ _ _ _ |- _ => inversion H; subst; clear H
  | H : matches (Re.Alt _ _) _ _ _ _ _ |- _ => inversion H; subst; clear H
  | H : matches (Re.Rep _ _ _ _) _ _ _ _ _ |- _ => inversion H; subst; clear H
  | H : matches (Re.Grp _ _) _ _ _ _ _ |- _ => inversion H; subst; clear H
  | H : matches (Re.Ahead _) _ _ _ _ _ |- _ => inversion H; subst; clear H
  | H : matches Re.Bol _ _ _ _ _ |- _ => inversion H; subst; clear H
  | H : matches Re.Eol _ _ _ _ _ |- _ => inversion H; subst; clear H
  | H : matches Re.WordB _ _ _ _ _ |- _ => inversion H; subst; clear H
  end.

Ltac unfold_re H :=
  cbv [Re.seqs Re.lit Re.lit_i Re.opt Re.plus Re.star Re.times Re.upto
       fold_right map str list_ascii_of_string] in H.

(** Take a match of a pattern written out apart, down to its characters. *)
Ltac inv_matches H := unfold_re H; repeat inv_step.

Ltac solve_num :=
  eexists; split; [reflexivity|split; [assumption|simpl in *; lia]].

Ltac solve_groups :=
  repeat split;
  try solve_num; try (right; solve_num); try (left; reflexivity).

Lemma between_digit (hi : N) (x : ascii) :
  (hi <= 57)%N -> between 48 hi x = true -> is_digit x = true.
Proof.
  unfold is_digit, between. intros Hhi H. apply andb_prop in H.
  destruct H as [H1 H2]. apply N.leb_le in H2.
  rewrite H1. apply N.leb_le. lia.
Qed.

Lemma two_digits_word (hi : N) b w a c c' :
  (hi <= 57)%N -> matches (TAFDecoder.two_digits hi) b w a c c' ->
  digits 2 2 w /\ c' = c.
Proof.
  intros Hhi H. unfold TAFDecoder.two_digits in H. repeat inv_step.
  split; [|reflexivity]. split; [|simpl; lia].
  repeat match goal with
  | H : between 48 hi _ = true |- _ => apply (between_digit hi _ Hhi) in H
  end.
  simpl.
  repeat match goal with
  | E : is_digit _ = true |- _ => rewrite E; clear E
  end.
  reflexivity.
Qed.

Lemma issue_re_groups b w a c :
  matches TAFDecoder.issue_re b w a [] c ->
  num_group c 1 2 2 /\ num_group c 2 2 2 /\ num_group c 3 2 2.
Proof.
  intros H. unfold TAFDecoder.issue_re in H. unfold_re H.
  repeat match goal with
  | H : matches (TAFDecoder.two_digits _) _ _ _ _ _ |- _ =>
      apply two_digits_word in H; [destruct H as [? ->]|lia]
  | H : matches (Re.Grp _ (TAFDecoder.two_digits _)) _ _ _ _ _ |- _ =>
      inversion H; subst; clear H
  | H : matches (Re.Seq _ _) _ _ _ _ _ |- _ => inversion H; subst; clear H
  | H : matches (Re.Cls _) _ _ _ _ _ |- _ => inversion H; subst; clear H
  | H : matches Re.Eps _ _ _ _ _ |- _ => inversion H; subst; clear H
  end.
  repeat split; eexists; (split; [reflexivity|assumption]).
Qed.

Lemma valid_re_groups b w a c :
  matches TAFDecoder.valid_re b w a [] c ->
  num_group c 1 2 2 /\ num_group c 2 2 2 /\ num_group c 3 2 2 /\
  num_group c 4 2 2.
Proof.
  intros H. unfold TAFDecoder.valid_re in H. unfold_re H.
  repeat match goal with
  | H : matches (TAFDecoder.two_digits _) _ _ _ _ _ |- _ =>
      apply two_digits_word in H; [destruct H as [? ->]|lia]
  | H : matches (Re.Grp _ (TAFDecoder.two_digits _)) _ _ _ _ _ |- _ =>
      inversion H; subst; clear H
  | H : matches (Re.Seq _ _) _ _ _ _ _ |- _ => inversion H; subst; clear H
  | H : matches (Re.Cls _) _ _ _ _ _ |- _ => inversion H; subst; clear H
  | H : matches Re.Eps _ _ _ _ _ |- _ => inversion H; subst; clear H
  end.
  repeat split; eexists; (split; [reflexivity|assumption]).
Qed.

Lemma is_char_eq (x y : ascii) : is_char x y = true -> y = x.
Proof. unfold is_char. apply Ascii.eqb_eq. Qed.

Ltac chars :=
  repeat match goal with
  | H : is_char _ _ = true |- _ => apply is_char_eq in H; subst
  end.

Ltac digit_list n :=
  match goal with
  | H1 : (n <= length ?w)%nat, H2 : (length ?w <= n)%nat,
    F : forallb is_digit ?w = true |- _ =>
      repeat (destruct w as [|? w]; [simpl in H1; lia|]);
      destruct w; [|simpl in H2; lia]; clear H1 H2;
      cbn [forallb] in F;
      repeat (apply andb_prop in F; let D := fresh "D" in destruct F as [D F])
  end.

Lemma vrb_re_groups b w a c :
  matches TAFDecoder.vrb_re b w a [] c ->
  num_group c 1 2 3 /\ (Re.group c 3 = None \/ num_group c 3 2 3) /\
  unit_group c 4.
Proof.
  intros H. unfold TAFDecoder.vrb_re in H. inv_matches H. all: chars.
  all: solve_groups; try (left; reflexivity); try (right; reflexivity).
Qed.

Lemma wind_re_groups b w a c :
  matches TAFDecoder.wind_re b w a [] c ->
  num_group c 1 3 3 /\ num_group c 2 2 3 /\
  (Re.group c 4 = None \/ num_group c 4 2 3) /\ unit_group c 5.
Proof.
  intros H. unfold TAFDecoder.wind_re in H. inv_matches H. all: chars.
  all: solve_groups; try (left; reflexivity); try (right; reflexivity).
Qed.

Lemma vis_re_groups b w a c :
  matches TAFDecoder.vis_re b w a [] c -> num_group c 1 4 4.
Proof.
  intros H. unfold TAFDecoder.vis_re in H. inv_matches H. solve_num.
Qed.

Lemma cloud_re_groups b w a c :
  matches TAFDecoder.cloud_re b w a [] c -> num_group c 2 3 3.
Proof.
  intros H. unfold TAFDecoder.cloud_re in H. inv_matches H. all: solve_num.
Qed.

Lemma temp_re_groups b w a c :
  matches TAFDecoder.temp_re b w a [] c -> num_group c 2 2 2.
Proof.
  intros H. unfold TAFDecoder.temp_re in H. inv_matches H. all: solve_num.
Qed.

Lemma change_split_re_group b w a c :
  matches TAFDecoder.change_split_re b w a [] c -> Re.group c 1 <> None.
Proof.
  intros H. unfold TAFDecoder.change_split_re in H. inv_matches H.
  all: simpl; discriminate.
Qed.

(** ** The wind parser *)

Lemma int_group_opt_num (m : Re.found) (n : nat) :
  Re.group (Re.f_caps m) n = None \/ num_group (Re.f_caps m) n 2 3 ->
  exists g, TAFDecoder.int_group_opt m n = Ok g /\ small g.
Proof.
  unfold TAFDecoder.int_group_opt, Re.grp. intros [E|(w & E & D)]; rewrite E.
  - exists None. simpl. auto.
  - destruct (int_digits 2 3 w D) as (z & Ez & Hz); [lia|].
    destruct w as [|x w]; [destruct D as [_ [D _]]; simpl in D; lia|].
    rewrite Ez. exists (Some z). simpl. split; [reflexivity|lia].
Qed.

Lemma gusts_to_mps_exact (g : option Z) :
  small g -> TAFDecoder.gusts_to_mps g = Ok (snd (mps_pair true 0 g)).
Proof.
  destruct g as [z|]; simpl; intros H; [|reflexivity].
  destruct (z =? 0); simpl; [reflexivity|].
  rewrite kt_to_mps_exact by exact H. reflexivity.
Qed.

(** The conversion both wind branches apply to the speed and the gusts. *)
Lemma convert_exact (unit : text) (v : Z) (g : option Z) :
  0 <= v < 1000 -> small g ->
  (if Py.text_eqb unit (str "KT")
   then speed_mps <- TAFDecoder.kt_to_mps v ;;
        gusts_mps <- TAFDecoder.gusts_to_mps g ;;
        Ok (speed_mps, gusts_mps)
   else Ok (v, g))
  = Ok (mps_pair (Py.text_eqb unit (str "KT")) v g).
Proof.
  intros Hv Hg. destruct (Py.text_eqb unit (str "KT")); [|reflexivity].
  rewrite kt_to_mps_exact by exact Hv. cbn [bind].
  rewrite gusts_to_mps_exact by exact Hg. reflexivity.
Qed.

Lemma sector_bound (d : Z) : 0 <= sector d < 8.
Proof. unfold sector. apply Z.mod_pos_bound. lia. Qed.

(** The fixed-direction branch of [_parse_wind]. *)
Lemma parse_wind_fixed (t : text) (m : Re.found) :
  calm t = false ->
  Re.search TAFDecoder.vrb_re t = None ->
  Re.search TAFDecoder.wind_re t = Some m ->
  exists d v g dir_text w,
    TAFDecoder.int_group m 1 = Ok d /\ 0 <= d < 1000 /\
    TAFDecoder.int_group m 2 = Ok v /\ 0 <= v < 1000 /\
    TAFDecoder.int_group_opt m 4 = Ok g /\ small g /\
    nth_error TAFDecoder.directions (Z.to_nat (sector d)) = Some dir_text /\
    TAFDecoder._parse_wind t = Ok (Some w) /\
    speed w = fst (mps_pair (is_kt m 5) v g) /\
    gusts w = snd (mps_pair (is_kt m 5) v g) /\
    direction w = Degrees d /\
    direction_text w = Some dir_text.
Proof.
  intros Hc Hv Hw. unfold TAFDecoder._parse_wind. fold (calm t).
  rewrite Hc, Hv, Hw.
  destruct (search_sound _ _ _ Hw) as (pre & _ & M).
  apply wind_re_groups in M. destruct M as (G1 & G2 & G4 & _).
  destruct (int_group_num m 1 3 3 G1) as (d & Ed & Hd); [lia|].
  destruct (int_group_num m 2 2 3 G2) as (v & Ev & Hv'); [lia|].
  destruct (int_group_opt_num m 4 G4) as (g & Eg & Hg).
  change (10 ^ Z.of_nat 3) with 1000 in *.
  rewrite Ed, Ev, Eg. cbn [bind].
  fold (unit_of m 5). rewrite convert_exact by assumption. cbn [bind].
  fold (is_kt m 5).
  destruct (mps_pair (is_kt m 5) v g) as [speed_mps gusts_mps] eqn:Ep.
  rewrite dir_idx_exact by exact Hd. cbn [bind].
  pose proof (sector_bound d) as Hi.
  unfold TAFDecoder.directions_at.
  destruct (nth_error TAFDecoder.directions _) as [dt|] eqn:En;
    [|apply nth_error_None in En;
      change (length TAFDecoder.directions) with 8%nat in En; lia].
  cbn [bind].
  exists d, v, g, dt. eexists.
  repeat split; try eassumption; try reflexivity; try lia;
    try (rewrite Ep; reflexivity).
Qed.

(** The variable-direction branch of [_parse_wind]. *)
Lemma parse_wind_vrb (t : text) (m : Re.found) :
  calm t = false ->
  Re.search TAFDecoder.vrb_re t = Some m ->
  exists v g w,
    TAFDecoder.int_group m 1 = Ok v /\ 0 <= v < 1000 /\
    TAFDecoder.int_group_opt m 3 = Ok g /\ small g /\
    TAFDecoder._parse_wind t = Ok (Some w) /\
    speed w = fst (mps_pair (is_kt m 4) v g) /\
    gusts w = snd (mps_pair (is_kt m 4) v g) /\
    direction w = VariableDirection /\
    direction_text w = None.
Proof.
  intros Hc Hm. unfold TAFDecoder._parse_wind. fold (calm t).
  rewrite Hc, Hm.
  destruct (search_sound _ _ _ Hm) as (pre & _ & M).
  apply vrb_re_groups in M. destruct M as (G1 & G3 & _).
  destruct (int_group_num m 1 2 3 G1) as (v & Ev & Hv'); [lia|].
  destruct (int_group_opt_num m 3 G3) as (g & Eg & Hg).
  change (10 ^ Z.of_nat 3) with 1000 in *.
  rewrite Ev, Eg. cbn [bind].
  fold (unit_of m 4). rewrite convert_exact by assumption. cbn [bind].
  fold (is_kt m 4).
  destruct (mps_pair (is_kt m 4) v g) as [speed_mps gusts_mps] eqn:Ep.
  exists v, g. eexists.
  repeat split; try eassumption; try reflexivity; try lia;
    try (rewrite Ep; reflexivity).
Qed.

(** [_parse_wind] never raises. *)
Lemma parse_wind_total (t : text) : exists r, TAFDecoder._parse_wind t = Ok r.
Proof.
  destruct (calm t) eqn:Hc.
  - unfold TAFDecoder._parse_wind. fold (calm t). rewrite Hc. eauto.
  - destruct (Re.search TAFDecoder.vrb_re t) as [m|] eqn:Ev.
    + destruct (parse_wind_vrb t m Hc Ev) as (v & g & w & H). eexists. apply H.
    + destruct (Re.search TAFDecoder.wind_re t) as [m|] eqn:Ew.
      * destruct (parse_wind_fixed t m Hc Ev Ew) as (d & v & g & dt & w & H).
        eexists. apply H.
      * unfold TAFDecoder._parse_wind. fold (calm t). rewrite Hc, Ev, Ew. eauto.
Qed.

(** ** The other field parsers *)

(** The whitespace-delimited token branch of [_parse_visibility]. *)
Lemma parse_visibility_token (t : text) (m : Re.found) :
  Py.contains t (str "CAVOK") = false ->
  Py.contains t (str "9999") = false ->
  Re.search TAFDecoder.vis_re t = Some m ->
  exists mt v,
    TAFDecoder.int_group m 1 = Ok mt /\ 0 <= mt < 10000 /\
    TAFDecoder._parse_visibility t = Ok (Some v) /\
    meters v = mt /\ quality v = Some (TAFDecoder.vis_quality mt).
Proof.
  intros H1 H2 Hm. unfold TAFDecoder._parse_visibility. rewrite H1, H2, Hm.
  destruct (search_sound _ _ _ Hm) as (pre & _ & M).
  apply vis_re_groups in M.
  destruct (int_group_num m 1 4 4 M) as (mt & E & Hmt); [lia|].
  change (10 ^ Z.of_nat 4) with 10000 in Hmt.
  rewrite E. cbn [bind]. exists mt. eexists.
  repeat split; try reflexivity; lia.
Qed.

Lemma parse_visibility_total (t : text) :
  exists r, TAFDecoder._parse_visibility t = Ok r.
Proof.
  destruct (Py.contains t (str "CAVOK")) eqn:H1;
    [unfold TAFDecoder._parse_visibility; rewrite H1; eauto|].
  destruct (Py.contains t (str "9999")) eqn:H2;
    [unfold TAFDecoder._parse_visibility; rewrite H1, H2; eauto|].
  destruct (Re.search TAFDecoder.vis_re t) as [m|] eqn:Hm.
  - destruct (parse_visibility_token t m H1 H2 Hm) as (mt & v & H).
    eexists. apply H.
  - unfold TAFDecoder._parse_visibility. rewrite H1, H2, Hm. eauto.
Qed.

Lemma collect_ok {A B : Type} (f : A -> result B) (l : list A) :
  (forall x, In x l -> exists y, f x = Ok y) ->
  exists ys, TAFDecoder.collect f l = Ok ys.
Proof.
  induction l as [|x l IH]; intros H; simpl; [eauto|].
  destruct (H x) as (y & Ey); [left; reflexivity|]. rewrite Ey. cbn [bind].
  destruct IH as (ys & Eys); [intros z Hz; apply H; right; exact Hz|].
  rewrite Eys. cbn [bind]. eauto.
Qed.

Lemma cloud_of_match_ok (m : Re.found) :
  num_group (Re.f_caps m) 2 3 3 ->
  exists h c, TAFDecoder.int_group m 2 = Ok h /\ 0 <= h < 1000 /\
              TAFDecoder.cloud_of_match m = Ok c /\
              height_ft c = h * 100 /\
              height_m c = h * 100 * 3048 / 10000.
Proof.
  intros G. destruct (int_group_num m 2 3 3 G) as (h & E & Hh); [lia|].
  change (10 ^ Z.of_nat 3) with 1000 in Hh.
  unfold TAFDecoder.cloud_of_match. rewrite E. cbn [bind].
  rewrite ft_to_m_exact by exact Hh. cbn [bind].
  exists h. eexists. repeat split; try reflexivity; lia.
Qed.

Lemma parse_clouds_total (t : text) :
  exists r, TAFDecoder._parse_clouds t = Ok r.
Proof.
  apply collect_ok. intros m Hm. apply finditer_sound in Hm.
  apply cloud_re_groups in Hm.
  destruct (cloud_of_match_ok m Hm) as (h & c & _ & _ & E & _). eauto.
Qed.

Lemma parse_temperature_total (t : text) :
  exists r, TAFDecoder._parse_temperature t = Ok r.
Proof.
  unfold TAFDecoder._parse_temperature.
  destruct (Re.search TAFDecoder.temp_re t) as [m|] eqn:Hm; [|eauto].
  destruct (search_sound _ _ _ Hm) as (pre & _ & M).
  apply temp_re_groups in M.
  destruct (int_group_num m 2 2 2 M) as (v & E & _); [lia|].
  rewrite E. cbn [bind]. eauto.
Qed.

(** ** The methods of the decoder never raise *)

Lemma quiet_seq (m1 m2 : TAFDecoder.M unit) :
  quiet m1 -> quiet m2 -> quiet (TAFDecoder.mbind m1 (fun _ => m2)).
Proof.
  intros H1 H2 d. destruct (H1 d) as (d1 & E1 & He1).
  destruct (H2 d1) as (d2 & E2 & He2).
  exists d2. unfold TAFDecoder.mbind. rewrite E1, E2. split; congruence.
Qed.

Lemma quiet_ret : quiet (TAFDecoder.ret tt).
Proof. intros d. exists d. auto. Qed.

Lemma quiet_modify (f : decoded -> decoded) :
  (forall d, error (f d) = error d) -> quiet (TAFDecoder.modify f).
Proof. intros H d. exists (f d). auto. Qed.

Lemma quiet_lift {A : Type} (r : result A) (a : A) (k : A -> TAFDecoder.M unit) :
  r = Ok a -> quiet (k a) -> quiet (TAFDecoder.mbind (TAFDecoder.lift r) k).
Proof. intros -> H d. exact (H d). Qed.

Lemma parse_header_quiet (taf : text) : quiet (TAFDecoder._parse_header taf).
Proof.
  unfold TAFDecoder._parse_header. repeat apply quiet_seq.
  - destruct (Re.search TAFDecoder.station_re taf);
      [apply quiet_modify; reflexivity|apply quiet_ret].
  - destruct (Re.search TAFDecoder.issue_re taf) as [m|] eqn:Hm; [|apply quiet_ret].
    destruct (search_sound _ _ _ Hm) as (pre & _ & M).
    apply issue_re_groups in M. destruct M as (G1 & G2 & G3).
    destruct (int_group_num m 1 2 2 G1) as (z1 & E1 & _); [lia|].
    destruct (int_group_num m 2 2 2 G2) as (z2 & E2 & _); [lia|].
    destruct (int_group_num m 3 2 2 G3) as (z3 & E3 & _); [lia|].
    repeat (eapply quiet_lift; [eassumption|]).
    apply quiet_modify. reflexivity.
  - destruct (Re.search TAFDecoder.valid_re taf) as [m|] eqn:Hm; [|apply quiet_ret].
    destruct (search_sound _ _ _ Hm) as (pre & _ & M).
    apply valid_re_groups in M. destruct M as (G1 & G2 & G3 & G4).
    destruct (int_group_num m 1 2 2 G1) as (z1 & E1 & _); [lia|].
    destruct (int_group_num m 2 2 2 G2) as (z2 & E2 & _); [lia|].
    destruct (int_group_num m 3 2 2 G3) as (z3 & E3 & _); [lia|].
    destruct (int_group_num m 4 2 2 G4) as (z4 & E4 & _); [lia|].
    repeat (eapply quiet_lift; [eassumption|]).
    apply quiet_modify. reflexivity.
Qed.

Lemma main_part_ok (taf : text) : exists p, TAFDecoder.main_part taf = Ok p.
Proof.
  unfold TAFDecoder.main_part, Re.split.
  destruct (split_from_shape TAFDecoder.main_split_re (S (length taf)) [] taf);
    eauto.
Qed.

Lemma parse_main_forecast_quiet (taf : text) :
  quiet (TAFDecoder._parse_main_forecast taf).
Proof.
  unfold TAFDecoder._parse_main_forecast.
  destruct (main_part_ok taf) as (p & Ep).
  eapply quiet_lift; [exact Ep|].
  destruct (parse_wind_total p) as (w & Ew).
  eapply quiet_lift; [exact Ew|].
  apply quiet_seq; [apply quiet_modify; reflexivity|].
  destruct (parse_visibility_total p) as (v & Ev).
  eapply quiet_lift; [exact Ev|].
  apply quiet_seq; [apply quiet_modify; reflexivity|].
  apply quiet_seq; [apply quiet_modify; reflexivity|].
  destruct (parse_clouds_total p) as (c & Ec).
  eapply quiet_lift; [exact Ec|].
  apply quiet_seq; [apply quiet_modify; reflexivity|].
  destruct (parse_temperature_total p) as (tm & Et).
  eapply quiet_lift; [exact Et|].
  apply quiet_modify. reflexivity.
Qed.

Lemma changes_of_ok (l : list (option text)) :
  split_shape TAFDecoder.change_split_re l ->
  exists cs, TAFDecoder.changes_of (tl l) = Ok cs.
Proof.
  induction 1 as [p|p m rest M Hrest IH]; [simpl; eauto|].
  cbn [tl]. apply change_split_re_group in M.
  destruct (Re.grp m 1) as [ind|] eqn:Eg; [|exfalso; apply M; exact Eg].
  destruct IH as (cs & Ecs).
  assert (Hc : exists content, rest = Some content :: tl rest)
    by (destruct Hrest; simpl; eauto).
  destruct Hc as (content & Er). rewrite Er.
  cbn [TAFDecoder.changes_of TAFDecoder.strip_part bind].
  destruct (parse_wind_total (Py.strip content)) as (w & Ew). rewrite Ew.
  destruct (parse_visibility_total (Py.strip content)) as (v & Ev). rewrite Ev.
  destruct (parse_clouds_total (Py.strip content)) as (c & Ec). rewrite Ec.
  cbn [bind]. rewrite Ecs. cbn [bind]. eauto.
Qed.

Lemma parse_changes_quiet (taf : text) : quiet (TAFDecoder._parse_changes taf).
Proof.
  unfold TAFDecoder._parse_changes.
  destruct (changes_of_ok (Re.split TAFDecoder.change_split_re 1 taf)) as (cs & E);
    [apply split_from_shape|].
  eapply quiet_lift; [exact E|]. apply quiet_modify. reflexivity.
Qed.

Lemma generate_human_text_quiet : quiet TAFDecoder._generate_human_text.
Proof. intros d. eexists. split; reflexivity. Qed.

Lemma decode_body_quiet (raw_taf : text) : quiet (TAFDecoder.decode_body raw_taf).
Proof.
  unfold TAFDecoder.decode_body.
  apply quiet_seq; [apply parse_header_quiet|].
  apply quiet_seq; [apply parse_main_forecast_quiet|].
  apply quiet_seq; [apply parse_changes_quiet|].
  apply generate_human_text_quiet.
Qed.

(** No text makes [decode] report an error. *)
Lemma decode_no_error (taf_text : text) :
  error (TAFDecoder.decode taf_text) = None.
Proof.
  unfold TAFDecoder.decode.
  destruct (decode_body_quiet (Py.strip taf_text)
              (TAFDecoder.initial (Py.strip taf_text))) as (d & E & He).
  rewrite E. exact He.
Qed.

(** ** Groups that every match binds *)

Lemma matches_binds (n : nat) r b w a c c' :
  matches r b w a c c' ->
  binds r n = true \/ Re.group c n <> None ->
  Re.group c' n <> None.
Proof.
  induction 1; cbn [binds Re.group]; intros Hb;
    try (destruct Hb as [Hb|Hb]; [discriminate|exact Hb]).
  - destruct Hb as [Hb|Hb].
    + apply orb_prop in Hb. destruct Hb as [Hb|Hb].
      * apply IHmatches2. right. apply IHmatches1. left. exact Hb.
      * apply IHmatches2. left. exact Hb.
    + apply IHmatches2. right. apply IHmatches1. right. exact Hb.
  - apply IHmatches. destruct Hb as [Hb|Hb]; [|right; exact Hb].
    apply andb_prop in Hb. left. apply Hb.
  - apply IHmatches. destruct Hb as [Hb|Hb]; [|right; exact Hb].
    apply andb_prop in Hb. left. apply Hb.
  - destruct (Nat.eqb n0 n) eqn:E; [discriminate|].
    apply IHmatches. destruct Hb as [Hb|Hb]; [left|right]; exact Hb.
Qed.

(** A group that the pattern always binds is there in what [search]
    finds. *)
Lemma search_binds (r : Re.regex) (t : text) (m : Re.found) (n : nat) :
  Re.search r t = Some m -> binds r n = true ->
  exists w, Re.grp m n = Some w.
Proof.
  intros H Hb. destruct (search_sound _ _ _ H) as (pre & _ & M).
  pose proof (matches_binds n _ _ _ _ _ _ M (or_introl Hb)) as Hn.
  unfold Re.grp. destruct (Re.group (Re.f_caps m) n); [eauto|contradiction].
Qed.

Lemma group_str_binds (r : Re.regex) (t : text) (m : Re.found) (n : nat) :
  Re.search r t = Some m -> binds r n = true ->
  exists w, NOTAMCollector.group_str m n = Ok w /\ Re.grp m n = Some w.
Proof.
  intros H Hb. destruct (search_binds r t m n H Hb) as (w & E).
  exists w. unfold NOTAMCollector.group_str. rewrite E. auto.
Qed.

Lemma stripped_group_ok (r : Re.regex) (t : text) :
  binds r 1 = true ->
  exists o, NOTAMCollector.stripped_group (Re.search r t) = Ok o.
Proof.
  intros Hb. destruct (Re.search r t) as [m|] eqn:E; [|simpl; eauto].
  destruct (group_str_binds r t m 1 E Hb) as (w & Ew & _).
  simpl. rewrite Ew. cbn [bind]. eauto.
Qed.

Lemma parse_q_ok (t : text) : exists q, NOTAMCollector.parse_q t = Ok q.
Proof.
  unfold NOTAMCollector.parse_q.
  destruct (Re.search NOTAMCollector.q_re t) as [m|] eqn:E; [|eauto].
  destruct (group_str_binds _ t m 1 E eq_refl) as (g1 & E1 & _).
  destruct (group_str_binds _ t m 2 E eq_refl) as (g2 & E2 & _).
  destruct (group_str_binds _ t m 3 E eq_refl) as (g3 & E3 & _).
  destruct (group_str_binds _ t m 4 E eq_refl) as (g4 & E4 & _).
  destruct (group_str_binds _ t m 5 E eq_refl) as (g5 & E5 & _).
  destruct (group_str_binds _ t m 6 E eq_refl) as (g6 & E6 & _).
  destruct (group_str_binds _ t m 7 E eq_refl) as (g7 & E7 & _).
  destruct (group_str_binds _ t m 8 E eq_refl) as (g8 & E8 & _).
  rewrite E1, E2, E3, E4, E5, E6, E7, E8. cbn [bind]. eauto.
Qed.

(** What [parse_c] returns, by the value of the C) field. *)
Lemma parse_c_spec (now_year : Z) (t : text) :
  match Re.search NOTAMCollector.c_re t with
  | None => NOTAMCollector.parse_c now_year t = Ok (None, false)
  | Some m =>
      exists c_value,
        Re.grp m 1 = Some c_value /\
        NOTAMCollector.parse_c now_year t =
        Ok (if Py.text_eqb c_value (str "PERM") then (None, true)
            else if Py.text_eqb c_value (str "EST") then (Some (str "EST"), false)
            else (NOTAMCollector._parse_notam_datetime now_year c_value, false))
  end.
Proof.
  unfold NOTAMCollector.parse_c.
  destruct (Re.search NOTAMCollector.c_re t) as [m|] eqn:E; [|reflexivity].
  destruct (group_str_binds _ t m 1 E eq_refl) as (w & Ew & Eg).
  exists w. rewrite Ew. cbn [bind]. split; [exact Eg|].
  destruct (Py.text_eqb w (str "PERM")); [reflexivity|].
  destruct (Py.text_eqb w (str "EST")); reflexivity.
Qed.

(** After the number matched, the body of [_parse_raw_notam] builds a
    record with the two groups of that match and the C) field as
    [parse_c] reads it. *)
Lemma raw_notam_body_found (now_year : Z) (t : text) (m : Re.found) :
  Re.search NOTAMCollector.id_re t = Some m ->
  exists n c,
    NOTAMCollector.raw_notam_body now_year t = Ok (Some n) /\
    Re.grp m 1 = Some (notam_id n) /\ Re.grp m 2 = Some (notam_type n) /\
    NOTAMCollector.parse_c now_year t = Ok c /\
    valid_to n = fst c /\ is_permanent n = snd c.
Proof.
  intros E. unfold NOTAMCollector.raw_notam_body. rewrite E.
  destruct (group_str_binds _ t m 1 E eq_refl) as (g1 & E1 & G1).
  destruct (group_str_binds _ t m 2 E eq_refl) as (g2 & E2 & G2).
  rewrite E1, E2. cbn [bind].
  destruct (parse_q_ok t) as (q & Eq). rewrite Eq. cbn [bind].
  assert (Hloc : exists loc,
             match Re.search NOTAMCollector.a_re t with
             | Some m0 => w <- NOTAMCollector.group_str m0 1 ;; Ok (Some w)
             | None => Ok (option_map fir q)
             end = Ok loc).
  { destruct (Re.search NOTAMCollector.a_re t) as [m0|] eqn:Ea; [|eauto].
    destruct (group_str_binds _ t m0 1 Ea eq_refl) as (w & Ew & _).
    rewrite Ew. cbn [bind]. eauto. }
  destruct Hloc as (loc & Eloc). rewrite Eloc. cbn [bind].
  assert (Hvf : exists vf,
             match Re.search NOTAMCollector.b_re t with
             | Some m0 => w <- NOTAMCollector.group_str m0 1 ;;
                          Ok (NOTAMCollector._parse_notam_datetime now_year w)
             | None => Ok None
             end = Ok vf).
  { destruct (Re.search NOTAMCollector.b_re t) as [m0|] eqn:Eb; [|eauto].
    destruct (group_str_binds _ t m0 1 Eb eq_refl) as (w & Ew & _).
    rewrite Ew. cbn [bind]. eauto. }
  destruct Hvf as (vf & Evf). rewrite Evf. cbn [bind].
  assert (Hc : exists c, NOTAMCollector.parse_c now_year t = Ok c).
  { pose proof (parse_c_spec now_year t) as H.
    destruct (Re.search NOTAMCollector.c_re t); [destruct H as (? & _ & H)|];
      eauto. }
  destruct Hc as (c & Ec). rewrite Ec. cbn [bind].
  destruct (stripped_group_ok (NOTAMCollector.line_re "D") t eq_refl) as (s1 & Es1).
  destruct (stripped_group_ok NOTAMCollector.e_re t eq_refl) as (s2 & Es2).
  destruct (stripped_group_ok (NOTAMCollector.line_re "F") t eq_refl) as (s3 & Es3).
  destruct (stripped_group_ok (NOTAMCollector.line_re "G") t eq_refl) as (s4 & Es4).
  rewrite Es1, Es2, Es3, Es4. cbn [bind].
  eexists. exists c. repeat split; assumption.
Qed.

(** ** The number and the kind of a NOTAM *)

Ltac norm_app :=
  cbn [app str list_ascii_of_string];
  rewrite ?app_nil_r, <- ?app_assoc; cbn [app].

Lemma id_re_sound b w a c :
  matches NOTAMCollector.id_re b w a [] c ->
  exists id ws k,
    w = id ++ ws ++ str "NOTAM" ++ [k] /\
    id_shape id /\ blanks ws /\ one_of "NRC" k = true /\
    Re.group c 1 = Some id /\ Re.group c 2 = Some [k].
Proof.
  intros H. unfold NOTAMCollector.id_re in H. inv_matches H. chars.
  match goal with
  | H1 : is_upper ?l = true, H2 : forallb is_space ?ws = true,
    H3 : one_of "NRC" ?k = true, H4 : (4 <= length ?d4)%nat,
    H5 : (2 <= length ?d2)%nat |- _ =>
      exists (l :: d4 ++ str "/" ++ d2), ws, k; repeat split;
        [ norm_app; reflexivity
        | exists l, d4, d2; repeat split; auto
        | assumption
        | intros ->; simpl in *; lia
        | assumption
        | norm_app; reflexivity ]
  end.
Qed.

Lemma M_seq r1 r2 b w w1 w2 a c c1 c2 :
  matches r1 b w1 (w2 ++ a) c c1 ->
  matches r2 (rev w1 ++ b) w2 a c1 c2 ->
  w = w1 ++ w2 ->
  matches (Re.Seq r1 r2) b w a c c2.
Proof. intros H1 H2 ->. econstructor; eassumption. Qed.

Lemma matches_lit (s : string) b a c :
  matches (Re.lit s) b (str s) a c c.
Proof.
  unfold Re.lit. revert b. induction (str s) as [|x l IH]; intros b; simpl.
  - constructor.
  - eapply (M_Seq _ _ _ [x] l); [constructor; apply Ascii.eqb_refl|apply IH].
Qed.

Lemma id_re_complete b a id ws k :
  id_shape id -> blanks ws -> one_of "NRC" k = true ->
  exists c, matches NOTAMCollector.id_re b (id ++ ws ++ str "NOTAM" ++ [k]) a [] c.
Proof.
  intros (l & d4 & d2 & -> & Hl & [D4 L4] & [D2 L2]) [Hws Hne] Hk.
  eexists. unfold NOTAMCollector.id_re.
  cbv [Re.seqs fold_right Re.plus Re.times].
  eapply M_seq;
    [apply M_Grp
    |eapply M_seq;
       [|eapply M_seq;
           [apply (matches_lit "NOTAM")
           |eapply M_seq; [apply M_Grp; apply M_Cls; exact Hk|apply M_Eps|]|]|]|].
  - eapply M_seq;
      [apply M_Cls; exact Hl
      |eapply M_seq;
         [apply (M_Rep _ _ _ _ _ d4); [exact D4|lia|lia]
         |eapply M_seq;
            [apply (matches_lit "/")
            |eapply M_seq;
               [apply (M_Rep _ _ _ _ _ d2); [exact D2|lia|lia]|apply M_Eps|]|]|]|];
      reflexivity.
  - apply (M_Rep _ _ _ _ _ ws);
      [exact Hws|destruct ws; [contradiction|simpl; lia]|exact I].
  - reflexivity.
  - reflexivity.
  - reflexivity.
  - norm_app. reflexivity.
Qed.

(** [search] for the number of a NOTAM finds its leftmost occurrence. *)
Lemma search_id_leftmost (t : text) (m : Re.found) :
  Re.search NOTAMCollector.id_re t = Some m ->
  exists pre id k,
    id_at t pre id k /\ Re.grp m 1 = Some id /\ Re.grp m 2 = Some [k] /\
    forall pre1 id1 k1, id_at t pre1 id1 k1 -> (length pre <= length pre1)%nat.
Proof.
  intros H. pose proof (search_from_sound _ _ _ _ H) as (pre & Et & Ep & _ & M).
  rewrite app_nil_r in Ep.
  destruct (id_re_sound _ _ _ _ M) as (id & ws & k & Ew & Hid & Hws & Hk & G1 & G2).
  exists pre, id, k. repeat split; try assumption.
  - exists ws, (Re.f_rest m). rewrite <- Ew. auto.
  - intros pre1 id1 k1 (ws1 & post1 & Et1 & Hid1 & Hws1 & Hk1).
    destruct (Nat.le_gt_cases (length pre) (length pre1)) as [Hle|Hgt]; [exact Hle|].
    exfalso.
    destruct (id_re_complete (rev pre1) post1 id1 ws1 k1 Hid1 Hws1 Hk1) as (c & Mc).
    apply rmatch_complete in Mc.
    assert (F : Re.rmatch NOTAMCollector.id_re (rev pre1 ++ [])
                  ((id1 ++ ws1 ++ str "NOTAM" ++ [k1]) ++ post1) [] = []).
    { apply (search_from_first _ _ _ _ H pre1 _ Et1).
      rewrite Ep, length_rev. simpl. lia. }
    rewrite app_nil_r in F. rewrite F in Mc. exact Mc.
Qed.

Lemma app_same_length {A : Type} (a a' b b' : list A) :
  length a = length a' -> a ++ b = a' ++ b' -> a = a' /\ b = b'.
Proof.
  revert a'. induction a as [|x a IH]; intros [|x' a'] Hl E; simpl in *;
    try discriminate; [auto|].
  inversion E; subst. destruct (IH a') as [-> ->]; auto.
Qed.

Lemma run_unique (p : ascii -> bool) (w w' : text) (x x' : ascii) (r r' : text) :
  forallb p w = true -> forallb p w' = true -> p x = false -> p x' = false ->
  w ++ x :: r = w' ++ x' :: r' -> w = w' /\ x = x' /\ r = r'.
Proof.
  revert w'. induction w as [|y w IH]; intros [|y' w'] Hw Hw' Hx Hx' E;
    simpl in *.
  - inversion E. auto.
  - inversion E; subst. apply andb_prop in Hw'. destruct Hw'. congruence.
  - inversion E; subst. apply andb_prop in Hw. destruct Hw. congruence.
  - inversion E; subst. apply andb_prop in Hw. apply andb_prop in Hw'.
    destruct (IH w') as (-> & -> & ->); tauto.
Qed.

Lemma id_shape_length (id : text) : id_shape id -> length id = 8%nat.
Proof.
  intros (l & d4 & d2 & -> & _ & [_ L4] & [_ L2]).
  simpl. rewrite !length_app. simpl. lia.
Qed.

(** At one position the number and the kind are determined. *)
Lemma id_at_unique (t pre id id' : text) (k k' : ascii) :
  id_at t pre id k -> id_at t pre id' k' -> id = id' /\ k = k'.
Proof.
  intros (ws & post & Et & Hid & [Hws _] & _) (ws' & post' & Et' & Hid' & [Hws' _] & _).
  rewrite Et in Et'. apply app_inv_head in Et'. revert Et'. norm_app. intros E.
  apply app_same_length in E;
    [|rewrite (id_shape_length id), (id_shape_length id'); auto].
  destruct E as [-> E]. split; [reflexivity|].
  apply run_unique with (p := is_space) in E; try assumption; try reflexivity.
  destruct E as (_ & _ & E). inversion E. reflexivity.
Qed.

Lemma raw_notam_none (now_year : Z) (t : text) :
  Re.search NOTAMCollector.id_re t = None ->
  NOTAMCollector._parse_raw_notam now_year t = None.
Proof.
  intros E. unfold NOTAMCollector._parse_raw_notam, NOTAMCollector.raw_notam_body.
  rewrite E. reflexivity.
Qed.

Lemma raw_notam_some (now_year : Z) (t : text) (n : notam) :
  NOTAMCollector._parse_raw_notam now_year t = Some n ->
  exists m c,
    Re.search NOTAMCollector.id_re t = Some m /\
    Re.grp m 1 = Some (notam_id n) /\ Re.grp m 2 = Some (notam_type n) /\
    NOTAMCollector.parse_c now_year t = Ok c /\
    valid_to n = fst c /\ is_permanent n = snd c.
Proof.
  intros H. destruct (Re.search NOTAMCollector.id_re t) as [m|] eqn:E;
    [|rewrite (raw_notam_none now_year t E) in H; discriminate].
  destruct (raw_notam_body_found now_year t m E) as (n' & c & Eb & H').
  unfold NOTAMCollector._parse_raw_notam in H. rewrite Eb in H.
  inversion H; subst n'. exists m, c. auto.
Qed.

(** The body of [_parse_raw_notam] never raises. *)
Lemma raw_notam_body_total (now_year : Z) (t : text) :
  exists r, NOTAMCollector.raw_notam_body now_year t = Ok r.
Proof.
  destruct (Re.search NOTAMCollector.id_re t) as [m|] eqn:E.
  - destruct (raw_notam_body_found now_year t m E) as (n & c & Eb & _). eauto.
  - unfold NOTAMCollector.raw_notam_body. rewrite E. eauto.
Qed.

Lemma text_eqb_eq (a b : text) : Py.text_eqb a b = true <-> a = b.
Proof.
  revert b. induction a as [|x a IH]; intros [|y b]; simpl;
    try (split; [discriminate|discriminate]); [split; reflexivity|].
  rewrite andb_true_iff, Ascii.eqb_eq, IH. split.
  - intros [-> ->]. reflexivity.
  - intros E. injection E as -> ->. auto.
Qed.

Lemma prefix_same_length (t pre pre' x x' : text) :
  t = pre ++ x -> t = pre' ++ x' -> length pre = length pre' -> pre = pre'.
Proof.
  intros -> E Hl. apply (app_same_length pre pre' x x' Hl) in E. apply E.
Qed.

(** ** The C) field *)

Lemma c_re_sound b w a c :
  matches NOTAMCollector.c_re b w a [] c ->
  exists ws v,
    w = str "C)" ++ ws ++ v /\ forallb is_space ws = true /\
    c_value_form v /\ Re.group c 1 = Some v.
Proof.
  intros H. unfold NOTAMCollector.c_re in H. inv_matches H. all: chars.
  all: match goal with
       | F : forallb is_space ?ws = true
         |- context [Re.group [(1%nat, ?v)] 1] =>
           exists ws, v; split; [norm_app; reflexivity|];
           split; [exact F|]; split; [|reflexivity]
       end.
  - left. split; [assumption|lia].
  - right. left. reflexivity.
  - right. right. reflexivity.
Qed.

Lemma c_re_complete b a ws v :
  forallb is_space ws = true -> c_value_form v ->
  exists c, matches NOTAMCollector.c_re b (str "C)" ++ ws ++ v) a [] c.
Proof.
  intros Hws Hv. eexists. unfold NOTAMCollector.c_re.
  cbv [Re.seqs fold_right Re.star Re.upto].
  eapply M_seq;
    [apply (matches_lit "C)")
    |eapply M_seq;
       [apply (M_Rep _ _ _ _ _ ws); [exact Hws|lia|exact I]
       |eapply M_seq; [apply M_Grp|apply M_Eps|]|]|].
  - destruct Hv as [[D [L1 L2]] | [E | E]]; try subst v.
    + apply M_AltL. apply M_Rep; [exact D|exact L1|exact L2].
    + apply M_AltR, M_AltL. apply (matches_lit "PERM").
    + apply M_AltR, M_AltR. apply (matches_lit "EST").
  - rewrite app_nil_r. reflexivity.
  - reflexivity.
  - reflexivity.
Qed.

Lemma search_c_leftmost (t : text) (m : Re.found) :
  Re.search NOTAMCollector.c_re t = Some m ->
  exists pre v,
    c_field_at t pre v /\ Re.grp m 1 = Some v /\
    forall pre1 v1, c_field_at t pre1 v1 -> (length pre <= length pre1)%nat.
Proof.
  intros H. pose proof (search_from_sound _ _ _ _ H) as (pre & Et & Ep & _ & M).
  rewrite app_nil_r in Ep.
  destruct (c_re_sound _ _ _ _ M) as (ws & v & Ew & Hws & Hv & G).
  exists pre, v. repeat split; try assumption.
  - exists ws, (Re.f_rest m). rewrite Et, Ew, <- !app_assoc. auto.
  - intros pre1 v1 (ws1 & post1 & Et1 & Hws1 & Hv1).
    destruct (Nat.le_gt_cases (length pre) (length pre1)) as [Hle|Hgt]; [exact Hle|].
    exfalso.
    destruct (c_re_complete (rev pre1) post1 ws1 v1 Hws1 Hv1) as (c & Mc).
    apply rmatch_complete in Mc.
    assert (F : Re.rmatch NOTAMCollector.c_re (rev pre1 ++ [])
                  ((str "C)" ++ ws1 ++ v1) ++ post1) [] = []).
    { apply (search_from_first _ _ _ _ H pre1).
      - rewrite Et1, <- !app_assoc. reflexivity.
      - rewrite Ep, length_rev. simpl. lia. }
    rewrite app_nil_r in F. rewrite F in Mc. exact Mc.
Qed.

Lemma value_head (v : text) :
  c_value_form v -> exists x r, v = x :: r /\ is_space x = false.
Proof.
  intros [[D [L _]] | [E | E]]; try subst v.
  - destruct v as [|x r]; [simpl in L; lia|]. exists x, r. split; [reflexivity|].
    simpl in D. apply andb_prop in D. destruct D as [D _].
    unfold is_digit, is_space, between in *. apply andb_prop in D.
    destruct D as [D1 D2]. apply N.leb_le in D1, D2.
    apply orb_false_iff. split; apply andb_false_iff; right; apply N.leb_gt; lia.
  - eexists _, _. split; reflexivity.
  - eexists _, _. split; reflexivity.
Qed.

(** At one position a C) field that reads PERM reads nothing else. *)
Lemma c_field_perm (t pre v : text) :
  c_field_at t pre (str "PERM") -> c_field_at t pre v -> v = str "PERM".
Proof.
  intros (ws & post & Et & Hws & _) (ws' & post' & Et' & Hws' & Hv).
  rewrite Et in Et'. apply app_inv_head in Et'.
  change (str "C)" ++ ws ++ str "PERM" ++ post)
    with ("C"%char :: ")"%char :: ws ++ "P"%char :: str "ERM" ++ post) in Et'.
  change (str "C)" ++ ws' ++ v ++ post')
    with ("C"%char :: ")"%char :: ws' ++ v ++ post') in Et'.
  injection Et' as E.
  destruct (value_head v Hv) as (x & r & Ev & Hx).
  rewrite Ev in E. cbn [app] in E.
  apply run_unique with (p := is_space) in E; try assumption; try reflexivity.
  destruct E as (_ & <- & E).
  destruct Hv as [[D _]|[Hv|Hv]].
  - rewrite Ev in D. simpl in D. discriminate D.
  - exact Hv.
  - rewrite Ev in Hv. discriminate Hv.
Qed.

(** * The claims of the specification *)

(** C7.  An ASCII text that holds no number of a NOTAM followed by blanks
    and NOTAMN, NOTAMR or NOTAMC gives no record; a text that holds one
    gives a record whose number and kind are, character for character,
    those of the leftmost such occurrence; and a record is only ever built
    from such an occurrence.  The function always returns: it never
    raises. *)
Theorem C7_extraction_fails_closed (now_year : Z) (t : text) :
  ascii_text t ->
  ((forall pre id k, ~ id_at t pre id k) ->
   NOTAMCollector._parse_raw_notam now_year t = None) /\
  (forall pre id k,
     id_at t pre id k ->
     (forall pre1 id1 k1, id_at t pre1 id1 k1 -> (length pre <= length pre1)%nat) ->
     exists n, NOTAMCollector._parse_raw_notam now_year t = Some n /\
               notam_id n = id /\ notam_type n = [k]) /\
  (forall n,
     NOTAMCollector._parse_raw_notam now_year t = Some n ->
     exists pre k, id_at t pre (notam_id n) k /\ notam_type n = [k] /\
       forall pre1 id1 k1, id_at t pre1 id1 k1 -> (length pre <= length pre1)%nat) /\
  (exists r, NOTAMCollector.raw_notam_body now_year t = Ok r).
Proof.
  intros _. repeat split.
  - intros Hno. apply raw_notam_none.
    destruct (Re.search NOTAMCollector.id_re t) as [m|] eqn:E; [|reflexivity].
    destruct (search_id_leftmost t m E) as (pre & id & k & Hat & _).
    exfalso. exact (Hno pre id k Hat).
  - intros pre id k Hat Hleft.
    destruct (Re.search NOTAMCollector.id_re t) as [m|] eqn:E.
    + destruct (raw_notam_body_found now_year t m E) as (n & c & Eb & G1 & G2 & _).
      destruct (search_id_leftmost t m E) as (pre' & id' & k' & Hat' & G1' & G2' & Hleft').
      exists n. unfold NOTAMCollector._parse_raw_notam. rewrite Eb.
      assert (Hlen : length pre = length pre')
        by (apply Nat.le_antisymm; [exact (Hleft _ _ _ Hat')|exact (Hleft' _ _ _ Hat)]).
      assert (pre = pre').
      { destruct Hat as (ws & post & Et & _). destruct Hat' as (ws' & post' & Et' & _).
        exact (prefix_same_length t pre pre' _ _ Et Et' Hlen). }
      subst pre'. destruct (id_at_unique t pre id id' k k' Hat Hat') as [-> ->].
      split; [reflexivity|]. split; congruence.
    + exfalso. destruct Hat as (ws & post & Et & Hid & Hws & Hk).
      destruct (id_re_complete (rev pre) post id ws k Hid Hws Hk) as (c & M).
      apply (search_complete _ pre _ post c M). rewrite <- Et. exact E.
  - intros n H. destruct (raw_notam_some now_year t n H) as (m & c & E & G1 & G2 & _).
    destruct (search_id_leftmost t m E) as (pre & id & k & Hat & G1' & G2' & Hleft).
    exists pre, k. rewrite G1 in G1'. rewrite G2 in G2'.
    inversion G1'; inversion G2'; subst. auto.
  - apply raw_notam_body_total.
Qed.

Lemma C7_extraction_fails_closed_witness :
  ascii_text (str "A1234/24 NOTAMN") /\
  id_at (str "A1234/24 NOTAMN") [] (str "A1234/24") "N" /\
  exists n,
    NOTAMCollector._parse_raw_notam 2024 (str "A1234/24 NOTAMN") = Some n /\
    notam_id n = str "A1234/24" /\ notam_type n = ["N"%char].
Proof.
  assert (Ha : ascii_text (str "A1234/24 NOTAMN")) by reflexivity.
  split; [exact Ha|].
  assert (H : id_at (str "A1234/24 NOTAMN") [] (str "A1234/24") "N").
  { exists (str " "), []. split; [reflexivity|]. split.
    - exists "A"%char, (str "1234"), (str "24"). repeat split; simpl; lia.
    - split; [split; [reflexivity|discriminate]|reflexivity]. }
  split; [exact H|].
  apply (proj1 (proj2 (C7_extraction_fails_closed 2024 (str "A1234/24 NOTAMN") Ha))
           [] (str "A1234/24") "N"%char H).
  intros pre1 id1 k1 _. simpl. lia.
Defined.

(** C10.  In every record the extraction produces from an ASCII text, a
    C) field that reads PERM sets the permanent flag and leaves the end of
    validity absent; the flag is set by nothing else, and whenever it is
    set the end of validity is absent.  The C) field that is read is the
    first place of the text where C) stands with, after blanks or none,
    ten to twelve digits, PERM or EST; it reads PERM when PERM stands
    there. *)
Theorem C10_permanent_excludes_end (now_year : Z) (t : text) (n : notam) :
  ascii_text t ->
  NOTAMCollector._parse_raw_notam now_year t = Some n ->
  (reads_perm t -> is_permanent n = true /\ valid_to n = None) /\
  (is_permanent n = true -> valid_to n = None /\ reads_perm t) /\
  (forall m, Re.search NOTAMCollector.c_re t = Some m ->
             Re.grp m 1 = Some (str "PERM") ->
             is_permanent n = true /\ valid_to n = None) /\
  (is_permanent n = true ->
   exists m, Re.search NOTAMCollector.c_re t = Some m /\
             Re.grp m 1 = Some (str "PERM")).
Proof.
  intros _ H.
  destruct (raw_notam_some now_year t n H) as (_ & c & _ & _ & _ & Ec & Hv & Hp).
  pose proof (parse_c_spec now_year t) as Hc.
  assert (Hm : forall m, Re.search NOTAMCollector.c_re t = Some m ->
                 Re.grp m 1 = Some (str "PERM") ->
                 is_permanent n = true /\ valid_to n = None).
  { intros m Em Eg. rewrite Em in Hc. destruct Hc as (c_value & Eg' & Hc).
    rewrite Eg in Eg'. injection Eg' as <-.
    change (Py.text_eqb (str "PERM") (str "PERM")) with true in Hc.
    rewrite Hc in Ec. injection Ec as Ec. subst c. auto. }
  assert (Hback : is_permanent n = true ->
            exists m, Re.search NOTAMCollector.c_re t = Some m /\
                      Re.grp m 1 = Some (str "PERM")).
  { intros Hperm. destruct (Re.search NOTAMCollector.c_re t) as [m|].
    - destruct Hc as (c_value & Eg & Hc).
      destruct (Py.text_eqb c_value (str "PERM")) eqn:E1.
      + exists m. apply text_eqb_eq in E1. rewrite <- E1. auto.
      + exfalso. destruct (Py.text_eqb c_value (str "EST")); rewrite Hc in Ec;
          injection Ec as Ec; subst c; cbn [fst snd] in Hp; congruence.
    - exfalso. rewrite Hc in Ec. injection Ec as Ec. subst c.
      cbn [fst snd] in Hp. congruence. }
  split; [|split; [|split; [exact Hm|exact Hback]]].
  - intros (pre & Hat & Hleft).
    destruct (Re.search NOTAMCollector.c_re t) as [m|] eqn:Em.
    + destruct (search_c_leftmost t m Em) as (pre' & v & Hat' & Eg & Hleft').
      assert (Hlen : length pre = length pre')
        by (apply Nat.le_antisymm; [exact (Hleft _ _ Hat')|exact (Hleft' _ _ Hat)]).
      assert (pre = pre').
      { destruct Hat as (ws & post & Et & _). destruct Hat' as (ws' & post' & Et' & _).
        exact (prefix_same_length t pre pre' _ _ Et Et' Hlen). }
      subst pre'. rewrite (c_field_perm t pre v Hat Hat') in Eg.
      exact (Hm m eq_refl Eg).
    + exfalso. destruct Hat as (ws & post & Et & Hws & Hv').
      destruct (c_re_complete (rev pre) post ws (str "PERM") Hws Hv') as (c0 & M).
      apply (search_complete _ pre _ post c0 M).
      rewrite <- Em, Et, <- !app_assoc. reflexivity.
  - intros Hperm. destruct (Hback Hperm) as (m & Em & Eg).
    split; [exact (proj2 (Hm m Em Eg))|].
    destruct (search_c_leftmost t m Em) as (pre & v & Hat & Eg' & Hleft).
    exists pre. split; [|exact Hleft]. congruence.
Qed.

Lemma C10_permanent_excludes_end_witness :
  ascii_text (str "A1234/24 NOTAMN C) PERM E) RWY CLSD") /\
  exists n,
    NOTAMCollector._parse_raw_notam 2024 (str "A1234/24 NOTAMN C) PERM E) RWY CLSD")
      = Some n /\
    is_permanent n = true /\ valid_to n = None.
Proof.
  assert (Ha : ascii_text (str "A1234/24 NOTAMN C) PERM E) RWY CLSD"))
    by reflexivity.
  split; [exact Ha|].
  destruct (NOTAMCollector._parse_raw_notam 2024
              (str "A1234/24 NOTAMN C) PERM E) RWY CLSD")) as [n|] eqn:E;
    [|vm_compute in E; discriminate].
  exists n. split; [reflexivity|].
  apply (proj1 (C10_permanent_excludes_end 2024 _ n Ha E)).
  exists (str "A1234/24 NOTAMN "). split.
  - exists (str " "), (str " E) RWY CLSD"). split; [reflexivity|].
    split; [reflexivity|]. right. left. reflexivity.
  - intros pre1 v1 (ws1 & post1 & Et1 & _).
    destruct (Nat.le_gt_cases 16 (length pre1)) as [Hle|Hgt]; [exact Hle|].
    exfalso.
    do 16 (destruct pre1 as [|? pre1]; [discriminate Et1|injection Et1 as <- Et1]).
    simpl in Hgt. lia.
Defined.

(** The claim C8 says of the empty input: that decoding it ends in a
    reported failure. *)
Lemma C8_empty_input_reports_no_failure :
  ~ reports_failure (TAFDecoder.decode []) /\
  station (TAFDecoder.decode []) = None /\
  d_wind (TAFDecoder.decode []) = None /\
  changes (TAFDecoder.decode []) = [] /\
  NOTAMCollector.raw_notam_body 2024 [] = Ok None.
Proof.
  unfold reports_failure. vm_compute. repeat split; try reflexivity.
  intros H. apply H. reflexivity.
Qed.

(** C8, amended.  No text, the empty text included, makes a decode call
    fail: [TAFDecoder.decode] returns its record without an error entry,
    and the body of [_parse_raw_notam] ends without an exception, with no
    record when the number of the NOTAM is missing.  Missing anchors,
    sub-fields out of range and unknown tokens leave fields absent. *)
Theorem C8_text_never_fails (now_year : Z) (s : text) :
  error (TAFDecoder.decode s) = None /\
  (exists r, NOTAMCollector.raw_notam_body now_year s = Ok r) /\
  (Re.search NOTAMCollector.id_re s = None ->
   NOTAMCollector.raw_notam_body now_year s = Ok None).
Proof.
  split; [apply decode_no_error|]. split; [apply raw_notam_body_total|].
  intros E. unfold NOTAMCollector.raw_notam_body. rewrite E. reflexivity.
Qed.

(** The claim C4 says of every speed in KT that it is multiplied by 0.514
    and cut to an integer.  The gusts of 27005G00KT and of VRB05G00KT are a
    speed of 0 KT, whose product cut to an integer is 0: the decoder gives
    no gusts at all, where it keeps the gusts 0 of 27005G00MPS. *)
Lemma C4_zero_gust_dropped :
  TAFDecoder.kt_to_mps 0 = Ok 0 /\
  (exists w,
     TAFDecoder._parse_wind (str "27005G00KT") = Ok (Some w) /\
     speed w = 2 /\ gusts w = None /\ gusts w <> Some 0 /\
     w_text w = str "🌬️ ветер З (270°) 2 м/с") /\
  (exists w,
     TAFDecoder._parse_wind (str "VRB05G00KT") = Ok (Some w) /\
     speed w = 2 /\ gusts w = None) /\
  (exists w,
     TAFDecoder._parse_wind (str "27005G00MPS") = Ok (Some w) /\
     speed w = 5 /\ gusts w = Some 0).
Proof.
  split; [vm_compute; reflexivity|].
  split; [|split]; eexists; (split; [vm_compute; reflexivity|]);
    repeat split; discriminate.
Qed.

(** C4, amended.  The speed of a wind given in KT is the product with 0.514
    cut to its integer part, and so are the gusts unless the gust group is
    zero, which gives no gusts; a direction in degrees falls in the sector
    [floor((d + 22.5) / 45) mod 8] of the eight compass points.  The
    floating-point computation of the code gives exactly these integers
    for every value of at most three digits.  The token 32015G25KT decodes
    to 320 degrees in the sector 7, the north-west, 7 m/s and gusts of
    12 m/s. *)
Theorem C4_wind_conversion :
  (forall v, 0 <= v < 1000 -> TAFDecoder.kt_to_mps v = Ok (v * 514 / 1000)) /\
  (forall d, 0 <= d < 1000 ->
     TAFDecoder.dir_idx d = Ok (((2 * d + 45) / 90) mod 8)) /\
  (forall t m,
     calm t = false ->
     Re.search TAFDecoder.vrb_re t = None ->
     Re.search TAFDecoder.wind_re t = Some m ->
     Re.grp m 5 = Some (str "KT") ->
     exists d v g w,
       TAFDecoder.int_group m 1 = Ok d /\ TAFDecoder.int_group m 2 = Ok v /\
       TAFDecoder.int_group_opt m 4 = Ok g /\
       TAFDecoder._parse_wind t = Ok (Some w) /\
       speed w = v * 514 / 1000 /\
       gusts w = match g with
                 | Some z => if z =? 0 then None else Some (z * 514 / 1000)
                 | None => None
                 end /\
       direction w = Degrees d /\
       direction_text w =
         nth_error TAFDecoder.directions (Z.to_nat (((2 * d + 45) / 90) mod 8))) /\
  (forall t m,
     calm t = false ->
     Re.search TAFDecoder.vrb_re t = Some m ->
     Re.grp m 4 = Some (str "KT") ->
     exists v g w,
       TAFDecoder.int_group m 1 = Ok v /\ TAFDecoder.int_group_opt m 3 = Ok g /\
       TAFDecoder._parse_wind t = Ok (Some w) /\
       speed w = v * 514 / 1000 /\
       gusts w = match g with
                 | Some z => if z =? 0 then None else Some (z * 514 / 1000)
                 | None => None
                 end) /\
  (exists w,
     TAFDecoder._parse_wind (str "32015G25KT") = Ok (Some w) /\
     direction w = Degrees 320 /\
     ((2 * 320 + 45) / 90) mod 8 = 7 /\
     nth_error TAFDecoder.directions 7 = Some (str "СЗ") /\
     direction_text w = Some (str "СЗ") /\
     speed w = 7 /\ gusts w = Some 12).
Proof.
  split; [exact kt_to_mps_exact|]. split; [exact dir_idx_exact|].
  split; [|split].
  - intros t m Hc Hv Hw Hu.
    destruct (parse_wind_fixed t m Hc Hv Hw)
      as (d & v & g & dt & w & E1 & _ & E2 & _ & E4 & _ & En & Ew & Hs & Hg & Hd & Ht).
    assert (Hkt : is_kt m 5 = true) by (unfold is_kt, unit_of; rewrite Hu; reflexivity).
    rewrite Hkt in Hs, Hg. exists d, v, g, w.
    repeat split; try assumption. rewrite Ht, <- En. reflexivity.
  - intros t m Hc Hm Hu.
    destruct (parse_wind_vrb t m Hc Hm)
      as (v & g & w & E1 & _ & E3 & _ & Ew & Hs & Hg & _).
    assert (Hkt : is_kt m 4 = true) by (unfold is_kt, unit_of; rewrite Hu; reflexivity).
    rewrite Hkt in Hs, Hg. exists v, g, w. repeat split; assumption.
  - eexists. split; [vm_compute; reflexivity|]. repeat split.
Qed.

Lemma C4_wind_conversion_witness :
  exists w,
    TAFDecoder._parse_wind (str "32015G25KT") = Ok (Some w) /\
    speed w = 15 * 514 / 1000 /\ gusts w = Some (25 * 514 / 1000) /\
    direction w = Degrees 320.
Proof.
  destruct (Re.search TAFDecoder.wind_re (str "32015G25KT")) as [m|] eqn:E;
    [|vm_compute in E; discriminate].
  assert (Hu : Re.grp m 5 = Some (str "KT"))
    by (vm_compute in E; injection E as <-; reflexivity).
  destruct (proj1 (proj2 (proj2 C4_wind_conversion)) (str "32015G25KT") m
              eq_refl eq_refl E Hu)
    as (d & v & g & w & E1 & E2 & E4 & Ew & Hs & Hg & Hd & _).
  vm_compute in E. injection E as <-.
  vm_compute in E1. injection E1 as <-.
  vm_compute in E2. injection E2 as <-.
  vm_compute in E4. injection E4 as <-.
  exists w. repeat split; assumption.
Defined.

Lemma below_all_Z (P : Z -> bool) (n : Z) :
  forallb P (map Z.of_nat (seq 0 (Z.to_nat n))) = true ->
  forall z, 0 <= z < n -> P z = true.
Proof. intros H z Hz. apply (below_all P (Z.to_nat n) H). lia. Qed.

(** The tokens 0000 to 9999, checked by the thousand. *)
Lemma vis_tokens_by_thousand :
  vis_thousand_check 0 = true /\ vis_thousand_check 1 = true /\
  vis_thousand_check 2 = true /\ vis_thousand_check 3 = true /\
  vis_thousand_check 4 = true /\ vis_thousand_check 5 = true /\
  vis_thousand_check 6 = true /\ vis_thousand_check 7 = true /\
  vis_thousand_check 8 = true /\ vis_thousand_check 9 = true.
Proof. repeat split; vm_compute; reflexivity. Qed.

Lemma vis_tokens_checked (n : Z) : 0 <= n < 10000 -> vis_token_check n = true.
Proof.
  intros Hn.
  assert (Hk : forall k, vis_thousand_check k = true ->
                 forall i, 0 <= i < 1000 -> vis_token_check (1000 * k + i) = true).
  { intros k H. apply (below_all (fun i => vis_token_check (1000 * k + i)) 1000 H). }
  destruct vis_tokens_by_thousand
    as (H0 & H1 & H2 & H3 & H4 & H5 & H6 & H7 & H8 & H9).
  assert (Hd : n = 1000 * (n / 1000) + n mod 1000) by (apply Z.div_mod; lia).
  assert (Hm : 0 <= n mod 1000 < 1000) by (apply Z.mod_pos_bound; lia).
  assert (Hq : 0 <= n / 1000 < 10)
    by (split; [apply Z.div_pos; lia|apply Z.div_lt_upper_bound; lia]).
  rewrite Hd.
  assert (Hc : n / 1000 = 0 \/ n / 1000 = 1 \/ n / 1000 = 2 \/ n / 1000 = 3 \/
               n / 1000 = 4 \/ n / 1000 = 5 \/ n / 1000 = 6 \/ n / 1000 = 7 \/
               n / 1000 = 8 \/ n / 1000 = 9) by lia.
  destruct Hc as [E|[E|[E|[E|[E|[E|[E|[E|[E|E]]]]]]]]]; rewrite E;
    apply Hk; assumption.
Qed.

(** C1.  The record [TAFDecoder.decode] returns for the TAF of Almaty of
    the specification: the station, the issue time, the period of validity,
    the wind, visibility and clouds of the baseline, and the one change
    group, a TEMPO with a visibility of 4000 metres, a thunderstorm with
    rain and broken cumulonimbus at 2000 feet. *)
Theorem C1_decode_almaty :
  let r := TAFDecoder.decode
             (str "TAF UAAA 101100Z 1012/1112 32015G25KT 9999 FEW040 BKN100 TEMPO 1014/1018 4000 TSRA BKN020CB") in
  station r = Some (str "UAAA") /\
  option_map (fun t => (it_day t, it_hour t, it_minute t)) (d_issue_time r)
    = Some (10, 11, 0) /\
  option_map (fun p => (from_day p, from_hour p, to_day p, to_hour p))
             (d_valid_period r)
    = Some (10, 12, 11, 12) /\
  option_map (fun w => (direction w, speed w, gusts w)) (d_wind r)
    = Some (Degrees 320, 7, Some 12) /\
  option_map meters (d_visibility r) = Some 10000 /\
  map (fun c => (cover c, height_ft c, cloud_type c)) (d_clouds r)
    = [(str "FEW", 4000, None); (str "BKN", 10000, None)] /\
  d_weather r = [] /\
  map indicator (changes r) = [str "TEMPO"] /\
  map (fun ch => option_map meters (ch_visibility ch)) (changes r)
    = [Some 4000] /\
  map (fun ch => map wx_code (ch_weather ch)) (changes r) = [[str "TSRA"]] /\
  TAFDecoder.weather_parts (str "TSRA") = [str "гроза"; str "дождь"] /\
  map (fun ch => map wx_text (ch_weather ch)) (changes r)
    = [[str "⛈️ гроза дождь"]] /\
  map (fun ch => map (fun c => (cover c, height_ft c, cloud_type c))
                     (ch_clouds ch)) (changes r)
    = [[(str "BKN", 2000, Some (str "CB"))]] /\
  map ch_wind (changes r) = [None] /\
  error r = None.
Proof.
  vm_compute. repeat split.
Qed.

Lemma mem_In (x : text) (xs : list text) : Py.mem x xs = true <-> In x xs.
Proof.
  unfold Py.mem. rewrite existsb_exists. split.
  - intros (y & Hy & E). apply text_eqb_eq in E. subst. exact Hy.
  - intros H. exists x. split; [exact H|]. apply text_eqb_eq. reflexivity.
Qed.

Lemma startswith_firstn (p q : text) :
  Py.startswith q p = true <-> firstn (length p) q = p.
Proof.
  revert q. induction p as [|c p IH]; intros q.
  - destruct q; simpl; split; reflexivity.
  - destruct q as [|d q]; simpl; [split; discriminate|].
    rewrite andb_true_iff, IH, Ascii.eqb_eq. split.
    + intros [-> ->]. reflexivity.
    + intros E. inversion E. subst. rewrite H1. auto.
Qed.

Lemma warning_prefix (q : text) :
  existsb (fun pattern => Py.startswith q (firstn 4 pattern))
          NOTAMDecoder.warning_patterns = true
  <-> exists p, In p NOTAMDecoder.warning_patterns /\ firstn 4 q = firstn 4 p.
Proof.
  rewrite existsb_exists. split; intros (p & Hp & H); exists p; (split; [exact Hp|]).
  - apply startswith_firstn in H.
    replace (length (firstn 4 p)) with 4%nat in H; [exact H|].
    simpl in Hp. repeat (destruct Hp as [<-|Hp]; [reflexivity|]). contradiction.
  - apply startswith_firstn.
    replace (length (firstn 4 p)) with 4%nat; [exact H|].
    simpl in Hp. repeat (destruct Hp as [<-|Hp]; [reflexivity|]). contradiction.
Qed.

(** The three cases of [_classify_severity]. *)
Lemma classify_cases (q : text) :
  (In q NOTAMDecoder.critical_patterns /\
   NOTAMDecoder._classify_severity q = str "critical") \/
  (~ In q NOTAMDecoder.critical_patterns /\
   (exists p, In p NOTAMDecoder.warning_patterns /\ firstn 4 q = firstn 4 p) /\
   NOTAMDecoder._classify_severity q = str "warning") \/
  (~ In q NOTAMDecoder.critical_patterns /\
   ~ (exists p, In p NOTAMDecoder.warning_patterns /\ firstn 4 q = firstn 4 p) /\
   NOTAMDecoder._classify_severity q = str "info").
Proof.
  pose proof (mem_In q NOTAMDecoder.critical_patterns) as Hc.
  pose proof (warning_prefix q) as Hw.
  unfold NOTAMDecoder._classify_severity.
  destruct (Py.mem q NOTAMDecoder.critical_patterns).
  - left. split; [apply Hc|]; reflexivity.
  - assert (Hn : ~ In q NOTAMDecoder.critical_patterns)
      by (intros H; apply Hc in H; discriminate H).
    destruct (existsb (fun pattern => Py.startswith q (firstn 4 pattern))
                      NOTAMDecoder.warning_patterns).
    + right. left. split; [exact Hn|]. split; [apply Hw|]; reflexivity.
    + right. right. split; [exact Hn|]. split; [|reflexivity].
      intros H. apply Hw in H. discriminate H.
Qed.

(** C3.  A Q-code is critical exactly when it is one of the four critical
    codes; otherwise it is a warning exactly when its first four
    characters are the first four of one of the five warning codes;
    otherwise it is info.  The decoder gives a code its severity and, when
    the table does not hold it, the code itself as category text. *)
Theorem C3_severity_classification (q : text) :
  (NOTAMDecoder._classify_severity q = str "critical"
   <-> In q NOTAMDecoder.critical_patterns) /\
  (NOTAMDecoder._classify_severity q = str "warning"
   <-> ~ In q NOTAMDecoder.critical_patterns /\
       exists p, In p NOTAMDecoder.warning_patterns /\ firstn 4 q = firstn 4 p) /\
  (NOTAMDecoder._classify_severity q = str "info"
   <-> ~ In q NOTAMDecoder.critical_patterns /\
       ~ exists p, In p NOTAMDecoder.warning_patterns /\ firstn 4 q = firstn 4 p) /\
  (forall n, q_code n = Some q -> q <> [] ->
     severity (NOTAMDecoder.decode n) = Some (NOTAMDecoder._classify_severity q) /\
     (dict_find Q_CODES q = None -> q_decoded (NOTAMDecoder.decode n) = Some q)) /\
  (NOTAMDecoder._classify_severity (str "QFALC") = str "critical" /\
   NOTAMDecoder._classify_severity (str "QMRLT") = str "warning" /\
   NOTAMDecoder._classify_severity (str "QMRLX") = str "warning" /\
   dict_find Q_CODES (str "QMRLX") = None /\
   NOTAMDecoder._classify_severity (str "QZZZZ") = str "info" /\
   dict_find Q_CODES (str "QZZZZ") = None /\
   dict_get Q_CODES (str "QZZZZ") (str "QZZZZ") = str "QZZZZ").
Proof.
  assert (D1 : str "critical" <> str "warning") by discriminate.
  assert (D2 : str "critical" <> str "info") by discriminate.
  assert (D3 : str "warning" <> str "info") by discriminate.
  split; [|split; [|split; [|split]]].
  - destruct (classify_cases q) as [[H E]|[(Hn & H & E)|(Hn & H & E)]];
      rewrite E; split; intros H'; congruence || tauto.
  - destruct (classify_cases q) as [[H E]|[(Hn & H & E)|(Hn & H & E)]];
      rewrite E; split; intros H'; congruence || tauto.
  - destruct (classify_cases q) as [[H E]|[(Hn & H & E)|(Hn & H & E)]];
      rewrite E; split; intros H'; congruence || tauto.
  - intros n Hq Hne. unfold NOTAMDecoder.decode. cbn [severity q_decoded].
    rewrite Hq. destruct q; [contradiction|].
    cbn [NOTAMDecoder.nonempty option_map]. split; [reflexivity|].
    intros Hf. unfold dict_get. rewrite Hf. reflexivity.
  - vm_compute. repeat split.
Qed.

Lemma C3_severity_classification_witness :
  exists n,
    q_code n = Some (str "QZZZZ") /\
    severity (NOTAMDecoder.decode n) = Some (str "info") /\
    q_decoded (NOTAMDecoder.decode n) = Some (str "QZZZZ").
Proof.
  destruct (NOTAMCollector._parse_raw_notam 2024
    (str "A1234/24 NOTAMN Q) UACC/QZZZZ/IV/NBO/A/000/999/4321N07655E005 E) TEST"))
    as [n|] eqn:E; [|vm_compute in E; discriminate].
  assert (Hq : q_code n = Some (str "QZZZZ"))
    by (vm_compute in E; injection E as <-; reflexivity).
  exists n. split; [exact Hq|].
  destruct (proj1 (proj2 (proj2 (proj2 (C3_severity_classification (str "QZZZZ")))))
              n Hq ltac:(discriminate)) as [Hs Hd].
  split; [rewrite Hs; reflexivity|apply Hd; reflexivity].
Defined.

(** ** Timestamps *)

Lemma digits_two (w : text) : digits 2 2 w -> exists a b, w = [a; b].
Proof.
  intros [_ [H1 H2]]. destruct w as [|a [|b [|c w]]]; simpl in *; try lia. eauto.
Qed.

Lemma digits_four (w : text) : digits 4 4 w -> exists a b c d, w = [a; b; c; d].
Proof.
  intros [_ [H1 H2]].
  destruct w as [|a [|b [|c [|d [|e w]]]]]; simpl in *; try lia. eauto 6.
Qed.

Lemma isoformat_stamp (y mo d h mi : Z) :
  match NOTAMCollector.isoformat_z y mo d h mi with
  | Ok iso => Some iso
  | Raise _ => None
  end = stamp y mo d h mi.
Proof.
  unfold NOTAMCollector.isoformat_z, stamp, iso_text.
  destruct (NOTAMCollector.datetime_ok y mo d h mi); reflexivity.
Qed.

(** A timestamp of ten digits. *)
Lemma datetime_10 (now_year : Z) (yy mm dd hh mi : text) :
  digits 2 2 yy -> digits 2 2 mm -> digits 2 2 dd -> digits 2 2 hh ->
  digits 2 2 mi ->
  exists y mo d h m,
    int yy = Ok y /\ int mm = Ok mo /\ int dd = Ok d /\ int hh = Ok h /\
    int mi = Ok m /\ 0 <= y < 100 /\
    NOTAMCollector._parse_notam_datetime now_year (yy ++ mm ++ dd ++ hh ++ mi)
    = stamp (NOTAMCollector.century now_year y) mo d h m.
Proof.
  intros D1 D2 D3 D4 D5.
  destruct (int_digits 2 2 yy D1) as (y & E1 & Hy); [lia|].
  destruct (int_digits 2 2 mm D2) as (mo & E2 & _); [lia|].
  destruct (int_digits 2 2 dd D3) as (d & E3 & _); [lia|].
  destruct (int_digits 2 2 hh D4) as (h & E4 & _); [lia|].
  destruct (int_digits 2 2 mi D5) as (m & E5 & _); [lia|].
  exists y, mo, d, h, m. repeat split; try assumption; try (simpl in Hy; lia).
  destruct (digits_two _ D1) as (a1 & b1 & ->).
  destruct (digits_two _ D2) as (a2 & b2 & ->).
  destruct (digits_two _ D3) as (a3 & b3 & ->).
  destruct (digits_two _ D4) as (a4 & b4 & ->).
  destruct (digits_two _ D5) as (a5 & b5 & ->).
  unfold NOTAMCollector._parse_notam_datetime, NOTAMCollector.datetime_body.
  cbn [app length Nat.eqb Py.slice Nat.sub firstn skipn].
  rewrite E1, E2, E3, E4, E5. cbn [bind]. rewrite <- isoformat_stamp.
  destruct (NOTAMCollector.isoformat_z _ mo d h m); reflexivity.
Qed.

(** A timestamp of twelve digits. *)
Lemma datetime_12 (now_year : Z) (yyyy mm dd hh mi : text) :
  digits 4 4 yyyy -> digits 2 2 mm -> digits 2 2 dd -> digits 2 2 hh ->
  digits 2 2 mi ->
  exists y mo d h m,
    int yyyy = Ok y /\ int mm = Ok mo /\ int dd = Ok d /\ int hh = Ok h /\
    int mi = Ok m /\
    NOTAMCollector._parse_notam_datetime now_year (yyyy ++ mm ++ dd ++ hh ++ mi)
    = stamp y mo d h m.
Proof.
  intros D1 D2 D3 D4 D5.
  destruct (int_digits 4 4 yyyy D1) as (y & E1 & Hy); [lia|].
  destruct (int_digits 2 2 mm D2) as (mo & E2 & _); [lia|].
  destruct (int_digits 2 2 dd D3) as (d & E3 & _); [lia|].
  destruct (int_digits 2 2 hh D4) as (h & E4 & _); [lia|].
  destruct (int_digits 2 2 mi D5) as (m & E5 & _); [lia|].
  exists y, mo, d, h, m. repeat split; try assumption.
  destruct (digits_four _ D1) as (a1 & b1 & c1 & d1 & ->).
  destruct (digits_two _ D2) as (a2 & b2 & ->).
  destruct (digits_two _ D3) as (a3 & b3 & ->).
  destruct (digits_two _ D4) as (a4 & b4 & ->).
  destruct (digits_two _ D5) as (a5 & b5 & ->).
  unfold NOTAMCollector._parse_notam_datetime, NOTAMCollector.datetime_body.
  cbn [app length Nat.eqb Py.slice Nat.sub firstn skipn].
  rewrite E1, E2, E3, E4, E5. cbn [bind]. rewrite <- isoformat_stamp.
  destruct (NOTAMCollector.isoformat_z _ mo d h m); reflexivity.
Qed.

Lemma datetime_ok_ranges (y mo d h mi : Z) :
  NOTAMCollector.datetime_ok y mo d h mi = true <->
  1 <= y <= 9999 /\ 1 <= mo <= 12 /\
  1 <= d <= NOTAMCollector.days_in_month y mo /\
  0 <= h <= 23 /\ 0 <= mi <= 59.
Proof.
  unfold NOTAMCollector.datetime_ok, NOTAMCollector.in_range.
  rewrite !andb_true_iff, !Z.leb_le. tauto.
Qed.

Lemma century_rule (now_year y : Z) :
  (now_year mod 100 + 5 < y -> NOTAMCollector.century now_year y = 1900 + y) /\
  (y <= now_year mod 100 + 5 -> NOTAMCollector.century now_year y = 2000 + y).
Proof.
  unfold NOTAMCollector.century. split; intros H.
  - apply Z.ltb_lt in H. rewrite H. reflexivity.
  - apply Z.ltb_ge in H. rewrite H. reflexivity.
Qed.

Lemma two_digit_literal (s : string) :
  forallb is_digit (str s) = true -> length (str s) = 2%nat -> digits 2 2 (str s).
Proof. intros H L. split; [exact H|lia]. Qed.

(** C2.  A timestamp of ten digits YYMMDDHHmm takes the year 1900+YY when
    YY exceeds the current year modulo 100 plus 5, and 2000+YY otherwise; a
    timestamp of twelve digits YYYYMMDDHHmm takes its year as written; a
    month, day, hour or minute out of range gives no datetime, never an
    error.  So 2403011230 is 2024-03-01T12:30 when the current year ends in
    19 or more, and a year 99 is 1999 when the current year ends in 93 or
    less, as every year from 2000 to 2024 does. *)
Theorem C2_datetime_decoding (now_year : Z) :
  (forall yy mm dd hh mi,
     digits 2 2 yy -> digits 2 2 mm -> digits 2 2 dd -> digits 2 2 hh ->
     digits 2 2 mi ->
     exists y mo d h m,
       int yy = Ok y /\ int mm = Ok mo /\ int dd = Ok d /\ int hh = Ok h /\
       int mi = Ok m /\
       NOTAMCollector._parse_notam_datetime now_year (yy ++ mm ++ dd ++ hh ++ mi)
       = let year := if now_year mod 100 + 5 <? y then 1900 + y else 2000 + y in
         if NOTAMCollector.datetime_ok year mo d h m
         then Some (iso_text year mo d h m) else None) /\
  (forall yyyy mm dd hh mi,
     digits 4 4 yyyy -> digits 2 2 mm -> digits 2 2 dd -> digits 2 2 hh ->
     digits 2 2 mi ->
     exists y mo d h m,
       int yyyy = Ok y /\ int mm = Ok mo /\ int dd = Ok d /\ int hh = Ok h /\
       int mi = Ok m /\
       NOTAMCollector._parse_notam_datetime now_year (yyyy ++ mm ++ dd ++ hh ++ mi)
       = if NOTAMCollector.datetime_ok y mo d h m
         then Some (iso_text y mo d h m) else None) /\
  (forall y mo d h m,
     NOTAMCollector.datetime_ok y mo d h m = true <->
     1 <= y <= 9999 /\ 1 <= mo <= 12 /\
     1 <= d <= NOTAMCollector.days_in_month y mo /\
     0 <= h <= 23 /\ 0 <= m <= 59) /\
  (19 <= now_year mod 100 ->
   NOTAMCollector._parse_notam_datetime now_year (str "2403011230")
   = Some (str "2024-03-01T12:30:00Z")) /\
  (now_year mod 100 <= 93 ->
   forall mm dd hh mi,
     digits 2 2 mm -> digits 2 2 dd -> digits 2 2 hh -> digits 2 2 mi ->
     exists mo d h m,
       int mm = Ok mo /\ int dd = Ok d /\ int hh = Ok h /\ int mi = Ok m /\
       NOTAMCollector._parse_notam_datetime now_year
         (str "99" ++ mm ++ dd ++ hh ++ mi)
       = if NOTAMCollector.datetime_ok 1999 mo d h m
         then Some (iso_text 1999 mo d h m) else None) /\
  (now_year mod 100 <= 93 ->
   NOTAMCollector._parse_notam_datetime now_year (str "9912312359")
   = Some (str "1999-12-31T23:59:00Z")) /\
  (NOTAMCollector._parse_notam_datetime now_year (str "202403011230")
   = Some (str "2024-03-01T12:30:00Z") /\
   NOTAMCollector._parse_notam_datetime now_year (str "202413011230") = None /\
   NOTAMCollector._parse_notam_datetime now_year (str "202402301230") = None /\
   NOTAMCollector._parse_notam_datetime now_year (str "202403012430") = None /\
   NOTAMCollector._parse_notam_datetime now_year (str "202403011260") = None).
Proof.
  assert (H99 : now_year mod 100 <= 93 ->
            forall mm dd hh mi,
              digits 2 2 mm -> digits 2 2 dd -> digits 2 2 hh -> digits 2 2 mi ->
              exists mo d h m,
                int mm = Ok mo /\ int dd = Ok d /\ int hh = Ok h /\ int mi = Ok m /\
                NOTAMCollector._parse_notam_datetime now_year
                  (str "99" ++ mm ++ dd ++ hh ++ mi)
                = stamp 1999 mo d h m).
  { intros Hnow mm dd hh mi D2 D3 D4 D5.
    destruct (datetime_10 now_year (str "99") mm dd hh mi)
      as (y & mo & d & h & m & E1 & E2 & E3 & E4 & E5 & _ & H); try assumption.
    { apply two_digit_literal; reflexivity. }
    vm_compute in E1. injection E1 as <-.
    rewrite (proj1 (century_rule now_year 99)) in H by lia.
    exists mo, d, h, m. auto. }
  split; [|split; [|split; [|split; [|split; [|split]]]]].
  - intros yy mm dd hh mi D1 D2 D3 D4 D5.
    destruct (datetime_10 now_year yy mm dd hh mi D1 D2 D3 D4 D5)
      as (y & mo & d & h & m & E1 & E2 & E3 & E4 & E5 & _ & H).
    exists y, mo, d, h, m. repeat split; try assumption; exact H.
  - intros yyyy mm dd hh mi D1 D2 D3 D4 D5.
    destruct (datetime_12 now_year yyyy mm dd hh mi D1 D2 D3 D4 D5)
      as (y & mo & d & h & m & E1 & E2 & E3 & E4 & E5 & H).
    exists y, mo, d, h, m. repeat split; try assumption; exact H.
  - apply datetime_ok_ranges.
  - intros Hnow.
    destruct (datetime_10 now_year (str "24") (str "03") (str "01") (str "12")
                (str "30"))
      as (y & mo & d & h & m & E1 & E2 & E3 & E4 & E5 & _ & H);
      try (apply two_digit_literal; reflexivity).
    vm_compute in E1, E2, E3, E4, E5.
    injection E1 as <-. injection E2 as <-. injection E3 as <-.
    injection E4 as <-. injection E5 as <-.
    rewrite (proj2 (century_rule now_year 24)) in H by lia. exact H.
  - intros Hnow mm dd hh mi D2 D3 D4 D5.
    destruct (H99 Hnow mm dd hh mi D2 D3 D4 D5) as (mo & d & h & m & H).
    exists mo, d, h, m. exact H.
  - intros Hnow.
    destruct (H99 Hnow (str "12") (str "31") (str "23") (str "59"))
      as (mo & d & h & m & E2 & E3 & E4 & E5 & H);
      try (apply two_digit_literal; reflexivity).
    vm_compute in E2, E3, E4, E5.
    injection E2 as <-. injection E3 as <-. injection E4 as <-. injection E5 as <-.
    exact H.
  - repeat split; reflexivity.
Qed.

Lemma C2_datetime_decoding_witness :
  19 <= 2024 mod 100 /\ 2024 mod 100 <= 93 /\
  NOTAMCollector._parse_notam_datetime 2024 (str "2403011230")
    = Some (str "2024-03-01T12:30:00Z") /\
  NOTAMCollector._parse_notam_datetime 2024 (str "9912312359")
    = Some (str "1999-12-31T23:59:00Z").
Proof.
  assert (H1 : 19 <= 2024 mod 100) by (vm_compute; discriminate).
  assert (H2 : 2024 mod 100 <= 93) by (vm_compute; discriminate).
  split; [exact H1|]. split; [exact H2|]. split.
  - exact (proj1 (proj2 (proj2 (proj2 (C2_datetime_decoding 2024)))) H1).
  - exact (proj1 (proj2 (proj2 (proj2 (proj2 (proj2 (C2_datetime_decoding 2024)))))) H2).
Defined.

(** ** The weather code *)

Lemma scan_hit (c1 c2 : ascii) (rest : text) (d : text) :
  dict_find WEATHER_PHENOMENA [c1; c2] = Some d ->
  TAFDecoder.scan_phenomena (c1 :: c2 :: rest) = d :: TAFDecoder.scan_phenomena rest.
Proof.
  intros H. cbn [TAFDecoder.scan_phenomena firstn]. rewrite H. reflexivity.
Qed.

Lemma scan_miss (c1 : ascii) (rest : text) :
  dict_find WEATHER_PHENOMENA (c1 :: firstn 1 rest) = None ->
  TAFDecoder.scan_phenomena (c1 :: rest) = TAFDecoder.scan_phenomena rest.
Proof.
  intros H. cbn [TAFDecoder.scan_phenomena]. rewrite H. reflexivity.
Qed.

Lemma known_pair_chars (k : text) :
  known_pair k -> exists c1 c2 d, k = [c1; c2] /\ dict_find WEATHER_PHENOMENA k = Some d.
Proof.
  intros [L F]. destruct k as [|c1 [|c2 [|c3 k]]]; simpl in L; try lia.
  destruct (dict_find WEATHER_PHENOMENA [c1; c2]) as [d|] eqn:E; [|contradiction].
  exists c1, c2, d. auto.
Qed.

(** A code made of known pairs decodes pair by pair. *)
Lemma scan_known (ks : list text) :
  Forall known_pair ks ->
  TAFDecoder.scan_phenomena (concat ks)
  = map (fun k => dict_get WEATHER_PHENOMENA k []) ks /\
  scan_by_pairs (concat ks) = TAFDecoder.scan_phenomena (concat ks).
Proof.
  induction 1 as [|k ks Hk Hks [IH1 IH2]]; [split; reflexivity|].
  destruct (known_pair_chars k Hk) as (c1 & c2 & d & -> & E).
  cbn [concat app map]. rewrite (scan_hit c1 c2 _ d E).
  cbn [scan_by_pairs]. rewrite E. unfold dict_get at 1. rewrite E.
  rewrite IH1, IH2, IH1. split; reflexivity.
Qed.

Lemma scan_values (code : text) (d : text) :
  In d (TAFDecoder.scan_phenomena code) ->
  exists k, dict_find WEATHER_PHENOMENA k = Some d.
Proof.
  remember (length code) as n eqn:Hn. revert code Hn.
  induction n as [n IH] using lt_wf_ind. intros code Hn Hin.
  destruct code as [|c1 rest]; [contradiction|].
  cbn [TAFDecoder.scan_phenomena] in Hin.
  destruct (dict_find WEATHER_PHENOMENA (c1 :: firstn 1 rest)) as [d'|] eqn:E.
  - destruct Hin as [<-|Hin]; [eauto|].
    destruct rest as [|c2 rest']; [contradiction|].
    apply (IH (length rest')) with (code := rest'); [subst n; simpl; lia|reflexivity|exact Hin].
  - apply (IH (length rest)) with (code := rest); [subst n; simpl; lia|reflexivity|exact Hin].
Qed.

(** The claim C5 as the specification words it fails on XRA: the span XR
    has no match, and the code goes on at R and decodes RA, where a scan
    by spans of two goes on at A and decodes nothing. *)
Lemma C5_miss_advances_by_one :
  TAFDecoder.weather_parts (str "XRA") = [str "дождь"] /\
  weather_parts_by_pairs (str "XRA") = [] /\
  TAFDecoder.weather_parts (str "XRA") <> weather_parts_by_pairs (str "XRA").
Proof.
  split; [reflexivity|]. split; [reflexivity|]. vm_compute. discriminate.
Qed.

(** C5, amended.  The decoder strips one leading marker, "-", "+" or VC,
    and no second one; it then looks the remainder up through a window of
    two characters: a window found in the table is decoded and the scan
    moves on by two characters, a window not found is dropped silently and
    the scan moves on by one character.  It never raises: a code of known
    pairs decodes pair by pair, as a scan by spans of two would, and any
    other code decodes to the entries the window meets. *)
Theorem C5_weather_code :
  (forall rest,
     TAFDecoder.weather_parts (str "-" ++ rest)
       = str "слабый" :: TAFDecoder.scan_phenomena rest /\
     TAFDecoder.weather_parts (str "+" ++ rest)
       = str "сильный" :: TAFDecoder.scan_phenomena rest /\
     TAFDecoder.weather_parts (str "VC" ++ rest)
       = str "в окрестности" :: TAFDecoder.scan_phenomena rest) /\
  (forall code,
     Py.startswith code (str "-") = false ->
     Py.startswith code (str "+") = false ->
     Py.startswith code (str "VC") = false ->
     TAFDecoder.weather_parts code = TAFDecoder.scan_phenomena code) /\
  (forall c1 c2 rest d,
     dict_find WEATHER_PHENOMENA [c1; c2] = Some d ->
     TAFDecoder.scan_phenomena (c1 :: c2 :: rest)
       = d :: TAFDecoder.scan_phenomena rest) /\
  (forall c1 rest,
     dict_find WEATHER_PHENOMENA (c1 :: firstn 1 rest) = None ->
     TAFDecoder.scan_phenomena (c1 :: rest) = TAFDecoder.scan_phenomena rest) /\
  (forall ks,
     Forall known_pair ks ->
     TAFDecoder.scan_phenomena (concat ks)
       = map (fun k => dict_get WEATHER_PHENOMENA k []) ks /\
     scan_by_pairs (concat ks) = TAFDecoder.scan_phenomena (concat ks)) /\
  (forall code d,
     In d (TAFDecoder.scan_phenomena code) ->
     exists k, dict_find WEATHER_PHENOMENA k = Some d) /\
  (forall code,
     TAFDecoder._decode_weather_code code = None
     <-> TAFDecoder.weather_parts code = []) /\
  (TAFDecoder.weather_parts (str "+TSRA") = [str "сильный"; str "гроза"; str "дождь"] /\
   TAFDecoder.weather_parts (str "+-RA") = [str "сильный"; str "дождь"] /\
   TAFDecoder.weather_parts (str "TSXRAQQ") = [str "гроза"; str "дождь"] /\
   TAFDecoder._decode_weather_code (str "QQQ") = None).
Proof.
  split; [|split; [|split; [|split; [|split; [|split; [|split]]]]]].
  - intros rest. repeat split; reflexivity.
  - intros code H1 H2 H3. unfold TAFDecoder.weather_parts, TAFDecoder.strip_intensity.
    rewrite H1, H2, H3. reflexivity.
  - exact scan_hit.
  - exact scan_miss.
  - exact scan_known.
  - exact scan_values.
  - intros code. unfold TAFDecoder._decode_weather_code, TAFDecoder.weather_parts.
    destruct (TAFDecoder.strip_intensity code) as [parts rest].
    destruct (parts ++ TAFDecoder.scan_phenomena rest); split; intros H;
      try reflexivity; discriminate.
  - vm_compute. repeat split.
Qed.

Lemma C5_weather_code_witness :
  dict_find WEATHER_PHENOMENA (str "RA") = Some (str "дождь") /\
  dict_find WEATHER_PHENOMENA (str "XR") = None /\
  TAFDecoder.scan_phenomena (str "XRA") = [str "дождь"].
Proof.
  assert (H1 : dict_find WEATHER_PHENOMENA (str "RA") = Some (str "дождь"))
    by reflexivity.
  assert (H2 : dict_find WEATHER_PHENOMENA (str "XR") = None) by reflexivity.
  split; [exact H1|]. split; [exact H2|].
  change (TAFDecoder.scan_phenomena ("X"%char :: str "RA") = [str "дождь"]).
  rewrite (proj1 (proj2 (proj2 (proj2 C5_weather_code))) "X"%char (str "RA") H2).
  exact (proj1 (proj2 (proj2 C5_weather_code)) "R"%char "A"%char [] _ H1).
Defined.

(** ** Abbreviations *)

Lemma lit_i_sound (k : text) :
  forall b w a c c',
    matches (Re.lit_i k) b w a c c' -> c' = c /\ same_caseless w k.
Proof.
  unfold Re.lit_i, same_caseless.
  induction k as [|x k IH]; intros b w a c c' M; cbn [map Re.seqs fold_right] in M.
  - inversion M; subst. auto.
  - inversion M; subst; clear M.
    match goal with
    | H1 : matches (Re.Cls _) _ _ _ _ _, H2 : matches _ _ _ _ _ _ |- _ =>
        inversion H1; subst; clear H1; apply IH in H2; destruct H2 as [-> E]
    end.
    split; [reflexivity|]. cbn [app map]. rewrite E. f_equal.
    unfold is_char_i in *. apply Ascii.eqb_eq. assumption.
Qed.

Lemma lit_i_complete (k : text) :
  forall b w a c, same_caseless w k -> matches (Re.lit_i k) b w a c c.
Proof.
  unfold Re.lit_i, same_caseless.
  induction k as [|x k IH]; intros b w a c E; destruct w as [|y w];
    cbn [map] in E; try discriminate; cbn [map Re.seqs fold_right].
  - constructor.
  - injection E as Ey Ew.
    apply (M_Seq _ _ b [y] w a c c c).
    + constructor. unfold is_char_i. apply Ascii.eqb_eq. exact Ey.
    + apply IH. exact Ew.
Qed.

Lemma abbr_re_sound (k : text) b w a c c' :
  matches (NOTAMDecoder.abbr_re k) b w a c c' ->
  c' = c /\ same_caseless w k /\ boundary b (w ++ a) /\ boundary (rev w ++ b) a.
Proof.
  unfold NOTAMDecoder.abbr_re. cbn [Re.seqs fold_right]. intros M.
  inversion M; subst; clear M.
  match goal with H : matches Re.WordB _ _ _ _ _ |- _ => inversion H; subst; clear H end.
  match goal with H : matches (Re.Seq _ _) _ _ _ _ _ |- _ => inversion H; subst; clear H end.
  match goal with H : matches (Re.lit_i _) _ _ _ _ _ |- _ =>
    apply lit_i_sound in H; destruct H as [-> E] end.
  match goal with H : matches (Re.Seq _ _) _ _ _ _ _ |- _ => inversion H; subst; clear H end.
  match goal with H : matches Re.WordB _ _ _ _ _ |- _ => inversion H; subst; clear H end.
  match goal with H : matches Re.Eps _ _ _ _ _ |- _ => inversion H; subst; clear H end.
  cbn [app rev] in *. rewrite !app_nil_r in *. auto.
Qed.

Lemma abbr_re_complete (k : text) b w a c :
  same_caseless w k -> boundary b (w ++ a) -> boundary (rev w ++ b) a ->
  matches (NOTAMDecoder.abbr_re k) b w a c c.
Proof.
  intros E B1 B2. unfold NOTAMDecoder.abbr_re. cbn [Re.seqs fold_right].
  apply (M_Seq _ _ b [] w a c c c); [constructor; exact B1|].
  eapply (M_seq _ _ _ w w [] a c c c);
    [apply lit_i_complete; exact E| |symmetry; apply app_nil_r].
  apply (M_Seq _ _ _ [] [] a c c c); [|constructor].
  constructor. cbn [rev app]. exact B2.
Qed.

(** [search] finds nothing when no position matches. *)
Lemma search_from_nowhere (r : Re.regex) :
  forall a b,
    (forall pre rest, a = pre ++ rest -> Re.rmatch r (rev pre ++ b) rest [] = []) ->
    Re.search_from r b a = None.
Proof.
  induction a as [|x a IH]; intros b H; simpl.
  - pose proof (H [] [] eq_refl) as H0. simpl in H0. rewrite H0. reflexivity.
  - pose proof (H [] (x :: a) eq_refl) as H0. simpl in H0. rewrite H0. apply IH.
    intros pre rest E. specialize (H (x :: pre) rest). simpl in H.
    rewrite <- app_assoc in H. apply H. rewrite E. reflexivity.
Qed.

Lemma sub_nothing (r : Re.regex) (repl s : text) :
  Re.search r s = None -> Re.sub r repl s = s.
Proof.
  intros H. unfold Re.sub. cbn [Re.sub_from]. unfold Re.search in H.
  rewrite H. reflexivity.
Qed.

(** An abbreviation that stands nowhere as a whole word is not found. *)
Lemma search_abbr_none (k s : text) :
  (forall pre, ~ whole_word_at k s pre) ->
  Re.search (NOTAMDecoder.abbr_re k) s = None.
Proof.
  intros H. apply search_from_nowhere. intros pre rest E. rewrite app_nil_r.
  destruct (Re.rmatch (NOTAMDecoder.abbr_re k) (rev pre) rest []) as [|[[b1 a1] c1] l] eqn:Er;
    [reflexivity|].
  exfalso. apply (H pre).
  assert (Hin : In (b1, a1, c1) (Re.rmatch (NOTAMDecoder.abbr_re k) (rev pre) rest []))
    by (rewrite Er; left; reflexivity).
  destruct (rmatch_sound _ _ _ _ b1 a1 c1 Hin) as (w & Ea & _ & M).
  apply abbr_re_sound in M. destruct M as (_ & Ec & B1 & B2).
  exists w, a1. subst rest. auto.
Qed.

(** An abbreviation that stands somewhere as a whole word is found. *)
Lemma search_abbr_some (k s pre : text) :
  whole_word_at k s pre -> Re.search (NOTAMDecoder.abbr_re k) s <> None.
Proof.
  intros (w & post & -> & E & B1 & B2).
  apply (search_complete _ pre w post []). apply abbr_re_complete; assumption.
Qed.

(** A description in which no abbreviation of the dictionary stands as a
    whole word is left as it is. *)
Lemma substitute_nothing (entries : dict) (s : text) :
  (forall k tr pre, In (k, tr) entries -> ~ whole_word_at k s pre) ->
  NOTAMDecoder.substitute entries s = s.
Proof.
  induction entries as [|[k tr] entries IH]; intros H; cbn [NOTAMDecoder.substitute];
    [reflexivity|].
  rewrite sub_nothing.
  - apply IH. intros k' tr' pre Hin. apply (H k' tr' pre). right. exact Hin.
  - apply search_abbr_none. intros pre. apply (H k tr pre). left. reflexivity.
Qed.

Lemma is_word_to_lower (c : ascii) : is_word (to_lower c) = is_word c.
Proof. destruct c as [[] [] [] [] [] [] [] []]; reflexivity. Qed.

Lemma head_is_word_lower (l : text) :
  Re.head_is_word (map to_lower l) = Re.head_is_word l.
Proof. destruct l; [reflexivity|apply is_word_to_lower]. Qed.

Lemma same_caseless_lower (w : text) : same_caseless (map to_lower w) w.
Proof.
  unfold same_caseless. rewrite map_map. apply map_ext.
  intros c. destruct c as [[] [] [] [] [] [] [] []]; reflexivity.
Qed.

Lemma boundary_lower (b a : text) :
  boundary b a -> boundary (map to_lower b) (map to_lower a).
Proof. unfold boundary. rewrite !head_is_word_lower. auto. Qed.

Lemma whole_word_lower (k s pre : text) :
  whole_word_at k s pre -> whole_word_at k (map to_lower s) (map to_lower pre).
Proof.
  intros (w & post & -> & E & B1 & B2).
  exists (map to_lower w), (map to_lower post). rewrite !map_app. split; [reflexivity|].
  split; [unfold same_caseless in *; rewrite <- E; apply same_caseless_lower|].
  rewrite <- !map_rev, <- !map_app. split; apply boundary_lower; assumption.
Qed.

Lemma search_abbr_caseless (kj k w : text) :
  Re.search (NOTAMDecoder.abbr_re kj) (map to_lower k) = None ->
  same_caseless w k ->
  Re.search (NOTAMDecoder.abbr_re kj) w = None.
Proof.
  intros H E. apply search_abbr_none. intros pre Hw.
  apply whole_word_lower in Hw. unfold same_caseless in E. rewrite E in Hw.
  exact (search_abbr_some _ _ _ Hw H).
Qed.

Lemma same_caseless_length (w k : text) : same_caseless w k -> length w = length k.
Proof.
  unfold same_caseless. intros E. apply (f_equal (@length ascii)) in E.
  rewrite !length_map in E. exact E.
Qed.

Lemma same_caseless_head (w k : text) :
  same_caseless w k -> Re.head_is_word w = Re.head_is_word k.
Proof.
  unfold same_caseless. intros E.
  rewrite <- (head_is_word_lower w), <- (head_is_word_lower k), E. reflexivity.
Qed.

Lemma same_caseless_rev (w k : text) : same_caseless w k -> same_caseless (rev w) (rev k).
Proof. unfold same_caseless. intros E. rewrite !map_rev, E. reflexivity. Qed.

(** Every match of an abbreviation at the start of one of its spellings is
    the whole spelling. *)
Lemma abbr_entry (k w : text) b1 a1 c1 :
  same_caseless w k ->
  In (b1, a1, c1) (Re.rmatch (NOTAMDecoder.abbr_re k) [] w []) ->
  b1 = rev w /\ a1 = [] /\ c1 = [].
Proof.
  intros E Hin. apply rmatch_sound in Hin. destruct Hin as (w1 & Ew & Eb & M).
  apply abbr_re_sound in M. destruct M as (-> & E1 & _).
  assert (L : length w1 = length w)
    by (rewrite (same_caseless_length _ _ E1), (same_caseless_length _ _ E); reflexivity).
  assert (a1 = []).
  { apply (f_equal (@length ascii)) in Ew. rewrite length_app in Ew.
    destruct a1; [reflexivity|simpl in Ew; lia]. }
  subst a1. rewrite app_nil_r in *. subst. auto.
Qed.

Lemma sub_exact (k tr w : text) :
  same_caseless w k -> word_ends k = true -> Re.sub (NOTAMDecoder.abbr_re k) tr w = tr.
Proof.
  intros E Hk. unfold word_ends in Hk. apply andb_prop in Hk. destruct Hk as [Hh Hl].
  assert (Hw : w <> []).
  { intros ->. apply same_caseless_length in E. destruct k; [discriminate Hh|discriminate E]. }
  assert (M : matches (NOTAMDecoder.abbr_re k) [] w [] [] []).
  { apply abbr_re_complete; [exact E| |]; unfold boundary; rewrite ?app_nil_r.
    - rewrite (same_caseless_head _ _ E), Hh. reflexivity.
    - rewrite (same_caseless_head _ _ (same_caseless_rev _ _ E)), Hl. reflexivity. }
  apply rmatch_complete in M. rewrite !app_nil_r in M.
  destruct (Re.rmatch (NOTAMDecoder.abbr_re k) [] w []) as [|[[b1 a1] c1] l] eqn:Er;
    [contradiction|].
  destruct (abbr_entry k w b1 a1 c1 E) as (-> & -> & ->); [rewrite Er; left; reflexivity|].
  assert (Hend : Re.search_from (NOTAMDecoder.abbr_re k) (rev w) [] = None).
  { cbn [Re.search_from].
    destruct (Re.rmatch (NOTAMDecoder.abbr_re k) (rev w) [] []) as [|[[b2 a2] c2] l2] eqn:Er2;
      [reflexivity|].
    exfalso.
    assert (Hin : In (b2, a2, c2) (Re.rmatch (NOTAMDecoder.abbr_re k) (rev w) [] []))
      by (rewrite Er2; left; reflexivity).
    apply rmatch_sound in Hin. destruct Hin as (w2 & Ew2 & _ & M2).
    apply abbr_re_sound in M2. destruct M2 as (_ & E2 & _).
    destruct w2; [|discriminate Ew2].
    apply same_caseless_length in E2. destruct k; [discriminate Hh|discriminate E2]. }
  unfold Re.sub. destruct w as [|x w]; [contradiction|].
  cbn [Re.sub_from Re.search_from length]. rewrite Er.
  cbn [Re.f_text Re.f_rest Re.f_end Re.gap Re.f_pre length Nat.sub firstn rev app].
  change (rev w ++ [x]) with (rev (x :: w)). rewrite Hend. apply app_nil_r.
Qed.

Lemma substitute_app (l1 l2 : dict) (s : text) :
  NOTAMDecoder.substitute (l1 ++ l2) s
  = NOTAMDecoder.substitute l2 (NOTAMDecoder.substitute l1 s).
Proof.
  revert s. induction l1 as [|[k tr] l1 IH]; intros s; [reflexivity|].
  cbn [app NOTAMDecoder.substitute]. apply IH.
Qed.

Lemma substitute_skip (entries : dict) (s : text) :
  (forall e, In e entries -> Re.search (NOTAMDecoder.abbr_re (fst e)) s = None) ->
  NOTAMDecoder.substitute entries s = s.
Proof.
  induction entries as [|[k tr] entries IH]; intros H; [reflexivity|].
  cbn [NOTAMDecoder.substitute]. rewrite sub_nothing.
  - apply IH. intros e He. apply H. right. exact He.
  - apply (H (k, tr)). left. reflexivity.
Qed.

Lemma is_none_eq {A : Type} (o : option A) : is_none o = true -> o = None.
Proof. destruct o; [discriminate|reflexivity]. Qed.

(** One abbreviation, in any case, as the whole description. *)
Lemma substitute_token (before after : dict) (k tr w : text) :
  same_caseless w k -> entry_alone before k tr after = true ->
  NOTAMDecoder.substitute (before ++ (k, tr) :: after) w = tr.
Proof.
  intros E H. unfold entry_alone in H.
  apply andb_prop in H. destruct H as [H Ha]. apply andb_prop in H. destruct H as [Hk Hb].
  rewrite forallb_forall in Ha, Hb.
  rewrite substitute_app. rewrite (substitute_skip before w).
  - cbn [NOTAMDecoder.substitute]. rewrite (sub_exact k tr w E Hk).
    apply substitute_skip. intros e He. apply is_none_eq. apply Ha. exact He.
  - intros e He. apply (search_abbr_caseless _ k w); [|exact E].
    apply is_none_eq. apply Hb. exact He.
Qed.

Lemma entries_alone_split (rest : dict) :
  forall before, entries_alone before rest = true ->
    forall k tr, In (k, tr) rest ->
      exists b a, before ++ rest = b ++ (k, tr) :: a /\ entry_alone b k tr a = true.
Proof.
  induction rest as [|[k0 tr0] rest IH]; intros before H k tr Hin; [contradiction|].
  cbn [entries_alone] in H. apply andb_prop in H. destruct H as [H0 H].
  destruct Hin as [E|Hin].
  - injection E as <- <-. exists before, rest. auto.
  - destruct (IH _ H k tr Hin) as (b & a & E & Hba).
    exists b, a. rewrite <- E, <- app_assoc. auto.
Qed.

Lemma abbreviations_alone : entries_alone [] ABBREVIATIONS = true.
Proof. vm_compute. reflexivity. Qed.

Lemma decode_abbreviation (k tr w : text) :
  In (k, tr) ABBREVIATIONS -> same_caseless w k ->
  NOTAMDecoder._decode_description w = tr.
Proof.
  intros Hin E.
  destruct (entries_alone_split ABBREVIATIONS [] abbreviations_alone k tr Hin)
    as (b & a & Eba & H).
  unfold NOTAMDecoder._decode_description. cbn [app] in Eba. rewrite Eba.
  apply substitute_token; assumption.
Qed.

(** What [search] finds for an abbreviation is a whole word. *)
Lemma search_abbr_whole (k s : text) (m : Re.found) :
  Re.search (NOTAMDecoder.abbr_re k) s = Some m ->
  whole_word_at k s (rev (Re.f_pre m)).
Proof.
  intros H. apply search_from_sound in H. destruct H as (pre & Es & Ep & _ & M).
  rewrite app_nil_r in Ep. rewrite Ep, rev_involutive.
  rewrite Ep in M. apply abbr_re_sound in M. destruct M as (_ & E & B1 & B2).
  exists (Re.f_text m), (Re.f_rest m). auto.
Qed.

(** *** [sub_from] step by step *)

Lemma gap_later (b pre : text) (x : ascii) (m : Re.found) :
  Re.f_pre m = rev pre ++ x :: b -> Re.gap b m = x :: Re.gap (x :: b) m.
Proof.
  intros E. unfold Re.gap. rewrite E.
  assert (L1 : (length (rev pre ++ x :: b) - length b = S (length pre))%nat)
    by (rewrite length_app, length_rev; simpl; lia).
  assert (L2 : (length (rev pre ++ x :: b) - length (x :: b) = length pre)%nat)
    by (rewrite length_app, length_rev; simpl; lia).
  rewrite L1, L2.
  replace (rev pre ++ x :: b) with (rev (x :: pre) ++ b)
    by (simpl; rewrite <- app_assoc; reflexivity).
  rewrite <- (length_rev (x :: pre)) at 1. rewrite firstn_exact.
  rewrite rev_involutive.
  replace (rev (x :: pre) ++ b) with (rev pre ++ x :: b)
    by (simpl; rewrite <- app_assoc; reflexivity).
  rewrite <- (length_rev pre). rewrite firstn_exact. rewrite rev_involutive.
  reflexivity.
Qed.

Lemma sub_from_step (r : Re.regex) (repl : text) (n : nat) (b a : text) (x : ascii) :
  Re.rmatch r b (x :: a) [] = [] ->
  Re.sub_from (S n) r repl b (x :: a) = x :: Re.sub_from (S n) r repl (x :: b) a.
Proof.
  intros H. cbn [Re.sub_from Re.search_from]. rewrite H.
  destruct (Re.search_from r (x :: b) a) as [m|] eqn:E; [|reflexivity].
  destruct (search_from_sound r a (x :: b) m E) as (pre & _ & Ep & _).
  rewrite (gap_later b pre x m Ep). reflexivity.
Qed.

Lemma sub_from_skip (r : Re.regex) (repl : text) (n : nat) (p : text) :
  forall a b,
    (forall p1 p2, p = p1 ++ p2 -> p2 <> [] ->
                   Re.rmatch r (rev p1 ++ b) (p2 ++ a) [] = []) ->
    Re.sub_from (S n) r repl b (p ++ a) = p ++ Re.sub_from (S n) r repl (rev p ++ b) a.
Proof.
  induction p as [|x p IH]; intros a b H; [reflexivity|].
  cbn [app]. rewrite sub_from_step.
  - f_equal. rewrite IH.
    + cbn [rev]. rewrite <- app_assoc. reflexivity.
    + intros p1 p2 E Hp2. specialize (H (x :: p1) p2).
      cbn [rev] in H. rewrite <- app_assoc in H. apply H; [rewrite E; reflexivity|exact Hp2].
  - apply (H [] (x :: p)); [reflexivity|discriminate].
Qed.

Lemma sub_from_hit (r : Re.regex) (repl : text) (n : nat) (b w a : text) c l :
  w <> [] ->
  Re.rmatch r b (w ++ a) [] = (rev w ++ b, a, c) :: l ->
  Re.sub_from (S n) r repl b (w ++ a) = repl ++ Re.sub_from n r repl (rev w ++ b) a.
Proof.
  intros Hw H. destruct w as [|x w]; [contradiction|].
  cbn [Re.sub_from].
  assert (E : Re.search_from r b ((x :: w) ++ a)
              = Some (Re.Found b (x :: w) (rev (x :: w) ++ b) a c)).
  { cbn [app Re.search_from]. cbn [app] in H. rewrite H.
    change (x :: w ++ a) with ((x :: w) ++ a). rewrite captured_exact. reflexivity. }
  rewrite E. cbn [Re.f_text Re.f_rest Re.f_end].
  unfold Re.gap. cbn [Re.f_pre]. rewrite Nat.sub_diag. reflexivity.
Qed.

Lemma sub_from_fuel (r : Re.regex) (repl : text) :
  forall n m a b,
    (length a < n)%nat -> (length a < m)%nat ->
    Re.sub_from n r repl b a = Re.sub_from m r repl b a.
Proof.
  induction n as [|n IH]; intros m a b Hn Hm; [lia|].
  destruct m as [|m]; [lia|]. cbn [Re.sub_from].
  destruct (Re.search_from r b a) as [f|] eqn:E; [|reflexivity].
  destruct (search_from_sound r a b f E) as (pre & Ea & _).
  assert (L : length a = (length pre + (length (Re.f_text f) + length (Re.f_rest f)))%nat)
    by (rewrite Ea at 1; rewrite !length_app; reflexivity).
  f_equal. f_equal.
  destruct (Re.f_text f) as [|y t].
  - destruct (Re.f_rest f) as [|x a']; [reflexivity|].
    f_equal. apply IH; simpl in L; lia.
  - apply IH; simpl in L; lia.
Qed.

(** *** Case and character classes *)

Lemma plain_to_lower (c : ascii) : plain (to_lower c) = plain c.
Proof. destruct c as [[] [] [] [] [] [] [] []]; reflexivity. Qed.

Lemma same_caseless_map (P : ascii -> bool) (w k : text) :
  (forall c, P (to_lower c) = P c) -> same_caseless w k -> map P w = map P k.
Proof.
  intros HP E. unfold same_caseless in E.
  assert (H : forall l, map P (map to_lower l) = map P l)
    by (intros l; rewrite map_map; apply map_ext; exact HP).
  rewrite <- (H w), <- (H k), E. reflexivity.
Qed.

Lemma forallb_map {A : Type} (P : A -> bool) (l : list A) :
  forallb P l = forallb (fun b => b) (map P l).
Proof. induction l as [|x l IH]; simpl; [reflexivity|rewrite IH; reflexivity]. Qed.

Lemma same_caseless_head_plain (w k : text) :
  same_caseless w k -> head_plain w = head_plain k.
Proof.
  intros E. pose proof (same_caseless_map plain w k plain_to_lower E) as H.
  destruct w, k; try discriminate H; [reflexivity|].
  simpl in H. injection H as H _. exact H.
Qed.

Lemma caseless_eqb_eq (w k : text) : caseless_eqb w k = true <-> same_caseless w k.
Proof. apply text_eqb_eq. Qed.

Lemma plain_word (c : ascii) : plain c = true -> is_word c = true.
Proof. unfold plain. intros H. apply andb_prop in H. tauto. Qed.

Lemma last_is_word (w b : text) :
  w <> [] -> forallb is_word w = true -> Re.head_is_word (rev w ++ b) = true.
Proof.
  intros Hw H. destruct (rev w) as [|y r] eqn:E.
  - exfalso. apply Hw. rewrite <- (rev_involutive w), E. reflexivity.
  - simpl. rewrite forallb_forall in H. apply H. apply in_rev. rewrite E. left. reflexivity.
Qed.

Lemma head_app (w a : text) :
  w <> [] -> Re.head_is_word (w ++ a) = Re.head_is_word w.
Proof. destruct w; [contradiction|reflexivity]. Qed.

(** A run of word characters that ends at a character of another kind is
    determined by the text it starts. *)
Lemma word_run_unique (w w' t t' : text) :
  forallb is_word w = true -> forallb is_word w' = true ->
  Re.head_is_word t = false -> Re.head_is_word t' = false ->
  w ++ t = w' ++ t' -> w = w' /\ t = t'.
Proof.
  revert w'. induction w as [|x w IH]; intros w' H H' Ht Ht' E.
  - destruct w' as [|x' w']; [auto|]. exfalso. simpl in E. subst t.
    simpl in Ht, H'. apply andb_prop in H'. destruct H' as [H' _]. congruence.
  - destruct w' as [|x' w'].
    + exfalso. simpl in E. subst t'.
      simpl in Ht', H. apply andb_prop in H. destruct H as [H _]. congruence.
    + simpl in E. injection E as -> E. simpl in H, H'.
      apply andb_prop in H, H'. destruct H as [_ H]. destruct H' as [_ H'].
      destruct (IH w' H H' Ht Ht' E) as [-> ->]. auto.
Qed.

Lemma abbr_no_match (k b a : text) :
  (forall w a', a = w ++ a' -> same_caseless w k ->
                boundary b a -> boundary (rev w ++ b) a' -> False) ->
  Re.rmatch (NOTAMDecoder.abbr_re k) b a [] = [].
Proof.
  intros H.
  destruct (Re.rmatch (NOTAMDecoder.abbr_re k) b a []) as [|[[b1 a1] c1] l] eqn:Er;
    [reflexivity|].
  exfalso.
  assert (Hin : In (b1, a1, c1) (Re.rmatch (NOTAMDecoder.abbr_re k) b a []))
    by (rewrite Er; left; reflexivity).
  destruct (rmatch_sound _ _ _ _ b1 a1 c1 Hin) as (w & Ea & _ & M).
  apply abbr_re_sound in M. destruct M as (_ & Ec & B1 & B2).
  apply (H w a1 Ea Ec); [rewrite Ea; exact B1|exact B2].
Qed.

(** No match where the text does not go on with an ASCII word character. *)
Lemma no_match_head (k b a : text) :
  head_plain k = true -> head_plain a = false ->
  Re.rmatch (NOTAMDecoder.abbr_re k) b a [] = [].
Proof.
  intros Hk Ha. apply abbr_no_match. intros w a' E Hc _ _.
  apply same_caseless_head_plain in Hc. rewrite Hk in Hc.
  destruct w as [|y w]; [discriminate Hc|].
  subst a. simpl in Ha, Hc. congruence.
Qed.

Lemma alien_parts (t : text) :
  alien t ->
  t <> [] /\ forallb (fun c => negb (plain c)) t = true /\
  Re.head_is_word t = true /\ Re.head_is_word (rev t) = true.
Proof.
  unfold alien, alienb. intros H. apply andb_prop in H. destruct H as [H H3].
  apply andb_prop in H. destruct H as [H1 H2].
  repeat split; try assumption. intros ->. discriminate H2.
Qed.

Lemma head_plain_inside (t p1 p2 a : text) :
  forallb (fun c => negb (plain c)) t = true ->
  t = p1 ++ p2 -> p2 <> [] -> head_plain (p2 ++ a) = false.
Proof.
  intros H E Hp. destruct p2 as [|y p2]; [contradiction|]. simpl.
  rewrite forallb_forall in H. apply negb_true_iff. apply H.
  rewrite E. apply in_or_app. right. left. reflexivity.
Qed.

Lemma text_eqb_refl (a : text) : Py.text_eqb a a = true.
Proof. apply text_eqb_eq. reflexivity. Qed.

Lemma swapped_keep (p s s' : text) : swapped s s' -> swapped (p ++ s) (p ++ s').
Proof. intros H. induction p as [|x p IH]; [exact H|]. simpl. constructor. exact IH. Qed.

Lemma alien_head (t : text) (y : ascii) (t' : text) :
  alien t -> t = y :: t' -> is_word y = true /\ plain y = false.
Proof.
  intros H ->. destruct (alien_parts _ H) as (_ & Ha & Hh & _).
  simpl in Ha, Hh. apply andb_prop in Ha. destruct Ha as [Ha _].
  apply negb_true_iff in Ha. auto.
Qed.

(** An ASCII text at the start of the new text stands at the start of the
    old one. *)
Lemma swapped_prefix (w' : text) :
  forallb is_ascii w' = true ->
  forall s s' post',
    swapped s s' -> s' = w' ++ post' ->
    exists post, s = w' ++ post /\ swapped post post'.
Proof.
  intros Hw. induction w' as [|y w' IH]; intros s s' post' H E.
  - exists s. simpl in E. subst s'. auto.
  - simpl in Hw. apply andb_prop in Hw. destruct Hw as [Hy Hw].
    destruct H as [|c s s' H|w t s s' Hh Ht H].
    + discriminate E.
    + simpl in E. injection E as -> E.
      destruct (IH Hw s s' post' H E) as (post & -> & Hp). exists post. auto.
    + exfalso. destruct (alien_parts t Ht) as (Hne' & _).
      destruct t as [|x t']; [contradiction|].
      destruct (alien_head _ x t' Ht eq_refl) as [Hx1 Hx2].
      simpl in E. injection E as -> _.
      unfold plain in Hx2. rewrite Hx1, Hy in Hx2. discriminate.
Qed.

Lemma is_ascii_to_lower (c : ascii) : is_ascii (to_lower c) = is_ascii c.
Proof. destruct c as [[] [] [] [] [] [] [] []]; reflexivity. Qed.

Lemma same_caseless_ascii (w k : text) :
  same_caseless w k -> forallb is_ascii w = forallb is_ascii k.
Proof.
  intros E. rewrite (forallb_map is_ascii w), (forallb_map is_ascii k).
  rewrite (same_caseless_map is_ascii w k is_ascii_to_lower E). reflexivity.
Qed.

Lemma glue_ext (f g : text -> text) :
  forall rest w0,
    (forall w, In w (w0 :: map snd rest) -> f w = g w) ->
    glue f w0 rest = glue g w0 rest.
Proof.
  induction rest as [|[c w1] rest IH]; intros w0 H; cbn [glue].
  - apply H. left. reflexivity.
  - rewrite (H w0 (or_introl eq_refl)). f_equal. f_equal. apply IH.
    intros w Hin. apply H. right. exact Hin.
Qed.

Lemma find_app {A : Type} (p : A -> bool) (l1 l2 : list A) :
  find p (l1 ++ l2) = match find p l1 with Some x => Some x | None => find p l2 end.
Proof.
  induction l1 as [|x l1 IH]; [reflexivity|]. simpl. destruct (p x); [reflexivity|exact IH].
Qed.

Lemma same_caseless_word (w k : text) :
  same_caseless w k -> forallb is_word w = forallb is_word k.
Proof.
  intros E. rewrite (forallb_map is_word w), (forallb_map is_word k).
  rewrite (same_caseless_map is_word w k is_word_to_lower E). reflexivity.
Qed.

Lemma single_words_ok (s : text) :
  single_words s = true ->
  forall k tr pre, In (k, tr) ABBREVIATIONS -> forallb is_word k = false ->
                   ~ whole_word_at k s pre.
Proof.
  unfold single_words. rewrite forallb_forall. intros H k tr pre Hin Hk Hocc.
  specialize (H (k, tr) Hin). cbn [fst] in H. rewrite Hk in H. cbn [orb] in H.
  apply is_none_eq in H. exact (search_abbr_some k s pre Hocc H).
Qed.

(** *** Where an abbreviation stands *)

Lemma head_rev_app (w b : text) :
  w <> [] -> Re.head_is_word (rev w ++ b) = Re.head_is_word (rev w).
Proof.
  intros Hw. apply head_app. intros E. apply Hw.
  rewrite <- (rev_involutive w), E. reflexivity.
Qed.

Lemma same_caseless_nonempty (w k : text) : same_caseless w k -> k <> [] -> w <> [].
Proof.
  intros E Hk ->. apply same_caseless_length in E. destruct k; [contradiction|discriminate E].
Qed.

Lemma match_stands (k b a : text) :
  Re.rmatch (NOTAMDecoder.abbr_re k) b a [] <> [] -> stands k b a.
Proof.
  intros H.
  destruct (Re.rmatch (NOTAMDecoder.abbr_re k) b a []) as [|[[b1 a1] c1] l] eqn:Er;
    [contradiction|].
  assert (Hin : In (b1, a1, c1) (Re.rmatch (NOTAMDecoder.abbr_re k) b a []))
    by (rewrite Er; left; reflexivity).
  destruct (rmatch_sound _ _ _ _ b1 a1 c1 Hin) as (w & Ea & _ & M).
  apply abbr_re_sound in M. destruct M as (_ & Ec & B1 & B2).
  exists w, a1. rewrite Ea. auto.
Qed.

Lemma stands_match (k b a : text) :
  stands k b a -> Re.rmatch (NOTAMDecoder.abbr_re k) b a [] <> [].
Proof.
  intros (w & a' & -> & Ec & B1 & B2) E.
  pose proof (rmatch_complete _ b w a' [] [] (abbr_re_complete k b w a' [] Ec B1 B2)) as Hin.
  rewrite E in Hin. contradiction.
Qed.

Lemma no_stand_no_match (k b a : text) :
  ~ stands k b a -> Re.rmatch (NOTAMDecoder.abbr_re k) b a [] = [].
Proof.
  intros H. destruct (Re.rmatch (NOTAMDecoder.abbr_re k) b a []) eqn:E; [reflexivity|].
  exfalso. apply H. apply match_stands. rewrite E. discriminate.
Qed.

(** Of the text before it, an occurrence only sees whether it ends with a
    word character. *)
Lemma stands_context (k b b' a : text) :
  k <> [] -> Re.head_is_word b = Re.head_is_word b' -> stands k b a -> stands k b' a.
Proof.
  intros Hk Hb (w & a' & E & Ec & B1 & B2). exists w, a'.
  pose proof (same_caseless_nonempty w k Ec Hk) as Hw.
  unfold boundary in *. rewrite (head_rev_app w b Hw) in B2.
  rewrite (head_rev_app w b' Hw), <- Hb. auto.
Qed.

Lemma swapped_head (s s' : text) :
  swapped s s' -> Re.head_is_word s = Re.head_is_word s'.
Proof.
  intros H. destruct H as [|c s s' H|w t s s' Hh Ht H]; try reflexivity.
  destruct (alien_parts t Ht) as (Hne & _ & Hth & _).
  assert (Hw : w <> []) by (intros ->; discriminate Hh).
  rewrite (head_app w s Hw), (head_app t s' Hne), Hh, Hth. reflexivity.
Qed.

(** An occurrence in the text after some pieces were translated is an
    occurrence in the text as it was written. *)
Lemma stands_swapped (k b p T T' : text) :
  forallb is_ascii k = true -> swapped T T' ->
  stands k b (p ++ T') -> stands k b (p ++ T).
Proof.
  intros Hk HT (w & a' & E & Ec & B1 & B2).
  pose proof (swapped_keep p T T' HT) as Hp.
  assert (Hw : forallb is_ascii w = true) by (rewrite (same_caseless_ascii w k Ec); exact Hk).
  destruct (swapped_prefix w Hw _ _ a' Hp E) as (post & E' & Hpost).
  exists w, post. unfold boundary in *.
  rewrite (swapped_head _ _ Hp), (swapped_head _ _ Hpost). auto.
Qed.

(** The match at the start of a piece that spells the abbreviation. *)
Lemma match_here (k b w0 tail : text) :
  k <> [] -> same_caseless w0 k ->
  Re.head_is_word k = true -> Re.head_is_word (rev k) = true ->
  Re.head_is_word b = false -> Re.head_is_word tail = false ->
  exists l, Re.rmatch (NOTAMDecoder.abbr_re k) b (w0 ++ tail) []
            = (rev w0 ++ b, tail, []) :: l.
Proof.
  intros Hk Hc Hkh Hkl Hb Ht.
  pose proof (same_caseless_nonempty w0 k Hc Hk) as Hne.
  assert (M : matches (NOTAMDecoder.abbr_re k) b w0 tail [] []).
  { apply abbr_re_complete; [exact Hc| |]; unfold boundary.
    - rewrite (head_app w0 tail Hne), Hb, (same_caseless_head _ _ Hc), Hkh. reflexivity.
    - rewrite (head_rev_app w0 b Hne), Ht,
        (same_caseless_head _ _ (same_caseless_rev _ _ Hc)), Hkl. reflexivity. }
  apply rmatch_complete in M.
  destruct (Re.rmatch (NOTAMDecoder.abbr_re k) b (w0 ++ tail) []) as [|[[b1 a1] c1] l] eqn:Er;
    [contradiction|].
  exists l. f_equal.
  assert (Hin : In (b1, a1, c1) (Re.rmatch (NOTAMDecoder.abbr_re k) b (w0 ++ tail) []))
    by (rewrite Er; left; reflexivity).
  destruct (rmatch_sound _ _ _ _ b1 a1 c1 Hin) as (w1 & E1 & Eb & M1).
  apply abbr_re_sound in M1. destruct M1 as (-> & Hc1 & _).
  assert (L : length w0 = length w1)
    by (rewrite (same_caseless_length _ _ Hc), (same_caseless_length _ _ Hc1); reflexivity).
  destruct (app_same_length w0 w1 tail a1 L E1) as [-> ->]. subst b1. reflexivity.
Qed.

(** *** One pass of [re.sub] over the pieces of a description *)

Lemma entry_ok_parts (k tr : text) :
  entry_ok (k, tr) = true ->
  k <> [] /\ forallb is_ascii k = true /\ head_plain k = true /\
  Re.head_is_word k = true /\ Re.head_is_word (rev k) = true /\ alien tr.
Proof.
  unfold entry_ok. cbn [fst snd]. intros H.
  apply andb_prop in H. destruct H as [H H4]. apply andb_prop in H. destruct H as [H H3].
  apply andb_prop in H. destruct H as [H1 H2].
  assert (Hk : k <> []) by (intros ->; discriminate H2).
  repeat split; try assumption.
  destruct k as [|x k]; [contradiction|]. simpl in *. apply plain_word. exact H2.
Qed.

Lemma sub_piece (k tr : text) (f : text -> text) (w0 T T' b b' : text) (n n' : nat) :
  entry_ok (k, tr) = true ->
  Re.head_is_word b = false -> Re.head_is_word b' = false ->
  kept_or_put f w0 ->
  swapped T T' -> Re.head_is_word T' = false ->
  (forall p1 p2, w0 = p1 ++ p2 -> p2 <> [] ->
                 stands k (rev p1 ++ b) (p2 ++ T) -> p1 = [] /\ same_caseless w0 k) ->
  (length (f w0 ++ T') < n)%nat -> (length T' < n')%nat ->
  Re.sub_from n (NOTAMDecoder.abbr_re k) tr b' (f w0 ++ T')
  = next_with f k tr w0
    ++ Re.sub_from n' (NOTAMDecoder.abbr_re k) tr (rev (f w0) ++ b') T'.
Proof.
  intros He Hb Hb' Hf HT Ht Honly Hn Hn'.
  destruct (entry_ok_parts k tr He) as (Hk & Hka & Hkp & Hkh & Hkl & _).
  destruct n as [|n]; [lia|].
  unfold next_with. destruct (Py.text_eqb (f w0) w0) eqn:Ef.
  - apply text_eqb_eq in Ef. rewrite Ef in *. clear Hf.
    destruct (caseless_eqb w0 k) eqn:Ec; cbn [andb].
    + apply caseless_eqb_eq in Ec.
      pose proof (same_caseless_nonempty w0 k Ec Hk) as Hne.
      destruct (match_here k b' w0 T' Hk Ec Hkh Hkl Hb' Ht) as [l Hl].
      rewrite (sub_from_hit _ tr n b' w0 T' [] l Hne Hl). f_equal.
      apply sub_from_fuel; [|exact Hn'].
      rewrite length_app in Hn. destruct w0; [contradiction|simpl in Hn; lia].
    + rewrite sub_from_skip.
      * f_equal. apply sub_from_fuel; [rewrite length_app in Hn; lia|exact Hn'].
      * intros p1 p2 E Hp2. apply no_stand_no_match. intros Hs.
        apply (stands_swapped k _ p2 T T' Hka HT) in Hs.
        assert (Hctx : Re.head_is_word (rev p1 ++ b') = Re.head_is_word (rev p1 ++ b)).
        { destruct p1 as [|y p1]; [cbn [rev app]; congruence|].
          rewrite !head_rev_app by discriminate. reflexivity. }
        apply (stands_context k _ (rev p1 ++ b) _ Hk Hctx) in Hs.
        destruct (Honly p1 p2 E Hp2 Hs) as [_ Hc].
        apply caseless_eqb_eq in Hc. congruence.
  - cbn [andb]. destruct Hf as [Hf|(_ & _ & Hf & _)];
      [rewrite Hf, text_eqb_refl in Ef; discriminate|].
    destruct (alien_parts _ Hf) as (_ & Ha & _).
    rewrite sub_from_skip.
    + f_equal. apply sub_from_fuel; [rewrite length_app in Hn; lia|exact Hn'].
    + intros p1 p2 E Hp2. apply no_match_head; [exact Hkp|].
      exact (head_plain_inside (f w0) p1 p2 T' Ha E Hp2).
Qed.

Lemma glue_after (f : text -> text) (w0 : text) (rest : list (ascii * text)) :
  glue f w0 rest = f w0 ++ after f rest.
Proof. destruct rest as [|[c w1] rest]; cbn [glue after]; [symmetry; apply app_nil_r|reflexivity]. Qed.

Lemma glue_swapped (f : text -> text) :
  forall rest w0,
    (forall w, In w (w0 :: map snd rest) -> kept_or_put f w) ->
    swapped (glue (fun w => w) w0 rest) (glue f w0 rest).
Proof.
  assert (Hone : forall s s', swapped s s' -> forall w,
            kept_or_put f w -> swapped (w ++ s) (f w ++ s')).
  { intros s s' H w [E|(Hh & _ & Ha & _)].
    - rewrite E. apply swapped_keep. exact H.
    - apply S_swap; assumption. }
  induction rest as [|[c w1] rest IH]; intros w0 H; cbn [glue].
  - pose proof (Hone [] [] S_nil w0 (H w0 (or_introl eq_refl))) as X.
    rewrite !app_nil_r in X. exact X.
  - apply Hone; [|exact (H w0 (or_introl eq_refl))]. constructor. apply IH.
    intros w Hin. apply H. right. exact Hin.
Qed.

Lemma after_swapped (f : text -> text) (rest : list (ascii * text)) :
  (forall w, In w (map snd rest) -> kept_or_put f w) ->
  swapped (after (fun w => w) rest) (after f rest).
Proof.
  intros H. destruct rest as [|[c w1] rest]; cbn [after]; constructor.
  apply glue_swapped. exact H.
Qed.

Lemma sub_pieces (k tr : text) (f : text -> text) :
  entry_ok (k, tr) = true ->
  forall rest w0 b b' n,
    Re.head_is_word b = false -> Re.head_is_word b' = false ->
    separators rest ->
    (forall w, In w (w0 :: map snd rest) -> kept_or_put f w) ->
    only_pieces k b w0 rest ->
    (length (glue f w0 rest) < n)%nat ->
    Re.sub_from n (NOTAMDecoder.abbr_re k) tr b' (glue f w0 rest)
    = glue (next_with f k tr) w0 rest.
Proof.
  intros He. destruct (entry_ok_parts k tr He) as (Hk & Hka & Hkp & _).
  induction rest as [|[c w1] rest IH]; intros w0 b b' n Hb Hb' Hr Hf Ho Hn.
  - cbn [glue only_pieces after] in *. destruct Ho as [Ho _].
    pose proof (sub_piece k tr f w0 [] [] b b' n 1 He Hb Hb' (Hf w0 (or_introl eq_refl))
                  S_nil eq_refl Ho) as H.
    rewrite !app_nil_r in H. rewrite H; [|exact Hn|simpl; lia].
    cbn [Re.sub_from Re.search_from].
    rewrite no_match_head; [apply app_nil_r|exact Hkp|reflexivity].
  - cbn [only_pieces] in Ho. destruct Ho as [Ho Ho'].
    inversion Hr as [|x l Hc Hr']; subst. cbn [fst] in Hc.
    rewrite glue_after in Hn |- *. rewrite (glue_after (next_with f k tr)).
    assert (HT : swapped (after (fun w => w) ((c, w1) :: rest)) (after f ((c, w1) :: rest))).
    { apply after_swapped. intros w Hin. apply Hf. right. exact Hin. }
    assert (Ht : Re.head_is_word (after f ((c, w1) :: rest)) = false) by exact Hc.
    rewrite (sub_piece k tr f w0 _ _ b b' n n He Hb Hb' (Hf w0 (or_introl eq_refl))
               HT Ht Ho Hn); [|rewrite length_app in Hn; lia].
    f_equal. cbn [after] in *. destruct n as [|n]; [lia|].
    rewrite sub_from_step.
    + f_equal. apply (IH w1 (c :: rev w0 ++ b)); try assumption.
      * intros w Hin. apply Hf. right. exact Hin.
      * rewrite length_app in Hn. simpl in Hn. lia.
    + apply no_match_head; [exact Hkp|]. simpl. unfold plain. rewrite Hc. reflexivity.
Qed.

(** *** The loop over the dictionary *)

(** The translation found for a piece is not the piece. *)
Lemma expand_found (done : dict) (w : text) (e : text * text) :
  forallb entry_ok done = true ->
  find (fun e => caseless_eqb w (fst e)) done = Some e ->
  same_caseless w (fst e) /\ entry_ok e = true /\ Py.text_eqb (snd e) w = false.
Proof.
  intros Hd Ef. apply find_some in Ef. destruct Ef as [Hin Hc].
  rewrite forallb_forall in Hd. pose proof (Hd _ Hin) as He.
  apply caseless_eqb_eq in Hc. split; [exact Hc|]. split; [exact He|].
  destruct e as [k tr]. cbn [fst snd] in *.
  destruct (entry_ok_parts k tr He) as (_ & _ & Hkp & _ & _ & Ha).
  destruct (Py.text_eqb tr w) eqn:Et; [|reflexivity].
  exfalso. apply text_eqb_eq in Et. subst tr.
  pose proof (same_caseless_head_plain _ _ Hc) as Hp. rewrite Hkp in Hp.
  destruct w as [|x w]; [discriminate Hp|].
  destruct (alien_head _ x w Ha eq_refl) as [_ Hx]. simpl in Hp. congruence.
Qed.

(** A piece is as it was written or was replaced by a translation. *)
Lemma expand_state (done : dict) (w : text) :
  forallb entry_ok done = true -> kept_or_put (expand_with done) w.
Proof.
  intros Hd. unfold kept_or_put, expand_with.
  destruct (find (fun e => caseless_eqb w (fst e)) done) as [[k tr]|] eqn:E; [|left; reflexivity].
  right. destruct (expand_found done w (k, tr) Hd E) as (Hc & He & Ht). cbn [fst snd] in *.
  destruct (entry_ok_parts k tr He) as (_ & _ & _ & Hkh & Hkl & Ha).
  split; [rewrite (same_caseless_head _ _ Hc); exact Hkh|].
  split; [rewrite (same_caseless_head _ _ (same_caseless_rev _ _ Hc)); exact Hkl|].
  split; [exact Ha|].
  intros ->. rewrite text_eqb_refl in Ht. discriminate Ht.
Qed.

Lemma next_expand (done : dict) (k tr w : text) :
  forallb entry_ok done = true ->
  next_with (expand_with done) k tr w = expand_with (done ++ [(k, tr)]) w.
Proof.
  intros Hd. unfold next_with, expand_with. rewrite find_app.
  destruct (find (fun e => caseless_eqb w (fst e)) done) as [e|] eqn:Ef.
  - destruct (expand_found done w e Hd Ef) as (_ & _ & Ht). rewrite Ht. reflexivity.
  - rewrite text_eqb_refl. cbn [andb find fst snd].
    destruct (caseless_eqb w k); reflexivity.
Qed.

(** One pass of the loop, over the pieces. *)
Lemma sub_entry (done : dict) (k tr : text) (w0 : text) (rest : list (ascii * text)) :
  forallb entry_ok done = true -> entry_ok (k, tr) = true ->
  separators rest -> only_pieces k [] w0 rest ->
  Re.sub (NOTAMDecoder.abbr_re k) tr (glue (expand_with done) w0 rest)
  = glue (expand_with (done ++ [(k, tr)])) w0 rest.
Proof.
  intros Hd He Hr Ho. unfold Re.sub.
  rewrite (sub_pieces k tr (expand_with done) He rest w0 [] []); try assumption;
    try reflexivity; try lia.
  - apply glue_ext. intros w _. apply next_expand. exact Hd.
  - intros w _. apply expand_state. exact Hd.
Qed.

Lemma substitute_pieces (entries : dict) :
  forall done w0 rest,
    forallb entry_ok done = true -> forallb entry_ok entries = true ->
    separators rest ->
    (forall k tr, In (k, tr) entries -> only_pieces k [] w0 rest) ->
    NOTAMDecoder.substitute entries (glue (expand_with done) w0 rest)
    = glue (expand_with (done ++ entries)) w0 rest.
Proof.
  induction entries as [|[k tr] entries IH]; intros done w0 rest Hd He Hr Ho.
  - rewrite app_nil_r. reflexivity.
  - cbn [NOTAMDecoder.substitute]. cbn [forallb] in He. apply andb_prop in He.
    destruct He as [He1 He].
    rewrite (sub_entry done k tr w0 rest Hd He1 Hr (Ho k tr (or_introl eq_refl))).
    rewrite IH; try assumption.
    + rewrite <- app_assoc. reflexivity.
    + rewrite forallb_app, Hd. cbn [forallb]. rewrite He1. reflexivity.
    + intros k' tr' Hin. apply (Ho k' tr'). right. exact Hin.
Qed.

Lemma abbreviations_ok : forallb entry_ok ABBREVIATIONS = true.
Proof. vm_compute. reflexivity. Qed.

(** The translation of a description, piece by piece. *)
Lemma decode_pieces (w0 : text) (rest : list (ascii * text)) :
  separators rest ->
  (forall k tr, In (k, tr) ABBREVIATIONS -> only_pieces k [] w0 rest) ->
  NOTAMDecoder._decode_description (glue (fun w => w) w0 rest)
  = glue (expand_with ABBREVIATIONS) w0 rest.
Proof.
  intros Hr Ho. unfold NOTAMDecoder._decode_description.
  rewrite (glue_ext (fun w => w) (expand_with []) rest w0) by reflexivity.
  apply (substitute_pieces ABBREVIATIONS [] w0 rest eq_refl abbreviations_ok Hr Ho).
Qed.

(** *** A description of single words *)

Lemma hd_error_none {A : Type} (l : list A) : is_none (hd_error l) = true -> l = [].
Proof. destruct l; [reflexivity|discriminate]. Qed.

(** An abbreviation of one word stands only where a word spells it. *)
Lemma simple_only_pieces (k : text) :
  k <> [] -> forallb is_word k = true ->
  forall rest w0 b,
    Re.head_is_word b = false -> forallb is_word w0 = true ->
    Forall (fun cw => is_word (fst cw) = false /\ forallb is_word (snd cw) = true) rest ->
    only_pieces k b w0 rest.
Proof.
  intros Hk Hkw.
  assert (Hpiece : forall w0 b T,
            Re.head_is_word b = false -> forallb is_word w0 = true ->
            Re.head_is_word T = false ->
            forall p1 p2, w0 = p1 ++ p2 -> p2 <> [] ->
                          stands k (rev p1 ++ b) (p2 ++ T) ->
                          p1 = [] /\ same_caseless w0 k).
  { intros w0 b T Hb Hw HT p1 p2 E Hp2 (w & a' & Ea & Hc & B1 & B2).
    unfold boundary in *. destruct p1 as [|y p1].
    - split; [reflexivity|]. cbn [app rev] in *. subst p2.
      assert (Hww : forallb is_word w = true) by (rewrite (same_caseless_word _ _ Hc); exact Hkw).
      pose proof (same_caseless_nonempty w k Hc Hk) as Hne.
      rewrite (last_is_word w b Hne Hww) in B2.
      assert (Ha' : Re.head_is_word a' = false)
        by (destruct (Re.head_is_word a'); [discriminate B2|reflexivity]).
      destruct (word_run_unique w0 w T a' Hw Hww HT Ha' Ea) as [-> _]. exact Hc.
    - exfalso. rewrite E, forallb_app in Hw. apply andb_prop in Hw. destruct Hw as [H1 H2].
      rewrite (last_is_word (y :: p1) b ltac:(discriminate) H1) in B1.
      rewrite (head_app p2 T Hp2) in B1.
      destruct p2 as [|z p2]; [contradiction|]. simpl in H2, B1.
      apply andb_prop in H2. destruct H2 as [H2 _]. rewrite H2 in B1. discriminate B1. }
  induction rest as [|[c w1] rest IH]; intros w0 b Hb Hw Hr; cbn [only_pieces]; split.
  - apply Hpiece; auto.
  - exact I.
  - inversion Hr as [|x l [Hc Hw1] Hr']; subst. apply Hpiece; auto.
  - inversion Hr as [|x l [Hc Hw1] Hr']; subst. cbn [fst snd] in *. apply IH; auto.
Qed.

(** An abbreviation that stands nowhere in the description stands in none
    of its pieces. *)
Lemma absent_only_pieces (k s : text) :
  (forall pre, ~ whole_word_at k s pre) ->
  forall rest w0 b, s = rev b ++ glue (fun w => w) w0 rest -> only_pieces k b w0 rest.
Proof.
  intros Hno.
  assert (Hpiece : forall w0 b rest,
            s = rev b ++ glue (fun w => w) w0 rest ->
            forall p1 p2, w0 = p1 ++ p2 -> p2 <> [] ->
                          stands k (rev p1 ++ b) (p2 ++ after (fun w => w) rest) ->
                          p1 = [] /\ same_caseless w0 k).
  { intros w0 b rest Es p1 p2 E Hp2 (w & a' & Ea & Hc & B1 & B2).
    exfalso. apply (Hno (rev b ++ p1)). exists w, a'.
    rewrite rev_app_distr, rev_involutive. rewrite Ea in B1.
    split; [|auto].
    rewrite Es, glue_after, E, <- !app_assoc, Ea. reflexivity. }
  induction rest as [|[c w1] rest IH]; intros w0 b Es; cbn [only_pieces]; split.
  - apply Hpiece. exact Es.
  - exact I.
  - apply Hpiece. exact Es.
  - apply IH. rewrite Es. cbn [glue rev]. rewrite rev_app_distr, rev_involutive.
    rewrite <- !app_assoc. reflexivity.
Qed.

Lemma split_words_ok (s : text) :
  glue (fun w => w) (fst (split_words s)) (snd (split_words s)) = s /\
  forallb is_word (fst (split_words s)) = true /\
  Forall (fun cw => is_word (fst cw) = false /\ forallb is_word (snd cw) = true)
         (snd (split_words s)).
Proof.
  induction s as [|c s IH]; [repeat split; constructor|].
  destruct IH as (E & Hw & Hr). cbn [split_words].
  destruct (split_words s) as [w r]. cbn [fst snd] in *.
  destruct (is_word c) eqn:Ew; cbn [fst snd].
  - split; [|split; [|exact Hr]].
    + destruct r as [|[c1 w1] r]; cbn [glue] in *; [f_equal; exact E|].
      cbn [app]. f_equal. exact E.
    + cbn [forallb]. rewrite Ew, Hw. reflexivity.
  - split; [|split; [reflexivity|]].
    + cbn [glue app]. f_equal. exact E.
    + constructor; [|exact Hr]. split; [exact Ew|exact Hw].
Qed.

(** The translation of a description of single words, word by word. *)
Lemma decode_by_words (s : text) :
  (forall k tr pre, In (k, tr) ABBREVIATIONS -> forallb is_word k = false ->
                    ~ whole_word_at k s pre) ->
  NOTAMDecoder._decode_description s = translate_words s.
Proof.
  intros Hno. destruct (split_words_ok s) as (E & Hw & Hr). unfold translate_words.
  destruct (split_words s) as [w0 rest]. cbn [fst snd] in *.
  assert (Hs : separators rest)
    by (unfold separators; apply (Forall_impl _ (fun cw H => proj1 H) Hr)).
  assert (Ho : forall k tr, In (k, tr) ABBREVIATIONS -> only_pieces k [] w0 rest).
  { intros k tr Hin. destruct (forallb is_word k) eqn:Ek.
    - pose proof abbreviations_ok as Hok. rewrite forallb_forall in Hok.
      destruct (entry_ok_parts k tr (Hok _ Hin)) as (Hk & _).
      apply simple_only_pieces; auto.
    - apply (absent_only_pieces k s); [|symmetry; exact E].
      intros pre. exact (Hno k tr pre Hin Ek). }
  pose proof (decode_pieces w0 rest Hs Ho) as Hd. rewrite E in Hd. exact Hd.
Qed.

(** *** Pieces checked with the matcher *)

Lemma no_match_within_ok (k : text) :
  forall p b a,
    no_match_within k b p a = true ->
    forall p1 p2, p = p1 ++ p2 -> p2 <> [] -> ~ stands k (rev p1 ++ b) (p2 ++ a).
Proof.
  induction p as [|x p IH]; intros b a H p1 p2 E Hp2 Hs.
  - destruct p1; [|discriminate E]. simpl in E. subst p2. contradiction.
  - cbn [no_match_within] in H. apply andb_prop in H. destruct H as [H1 H2].
    destruct p1 as [|y p1].
    + cbn [app rev] in *. subst p2. apply stands_match in Hs.
      apply Hs. apply hd_error_none. exact H1.
    + simpl in E. injection E as <- E. cbn [rev] in Hs. rewrite <- app_assoc in Hs.
      exact (IH (x :: b) a H2 p1 p2 E Hp2 Hs).
Qed.

Lemma pieces_checked_ok (k : text) :
  forall rest w0 b, pieces_checked k b w0 rest = true -> only_pieces k b w0 rest.
Proof.
  assert (Hpiece : forall w0 b T,
            match w0 with
            | [] => true
            | x :: w0' =>
                (caseless_eqb w0 k
                 || is_none (hd_error (Re.rmatch (NOTAMDecoder.abbr_re k) b (w0 ++ T) [])))
                && no_match_within k (x :: b) w0' T
            end = true ->
            forall p1 p2, w0 = p1 ++ p2 -> p2 <> [] ->
                          stands k (rev p1 ++ b) (p2 ++ T) ->
                          p1 = [] /\ same_caseless w0 k).
  { intros w0 b T H p1 p2 E Hp2 Hs. destruct w0 as [|x w0].
    - destruct p1; [|discriminate E]. simpl in E. subst p2. contradiction.
    - apply andb_prop in H. destruct H as [H1 H2]. destruct p1 as [|y p1].
      + split; [reflexivity|]. cbn [app rev] in *. subst p2.
        apply orb_prop in H1. destruct H1 as [H1|H1]; [apply caseless_eqb_eq; exact H1|].
        exfalso. apply stands_match in Hs. apply Hs. apply hd_error_none. exact H1.
      + exfalso. simpl in E. injection E as <- E. cbn [rev] in Hs.
        rewrite <- app_assoc in Hs.
        exact (no_match_within_ok k w0 (x :: b) T H2 p1 p2 E Hp2 Hs). }
  induction rest as [|[c w1] rest IH]; intros w0 b H;
    cbn [pieces_checked only_pieces] in *; apply andb_prop in H; destruct H as [H1 H2];
    (split; [apply Hpiece; exact H1|]).
  - exact I.
  - apply IH. exact H2.
Qed.

Lemma all_checked_ok (w0 : text) (rest : list (ascii * text)) :
  all_checked w0 rest = true ->
  forall k tr, In (k, tr) ABBREVIATIONS -> only_pieces k [] w0 rest.
Proof.
  unfold all_checked. rewrite forallb_forall. intros H k tr Hin.
  apply pieces_checked_ok. exact (H (k, tr) Hin).
Qed.

(** C9.  For a description in ASCII.  Every replacement the translation
    makes is of an abbreviation that stands between two word boundaries,
    whatever its case, so an abbreviation inside a longer word is never
    touched, and an abbreviation that stands as a whole word is always
    found.  Let a description be cut in pieces at some of its characters
    that are not word characters, so that wherever an abbreviation stands
    in it as a whole word it is one of the pieces: its translation is the
    description with every piece that spells an abbreviation, in any case,
    replaced by the expansion and everything else kept.  In particular, when no abbreviation written in
    several words (U/S, WORK IN PROGRESS) stands in the description, every
    word that is an abbreviation is replaced and every other word is kept.
    A description in which no abbreviation stands as a whole word is
    returned as it is; an abbreviation standing alone is replaced by its
    expansion whatever its case.  In "RWY CLSD DUE MAINT" the three
    dictionary words are replaced and DUE is kept; AIRWAY, and RWY inside a
    longer word, are kept. *)
Theorem C9_whole_word_translation :
  (forall k s m,
     ascii_text k -> ascii_text s ->
     Re.search (NOTAMDecoder.abbr_re k) s = Some m ->
     whole_word_at k s (rev (Re.f_pre m))) /\
  (forall k s pre,
     ascii_text k -> ascii_text s ->
     whole_word_at k s pre -> Re.search (NOTAMDecoder.abbr_re k) s <> None) /\
  (forall w0 rest,
     ascii_text (glue (fun w => w) w0 rest) ->
     separators rest ->
     (forall k tr, In (k, tr) ABBREVIATIONS -> only_pieces k [] w0 rest) ->
     NOTAMDecoder._decode_description (glue (fun w => w) w0 rest)
     = glue (expand_with ABBREVIATIONS) w0 rest) /\
  (forall s,
     ascii_text s ->
     (forall k tr pre, In (k, tr) ABBREVIATIONS -> forallb is_word k = false ->
                       ~ whole_word_at k s pre) ->
     NOTAMDecoder._decode_description s = translate_words s) /\
  (forall s,
     ascii_text s ->
     (forall k tr pre, In (k, tr) ABBREVIATIONS -> ~ whole_word_at k s pre) ->
     NOTAMDecoder._decode_description s = s) /\
  (forall k tr w,
     In (k, tr) ABBREVIATIONS -> same_caseless w k ->
     NOTAMDecoder._decode_description w = tr) /\
  (NOTAMDecoder._decode_description (str "RWY CLSD DUE MAINT")
     = str "ВПП закрыт DUE техобслуживание" /\
   translate_words (str "RWY CLSD DUE MAINT")
     = str "ВПП закрыт DUE техобслуживание" /\
   dict_find ABBREVIATIONS (str "RWY") = Some (str "ВПП") /\
   dict_find ABBREVIATIONS (str "CLSD") = Some (str "закрыт") /\
   dict_find ABBREVIATIONS (str "DUE") = None /\
   dict_find ABBREVIATIONS (str "MAINT") = Some (str "техобслуживание") /\
   NOTAMDecoder._decode_description (str "rwy Clsd due Maint")
     = str "ВПП закрыт due техобслуживание" /\
   NOTAMDecoder._decode_description (str "AIRWAY") = str "AIRWAY" /\
   NOTAMDecoder._decode_description (str "XRWY RWYS RWY09 _RWY")
     = str "XRWY RWYS RWY09 _RWY" /\
   NOTAMDecoder._decode_description (str "RWY/TWY (ILS) U/S.")
     = str "ВПП/рулёжная дорожка (система инструментальной посадки) не работает.").
Proof.
  split; [intros k s m _ _; apply search_abbr_whole|].
  split; [intros k s pre _ _; apply search_abbr_some|].
  split; [intros w0 rest _; apply decode_pieces|].
  split; [intros s _; apply decode_by_words|].
  split; [|split; [exact decode_abbreviation|vm_compute; repeat split]].
  intros s _ H. apply substitute_nothing. exact H.
Qed.

Lemma C9_whole_word_translation_witness :
  (In (str "RWY", str "ВПП") ABBREVIATIONS /\
   same_caseless (str "Rwy") (str "RWY") /\
   NOTAMDecoder._decode_description (str "Rwy") = str "ВПП") /\
  (ascii_text (str "RWY CLSD DUE MAINT") /\
   single_words (str "RWY CLSD DUE MAINT") = true /\
   NOTAMDecoder._decode_description (str "RWY CLSD DUE MAINT")
   = translate_words (str "RWY CLSD DUE MAINT")) /\
  (ascii_text (str "ILS u/s") /\
   all_checked (str "ILS") [(" "%char, str "u/s")] = true /\
   NOTAMDecoder._decode_description (str "ILS u/s")
   = str "система инструментальной посадки не работает").
Proof.
  assert (A1 : ascii_text (str "RWY CLSD DUE MAINT")) by reflexivity.
  assert (A2 : ascii_text (glue (fun w => w) (str "ILS") [(" "%char, str "u/s")]))
    by reflexivity.
  assert (H1 : In (str "RWY", str "ВПП") ABBREVIATIONS) by (left; reflexivity).
  assert (H2 : same_caseless (str "Rwy") (str "RWY")) by reflexivity.
  assert (H3 : single_words (str "RWY CLSD DUE MAINT") = true)
    by (vm_compute; reflexivity).
  assert (H4 : all_checked (str "ILS") [(" "%char, str "u/s")] = true)
    by (vm_compute; reflexivity).
  assert (H5 : separators [(" "%char, str "u/s")]) by (repeat constructor).
  split; [|split].
  - split; [exact H1|]. split; [exact H2|].
    exact (proj1 (proj2 (proj2 (proj2 (proj2 (proj2 C9_whole_word_translation)))))
             (str "RWY") (str "ВПП") (str "Rwy") H1 H2).
  - split; [exact A1|]. split; [exact H3|].
    exact (proj1 (proj2 (proj2 (proj2 C9_whole_word_translation)))
             (str "RWY CLSD DUE MAINT") A1
             (single_words_ok (str "RWY CLSD DUE MAINT") H3)).
  - split; [exact A2|]. split; [exact H4|].
    exact (proj1 (proj2 (proj2 C9_whole_word_translation))
             (str "ILS") [(" "%char, str "u/s")] A2 H5
             (all_checked_ok (str "ILS") [(" "%char, str "u/s")] H4)).
Defined.

(** * Further properties of the code *)

(** ** The wind of a forecast *)

(** X1.  A wind given in MPS is not converted: the speed and the gusts of
    the result are the numbers as they are written, for a fixed direction
    and for a variable one; a gust group of zero stays the gust 0. *)
Theorem X1_wind_in_mps :
  (forall t m,
     calm t = false ->
     Re.search TAFDecoder.vrb_re t = None ->
     Re.search TAFDecoder.wind_re t = Some m ->
     Re.grp m 5 = Some (str "MPS") ->
     exists d v g w,
       TAFDecoder.int_group m 1 = Ok d /\ TAFDecoder.int_group m 2 = Ok v /\
       TAFDecoder.int_group_opt m 4 = Ok g /\
       TAFDecoder._parse_wind t = Ok (Some w) /\
       speed w = v /\ gusts w = g /\ direction w = Degrees d) /\
  (forall t m,
     calm t = false ->
     Re.search TAFDecoder.vrb_re t = Some m ->
     Re.grp m 4 = Some (str "MPS") ->
     exists v g w,
       TAFDecoder.int_group m 1 = Ok v /\ TAFDecoder.int_group_opt m 3 = Ok g /\
       TAFDecoder._parse_wind t = Ok (Some w) /\
       speed w = v /\ gusts w = g /\ direction w = VariableDirection) /\
  (exists w,
     TAFDecoder._parse_wind (str "TAF UAAA 27005G00MPS") = Ok (Some w) /\
     speed w = 5 /\ gusts w = Some 0 /\ direction w = Degrees 270) /\
  (exists w,
     TAFDecoder._parse_wind (str "TAF UAAA 27005G00KT") = Ok (Some w) /\
     speed w = 2 /\ gusts w = None).
Proof.
  split; [|split; [|split]].
  - intros t m Hc Hv Hw Hu.
    destruct (parse_wind_fixed t m Hc Hv Hw)
      as (d & v & g & dt & w & E1 & _ & E2 & _ & E4 & _ & _ & Ew & Hs & Hg & Hd & _).
    assert (Hkt : is_kt m 5 = false) by (unfold is_kt, unit_of; rewrite Hu; reflexivity).
    rewrite Hkt in Hs, Hg. exists d, v, g, w. repeat split; assumption.
  - intros t m Hc Hm Hu.
    destruct (parse_wind_vrb t m Hc Hm)
      as (v & g & w & E1 & _ & E3 & _ & Ew & Hs & Hg & Hd & _).
    assert (Hkt : is_kt m 4 = false) by (unfold is_kt, unit_of; rewrite Hu; reflexivity).
    rewrite Hkt in Hs, Hg. exists v, g, w. repeat split; assumption.
  - eexists. split; [vm_compute; reflexivity|]. repeat split.
  - eexists. split; [vm_compute; reflexivity|]. repeat split.
Qed.

Lemma X1_wind_in_mps_witness :
  exists w,
    TAFDecoder._parse_wind (str "VRB03G07MPS") = Ok (Some w) /\
    speed w = 3 /\ gusts w = Some 7 /\ direction w = VariableDirection.
Proof.
  destruct (Re.search TAFDecoder.vrb_re (str "VRB03G07MPS")) as [m|] eqn:E;
    [|vm_compute in E; discriminate].
  assert (Hu : Re.grp m 4 = Some (str "MPS"))
    by (vm_compute in E; injection E as <-; reflexivity).
  destruct (proj1 (proj2 X1_wind_in_mps) (str "VRB03G07MPS") m eq_refl E Hu)
    as (v & g & w & E1 & E3 & Ew & Hs & Hg & Hd).
  vm_compute in E. injection E as <-.
  vm_compute in E1. injection E1 as <-.
  vm_compute in E3. injection E3 as <-.
  exists w. repeat split; assumption.
Defined.

(** X2.  [_parse_wind] returns normally on every text.  It finds no wind
    only when the text holds none of its three forms; a wind it returns has
    a speed and gusts below 1000, a calm has speed 0, and a direction in
    degrees is any number of three digits, not checked against 360, with
    the compass point of its sector. *)
Theorem X2_wind_result (t : text) :
  exists r,
    TAFDecoder._parse_wind t = Ok r /\
    match r with
    | None =>
        calm t = false /\ Re.search TAFDecoder.vrb_re t = None /\
        Re.search TAFDecoder.wind_re t = None
    | Some w =>
        0 <= speed w < 1000 /\
        match gusts w with Some g => 0 <= g < 1000 | None => True end /\
        match direction w with
        | NoDirection => calm t = true /\ speed w = 0 /\ gusts w = None
        | VariableDirection => calm t = false /\ direction_text w = None
        | Degrees d =>
            calm t = false /\ 0 <= d < 1000 /\
            direction_text w = nth_error TAFDecoder.directions (Z.to_nat (sector d)) /\
            direction_text w <> None
        end
    end.
Proof.
  assert (Hpair : forall kt v g, 0 <= v < 1000 -> small g ->
            0 <= fst (mps_pair kt v g) < 1000 /\
            match snd (mps_pair kt v g) with Some z => 0 <= z < 1000 | None => True end).
  { intros kt v g Hv Hg. unfold mps_pair. destruct kt; cbn [fst snd].
    - split; [split; [apply Z.div_pos; lia|apply Z.div_lt_upper_bound; lia]|].
      destruct g as [z|]; [|exact I]. simpl in Hg.
      destruct (z =? 0); [exact I|].
      split; [apply Z.div_pos; lia|apply Z.div_lt_upper_bound; lia].
    - split; [exact Hv|]. destruct g; [exact Hg|exact I]. }
  destruct (calm t) eqn:Hc.
  - eexists. split; [unfold TAFDecoder._parse_wind; fold (calm t); rewrite Hc; reflexivity|].
    cbn. repeat split; lia.
  - destruct (Re.search TAFDecoder.vrb_re t) as [m|] eqn:Ev.
    + destruct (parse_wind_vrb t m Hc Ev)
        as (v & g & w & _ & Hv & _ & Hg & Ew & Hs & Hgu & Hd & Ht).
      exists (Some w). split; [exact Ew|].
      destruct (Hpair (is_kt m 4) v g Hv Hg) as [P1 P2].
      rewrite Hs, Hgu, Hd. auto.
    + destruct (Re.search TAFDecoder.wind_re t) as [m|] eqn:Ew.
      * destruct (parse_wind_fixed t m Hc Ev Ew)
          as (d & v & g & dt & w & _ & Hd & _ & Hv & _ & Hg & En & Er & Hs & Hgu & Hdir & Ht).
        exists (Some w). split; [exact Er|].
        destruct (Hpair (is_kt m 5) v g Hv Hg) as [P1 P2].
        rewrite Hs, Hgu, Hdir, Ht, En. repeat split; try assumption; try lia. discriminate.
      * exists None. split; [|auto].
        unfold TAFDecoder._parse_wind. fold (calm t). rewrite Hc, Ev, Ew. reflexivity.
Qed.

(** ** Cloud layers *)

Lemma collect_forall2 {A B : Type} (f : A -> result B) (R : A -> B -> Prop)
    (l : list A) :
  (forall x, In x l -> exists y, f x = Ok y /\ R x y) ->
  exists ys, TAFDecoder.collect f l = Ok ys /\ Forall2 R l ys.
Proof.
  induction l as [|x l IH]; intros H; simpl; [exists []; auto|].
  destruct (H x) as (y & Ey & Ry); [left; reflexivity|]. rewrite Ey. cbn [bind].
  destruct IH as (ys & Eys & F); [intros z Hz; apply H; right; exact Hz|].
  rewrite Eys. cbn [bind]. exists (y :: ys). auto.
Qed.

Lemma int_three (d1 d2 d3 : ascii) :
  is_digit d1 = true -> is_digit d2 = true -> is_digit d3 = true ->
  int [d1; d2; d3] = Ok (100 * digit_val d1 + 10 * digit_val d2 + digit_val d3).
Proof.
  intros H1 H2 H3. unfold int. cbn [int_acc]. rewrite H1, H2, H3. f_equal. lia.
Qed.

(** The first way the cloud pattern matches at a place. *)
Lemma cloud_re_first b a x l :
  Re.rmatch TAFDecoder.cloud_re b a [] = x :: l ->
  Re.group (snd x) 3 = None ->
  Py.startswith (snd (fst x)) (str "CB") = false /\
  Py.startswith (snd (fst x)) (str "TCU") = false.
Proof.
  assert (Ec : TAFDecoder.cloud_re =
               Re.Seq (Re.Grp 1 (Re.Alt (Re.lit "FEW") (Re.Alt (Re.lit "SCT")
                         (Re.Alt (Re.lit "BKN") (Re.Alt (Re.lit "OVC") (Re.lit "VV"))))))
                 (Re.Seq (Re.Grp 2 (Re.times is_digit 3))
                    (Re.Seq (Re.opt (Re.Grp 3 (Re.Alt (Re.lit "CB") (Re.lit "TCU"))))
                       Re.Eps))) by reflexivity.
  rewrite Ec. clear Ec. intros E Hg.
  cbn [Re.rmatch] in E. apply flat_map_first in E.
  destruct E as (_ & [[b1 a1] c1] & _ & r1 & _ & _ & E).
  apply flat_map_first in E.
  destruct E as (_ & [[b2 a2] c2] & _ & r2 & _ & _ & E).
  change (Re.rmatch (Re.Seq (Re.opt (Re.Grp 3 (Re.Alt (Re.lit "CB") (Re.lit "TCU"))))
                       Re.Eps) b2 a2 c2 = x :: r2) in E.
  destruct (opt_group_first _ _ _ _ _ _ _ _ E Hg) as [Hin Hno].
  cbn [Re.rmatch] in Hin. destruct Hin as [<-|[]]. cbn [fst snd].
  split.
  - destruct (Py.startswith a2 (str "CB")) eqn:S; [|reflexivity]. exfalso.
    apply startswith_iff in S. destruct S as (rest & ->).
    eapply (Hno (str "CB") [] rest c2); [reflexivity| |apply M_Eps].
    apply M_AltL. apply (matches_lit "CB").
  - destruct (Py.startswith a2 (str "TCU")) eqn:S; [|reflexivity]. exfalso.
    apply startswith_iff in S. destruct S as (rest & ->).
    eapply (Hno (str "TCU") [] rest c2); [reflexivity| |apply M_Eps].
    apply M_AltR. apply (matches_lit "TCU").
Qed.

Lemma cloud_re_form b w a c :
  matches TAFDecoder.cloud_re b w a [] c ->
  exists cv d1 d2 d3 ty,
    w = cv ++ [d1; d2; d3] ++ match ty with Some t => t | None => [] end /\
    In cv TAFDecoder.cloud_prefixes /\
    is_digit d1 = true /\ is_digit d2 = true /\ is_digit d3 = true /\
    match ty with Some t => t = str "CB" \/ t = str "TCU" | None => True end /\
    Re.group c 1 = Some cv /\ Re.group c 2 = Some [d1; d2; d3] /\
    Re.group c 3 = ty.
Proof.
  intros H. unfold TAFDecoder.cloud_re in H. inv_matches H. all: chars.
  all: digit_list 3%nat.
  all: match goal with
       | |- context [Re.group ((3%nat, ?t) :: (2%nat, ?d) :: (1%nat, ?cv) :: _) 1] =>
           exists cv; do 3 eexists; exists (Some t)
       | |- context [Re.group ((2%nat, ?d) :: (1%nat, ?cv) :: _) 1] =>
           exists cv; do 3 eexists; exists None
       end.
  all: (split; [norm_app; reflexivity|]).
  all: (split; [simpl; tauto|]).
  all: repeat (split; [first [assumption|reflexivity|left; reflexivity|right; reflexivity|exact I]|]).
  all: reflexivity.
Qed.

(** X3.  [_parse_clouds] returns normally on every ASCII text.  Its layers
    are those of the matches of the cloud pattern, read from left to right:
    each match is a cover, one of FEW, SCT, BKN, OVC and VV, three digits
    and the type CB or TCU when one of them follows the digits.  The layer
    of a match has that cover with its text from the table, that type, the
    number of the three digits times a hundred as its height in feet, and
    that height times 0.3048 cut to its integer part as its height in
    metres (the floating-point product gives exactly that integer). *)
Theorem X3_cloud_layers :
  (forall t,
     ascii_text t ->
     exists cs,
       TAFDecoder._parse_clouds t = Ok cs /\
       found_in_turn TAFDecoder.cloud_re [] t (Re.finditer TAFDecoder.cloud_re t) /\
       Forall2 layer_read (Re.finditer TAFDecoder.cloud_re t) cs) /\
  (exists c1 c2,
     TAFDecoder._parse_clouds (str "27005MPS 9999 SCT030 BKN020CB") = Ok [c1; c2] /\
     (cover c1, height_ft c1, height_m c1, cloud_type c1)
       = (str "SCT", 3000, 914, None) /\
     (cover c2, height_ft c2, height_m c2, cloud_type c2)
       = (str "BKN", 2000, 609, Some (str "CB"))) /\
  (exists c1 c2,
     TAFDecoder._parse_clouds (str "VV002 XOVC1009 FEW05") = Ok [c1; c2] /\
     (cover c1, height_ft c1, height_m c1, cloud_type c1)
       = (str "VV", 200, 60, None) /\
     (cover c2, height_ft c2, height_m c2, cloud_type c2)
       = (str "OVC", 10000, 3048, None)).
Proof.
  split; [|split; do 2 eexists; (split; [vm_compute; reflexivity|]);
           repeat split].
  intros t _.
  assert (Hne : forall b w a c, matches TAFDecoder.cloud_re b w a [] c -> w <> []).
  { intros b w a c M. apply cloud_re_form in M.
    destruct M as (cv & d1 & d2 & d3 & ty & -> & _).
    destruct cv; discriminate. }
  destruct (collect_forall2 TAFDecoder.cloud_of_match layer_read
              (Re.finditer TAFDecoder.cloud_re t)) as (cs & Ecs & F).
  - intros m Hm.
    destruct (finditer_from_head _ _ _ _ _ Hm) as (l & Eh).
    apply finditer_sound in Hm. apply cloud_re_form in Hm.
    destruct Hm as (cv & d1 & d2 & d3 & ty & Ew & Hcv & D1 & D2 & D3 & Hty & G1 & G2 & G3).
    unfold TAFDecoder.cloud_of_match, TAFDecoder.int_group, Re.grp.
    rewrite G1, G2, G3, (int_three d1 d2 d3 D1 D2 D3). cbn [bind].
    pose proof (digit_val_bound d1 D1). pose proof (digit_val_bound d2 D2).
    pose proof (digit_val_bound d3 D3).
    rewrite ft_to_m_exact by lia. cbn [bind].
    eexists. split; [reflexivity|].
    exists d1, d2, d3.
    cbn [cover cover_text height_ft height_m cloud_type].
    split; [exact Ew|]. split; [exact Hcv|].
    split; [exact D1|]. split; [exact D2|]. split; [exact D3|]. split.
    { destruct ty as [ty|]; [exact Hty|].
      exact (cloud_re_first _ _ _ _ Eh G3). }
    split; [lia|]. split; [f_equal; lia|].
    unfold dict_get. simpl in Hcv.
    repeat (destruct Hcv as [<-|Hcv]; [reflexivity|]). contradiction.
  - exists cs. split; [exact Ecs|]. split; [|exact F].
    apply finditer_in_turn; [exact Hne|lia].
Qed.

Lemma X3_cloud_layers_witness :
  ascii_text (str "BKN020CB") /\
  exists c,
    TAFDecoder._parse_clouds (str "BKN020CB") = Ok [c] /\
    height_ft c = 2000 /\ height_m c = 609 /\ cloud_type c = Some (str "CB").
Proof.
  assert (Ha : ascii_text (str "BKN020CB")) by reflexivity.
  split; [exact Ha|].
  destruct (proj1 X3_cloud_layers (str "BKN020CB") Ha) as (cs & Ecs & _ & F).
  vm_compute in Ecs. injection Ecs as <-.
  eexists. split; [reflexivity|]. repeat split.
Defined.

(** ** Temperature *)

Lemma temp_re_shape b w a c :
  matches TAFDecoder.temp_re b w a [] c ->
  (Re.group c 1 = Some (str "X") \/ Re.group c 1 = Some (str "N")) /\
  num_group c 2 2 2.
Proof.
  intros H. unfold TAFDecoder.temp_re in H. inv_matches H.
  all: match goal with
       | H : one_of "XN" ?x = true |- _ =>
           unfold one_of in H; cbn [existsb str list_ascii_of_string] in H;
           rewrite orb_false_r in H; apply orb_prop in H;
           destruct H as [H|H]; apply Ascii.eqb_eq in H; subst x
       end.
  all: (split; [first [left; reflexivity|right; reflexivity]|solve_num]).
Qed.

(** X4.  [_parse_temperature] returns normally on every text.  The value
    it gives is the two digits of the group, negated when the letter M
    stands anywhere in the text it was given, in the group or not; the kind
    is the maximum for TX and the minimum for TN.  So TXM05 is -5, and TX15
    next to a wind in MPS is -15. *)
Theorem X4_temperature_sign :
  (forall t, Re.search TAFDecoder.temp_re t = None ->
             TAFDecoder._parse_temperature t = Ok None) /\
  (forall t m,
     Re.search TAFDecoder.temp_re t = Some m ->
     exists v tp,
       TAFDecoder.int_group m 2 = Ok v /\ 0 <= v < 100 /\
       TAFDecoder._parse_temperature t = Ok (Some tp) /\
       t_value tp = (if Py.contains t (str "M") then - v else v) /\
       ((Re.grp m 1 = Some (str "X") /\ t_type tp = str "максимальная") \/
        (Re.grp m 1 = Some (str "N") /\ t_type tp = str "минимальная")) /\
       t_text tp = str "🌡️ " ++ t_type tp ++ str " температура " ++
                   fmt_signed (t_value tp) ++ str "°C") /\
  (option_map t_value
     (match TAFDecoder._parse_temperature (str "TX15/1012Z TNM05/1103Z") with
      | Ok r => r | Raise _ => None end) = Some (-15) /\
   option_map t_value
     (match TAFDecoder._parse_temperature (str "TXM05/1012Z") with
      | Ok r => r | Raise _ => None end) = Some (-5) /\
   option_map t_value
     (match TAFDecoder._parse_temperature (str "27005KT TX15/1012Z") with
      | Ok r => r | Raise _ => None end) = Some 15 /\
   option_map t_value
     (match TAFDecoder._parse_temperature (str "27005MPS TX15/1012Z") with
      | Ok r => r | Raise _ => None end) = Some (-15)).
Proof.
  split; [|split].
  - intros t H. unfold TAFDecoder._parse_temperature. rewrite H. reflexivity.
  - intros t m Hm. unfold TAFDecoder._parse_temperature. rewrite Hm.
    destruct (search_sound _ _ _ Hm) as (pre & _ & M).
    apply temp_re_shape in M. destruct M as (G1 & G2).
    destruct (int_group_num m 2 2 2 G2) as (v & E & Hv); [lia|].
    change (10 ^ Z.of_nat 2) with 100 in Hv.
    rewrite E. cbn [bind]. exists v. eexists.
    split; [reflexivity|]. split; [exact Hv|]. split; [reflexivity|].
    cbn [t_value t_type t_text]. split; [reflexivity|]. split; [|reflexivity].
    unfold Re.grp. destruct G1 as [G1|G1]; rewrite G1; [left|right]; split; reflexivity.
  - vm_compute. repeat split.
Qed.

Lemma X4_temperature_sign_witness :
  exists tp,
    TAFDecoder._parse_temperature (str "TNM03/1103Z") = Ok (Some tp) /\
    t_value tp = -3 /\ t_type tp = str "минимальная".
Proof.
  destruct (Re.search TAFDecoder.temp_re (str "TNM03/1103Z")) as [m|] eqn:E;
    [|vm_compute in E; discriminate].
  destruct (proj1 (proj2 X4_temperature_sign) (str "TNM03/1103Z") m E)
    as (v & tp & Ev & _ & Ep & Hv & Ht & _).
  vm_compute in E. injection E as <-.
  vm_compute in Ev. injection Ev as <-.
  exists tp. split; [exact Ep|]. split; [exact Hv|].
  destruct Ht as [[G _]|[_ Ht]]; [vm_compute in G; discriminate G|exact Ht].
Defined.

(** ** Weather *)

Lemma upper_not_space (x : ascii) : is_upper x = true -> is_space x = false.
Proof.
  unfold is_upper, is_space, between. intros H. apply andb_prop in H.
  destruct H as [H1 H2]. apply N.leb_le in H1, H2.
  apply orb_false_iff. split; apply andb_false_iff; right; apply N.leb_gt; lia.
Qed.

Lemma decode_weather_not_empty (code : text) :
  TAFDecoder._decode_weather_code code <> Some [].
Proof.
  unfold TAFDecoder._decode_weather_code.
  destruct (TAFDecoder.strip_intensity code) as [parts rest].
  destruct (parts ++ TAFDecoder.scan_phenomena rest); [discriminate|].
  intros H. injection H as H. apply (f_equal (@length ascii)) in H.
  rewrite !length_app in H. simpl in H. lia.
Qed.

(** The first way the weather pattern matches at a place. *)
Lemma weather_re_first b a x l :
  Re.rmatch TAFDecoder.weather_re b a [] = x :: l ->
  exists lead intensity code,
    a = lead ++ intensity ++ code ++ snd (fst x) /\
    (lead = [] /\ b = [] \/ exists s, lead = [s] /\ is_space s = true) /\
    In intensity [[]; str "-"; str "+"; str "VC"] /\
    forallb is_upper code = true /\ (2 <= length code <= 6)%nat /\
    (intensity = [] -> Py.startswith code (str "VC") = true ->
     (length code <= 3)%nat) /\
    (Re.at_eol (snd (fst x)) = true \/
     exists y r, snd (fst x) = y :: r /\ is_space y = true) /\
    Re.group (snd x) 1 = match intensity with [] => None | _ => Some intensity end /\
    Re.group (snd x) 2 = Some code.
Proof.
  set (L := Re.Alt Re.Bol (Re.Cls is_space)).
  set (I := Re.Alt (Re.Cls (one_of "-+")) (Re.lit "VC")).
  set (R := Re.Seq (Re.Grp 2 (Re.upto is_upper 2 6))
              (Re.Seq (Re.Ahead (Re.Alt (Re.Cls is_space) Re.Eol)) Re.Eps)).
  assert (Ew : TAFDecoder.weather_re = Re.Seq L (Re.Seq (Re.opt (Re.Grp 1 I)) R))
    by reflexivity.
  rewrite Ew. clear Ew. intros E.
  change (flat_map (fun m => let '(b1, a1, c1) := m in
                             Re.rmatch (Re.Seq (Re.opt (Re.Grp 1 I)) R) b1 a1 c1)
            (Re.rmatch L b a []) = x :: l) in E.
  apply flat_map_first in E.
  destruct E as (l1 & [[b1 a1] c1] & l2 & r1 & El & _ & E).
  assert (Hin : In (b1, a1, c1) (Re.rmatch L b a []))
    by (rewrite El; apply in_or_app; right; left; reflexivity).
  clear El l1 l2. apply rmatch_sound in Hin.
  destruct Hin as (lead & Ea & Eb1 & ML).
  assert (Hlead : (lead = [] /\ b = [] \/ exists s, lead = [s] /\ is_space s = true)
                  /\ c1 = []).
  { subst L. repeat inv_step; split; try reflexivity; [left; auto|right; eauto]. }
  destruct Hlead as [Hlead ->].
  assert (Hend : forall b0 w0 a0 c0 c0',
            matches (Re.Seq (Re.Ahead (Re.Alt (Re.Cls is_space) Re.Eol)) Re.Eps)
                    b0 w0 a0 c0 c0' ->
            w0 = [] /\ c0' = c0 /\
            (Re.at_eol a0 = true \/ exists y r, a0 = y :: r /\ is_space y = true)).
  { intros b0 w0 a0 c0 c0' M. repeat inv_step; cbn [app] in *; subst.
    - split; [reflexivity|]. split; [reflexivity|]. right. eauto.
    - split; [reflexivity|]. split; [reflexivity|]. left. assumption. }
  assert (Hback : forall b0 a0 c0,
            (Re.at_eol a0 = true \/ exists y r, a0 = y :: r /\ is_space y = true) ->
            matches (Re.Seq (Re.Ahead (Re.Alt (Re.Cls is_space) Re.Eol)) Re.Eps)
                    b0 [] a0 c0 c0).
  { intros b0 a0 c0 [He|(y & r & -> & Hy)].
    - eapply (M_Seq _ _ _ [] []); [|apply M_Eps].
      eapply (M_Ahead _ _ [] a0); [apply M_AltR, M_Eol; exact He|reflexivity].
    - eapply (M_Seq _ _ _ [] []); [|apply M_Eps].
      eapply (M_Ahead _ _ [y] r); [apply M_AltL, M_Cls; exact Hy|reflexivity]. }
  destruct x as [[b2 a2] c2]. cbn [fst snd].
  destruct (Re.group c2 1) as [g1|] eqn:G.
  - (* the mark is taken *)
    assert (Hx : In (b2, a2, c2) (Re.rmatch (Re.Seq (Re.opt (Re.Grp 1 I)) R) b1 a1 []))
      by (rewrite E; left; reflexivity).
    apply rmatch_sound in Hx. destruct Hx as (w & Ea1 & _ & M).
    subst I R. inv_matches M. all: chars. all: cbn [app] in *; subst.
    all: try (simpl in G; discriminate G).
    all: simpl in G; injection G as <-.
    all: rewrite app_nil_r.
    all: match goal with
         | F : forallb is_upper ?code = true |- context [(1%nat, ?i)] =>
             exists lead, i, code
         end.
    all: (split; [reflexivity|]); (split; [exact Hlead|]).
    all: (split;
          [first
             [ simpl; tauto
             | match goal with
               | H : one_of "-+" ?x = true |- _ =>
                   unfold one_of in H; cbn [existsb list_ascii_of_string str] in H;
                   rewrite orb_false_r in H; apply orb_prop in H;
                   destruct H as [H|H]; apply Ascii.eqb_eq in H; subst; simpl; tauto
               end ]|]).
    all: (split; [assumption|]); (split; [split; assumption|]).
    all: (split; [intros Hi; discriminate Hi|]).
    all: (split; [first [left; assumption|right; eauto]|]).
    all: split; reflexivity.
  - (* no mark is taken *)
    destruct (opt_group_first _ _ _ _ _ _ _ _ E G) as [Hin Hno].
    apply rmatch_sound in Hin. destruct Hin as (w & Ea1 & _ & M).
    assert (Hcode : forallb is_upper w = true /\ (2 <= length w <= 6)%nat /\
                    c2 = [(2%nat, w)] /\
                    (Re.at_eol a2 = true \/
                     exists y r, a2 = y :: r /\ is_space y = true)).
    { subst R. inv_matches M; cbn [app] in *; subst; rewrite app_nil_r;
        (split; [assumption|]); (split; [split; assumption|]);
        (split; [reflexivity|]); [right; eauto|left; assumption]. }
    clear M. destruct Hcode as (Hup & Hlen & -> & He).
    exists lead, [], w. cbn [app].
    split; [rewrite Ea, Ea1; reflexivity|]. split; [exact Hlead|].
    split; [simpl; tauto|]. split; [exact Hup|]. split; [exact Hlen|].
    split; [|split; [exact He|split; reflexivity]].
    intros _ Hs. apply startswith_iff in Hs. destruct Hs as (code' & ->).
    destruct (Nat.le_gt_cases (length code') 1) as [Hle|Hgt]; [simpl; lia|].
    exfalso. subst I R.
    eapply (Hno (str "VC") code' a2 []).
    + rewrite Ea1. reflexivity.
    + apply M_AltR. apply (matches_lit "VC").
    + eapply M_seq with (w1 := code') (w2 := []).
      * apply M_Grp. apply M_Rep.
        -- simpl in Hup. exact Hup.
        -- lia.
        -- simpl in Hlen. lia.
      * apply Hback. exact He.
      * rewrite app_nil_r. reflexivity.
Qed.

Lemma weather_re_word b w a c :
  matches TAFDecoder.weather_re b w a [] c -> w <> [].
Proof.
  intros H. unfold TAFDecoder.weather_re in H. inv_matches H.
  all: intros Hw; apply (f_equal (@length ascii)) in Hw.
  all: rewrite ?length_app in Hw; simpl in *; lia.
Qed.

Lemma forall2_map {A B : Type} (R : A -> B -> Prop) (f : A -> B) (l : list A) :
  (forall x, In x l -> R x (f x)) -> Forall2 R l (map f l).
Proof.
  induction l as [|x l IH]; intros H; simpl; constructor.
  - apply H. left. reflexivity.
  - apply IH. intros y Hy. apply H. right. exact Hy.
Qed.

(** What [_parse_weather] makes of one match of its pattern. *)
Lemma weather_of_match_read (r : list (text * text * Re.caps)) (m : Re.found) :
  Re.rmatch TAFDecoder.weather_re (Re.f_pre m) (Re.f_text m ++ Re.f_rest m) []
  = (Re.f_end m, Re.f_rest m, Re.f_caps m) :: r ->
  weather_read m (TAFDecoder.weather_of_match m).
Proof.
  intros Eh. apply weather_re_first in Eh.
  destruct Eh as (lead & intensity & code & Ea & Hlead & Hint & Hup & Hlen & Hvc
                  & He & G1 & G2).
  cbn [fst snd] in *.
  assert (Et : Re.f_text m = lead ++ intensity ++ code).
  { apply (app_inv_tail (Re.f_rest m)). rewrite Ea, <- !app_assoc. reflexivity. }
  exists lead, intensity, code.
  split; [exact Et|]. split; [exact Hlead|]. split; [exact Hint|].
  split; [exact Hup|]. split; [exact Hlen|]. split; [exact Hvc|].
  split; [exact He|].
  assert (Gi : match Re.group (Re.f_caps m) 1 with Some w => w | None => [] end
               = intensity) by (rewrite G1; destruct intensity; reflexivity).
  unfold TAFDecoder.weather_of_match, Re.grp. cbv zeta. rewrite Gi, G2.
  destruct (Py.mem code TAFDecoder.not_weather) eqn:Hmem.
  { left. split; [reflexivity|]. left.
    unfold Py.mem in Hmem. apply existsb_exists in Hmem.
    destruct Hmem as (k & Hk & Ek). apply text_eqb_eq in Ek. subst k. exact Hk. }
  destruct (existsb (Py.startswith code) TAFDecoder.cloud_prefixes) eqn:Hcl.
  { left. split; [reflexivity|]. right. left.
    apply existsb_exists in Hcl. exact Hcl. }
  pose proof (decode_weather_not_empty (intensity ++ code)) as Hd.
  destruct (TAFDecoder._decode_weather_code (intensity ++ code)) as [[|x d]|] eqn:Ed.
  - contradiction.
  - right. eexists. split; [reflexivity|]. cbn [wx_code wx_text].
    split; [reflexivity|]. split.
    { intros Hin. unfold Py.mem in Hmem.
      rewrite <- not_true_iff_false in Hmem. apply Hmem.
      apply existsb_exists. exists code. split; [exact Hin|].
      apply text_eqb_eq. reflexivity. }
    split.
    { intros pre Hpre. destruct (Py.startswith code pre) eqn:Es; [|reflexivity].
      rewrite <- not_true_iff_false in Hcl. exfalso. apply Hcl.
      apply existsb_exists. exists pre. auto. }
    split; [exact Ed|discriminate].
  - left. split; [reflexivity|]. right. right. reflexivity.
Qed.

(** X5.  The entries [_parse_weather] returns for an ASCII text are those
    of the matches of its pattern, read from left to right, each match
    giving one entry or none.  A match is a token: a blank, or nothing at the start of the
    text, at most one of the marks "-", "+" and VC, and two to six capital
    letters that a blank or the end of the text follows; VC is a mark
    whenever two letters or more follow it.  A token gives no entry when
    its letters are one of CAVOK, NSC, SKC, CLR and NCD, begin with a cloud
    cover or decode to nothing; else it gives the entry whose code is the
    mark with the letters and whose text is the decoding of that code.  Any
    such token is read: the station UASS as a sandstorm and the word TEMPO
    at the start of a text as dust whirls. *)
Theorem X5_weather_entries :
  (forall t,
     ascii_text t ->
     found_in_turn TAFDecoder.weather_re [] t (Re.finditer TAFDecoder.weather_re t) /\
     exists pss,
       Forall2 weather_read (Re.finditer TAFDecoder.weather_re t) pss /\
       TAFDecoder._parse_weather t = concat pss) /\
  TAFDecoder._parse_weather (str "27005MPS +TSRA BKN020CB") =
    [{| wx_code := str "+TSRA"; wx_text := str "⛈️ сильный гроза дождь" |}] /\
  TAFDecoder._parse_weather (str "VCSH VC VCX -RA") =
    [{| wx_code := str "VCSH"; wx_text := str "🌦️ в окрестности ливневая" |};
     {| wx_code := str "VC"; wx_text := str "☁️ в окрестности" |};
     {| wx_code := str "VCX"; wx_text := str "☁️ в окрестности" |};
     {| wx_code := str "-RA"; wx_text := str "🌧️ слабый дождь" |}] /\
  TAFDecoder._parse_weather (str "VCNSC NSC BR") =
    [{| wx_code := str "BR"; wx_text := str "🌫️ дымка" |}] /\
  TAFDecoder._parse_weather (str "NSW CAVOK BKNX OVC -SHRA") =
    [{| wx_code := str "-SHRA"; wx_text := str "🌧️ слабый ливневая дождь" |}] /\
  TAFDecoder._parse_weather (str "TAF UASS 27005MPS") =
    [{| wx_code := str "UASS"; wx_text := str "☁️ песчаная буря" |}] /\
  TAFDecoder._parse_weather (str "TEMPO 3000") =
    [{| wx_code := str "TEMPO"; wx_text := str "☁️ пыльные вихри" |}].
Proof.
  split; [|vm_compute; repeat split].
  intros t _. split.
  - apply finditer_in_turn; [exact weather_re_word|lia].
  - exists (map TAFDecoder.weather_of_match (Re.finditer TAFDecoder.weather_re t)).
    split; [|apply flat_map_concat_map].
    apply forall2_map. intros m Hm.
    destruct (finditer_from_head _ _ _ _ _ Hm) as (l & Eh).
    exact (weather_of_match_read l m Eh).
Qed.

Lemma X5_weather_entries_witness :
  ascii_text (str "4000 +TSRA") /\
  exists m,
    Re.finditer TAFDecoder.weather_re (str "4000 +TSRA") = [m] /\
    Re.f_text m = str " +TSRA" /\
    weather_read m [{| wx_code := str "+TSRA";
                       wx_text := str "⛈️ сильный гроза дождь" |}].
Proof.
  assert (Ha : ascii_text (str "4000 +TSRA")) by reflexivity.
  split; [exact Ha|].
  destruct (proj1 X5_weather_entries (str "4000 +TSRA") Ha)
    as (_ & pss & F & E).
  destruct (Re.finditer TAFDecoder.weather_re (str "4000 +TSRA")) as [|m ms] eqn:Em;
    [vm_compute in Em; discriminate Em|].
  assert (Ems : ms = []) by (vm_compute in Em; injection Em as _ <-; reflexivity).
  subst ms. inversion F as [|? ps ? pss' Hr F' E1 E2]; subst.
  inversion F'; subst. cbn [concat] in E. rewrite app_nil_r in E.
  exists m. split; [reflexivity|].
  split; [vm_compute in Em; injection Em as <-; reflexivity|].
  rewrite <- E in Hr. exact Hr.
Defined.

(** ** Change groups *)

Lemma strip_keeps (x y : ascii) (mid : text) :
  is_space x = false -> is_space y = false ->
  Py.strip (x :: mid ++ [y]) = x :: mid ++ [y].
Proof.
  intros Hx Hy. unfold Py.strip, Py.rstrip. cbn [Py.lstrip]. rewrite Hx.
  assert (E : rev (x :: mid ++ [y]) = y :: rev (x :: mid)).
  { change (x :: mid ++ [y]) with ((x :: mid) ++ [y]). rewrite rev_app_distr. reflexivity. }
  rewrite E. cbn [Py.lstrip]. rewrite Hy. rewrite <- E. apply rev_involutive.
Qed.

Lemma digit_not_space (x : ascii) : is_digit x = true -> is_space x = false.
Proof.
  unfold is_digit, is_space, between. intros H. apply andb_prop in H.
  destruct H as [H1 H2]. apply N.leb_le in H1, H2.
  apply orb_false_iff. split; apply andb_false_iff.
  - right. apply N.leb_gt. lia.
  - right. apply N.leb_gt. lia.
Qed.

Lemma exact_length {A : Type} (w : list A) (n : nat) :
  (n <= length w)%nat -> (length w <= n)%nat -> length w = n.
Proof. lia. Qed.

Lemma digits_pair (x y : ascii) :
  is_digit x = true -> is_digit y = true -> digits 2 2 [x; y].
Proof.
  intros Hx Hy. split; [cbn [forallb]; rewrite Hx, Hy; reflexivity|simpl; lia].
Qed.

Lemma change_split_re_form b w a c :
  matches TAFDecoder.change_split_re b w a [] c ->
  w <> [] /\
  exists ind,
    Re.group c 1 = Some ind /\ Py.strip ind = ind /\
    indicator_form ind (TAFDecoder._decode_change_indicator ind).
Proof.
  intros H. unfold TAFDecoder.change_split_re in H. inv_matches H. all: chars.
  all: match goal with
       | H : (1 <= length ?ws)%nat |- (?ws ++ _) <> [] /\ _ =>
           split; [destruct ws; [simpl in H; lia|discriminate]|]
       end.
  all: eexists; split; [reflexivity|]; cbn [app].
  - (* FM and six digits *)
    digit_list 6%nat.
    match goal with
    | |- Py.strip (_ :: _ :: ?d1 :: ?d2 :: ?d3 :: ?d4 :: ?d5 :: ?d6 :: []) = _ /\ _ =>
        split;
        [apply (strip_keeps "F" d6 ["M"%char; d1; d2; d3; d4; d5]);
         [reflexivity|apply digit_not_space; assumption]
        |left; exists [d1; d2], [d3; d4], [d5; d6];
         split; [apply digits_pair; assumption|];
         split; [apply digits_pair; assumption|];
         split; [apply digits_pair; assumption|];
         split; reflexivity]
    end.
  - split; [reflexivity|]. right. left. split; reflexivity.
  - split; [reflexivity|]. right. right. left. split; reflexivity.
  - (* PROB, two digits, blanks and TEMPO *)
    digit_list 2%nat. cbn [app]. rewrite ?app_nil_r.
    lazymatch goal with
    | F : forallb is_space ?sp = true, L : (1 <= length ?sp)%nat
      |- Py.strip (_ :: _ :: _ :: _ :: ?p1 :: ?p2 :: ?sp ++ _) = _ /\ _ =>
        split;
        [assert (E : "P"%char :: "R"%char :: "O"%char :: "B"%char :: p1 :: p2
                       :: sp ++ ["T"%char; "E"%char; "M"%char; "P"%char; "O"%char]
                     = "P"%char :: ("R"%char :: "O"%char :: "B"%char :: p1 :: p2
                                    :: sp ++ ["T"%char; "E"%char; "M"%char; "P"%char])
                                   ++ ["O"%char])
           by (cbn [app]; do 6 f_equal; rewrite <- app_assoc; reflexivity);
         rewrite E; apply strip_keeps; reflexivity
        |right; right; right; exists [p1; p2];
         split; [apply digits_pair; assumption|];
         split; [|reflexivity];
         right; exists sp; split; [|reflexivity];
         split; [exact F|intros ->; simpl in L; lia]]
    end.
  - (* PROB and two digits *)
    digit_list 2%nat.
    match goal with
    | |- Py.strip (_ :: _ :: _ :: _ :: ?p1 :: ?p2 :: []) = _ /\ _ =>
        split;
        [apply (strip_keeps "P" p2 ["R"%char; "O"%char; "B"%char; p1]);
         [reflexivity|apply digit_not_space; assumption]
        |right; right; right; exists [p1; p2];
         split; [apply digits_pair; assumption|];
         split; [left; reflexivity|reflexivity]]
    end.
Qed.

(** ** The parts of a forecast *)

Lemma split_finditer (r : Re.regex) :
  (forall b w a c, matches r b w a [] c -> w <> []) ->
  forall fuel b a,
    Re.split_from fuel r 1 b a =
    Some (match Re.finditer_from fuel r b a with
          | [] => a
          | m :: _ => Re.gap b m
          end)
    :: flat_map (fun mc => [Re.grp (fst mc) 1; Some (snd mc)])
         (combine (Re.finditer_from fuel r b a)
                  (following (Re.finditer_from fuel r b a))).
Proof.
  intros Hne. induction fuel as [|fuel IH]; intros b a; [reflexivity|].
  cbn [Re.split_from Re.finditer_from].
  destruct (Re.search_from r b a) as [m|] eqn:E; [|reflexivity].
  pose proof (search_from_sound _ _ _ _ E) as (pre & _ & _ & _ & M).
  apply Hne in M. unfold Re.resume.
  destruct (Re.f_text m) as [|x w] eqn:Et; [contradiction|].
  rewrite IH. cbn [seq map app following combine flat_map fst snd]. reflexivity.
Qed.

Lemma changes_of_pairs (l : list (Re.found * text)) :
  Forall (fun mc => Re.grp (fst mc) 1 <> None) l ->
  exists cs,
    TAFDecoder.changes_of
      (flat_map (fun mc => [Re.grp (fst mc) 1; Some (snd mc)]) l) = Ok cs /\
    Forall2 (fun mc ch =>
               exists ind, Re.grp (fst mc) 1 = Some ind /\
                 change_read (Py.strip ind) (Py.strip (snd mc)) ch) l cs.
Proof.
  induction 1 as [|[m content] l Hg _ (cs & Ecs & IH)]; [exists []; split; constructor|].
  cbn [fst snd] in *. destruct (Re.grp m 1) as [ind|] eqn:Eg; [|contradiction].
  destruct (parse_wind_total (Py.strip content)) as (w & Ew).
  destruct (parse_visibility_total (Py.strip content)) as (v & Ev).
  destruct (parse_clouds_total (Py.strip content)) as (c & Ec).
  eexists. split.
  - cbn [flat_map app fst snd]. rewrite Eg.
    cbn [TAFDecoder.changes_of TAFDecoder.strip_part bind].
    rewrite Ew, Ev, Ec. cbn [bind]. rewrite Ecs. reflexivity.
  - constructor; [|exact IH]. exists ind. cbn [fst snd]. split; [exact Eg|].
    unfold change_read. cbn. auto 10.
Qed.

Lemma keeps_ret {A B : Type} (p : decoded -> B) (a : A) : keeps p (TAFDecoder.ret a).
Proof. intros d. reflexivity. Qed.

Lemma keeps_lift {A B : Type} (p : decoded -> B) (r : result A) :
  keeps p (TAFDecoder.lift r).
Proof. intros d. reflexivity. Qed.

Lemma keeps_modify {B : Type} (p : decoded -> B) (f : decoded -> decoded) :
  (forall d, p (f d) = p d) -> keeps p (TAFDecoder.modify f).
Proof. intros H d. apply H. Qed.

Lemma keeps_bind {A B C : Type} (p : decoded -> C) (m : TAFDecoder.M A)
    (k : A -> TAFDecoder.M B) :
  keeps p m -> (forall a, keeps p (k a)) -> keeps p (TAFDecoder.mbind m k).
Proof.
  intros Hm Hk d. specialize (Hm d). unfold TAFDecoder.mbind.
  destruct (m d) as [d' [a|e]]; cbn [fst] in *; [|exact Hm].
  rewrite Hk. exact Hm.
Qed.

Ltac keeps_step :=
  first
    [ apply keeps_ret
    | apply keeps_lift
    | apply keeps_modify; reflexivity
    | apply keeps_bind; [|intros ?]
    | match goal with
      | |- keeps _ (match ?x with _ => _ end) => destruct x
      end ].

Lemma parse_header_keeps {B : Type} (p : decoded -> B) (taf : text) :
  (forall v d, p (TAFDecoder.set_station v d) = p d) ->
  (forall v d, p (TAFDecoder.set_issue_time v d) = p d) ->
  (forall v d, p (TAFDecoder.set_valid_period v d) = p d) ->
  keeps p (TAFDecoder._parse_header taf).
Proof.
  intros H1 H2 H3. unfold TAFDecoder._parse_header.
  repeat first
    [ apply keeps_ret | apply keeps_lift
    | apply keeps_modify; first [apply H1|apply H2|apply H3]
    | apply keeps_bind; [|intros ?]
    | match goal with
      | |- keeps _ (match ?x with _ => _ end) => destruct x
      end ].
Qed.

(** What [decode] computes, step by step. *)
Lemma decode_run (s : text) :
  exists d1 part w v c tm cs,
    TAFDecoder._parse_header (Py.join (str " ") (Py.split_ws (Py.strip s)))
      (TAFDecoder.initial (Py.strip s)) = (d1, Ok tt) /\
    TAFDecoder.main_part (Py.join (str " ") (Py.split_ws (Py.strip s))) = Ok part /\
    TAFDecoder._parse_wind part = Ok w /\
    TAFDecoder._parse_visibility part = Ok v /\
    TAFDecoder._parse_clouds part = Ok c /\
    TAFDecoder._parse_temperature part = Ok tm /\
    TAFDecoder.changes_of
      (tl (Re.split TAFDecoder.change_split_re 1
             (Py.join (str " ") (Py.split_ws (Py.strip s))))) = Ok cs /\
    TAFDecoder.decode s =
      (fun d => TAFDecoder.set_human_readable (Py.join TAFDecoder.newline (TAFDecoder.human_lines d)) d)
        (TAFDecoder.set_changes cs (TAFDecoder.set_temperature tm (TAFDecoder.set_clouds c
           (TAFDecoder.set_weather (TAFDecoder._parse_weather part)
              (TAFDecoder.set_visibility v (TAFDecoder.set_wind w d1)))))).
Proof.
  set (taf := Py.join (str " ") (Py.split_ws (Py.strip s))).
  destruct (parse_header_quiet taf (TAFDecoder.initial (Py.strip s))) as (d1 & E1 & _).
  destruct (main_part_ok taf) as (part & Ep).
  destruct (parse_wind_total part) as (w & Ew).
  destruct (parse_visibility_total part) as (v & Ev).
  destruct (parse_clouds_total part) as (c & Ec).
  destruct (parse_temperature_total part) as (tm & Et).
  destruct (changes_of_ok (Re.split TAFDecoder.change_split_re 1 taf)) as (cs & Ecs);
    [apply split_from_shape|].
  exists d1, part, w, v, c, tm, cs. repeat (split; [assumption|]).
  unfold TAFDecoder.decode, TAFDecoder.decode_body. fold taf.
  unfold TAFDecoder.mbind at 1. rewrite E1.
  unfold TAFDecoder._parse_main_forecast, TAFDecoder._parse_changes,
    TAFDecoder._generate_human_text.
  cbv [TAFDecoder.mbind TAFDecoder.lift TAFDecoder.modify TAFDecoder.get TAFDecoder.ret].
  rewrite Ep, Ew, Ev, Ec, Et, Ecs. reflexivity.
Qed.

Lemma main_split_re_sound b w a c :
  matches TAFDecoder.main_split_re b w a [] c ->
  exists ws kw, w = ws ++ kw /\ blanks ws /\ In kw main_end_words.
Proof.
  intros H. unfold TAFDecoder.main_split_re in H. inv_matches H. all: chars.
  all: match goal with
       | H1 : forallb is_space ?ws = true, H2 : (1 <= length ?ws)%nat
         |- exists _ _, ?ws ++ ?kw = _ /\ _ =>
           exists ws, kw; split; [reflexivity|];
           split; [split; [exact H1|intros ->; simpl in H2; lia]|]
       end.
  all: unfold main_end_words; cbn; auto.
Qed.

Lemma main_split_re_complete b a ws kw :
  blanks ws -> In kw main_end_words ->
  exists c, matches TAFDecoder.main_split_re b (ws ++ kw) a [] c.
Proof.
  intros [Hws Hne] Hk. unfold TAFDecoder.main_split_re.
  assert (Hr : matches (Re.plus is_space) b ws (kw ++ a) [] []).
  { apply M_Rep; [exact Hws|destruct ws; [contradiction|simpl; lia]|exact I]. }
  unfold main_end_words in Hk. cbn [In] in Hk.
  destruct Hk as [<-|[<-|[<-|[<-|[]]]]]; eexists;
    (eapply M_Seq; [exact Hr|apply M_Grp]).
  - apply M_AltL. apply (matches_lit "FM").
  - apply M_AltR, M_AltL. apply (matches_lit "TEMPO").
  - apply M_AltR, M_AltR, M_AltL. apply (matches_lit "BECMG").
  - apply M_AltR, M_AltR, M_AltR. apply (matches_lit "PROB").
Qed.

Lemma main_part_cut (taf : text) :
  exists part rest,
    TAFDecoder.main_part taf = Ok part /\ taf = part ++ rest /\
    (rest = [] \/
     exists ws kw post, rest = ws ++ kw ++ post /\ blanks ws /\ In kw main_end_words) /\
    (forall pre ws kw post,
       taf = pre ++ ws ++ kw ++ post -> blanks ws -> In kw main_end_words ->
       (length part <= length pre)%nat).
Proof.
  unfold TAFDecoder.main_part, Re.split. cbn [Re.split_from].
  destruct (Re.search_from TAFDecoder.main_split_re [] taf) as [m|] eqn:E.
  - pose proof (search_from_sound _ _ _ _ E) as (pre & Et & Ep & _ & M).
    rewrite app_nil_r in Ep.
    destruct (main_split_re_sound _ _ _ _ M) as (ws & kw & Ew & Hws & Hkw).
    assert (Hne : Re.f_text m <> []).
    { rewrite Ew. destruct Hws as [_ Hws]. destruct ws; [contradiction|discriminate]. }
    destruct (Re.f_text m) as [|x w] eqn:Etx; [contradiction|].
    cbn [seq map app]. exists (Re.gap [] m), (x :: w ++ Re.f_rest m).
    assert (Eg : Re.gap [] m = pre).
    { unfold Re.gap. cbn [length]. rewrite Nat.sub_0_r, firstn_all, Ep.
      apply rev_involutive. }
    rewrite Eg. split; [reflexivity|]. split; [exact Et|]. split.
    + right. exists ws, kw, (Re.f_rest m). change (x :: w ++ Re.f_rest m)
        with ((x :: w) ++ Re.f_rest m). rewrite Ew, <- app_assoc. auto.
    + intros pre1 ws1 kw1 post1 Et1 Hws1 Hkw1.
      destruct (Nat.le_gt_cases (length pre) (length pre1)) as [Hle|Hgt]; [exact Hle|].
      exfalso.
      destruct (main_split_re_complete (rev pre1) post1 ws1 kw1 Hws1 Hkw1) as (c & Mc).
      apply rmatch_complete in Mc.
      assert (F : Re.rmatch TAFDecoder.main_split_re (rev pre1 ++ [])
                    ((ws1 ++ kw1) ++ post1) [] = []).
      { apply (search_from_first _ _ _ _ E pre1).
        - rewrite <- app_assoc. exact Et1.
        - rewrite Ep, length_rev. simpl. lia. }
      rewrite app_nil_r in F. rewrite F in Mc. exact Mc.
  - exists taf, []. split; [reflexivity|]. split; [symmetry; apply app_nil_r|].
    split; [left; reflexivity|].
    intros pre ws kw post Et Hws Hkw. exfalso.
    destruct (main_split_re_complete (rev pre) post ws kw Hws Hkw) as (c & Mc).
    apply search_complete in Mc. apply Mc. unfold Re.search.
    rewrite <- app_assoc, <- Et. exact E.
Qed.

(** X7.  The baseline of a decoded forecast is read from the main part
    alone: the text, its runs of blanks made single spaces, up to the
    first run of blanks followed by FM, TEMPO, BECMG or PROB, and all of it
    when there is none.  The wind, visibility, weather, clouds and
    temperature of the record are what the five parsers return on that
    part, and the text under ['human_readable'] is the rendering of the
    record's own fields.  The word FM ends the main part even without its
    six digits, where it starts no change group. *)
Theorem X7_main_part (s : text) :
  (let taf := Py.join (str " ") (Py.split_ws (Py.strip s)) in
   let d := TAFDecoder.decode s in
   exists part rest,
     taf = part ++ rest /\
     (rest = [] \/
      exists ws kw post,
        rest = ws ++ kw ++ post /\ blanks ws /\ In kw main_end_words) /\
     (forall pre ws kw post,
        taf = pre ++ ws ++ kw ++ post -> blanks ws -> In kw main_end_words ->
        (length part <= length pre)%nat) /\
     TAFDecoder._parse_wind part = Ok (d_wind d) /\
     TAFDecoder._parse_visibility part = Ok (d_visibility d) /\
     d_weather d = TAFDecoder._parse_weather part /\
     TAFDecoder._parse_clouds part = Ok (d_clouds d) /\
     TAFDecoder._parse_temperature part = Ok (d_temperature d) /\
     human_readable d = Py.join TAFDecoder.newline (TAFDecoder.human_lines d)) /\
  (let d := TAFDecoder.decode (str "TAF UAAA 27005MPS FM 9999") in
   d_visibility d = None /\ changes d = []).
Proof.
  split; [|vm_compute; auto].
  cbn zeta.
  destruct (decode_run s) as (d1 & part & w & v & c & tm & cs & _ & Ep & Ew & Ev & Ec & Et & _ & Ed).
  destruct (main_part_cut (Py.join (str " ") (Py.split_ws (Py.strip s))))
    as (part' & rest & Ep' & Ecut & Hrest & Hfirst).
  rewrite Ep in Ep'. injection Ep' as <-.
  exists part, rest. rewrite Ed. destruct d1. cbn. auto 10.
Qed.

Lemma change_indicators (l : list (Re.found * text)) (cs : list change) :
  Forall (fun mc => matches TAFDecoder.change_split_re
                      (Re.f_pre (fst mc)) (Re.f_text (fst mc)) (Re.f_rest (fst mc)) []
                      (Re.f_caps (fst mc))) l ->
  Forall2 (fun mc ch =>
             exists ind, Re.grp (fst mc) 1 = Some ind /\
               change_read (Py.strip ind) (Py.strip (snd mc)) ch) l cs ->
  Forall2 (fun mc ch =>
             exists ind, Re.grp (fst mc) 1 = Some ind /\
               indicator_form ind (indicator_text ch) /\
               change_read ind (Py.strip (snd mc)) ch) l cs.
Proof.
  intros Hl H. induction H as [|mc ch l cs (ind & Eg & Hr) _ IH]; [constructor|].
  inversion Hl as [|? ? M Hl']; subst. constructor; [|apply IH; exact Hl'].
  apply change_split_re_form in M. destruct M as (_ & ind' & Eg' & Es & Hf).
  unfold Re.grp in Eg. rewrite Eg in Eg'. injection Eg' as <-.
  rewrite Es in Hr. exists ind. split; [exact Eg|]. split; [|exact Hr].
  destruct Hr as (_ & -> & _). exact Hf.
Qed.

(** The change groups of a decoded forecast, one for each match of the
    change pattern. *)
Lemma decode_changes (s : text) :
  Forall2 (fun mc ch =>
             exists ind, Re.grp (fst mc) 1 = Some ind /\
               indicator_form ind (indicator_text ch) /\
               change_read ind (Py.strip (snd mc)) ch)
    (combine (Re.finditer TAFDecoder.change_split_re
                (Py.join (str " ") (Py.split_ws (Py.strip s))))
             (following (Re.finditer TAFDecoder.change_split_re
                (Py.join (str " ") (Py.split_ws (Py.strip s))))))
    (changes (TAFDecoder.decode s)).
Proof.
  destruct (decode_run s) as (d1 & part & w & v & c & tm & cs & _ & _ & _ & _ & _ & _ & Ecs & Ed).
  set (taf := Py.join (str " ") (Py.split_ws (Py.strip s))) in *.
  assert (Hd : changes (TAFDecoder.decode s) = cs) by (rewrite Ed; destruct d1; reflexivity).
  rewrite Hd. clear Ed Hd.
  assert (Hms : Forall (fun m => matches TAFDecoder.change_split_re
                     (Re.f_pre m) (Re.f_text m) (Re.f_rest m) [] (Re.f_caps m))
                  (Re.finditer TAFDecoder.change_split_re taf)).
  { apply Forall_forall. intros m Hm. eapply finditer_sound. exact Hm. }
  unfold Re.split in Ecs. rewrite split_finditer in Ecs.
  2:{ intros b w0 a c0 M. apply change_split_re_form in M. apply M. }
  cbn [tl] in Ecs. fold (Re.finditer TAFDecoder.change_split_re taf) in Ecs.
  destruct (changes_of_pairs (combine (Re.finditer TAFDecoder.change_split_re taf)
              (following (Re.finditer TAFDecoder.change_split_re taf)))) as (cs' & Ecs' & H2).
  { apply Forall_forall. intros [m content] Hin. apply in_combine_l in Hin.
    rewrite Forall_forall in Hms. apply Hms in Hin. cbn [fst].
    apply change_split_re_group in Hin. exact Hin. }
  rewrite Ecs in Ecs'. injection Ecs' as <-.
  apply change_indicators; [|exact H2].
  apply Forall_forall. intros [m content] Hin. apply in_combine_l in Hin.
  rewrite Forall_forall in Hms. apply Hms in Hin. exact Hin.
Qed.

Lemma following_length (ms : list Re.found) : length (following ms) = length ms.
Proof.
  induction ms as [|m ms IH]; [reflexivity|].
  cbn [following length]. rewrite IH. reflexivity.
Qed.

(** X8.  The record has one change group for every match of the change
    pattern, in the order of the text.  The indicator of a group is the
    first group of its match and has one of four forms, FM and six digits,
    TEMPO, BECMG, or PROB and two digits with or without TEMPO, each with
    its own text; the wind, visibility, weather and clouds of the group are
    read from the stripped text between the end of the match and the start
    of the next one, or the end of the forecast. *)
Theorem X8_change_groups (s : text) :
  (let ms := Re.finditer TAFDecoder.change_split_re
               (Py.join (str " ") (Py.split_ws (Py.strip s))) in
   Forall2 (fun mc ch =>
              exists ind, Re.grp (fst mc) 1 = Some ind /\
                indicator_form ind (indicator_text ch) /\
                change_read ind (Py.strip (snd mc)) ch)
     (combine ms (following ms)) (changes (TAFDecoder.decode s)) /\
   length (changes (TAFDecoder.decode s)) = length ms) /\
  map indicator
    (changes (TAFDecoder.decode (str "TAF UAAA 27005MPS TEMPO 3000 BR PROB30 TEMPO 0800 FG")))
  = [str "TEMPO"; str "PROB30 TEMPO"].
Proof.
  split; [|vm_compute; reflexivity].
  cbn zeta. pose proof (decode_changes s) as H. split; [exact H|].
  apply Forall2_length in H. rewrite <- H, length_combine, following_length.
  apply Nat.min_id.
Qed.

(** ** Where a visibility is read *)

Lemma vis_re_form b w a c :
  matches TAFDecoder.vis_re b w a [] c ->
  exists x n y,
    w = [x] ++ n ++ [y] /\ is_space x = true /\ is_space y = true /\
    digits 4 4 n /\ Re.group c 1 = Some n.
Proof.
  intros H. unfold TAFDecoder.vis_re in H. inv_matches H.
  match goal with
  | H1 : is_space ?x = true, H2 : is_space ?y = true,
    F : forallb is_digit ?n = true |- _ =>
      exists x, n, y; rewrite ?app_nil_r;
      repeat split; try assumption; try reflexivity; lia
  end.
Qed.

Lemma visibility_place (t : text) (v : visibility) :
  TAFDecoder._parse_visibility t = Ok (Some v) ->
  (Py.contains t (str "CAVOK") = true /\ meters v = 10000) \/
  (Py.contains t (str "9999") = true /\ meters v = 10000) \/
  (exists n, between_blanks t n /\ int n = Ok (meters v)).
Proof.
  unfold TAFDecoder._parse_visibility.
  destruct (Py.contains t (str "CAVOK")).
  { intros H. injection H as <-. left. auto. }
  destruct (Py.contains t (str "9999")).
  { intros H. injection H as <-. right. left. auto. }
  destruct (Re.search TAFDecoder.vis_re t) as [m|] eqn:E; [|discriminate].
  destruct (search_sound _ _ _ E) as (pre & Et & M).
  apply vis_re_form in M. destruct M as (x & n & y & Ew & Hx & Hy & D & G).
  unfold TAFDecoder.int_group, Re.grp. rewrite G.
  destruct (int n) as [mt|e] eqn:Ei; [|discriminate].
  cbn [bind]. intros H. injection H as <-. right. right.
  exists n. split; [|exact Ei].
  exists pre, x, y, (Re.f_rest m). rewrite Et, Ew, <- !app_assoc. auto.
Qed.

Lemma Forall2_right {A B : Type} (R : A -> B -> Prop) (P : B -> Prop)
    (l : list A) (l' : list B) :
  (forall x y, R x y -> P y) -> Forall2 R l l' -> Forall P l'.
Proof. intros H F. induction F; constructor; eauto. Qed.

(** X6.  A visibility other than CAVOK and 9999 is read only from four
    digits that stand between two blanks inside the text given to
    [_parse_visibility]; a text without a blank gives none.  The content
    of a change group is stripped before it is read and the main part ends
    before the blanks of the first change indicator, so four digits that
    come first in a change group, or last in the main part, are not
    read. *)
Theorem X6_visibility_place :
  (forall t v,
     TAFDecoder._parse_visibility t = Ok (Some v) ->
     (Py.contains t (str "CAVOK") = true /\ meters v = 10000) \/
     (Py.contains t (str "9999") = true /\ meters v = 10000) \/
     (exists n, between_blanks t n /\ int n = Ok (meters v))) /\
  (forall t,
     (forall x, In x t -> is_space x = false) ->
     Py.contains t (str "CAVOK") = false ->
     Py.contains t (str "9999") = false ->
     TAFDecoder._parse_visibility t = Ok None) /\
  (forall s,
     Forall (fun ch =>
               forall v, ch_visibility ch = Some v ->
                 exists content,
                   TAFDecoder._parse_visibility (Py.strip content) = Ok (Some v) /\
                   (meters v = 10000 \/
                    exists n, between_blanks (Py.strip content) n /\
                              int n = Ok (meters v)))
       (changes (TAFDecoder.decode s))) /\
  (let d := TAFDecoder.decode
              (str "TAF UAAA 051100Z 0512/0612 27005MPS 3000 TEMPO 0800 FG") in
   d_visibility d = None /\ map ch_visibility (changes d) = [None] /\
   map (fun ch => map wx_code (ch_weather ch)) (changes d) = [[str "FG"]]) /\
  (let d := TAFDecoder.decode
              (str "TAF UAAA 051100Z 0512/0612 27005MPS 3000 BR TEMPO VRB02MPS 0800 FG") in
   option_map meters (d_visibility d) = Some 3000 /\
   map (fun ch => option_map meters (ch_visibility ch)) (changes d) = [Some 800]).
Proof.
  split; [exact visibility_place|].
  split; [|split; [|split; vm_compute; repeat split]].
  - intros t Hns H1 H2.
    destruct (parse_visibility_total t) as ([v|] & E); [|exact E].
    exfalso. destruct (visibility_place t v E) as [[H _]|[[H _]|(n & B & _)]];
      try congruence.
    destruct B as (pre & x & y & post & -> & Hx & _).
    rewrite (Hns x) in Hx; [discriminate|].
    apply in_or_app. right. left. reflexivity.
  - intros s. eapply Forall2_right; [|exact (decode_changes s)].
    intros [m content] ch (ind & _ & _ & Hr) v Hv. cbn [snd] in Hr.
    destruct Hr as (_ & _ & _ & Hvis & _). rewrite Hv in Hvis.
    exists content. split; [exact Hvis|].
    destruct (visibility_place _ v Hvis) as [[_ H]|[[_ H]|H]]; auto.
Qed.

Lemma X6_visibility_place_witness :
  TAFDecoder._parse_visibility (str "3000") = Ok None.
Proof.
  apply (proj1 (proj2 X6_visibility_place)).
  - intros x Hx. cbn in Hx.
    repeat (destruct Hx as [<-|Hx]; [reflexivity|]). contradiction.
  - reflexivity.
  - reflexivity.
Defined.

(** ** Digits written back *)

Lemma digit_cases (x : ascii) : is_digit x = true -> In x digit_chars.
Proof.
  destruct x as [b0 b1 b2 b3 b4 b5 b6 b7].
  destruct b0, b1, b2, b3, b4, b5, b6, b7; intros H;
    try (vm_compute in H; discriminate H); cbn; tauto.
Qed.

Lemma keeps2_all :
  forallb (fun a => forallb (keeps2 a) digit_chars) digit_chars = true.
Proof. vm_compute. reflexivity. Qed.

Lemma keeps_century_all :
  forallb (fun a => forallb (keeps_century a) digit_chars) digit_chars = true.
Proof. vm_compute. reflexivity. Qed.

Lemma keeps4_all :
  forallb (fun a => forallb (fun b => forallb (fun c =>
    forallb (keeps4 a b c) digit_chars) digit_chars) digit_chars) digit_chars = true.
Proof. vm_compute. reflexivity. Qed.

Lemma two_digits_cases (w : text) :
  digits 2 2 w ->
  exists a b, w = [a; b] /\ In a digit_chars /\ In b digit_chars.
Proof.
  intros [F [L1 L2]]. destruct w as [|a [|b [|c w]]]; simpl in L1, L2; try lia.
  cbn [forallb] in F. apply andb_prop in F. destruct F as [Ha F].
  apply andb_prop in F. destruct F as [Hb _].
  exists a, b. auto using digit_cases.
Qed.

Lemma fmt02_int (w : text) (z : Z) :
  digits 2 2 w -> int w = Ok z -> fmt02 z = w.
Proof.
  intros D E. destruct (two_digits_cases w D) as (a & b & -> & Ha & Hb).
  pose proof keeps2_all as K. rewrite forallb_forall in K.
  specialize (K a Ha). rewrite forallb_forall in K. specialize (K b Hb).
  unfold keeps2 in K. rewrite E in K. apply text_eqb_eq. exact K.
Qed.

Lemma fmt04_century (w : text) (z : Z) :
  digits 2 2 w -> int w = Ok z ->
  fmt04 (1900 + z) = str "19" ++ w /\ fmt04 (2000 + z) = str "20" ++ w.
Proof.
  intros D E. destruct (two_digits_cases w D) as (a & b & -> & Ha & Hb).
  pose proof keeps_century_all as K. rewrite forallb_forall in K.
  specialize (K a Ha). rewrite forallb_forall in K. specialize (K b Hb).
  unfold keeps_century in K. rewrite E in K. apply andb_prop in K.
  destruct K as [K1 K2]. split; apply text_eqb_eq; assumption.
Qed.

Lemma fmt04_int (w : text) (z : Z) :
  digits 4 4 w -> int w = Ok z -> fmt04 z = w.
Proof.
  intros [F [L1 L2]] E.
  destruct w as [|a [|b [|c [|d [|e w]]]]]; simpl in L1, L2; try lia.
  cbn [forallb] in F.
  apply andb_prop in F. destruct F as [Ha F].
  apply andb_prop in F. destruct F as [Hb F].
  apply andb_prop in F. destruct F as [Hc F].
  apply andb_prop in F. destruct F as [Hd _].
  apply digit_cases in Ha, Hb, Hc, Hd.
  pose proof keeps4_all as K. rewrite forallb_forall in K.
  specialize (K a Ha). rewrite forallb_forall in K.
  specialize (K b Hb). rewrite forallb_forall in K.
  specialize (K c Hc). rewrite forallb_forall in K.
  specialize (K d Hd). unfold keeps4 in K. rewrite E in K.
  apply text_eqb_eq. exact K.
Qed.

(** ** The header *)

Lemma two_digits_value (hi : N) b w a c c' :
  (hi <= 57)%N -> matches (TAFDecoder.two_digits hi) b w a c c' ->
  digits 2 2 w /\ c' = c /\
  exists z, int w = Ok z /\ 0 <= z <= 10 * (Z.of_N hi - 48) + 9.
Proof.
  intros Hhi H. pose proof (two_digits_word hi _ _ _ _ _ Hhi H) as [D ->].
  split; [exact D|]. split; [reflexivity|].
  unfold TAFDecoder.two_digits in H. repeat inv_step.
  lazymatch goal with
  | H1 : between 48 hi ?x = true, H2 : is_digit ?y = true |- _ =>
      pose proof (between_digit hi x Hhi H1) as Hx;
      exists (10 * (10 * 0 + digit_val x) + digit_val y); split;
      [cbn [app]; unfold int; cbn [int_acc]; rewrite Hx, H2; reflexivity|];
      pose proof (digit_val_bound y H2);
      unfold between in H1; apply andb_prop in H1; destruct H1 as [L1 L2];
      apply N.leb_le in L1, L2; unfold digit_val in *; lia
  end.
Qed.

Ltac header_groups :=
  repeat match goal with
  | H : matches (TAFDecoder.two_digits _) _ _ _ _ _ |- _ =>
      apply two_digits_value in H; [destruct H as (? & -> & ?)|lia]
  | H : matches (Re.Grp _ (TAFDecoder.two_digits _)) _ _ _ _ _ |- _ =>
      inversion H; subst; clear H
  | H : matches (Re.Seq _ _) _ _ _ _ _ |- _ => inversion H; subst; clear H
  | H : matches (Re.Cls _) _ _ _ _ _ |- _ => inversion H; subst; clear H
  | H : matches Re.Eps _ _ _ _ _ |- _ => inversion H; subst; clear H
  | H : exists z, int _ = Ok z /\ _ |- _ => destruct H as (? & ? & ?)
  end.

Lemma issue_re_form b w a c :
  matches TAFDecoder.issue_re b w a [] c ->
  exists dd hh mi day hour minute,
    w = dd ++ hh ++ mi ++ str "Z" /\
    digits 2 2 dd /\ digits 2 2 hh /\ digits 2 2 mi /\
    Re.group c 1 = Some dd /\ Re.group c 2 = Some hh /\ Re.group c 3 = Some mi /\
    int dd = Ok day /\ int hh = Ok hour /\ int mi = Ok minute /\
    0 <= day <= 39 /\ 0 <= hour <= 29 /\ 0 <= minute <= 59.
Proof.
  intros H. unfold TAFDecoder.issue_re in H. unfold_re H. header_groups. chars.
  match goal with
  | |- exists _ _ _ _ _ _, ?dd ++ ?hh ++ ?mi ++ _ = _ /\ _ =>
      exists dd, hh, mi
  end.
  do 3 eexists. rewrite ?app_nil_r.
  repeat (split; [first [reflexivity|eassumption|lia]|]). lia.
Qed.

Lemma valid_re_form b w a c :
  matches TAFDecoder.valid_re b w a [] c ->
  exists fd fh td th zfd zfh ztd zth,
    w = fd ++ fh ++ str "/" ++ td ++ th /\
    digits 2 2 fd /\ digits 2 2 fh /\ digits 2 2 td /\ digits 2 2 th /\
    Re.group c 1 = Some fd /\ Re.group c 2 = Some fh /\
    Re.group c 3 = Some td /\ Re.group c 4 = Some th /\
    int fd = Ok zfd /\ int fh = Ok zfh /\ int td = Ok ztd /\ int th = Ok zth /\
    0 <= zfd <= 39 /\ 0 <= zfh <= 29 /\ 0 <= ztd <= 39 /\ 0 <= zth <= 29.
Proof.
  intros H. unfold TAFDecoder.valid_re in H. unfold_re H. header_groups. chars.
  match goal with
  | |- exists _ _ _ _ _ _ _ _, ?fd ++ ?fh ++ _ ++ ?td ++ ?th ++ _ = _ /\ _ =>
      exists fd, fh, td, th
  end.
  do 4 eexists. rewrite ?app_nil_r.
  repeat (split; [first [reflexivity|eassumption|lia]|]). lia.
Qed.

Lemma station_re_form b w a c :
  matches TAFDecoder.station_re b w a [] c ->
  exists ws am st,
    w = str "TAF" ++ ws ++ am ++ st /\ blanks ws /\ amendment am /\
    forallb is_upper st = true /\ length st = 4%nat /\
    Re.group c 1 = Some st.
Proof.
  intros H. unfold TAFDecoder.station_re in H. inv_matches H. all: chars.
  all: match goal with
       | H1 : forallb is_space ?ws = true, H2 : (1 <= length ?ws)%nat,
         H3 : forallb is_upper ?st = true, H4 : (4 <= length ?st)%nat
         |- exists _ _ _, _ ++ ?ws ++ ?am ++ ?st ++ _ = _ /\ _ =>
           exists ws, am, st; rewrite ?app_nil_r;
           split; [reflexivity|];
           split; [split; [exact H1|intros ->; simpl in H2; lia]|];
           split; [|split; [exact H3|split; [lia|reflexivity]]]
       end.
  1,2: right.
  1,2: match goal with
       | H1 : forallb is_space ?ws = true, H2 : (1 <= length ?ws)%nat
         |- exists _, _ /\ (_ ++ ?ws = _ \/ _) =>
           exists ws; split; [split; [exact H1|intros ->; simpl in H2; lia]|]
       end.
  - left. reflexivity.
  - right. reflexivity.
  - left. reflexivity.
Qed.

Lemma parse_header_fields (taf : text) (d0 : decoded) :
  exists d1,
    TAFDecoder._parse_header taf d0 = (d1, Ok tt) /\
    station d1 = match Re.search TAFDecoder.station_re taf with
                 | Some m => Re.grp m 1
                 | None => station d0
                 end /\
    match Re.search TAFDecoder.issue_re taf with
    | Some m =>
        exists dd hh mi it,
          Re.f_text m = dd ++ hh ++ mi ++ str "Z" /\
          digits 2 2 dd /\ digits 2 2 hh /\ digits 2 2 mi /\
          d_issue_time d1 = Some it /\ issue_of dd hh mi it
    | None => d_issue_time d1 = d_issue_time d0
    end /\
    match Re.search TAFDecoder.valid_re taf with
    | Some m =>
        exists fd fh td th vp,
          Re.f_text m = fd ++ fh ++ str "/" ++ td ++ th /\
          digits 2 2 fd /\ digits 2 2 fh /\ digits 2 2 td /\ digits 2 2 th /\
          d_valid_period d1 = Some vp /\ period_of fd fh td th vp
    | None => d_valid_period d1 = d_valid_period d0
    end.
Proof.
  unfold TAFDecoder._parse_header.
  set (A := match Re.search TAFDecoder.station_re taf with
            | Some m => TAFDecoder.modify (TAFDecoder.set_station (Re.grp m 1))
            | None => TAFDecoder.ret tt
            end).
  assert (HA : exists dA, A d0 = (dA, Ok tt) /\
             station dA = match Re.search TAFDecoder.station_re taf with
                          | Some m => Re.grp m 1
                          | None => station d0
                          end /\
             d_issue_time dA = d_issue_time d0 /\
             d_valid_period dA = d_valid_period d0).
  { subst A. destruct (Re.search TAFDecoder.station_re taf);
      eexists; (split; [reflexivity|]); destruct d0; cbn; auto. }
  destruct HA as (dA & EA & HA1 & HA2 & HA3).
  unfold TAFDecoder.mbind at 1. rewrite EA. rewrite <- HA1, <- HA2, <- HA3.
  clear EA HA1 HA2 HA3 A.
  destruct (Re.search TAFDecoder.issue_re taf) as [m1|] eqn:E1;
    destruct (Re.search TAFDecoder.valid_re taf) as [m2|] eqn:E2.
  all: try (destruct (search_sound _ _ _ E1) as (pre1 & _ & M1);
            apply issue_re_form in M1;
            destruct M1 as (dd & hh & mi & day & hour & minute & Ew1 & D1 & D2 & D3 &
                            G1 & G2 & G3 & I1 & I2 & I3 & R1 & R2 & R3)).
  all: try (destruct (search_sound _ _ _ E2) as (pre2 & _ & M2);
            apply valid_re_form in M2;
            destruct M2 as (fd & fh & td & th & zfd & zfh & ztd & zth & Ew2 &
                            P1 & P2 & P3 & P4 & Q1 & Q2 & Q3 & Q4 &
                            J1 & J2 & J3 & J4 & S1 & S2 & S3 & S4)).
  all: unfold TAFDecoder.mbind, TAFDecoder.lift, TAFDecoder.modify, TAFDecoder.ret,
         TAFDecoder.int_group, Re.grp.
  all: repeat match goal with
       | H : Re.group _ _ = Some _ |- _ => rewrite H; clear H
       end.
  all: repeat match goal with
       | H : int _ = Ok _ |- _ => rewrite H
       end.
  all: eexists; (split; [reflexivity|]).
  all: split; [destruct dA; reflexivity|].
  all: split.
  all: try (destruct dA; reflexivity).
  all: try (exists dd, hh, mi; eexists; split; [exact Ew1|];
            repeat (split; [assumption|]); split; [destruct dA; reflexivity|];
            unfold issue_of; cbn [it_day it_hour it_minute it_text];
            rewrite (fmt02_int dd day D1 I1), (fmt02_int hh hour D2 I2),
              (fmt02_int mi minute D3 I3); auto 10).
  all: exists fd, fh, td, th; eexists; split; [exact Ew2|];
       repeat (split; [assumption|]); split; [destruct dA; reflexivity|];
       unfold period_of; cbn [from_day from_hour to_day to_hour vp_text];
       rewrite (fmt02_int fd zfd P1 J1), (fmt02_int fh zfh P2 J2),
         (fmt02_int td ztd P3 J3), (fmt02_int th zth P4 J4); auto 12.
Qed.

(** X9.  The header of a decoded forecast.  The station is the four
    capital letters after TAF, blanks and at most one of AMD and COR, and
    is absent when the text holds no such place.  The issue time and the
    period are read from the first DDHHMMZ and the first DDHH/DDHH of the
    text; their texts give the digits back as written, and the numbers are
    held only to the leading digits the patterns allow, a day up to 39 and
    an hour up to 29. *)
Theorem X9_header (s : text) :
  (let taf := Py.join (str " ") (Py.split_ws (Py.strip s)) in
   let d := TAFDecoder.decode s in
   match Re.search TAFDecoder.station_re taf with
   | Some m =>
       exists ws am st,
         Re.f_text m = str "TAF" ++ ws ++ am ++ st /\ blanks ws /\ amendment am /\
         forallb is_upper st = true /\ length st = 4%nat /\ station d = Some st
   | None => station d = None
   end /\
   match Re.search TAFDecoder.issue_re taf with
   | Some m =>
       exists dd hh mi it,
         Re.f_text m = dd ++ hh ++ mi ++ str "Z" /\
         digits 2 2 dd /\ digits 2 2 hh /\ digits 2 2 mi /\
         d_issue_time d = Some it /\ issue_of dd hh mi it
   | None => d_issue_time d = None
   end /\
   match Re.search TAFDecoder.valid_re taf with
   | Some m =>
       exists fd fh td th vp,
         Re.f_text m = fd ++ fh ++ str "/" ++ td ++ th /\
         digits 2 2 fd /\ digits 2 2 fh /\ digits 2 2 td /\ digits 2 2 th /\
         d_valid_period d = Some vp /\ period_of fd fh td th vp
   | None => d_valid_period d = None
   end) /\
  (let d := TAFDecoder.decode (str "TAF COR UAAA 392959Z 3929/0000 27005MPS") in
   station d = Some (str "UAAA") /\
   option_map it_text (d_issue_time d) = Some (str "39 число, 29:59 UTC") /\
   option_map vp_text (d_valid_period d)
     = Some (str "с 39 числа 29:00 до 00 числа 00:00 UTC") /\
   error d = None) /\
  station (TAFDecoder.decode (str "TAF AMD COR UAAA 051100Z")) = None.
Proof.
  split; [|vm_compute; repeat split].
  cbn zeta.
  destruct (decode_run s) as (d1 & part & w & v & c & tm & cs & E1 & _ & _ & _ & _ & _ & _ & Ed).
  destruct (parse_header_fields (Py.join (str " ") (Py.split_ws (Py.strip s)))
              (TAFDecoder.initial (Py.strip s))) as (d1' & E1' & Hs & Hi & Hv).
  rewrite E1 in E1'. injection E1' as <-.
  assert (F1 : station (TAFDecoder.decode s) = station d1)
    by (rewrite Ed; destruct d1; reflexivity).
  assert (F2 : d_issue_time (TAFDecoder.decode s) = d_issue_time d1)
    by (rewrite Ed; destruct d1; reflexivity).
  assert (F3 : d_valid_period (TAFDecoder.decode s) = d_valid_period d1)
    by (rewrite Ed; destruct d1; reflexivity).
  rewrite F1, F2, F3. clear Ed F1 F2 F3 E1.
  split; [|split; [exact Hi|exact Hv]].
  destruct (Re.search TAFDecoder.station_re _) as [m|] eqn:E; [|exact Hs].
  destruct (search_sound _ _ _ E) as (pre & _ & M).
  apply station_re_form in M. destruct M as (ws & am & st & Ew & Hws & Ham & Hup & Hl & G).
  exists ws, am, st. repeat (split; [assumption|]).
  rewrite Hs. exact G.
Qed.

(** ** Whitespace *)

Lemma lstrip_blanks (s : text) :
  exists sp, forallb is_space sp = true /\ s = sp ++ Py.lstrip s.
Proof.
  induction s as [|c s (sp & Hsp & E)]; [exists []; auto|].
  cbn [Py.lstrip]. destruct (is_space c) eqn:Hc.
  - exists (c :: sp). cbn [forallb app]. rewrite Hc, Hsp, <- E. auto.
  - exists []. auto.
Qed.

Lemma split_ws_aux_lead (sp s cur : text) :
  forallb is_space sp = true ->
  Py.split_ws_aux (sp ++ s) [] = Py.split_ws_aux s [].
Proof.
  intros H. induction sp as [|c sp IH]; [reflexivity|].
  cbn [forallb] in H. apply andb_prop in H. destruct H as [Hc H].
  cbn [app Py.split_ws_aux]. rewrite Hc. apply IH. exact H.
Qed.

Lemma split_ws_aux_blanks (sp : text) :
  forallb is_space sp = true -> Py.split_ws_aux sp [] = [].
Proof.
  intros H. induction sp as [|c sp IH]; [reflexivity|].
  cbn [forallb] in H. apply andb_prop in H. destruct H as [Hc H].
  cbn [Py.split_ws_aux]. rewrite Hc. apply IH. exact H.
Qed.

Lemma split_ws_aux_trail (sp : text) :
  forallb is_space sp = true ->
  forall s cur, Py.split_ws_aux (s ++ sp) cur = Py.split_ws_aux s cur.
Proof.
  intros H. induction s as [|c s IH]; intros cur.
  - cbn [app]. destruct sp as [|x sp]; [reflexivity|].
    cbn [forallb] in H. apply andb_prop in H. destruct H as [Hx H].
    cbn [Py.split_ws_aux]. rewrite Hx, (split_ws_aux_blanks sp H).
    destruct cur; reflexivity.
  - cbn [app Py.split_ws_aux]. destruct (is_space c); [|apply IH].
    destruct cur; rewrite IH; reflexivity.
Qed.

(** [s.strip().split()] is [s.split()]. *)
Lemma split_ws_strip (s : text) : Py.split_ws (Py.strip s) = Py.split_ws s.
Proof.
  unfold Py.split_ws, Py.strip, Py.rstrip.
  destruct (lstrip_blanks s) as (sp & Hsp & E).
  destruct (lstrip_blanks (rev (Py.lstrip s))) as (sp' & Hsp' & E').
  assert (E2 : Py.lstrip s = rev (Py.lstrip (rev (Py.lstrip s))) ++ rev sp').
  { rewrite <- rev_app_distr, <- E'. symmetry. apply rev_involutive. }
  assert (Hr : forallb is_space (rev sp') = true).
  { rewrite forallb_forall in *. intros x Hx. apply Hsp'. apply in_rev. exact Hx. }
  rewrite E at 2. rewrite (split_ws_aux_lead sp _ [] Hsp).
  rewrite E2 at 2. rewrite (split_ws_aux_trail (rev sp') Hr). reflexivity.
Qed.

Lemma respects_ret {A : Type} (a : A) : respects (TAFDecoder.ret a).
Proof. intros d1 d2 H. auto. Qed.

Lemma respects_lift {A : Type} (r : result A) : respects (TAFDecoder.lift r).
Proof. intros d1 d2 H. auto. Qed.

Lemma respects_modify (f : decoded -> decoded) :
  (forall d1 d2, same_but_raw d1 d2 -> same_but_raw (f d1) (f d2)) ->
  respects (TAFDecoder.modify f).
Proof. intros Hf d1 d2 H. split; [reflexivity|apply Hf; exact H]. Qed.

Lemma respects_bind {A B : Type} (m : TAFDecoder.M A) (k : A -> TAFDecoder.M B) :
  respects m -> (forall a, respects (k a)) -> respects (TAFDecoder.mbind m k).
Proof.
  intros Hm Hk d1 d2 H. destruct (Hm d1 d2 H) as [Hr Hd].
  unfold TAFDecoder.mbind.
  destruct (m d1) as [d1' r1], (m d2) as [d2' r2]. cbn [fst snd] in *. subst r2.
  destruct r1 as [a|e]; [apply Hk; exact Hd|auto].
Qed.

Ltac raw_apart :=
  let d1 := fresh "d" in let d2 := fresh "d" in let H := fresh "H" in
  intros d1 d2 H; destruct d1, d2; unfold same_but_raw in *;
  cbn in H |- *; injection H as ?; subst; reflexivity.

Ltac respects_step :=
  first
    [ apply respects_ret
    | apply respects_lift
    | apply respects_modify; raw_apart
    | apply respects_bind; [|intros ?]
    | match goal with
      | |- respects (match ?x with _ => _ end) => destruct x
      end ].

Lemma decode_body_respects (raw_taf : text) : respects (TAFDecoder.decode_body raw_taf).
Proof.
  unfold TAFDecoder.decode_body, TAFDecoder._parse_header,
    TAFDecoder._parse_main_forecast, TAFDecoder._parse_changes,
    TAFDecoder._generate_human_text.
  repeat respects_step.
Qed.

Lemma decode_same_but_raw (s1 s2 : text) :
  Py.split_ws s1 = Py.split_ws s2 ->
  same_but_raw (TAFDecoder.decode s1) (TAFDecoder.decode s2).
Proof.
  intros H.
  assert (H' : Py.split_ws (Py.strip s1) = Py.split_ws (Py.strip s2)).
  { rewrite !split_ws_strip. exact H. }
  assert (Hi : same_but_raw (TAFDecoder.initial (Py.strip s1))
                            (TAFDecoder.initial (Py.strip s2))) by reflexivity.
  assert (Hb : TAFDecoder.decode_body (Py.strip s1) = TAFDecoder.decode_body (Py.strip s2)).
  { unfold TAFDecoder.decode_body. rewrite H'. reflexivity. }
  pose proof (decode_body_respects (Py.strip s1) _ _ Hi) as [Hr Hd].
  unfold TAFDecoder.decode. rewrite <- Hb.
  destruct (TAFDecoder.decode_body (Py.strip s1) (TAFDecoder.initial (Py.strip s1)))
    as [d1 r1].
  destruct (TAFDecoder.decode_body (Py.strip s1) (TAFDecoder.initial (Py.strip s2)))
    as [d2 r2].
  cbn [fst snd] in *. subst r2. destruct r1 as [[]|e]; [exact Hd|].
  revert Hd. generalize (Some e). clear. intros o. revert d1 d2. raw_apart.
Qed.

Lemma decode_body_keeps_raw (raw_taf : text) :
  keeps raw (TAFDecoder.decode_body raw_taf).
Proof.
  unfold TAFDecoder.decode_body, TAFDecoder._parse_header,
    TAFDecoder._parse_main_forecast, TAFDecoder._parse_changes,
    TAFDecoder._generate_human_text, TAFDecoder.get.
  repeat keeps_step.
Qed.

Lemma decode_body_keeps_remarks (raw_taf : text) :
  keeps remarks (TAFDecoder.decode_body raw_taf).
Proof.
  unfold TAFDecoder.decode_body, TAFDecoder._parse_header,
    TAFDecoder._parse_main_forecast, TAFDecoder._parse_changes,
    TAFDecoder._generate_human_text, TAFDecoder.get.
  repeat keeps_step.
Qed.

Lemma decode_keeps {B : Type} (p : decoded -> B) (s : text) :
  (forall e d, p (TAFDecoder.set_error e d) = p d) ->
  (forall r, keeps p (TAFDecoder.decode_body r)) ->
  p (TAFDecoder.decode s) = p (TAFDecoder.initial (Py.strip s)).
Proof.
  intros He Hk. unfold TAFDecoder.decode.
  specialize (Hk (Py.strip s) (TAFDecoder.initial (Py.strip s))).
  destruct (TAFDecoder.decode_body (Py.strip s) (TAFDecoder.initial (Py.strip s)))
    as [d [u|e]]; cbn [fst] in Hk; [exact Hk|].
  rewrite He. exact Hk.
Qed.

(** X10.  Blanks do not matter: two texts with the same words decode to
    records that agree in every field but ['raw'], which holds the
    stripped text, and [decode_taf_text] returns the same text for both.
    The key ['remarks'] is never filled. *)
Theorem X10_whitespace_insensitive (s1 s2 : text) :
  Py.split_ws s1 = Py.split_ws s2 ->
  decode_taf_text s1 = decode_taf_text s2 /\
  (let d1 := TAFDecoder.decode s1 in
   let d2 := TAFDecoder.decode s2 in
   station d1 = station d2 /\
   d_issue_time d1 = d_issue_time d2 /\ d_valid_period d1 = d_valid_period d2 /\
   d_wind d1 = d_wind d2 /\ d_visibility d1 = d_visibility d2 /\
   d_weather d1 = d_weather d2 /\ d_clouds d1 = d_clouds d2 /\
   d_temperature d1 = d_temperature d2 /\ changes d1 = changes d2 /\
   remarks d1 = None /\ remarks d2 = None /\ error d1 = error d2 /\
   raw d1 = Py.strip s1 /\ raw d2 = Py.strip s2).
Proof.
  intros H. pose proof (decode_same_but_raw s1 s2 H) as E.
  unfold same_but_raw, set_raw in E. injection E as E1 E2 E3 E4 E5 E6 E7 E8 E9 E10 E11 E12.
  split; [exact E1|]. cbn zeta.
  repeat (split; [assumption|]).
  split; [exact (decode_keeps remarks s1 (fun _ _ => eq_refl) decode_body_keeps_remarks)|].
  split; [exact (decode_keeps remarks s2 (fun _ _ => eq_refl) decode_body_keeps_remarks)|].
  split; [assumption|].
  split; [exact (decode_keeps raw s1 (fun _ _ => eq_refl) decode_body_keeps_raw)
         |exact (decode_keeps raw s2 (fun _ _ => eq_refl) decode_body_keeps_raw)].
Qed.

Lemma X10_whitespace_insensitive_witness :
  decode_taf_text (str "  TAF   UAAA 051100Z" ++ TAFDecoder.newline ++
                   str " 27005MPS 9999 ") =
  decode_taf_text (str "TAF UAAA 051100Z 27005MPS 9999").
Proof.
  apply (X10_whitespace_insensitive _ (str "TAF UAAA 051100Z 27005MPS 9999")).
  vm_compute. reflexivity.
Defined.

(** ** The fields of a NOTAM *)

Lemma q_re_form b w a c :
  matches NOTAMCollector.q_re b w a [] c ->
  exists g1 g2 g3 g4 g5 g6 g7 g8,
    Re.group c 1 = Some g1 /\ Re.group c 2 = Some g2 /\ Re.group c 3 = Some g3 /\
    Re.group c 4 = Some g4 /\ Re.group c 5 = Some g5 /\ Re.group c 6 = Some g6 /\
    Re.group c 7 = Some g7 /\ Re.group c 8 = Some g8 /\
    (forallb is_upper g1 = true /\ length g1 = 4%nat) /\
    (exists l, g2 = str "Q" ++ l /\ forallb is_upper l = true /\ length l = 4%nat) /\
    (forallb (one_of "IV") g3 = true /\ (1 <= length g3 <= 2)%nat) /\
    (forallb is_upper g4 = true /\ g4 <> []) /\
    (forallb (one_of "AEW") g5 = true /\ g5 <> []) /\
    digits 3 3 g6 /\ digits 3 3 g7 /\
    (exists la ns lo ew,
       g8 = la ++ [ns] ++ lo ++ [ew] /\ digits 4 4 la /\ one_of "NS" ns = true /\
       digits 5 5 lo /\ one_of "EW" ew = true) /\
    (Re.group c 9 = None \/ exists g9, Re.group c 9 = Some g9 /\ digits 3 3 g9).
Proof.
  intros H. unfold NOTAMCollector.q_re in H. inv_matches H. all: chars.
  all: do 8 eexists.
  all: repeat (split; [reflexivity|]).
  all: rewrite ?app_nil_r.
  all: split; [split; [assumption|lia]|].
  all: split; [eexists; split; [reflexivity|split; [assumption|lia]]|].
  all: split; [split; [assumption|lia]|].
  all: split; [split; [assumption|intros ->; simpl in *; lia]|].
  all: split; [split; [assumption|intros ->; simpl in *; lia]|].
  all: split; [split; [assumption|lia]|].
  all: split; [split; [assumption|lia]|].
  all: split;
    [do 4 eexists; split; [reflexivity|];
     split; [split; [assumption|lia]|];
     split; [assumption|]; split; [split; [assumption|lia]|assumption]|].
  - right. eexists. split; [reflexivity|]. split; [assumption|lia].
  - left. reflexivity.
Qed.

(** The record [_parse_raw_notam] builds, field by field. *)
Lemma raw_notam_record (now_year : Z) (t : text) (n : notam) :
  NOTAMCollector._parse_raw_notam now_year t = Some n ->
  exists m,
    Re.search NOTAMCollector.id_re t = Some m /\
    Re.grp m 1 = Some (notam_id n) /\ Re.grp m 2 = Some (notam_type n) /\
    NOTAMCollector.parse_q t = Ok (q_data_ n) /\
    q_code n = option_map q_code_ (q_data_ n) /\
    location n = match Re.search NOTAMCollector.a_re t with
                 | Some m0 => Re.grp m0 1
                 | None => option_map fir (q_data_ n)
                 end /\
    valid_from n = match Re.search NOTAMCollector.b_re t with
                   | Some m0 =>
                       match Re.grp m0 1 with
                       | Some w => NOTAMCollector._parse_notam_datetime now_year w
                       | None => None
                       end
                   | None => None
                   end /\
    NOTAMCollector.stripped_group (Re.search (NOTAMCollector.line_re "D") t)
      = Ok (schedule n) /\
    NOTAMCollector.stripped_group (Re.search NOTAMCollector.e_re t)
      = Ok (description_raw n) /\
    NOTAMCollector.stripped_group (Re.search (NOTAMCollector.line_re "F") t)
      = Ok (lower_limit n) /\
    NOTAMCollector.stripped_group (Re.search (NOTAMCollector.line_re "G") t)
      = Ok (upper_limit n) /\
    notam_raw n = Py.strip t.
Proof.
  intros H. unfold NOTAMCollector._parse_raw_notam in H.
  unfold NOTAMCollector.raw_notam_body in H.
  destruct (Re.search NOTAMCollector.id_re t) as [m|] eqn:E; [|discriminate].
  exists m. split; [reflexivity|].
  destruct (group_str_binds _ t m 1 E eq_refl) as (g1 & E1 & G1).
  destruct (group_str_binds _ t m 2 E eq_refl) as (g2 & E2 & G2).
  rewrite E1, E2 in H. cbn [bind] in H.
  destruct (parse_q_ok t) as (q & Eq). rewrite Eq in H. cbn [bind] in H.
  rewrite Eq.
  destruct (Re.search NOTAMCollector.a_re t) as [m0|] eqn:Ea.
  1: destruct (group_str_binds _ t m0 1 Ea eq_refl) as (wa & Ewa & Ga);
     rewrite Ewa in H.
  all: cbn [bind] in H.
  all: destruct (Re.search NOTAMCollector.b_re t) as [m1|] eqn:Eb.
  1,3: destruct (group_str_binds _ t m1 1 Eb eq_refl) as (wb & Ewb & Gb);
       rewrite Ewb in H.
  all: cbn [bind] in H.
  all: assert (Hc : exists c, NOTAMCollector.parse_c now_year t = Ok c)
         by (pose proof (parse_c_spec now_year t) as Hs;
             destruct (Re.search NOTAMCollector.c_re t);
             [destruct Hs as (? & _ & Hs)|]; eauto).
  all: destruct Hc as (c & Ec); rewrite Ec in H; cbn [bind] in H.
  all: destruct (stripped_group_ok (NOTAMCollector.line_re "D") t eq_refl) as (s1 & Es1).
  all: destruct (stripped_group_ok NOTAMCollector.e_re t eq_refl) as (s2 & Es2).
  all: destruct (stripped_group_ok (NOTAMCollector.line_re "F") t eq_refl) as (s3 & Es3).
  all: destruct (stripped_group_ok (NOTAMCollector.line_re "G") t eq_refl) as (s4 & Es4).
  all: rewrite Es1, Es2, Es3, Es4 in H |- *; cbn [bind] in H.
  all: injection H as <-.
  all: cbn [notam_id notam_type q_data_ q_code location valid_from schedule
            description_raw lower_limit upper_limit notam_raw].
  all: rewrite ?Ga, ?Gb; auto 15.
Qed.

Lemma a_re_form b w a c :
  matches NOTAMCollector.a_re b w a [] c ->
  exists loc, Re.group c 1 = Some loc /\
              forallb is_upper loc = true /\ length loc = 4%nat.
Proof.
  intros H. unfold NOTAMCollector.a_re in H. inv_matches H. chars.
  eexists. split; [reflexivity|]. split; [assumption|lia].
Qed.

Lemma b_re_form b w a c :
  matches NOTAMCollector.b_re b w a [] c ->
  exists v, Re.group c 1 = Some v /\ digits 10 12 v.
Proof.
  intros H. unfold NOTAMCollector.b_re in H. inv_matches H. chars.
  eexists. split; [reflexivity|]. split; [assumption|lia].
Qed.

Lemma c_re_form b w a c :
  matches NOTAMCollector.c_re b w a [] c ->
  exists v, Re.group c 1 = Some v /\
            (digits 10 12 v \/ v = str "PERM" \/ v = str "EST").
Proof.
  intros H. unfold NOTAMCollector.c_re in H. inv_matches H. all: chars.
  all: eexists; (split; [reflexivity|]).
  - left. split; [assumption|lia].
  - right. left. reflexivity.
  - right. right. reflexivity.
Qed.

(** ** Stamps *)

Lemma digits_cut (n k : nat) (w : text) :
  forallb is_digit w = true -> length w = (n + k)%nat ->
  exists u v, w = u ++ v /\ digits n n u /\ forallb is_digit v = true /\
              length v = k.
Proof.
  intros F L. exists (firstn n w), (skipn n w).
  rewrite firstn_skipn. split; [reflexivity|].
  rewrite <- (firstn_skipn n w), forallb_app in F. apply andb_prop in F.
  destruct F as [F1 F2]. split; [split; [exact F1|rewrite length_firstn; lia]|].
  split; [exact F2|rewrite length_skipn; lia].
Qed.

Lemma stamp_12 (now_year : Z) (yyyy mm dd hh mi r : text) :
  digits 4 4 yyyy -> digits 2 2 mm -> digits 2 2 dd -> digits 2 2 hh ->
  digits 2 2 mi ->
  NOTAMCollector._parse_notam_datetime now_year (yyyy ++ mm ++ dd ++ hh ++ mi)
    = Some r ->
  r = yyyy ++ str "-" ++ mm ++ str "-" ++ dd ++ str "T" ++ hh ++ str ":" ++
      mi ++ str ":00Z".
Proof.
  intros D1 D2 D3 D4 D5 H.
  destruct (datetime_12 now_year yyyy mm dd hh mi D1 D2 D3 D4 D5)
    as (y & mo & d & h & m & E1 & E2 & E3 & E4 & E5 & E).
  rewrite E in H. unfold stamp in H.
  destruct (NOTAMCollector.datetime_ok y mo d h m); [|discriminate].
  injection H as <-. unfold iso_text.
  rewrite (fmt04_int yyyy y D1 E1), (fmt02_int mm mo D2 E2), (fmt02_int dd d D3 E3),
    (fmt02_int hh h D4 E4), (fmt02_int mi m D5 E5). reflexivity.
Qed.

Lemma stamp_10 (now_year : Z) (yy mm dd hh mi r : text) :
  digits 2 2 yy -> digits 2 2 mm -> digits 2 2 dd -> digits 2 2 hh ->
  digits 2 2 mi ->
  NOTAMCollector._parse_notam_datetime now_year (yy ++ mm ++ dd ++ hh ++ mi)
    = Some r ->
  exists y,
    int yy = Ok y /\
    r = (if now_year mod 100 + 5 <? y then str "19" else str "20") ++
        yy ++ str "-" ++ mm ++ str "-" ++ dd ++ str "T" ++ hh ++ str ":" ++
        mi ++ str ":00Z".
Proof.
  intros D1 D2 D3 D4 D5 H.
  destruct (datetime_10 now_year yy mm dd hh mi D1 D2 D3 D4 D5)
    as (y & mo & d & h & m & E1 & E2 & E3 & E4 & E5 & _ & E).
  rewrite E in H. unfold stamp in H.
  destruct (NOTAMCollector.datetime_ok _ mo d h m); [|discriminate].
  injection H as <-. exists y. split; [exact E1|]. unfold iso_text.
  rewrite (fmt02_int mm mo D2 E2), (fmt02_int dd d D3 E3),
    (fmt02_int hh h D4 E4), (fmt02_int mi m D5 E5).
  destruct (fmt04_century yy y D1 E1) as [C19 C20].
  unfold NOTAMCollector.century.
  destruct (now_year mod 100 + 5 <? y); [rewrite C19|rewrite C20];
    rewrite <- app_assoc; reflexivity.
Qed.

Lemma digits_app (n k : nat) (u v : text) :
  digits n n u -> digits k k v -> digits (n + k) (n + k) (u ++ v).
Proof.
  intros [F1 L1] [F2 L2]. split; [rewrite forallb_app, F1, F2; reflexivity|].
  rewrite length_app. lia.
Qed.

(** A stamp made from ten to twelve digits. *)
Lemma stamp_of_digits (now_year : Z) (w r : text) :
  digits 10 12 w ->
  NOTAMCollector._parse_notam_datetime now_year w = Some r ->
  stamp_form r /\
  ((exists yyyy mm dd hh mi,
      w = yyyy ++ mm ++ dd ++ hh ++ mi /\ digits 4 4 yyyy /\
      r = yyyy ++ str "-" ++ mm ++ str "-" ++ dd ++ str "T" ++ hh ++ str ":" ++
          mi ++ str ":00Z") \/
   (exists yy mm dd hh mi y,
      w = yy ++ mm ++ dd ++ hh ++ mi /\ digits 2 2 yy /\ int yy = Ok y /\
      r = (if now_year mod 100 + 5 <? y then str "19" else str "20") ++
          yy ++ str "-" ++ mm ++ str "-" ++ dd ++ str "T" ++ hh ++ str ":" ++
          mi ++ str ":00Z")).
Proof.
  intros [F [L1 L2]] H.
  assert (Hl : length w = 10%nat \/ length w = 11%nat \/ length w = 12%nat) by lia.
  destruct Hl as [L|[L|L]].
  - destruct (digits_cut 2 8 w F L) as (yy & w1 & -> & D1 & F1 & K1).
    destruct (digits_cut 2 6 w1 F1 K1) as (mm & w2 & -> & D2 & F2 & K2).
    destruct (digits_cut 2 4 w2 F2 K2) as (dd & w3 & -> & D3 & F3 & K3).
    destruct (digits_cut 2 2 w3 F3 K3) as (hh & mi & -> & D4 & F4 & K4).
    assert (D5 : digits 2 2 mi) by (split; [exact F4|lia]).
    destruct (stamp_10 now_year yy mm dd hh mi r D1 D2 D3 D4 D5 H) as (y & Ey & ->).
    split.
    + exists ((if now_year mod 100 + 5 <? y then str "19" else str "20") ++ yy),
        mm, dd, hh, mi.
      split; [apply (digits_app 2 2); [destruct (_ <? _); split; reflexivity || (simpl; lia)|exact D1]|].
      repeat (split; [assumption|]). rewrite <- app_assoc. reflexivity.
    + right. exists yy, mm, dd, hh, mi, y. auto.
  - exfalso. unfold NOTAMCollector._parse_notam_datetime,
      NOTAMCollector.datetime_body in H. rewrite L in H. discriminate H.
  - destruct (digits_cut 4 8 w F L) as (yyyy & w1 & -> & D1 & F1 & K1).
    destruct (digits_cut 2 6 w1 F1 K1) as (mm & w2 & -> & D2 & F2 & K2).
    destruct (digits_cut 2 4 w2 F2 K2) as (dd & w3 & -> & D3 & F3 & K3).
    destruct (digits_cut 2 2 w3 F3 K3) as (hh & mi & -> & D4 & F4 & K4).
    assert (D5 : digits 2 2 mi) by (split; [exact F4|lia]).
    pose proof (stamp_12 now_year yyyy mm dd hh mi r D1 D2 D3 D4 D5 H) as ->.
    split.
    + exists yyyy, mm, dd, hh, mi. auto 10.
    + left. exists yyyy, mm, dd, hh, mi. auto.
Qed.

(** X11.  The stamp made from the ten to twelve digits of a B) or C) field
    keeps them: twelve digits YYYYMMDDHHmm give YYYY-MM-DDTHH:mm:00Z with
    the same digits, ten give the same with 19 or 20 before the year, and
    eleven, which the field patterns allow, give nothing.  So
    ['valid_from'] of a record is absent or such a stamp, and ['valid_to']
    is absent, EST or such a stamp. *)
Theorem X11_stamps (now_year : Z) :
  (forall w r,
     digits 10 12 w ->
     NOTAMCollector._parse_notam_datetime now_year w = Some r ->
     stamp_form r /\
     ((exists yyyy mm dd hh mi,
         w = yyyy ++ mm ++ dd ++ hh ++ mi /\ digits 4 4 yyyy /\
         r = yyyy ++ str "-" ++ mm ++ str "-" ++ dd ++ str "T" ++ hh ++ str ":" ++
             mi ++ str ":00Z") \/
      (exists yy mm dd hh mi y,
         w = yy ++ mm ++ dd ++ hh ++ mi /\ digits 2 2 yy /\ int yy = Ok y /\
         r = (if now_year mod 100 + 5 <? y then str "19" else str "20") ++
             yy ++ str "-" ++ mm ++ str "-" ++ dd ++ str "T" ++ hh ++ str ":" ++
             mi ++ str ":00Z"))) /\
  (forall w, length w = 11%nat ->
     NOTAMCollector._parse_notam_datetime now_year w = None) /\
  (forall t n,
     NOTAMCollector._parse_raw_notam now_year t = Some n ->
     (forall r, valid_from n = Some r -> stamp_form r) /\
     (forall r, valid_to n = Some r -> r = str "EST" \/ stamp_form r)) /\
  (exists n,
     NOTAMCollector._parse_raw_notam now_year
       (str "A1234/24 NOTAMN B) 24030112300 C) 24030112300") = Some n /\
     valid_from n = None /\ valid_to n = None /\ is_permanent n = false).
Proof.
  split; [exact (stamp_of_digits now_year)|].
  split.
  { intros w L. unfold NOTAMCollector._parse_notam_datetime,
      NOTAMCollector.datetime_body. rewrite L. reflexivity. }
  split; [|eexists; split; [reflexivity|repeat split]].
  intros t n H. destruct (raw_notam_record now_year t n H)
    as (m & _ & _ & _ & _ & _ & _ & Hvf & _).
  destruct (raw_notam_some now_year t n H) as (_ & c & _ & _ & _ & Ec & Hvt & _).
  split.
  - intros r Hr. rewrite Hvf in Hr.
    destruct (Re.search NOTAMCollector.b_re t) as [m0|] eqn:Eb; [|discriminate].
    destruct (search_sound _ _ _ Eb) as (pre & _ & M).
    apply b_re_form in M. destruct M as (v & G & D).
    unfold Re.grp in Hr. rewrite G in Hr.
    exact (proj1 (stamp_of_digits now_year v r D Hr)).
  - intros r Hr. rewrite Hvt in Hr.
    pose proof (parse_c_spec now_year t) as Hc.
    destruct (Re.search NOTAMCollector.c_re t) as [m0|] eqn:Em.
    + destruct Hc as (v & G & Hc).
      assert (Hcv : c = (if Py.text_eqb v (str "PERM") then (None, true)
                         else if Py.text_eqb v (str "EST")
                              then (Some (str "EST"), false)
                              else (NOTAMCollector._parse_notam_datetime now_year v,
                                    false))) by congruence.
      subst c. clear Ec Hc.
      destruct (search_sound _ _ _ Em) as (pre & _ & M).
      apply c_re_form in M. destruct M as (v' & G' & Hv).
      unfold Re.grp in G. rewrite G in G'. injection G' as <-.
      destruct (Py.text_eqb v (str "PERM")); [cbn [fst] in Hr; discriminate|].
      destruct (Py.text_eqb v (str "EST")) eqn:E2.
      * left. cbn [fst] in Hr. injection Hr as <-. reflexivity.
      * cbn [fst] in Hr. right.
        destruct Hv as [D | [Hv | Hv]];
          [exact (proj1 (stamp_of_digits now_year v r D Hr))
          |subst v; vm_compute in Hr; discriminate
          |subst v; vm_compute in E2; discriminate].
    + assert (Hcv : c = (None, false)) by congruence.
      subst c. discriminate Hr.
Qed.

Lemma X11_stamps_witness :
  stamp_form (str "2024-03-01T12:30:00Z").
Proof.
  apply (proj1 (X11_stamps 2024) (str "2403011230")).
  - split; [reflexivity|simpl; lia].
  - vm_compute. reflexivity.
Defined.

Lemma parse_q_form (t : text) (q : q_data) :
  NOTAMCollector.parse_q t = Ok (Some q) -> q_line_form q.
Proof.
  unfold NOTAMCollector.parse_q.
  destruct (Re.search NOTAMCollector.q_re t) as [m|] eqn:E; [|discriminate].
  destruct (search_sound _ _ _ E) as (pre & _ & M). apply q_re_form in M.
  destruct M as (g1 & g2 & g3 & g4 & g5 & g6 & g7 & g8 & G1 & G2 & G3 & G4 & G5 &
                 G6 & G7 & G8 & F1 & F2 & F3 & F4 & F5 & F6 & F7 & F8 & F9).
  unfold NOTAMCollector.group_str, Re.grp.
  rewrite G1, G2, G3, G4, G5, G6, G7, G8. cbn [bind]. intros H.
  injection H as <-. unfold q_line_form, four_capitals.
  cbn [fir q_code_ traffic purpose scope lower upper coordinates radius].
  repeat (split; [assumption|]).
  destruct F9 as [->|(g9 & -> & D)]; [exact I|].
  destruct g9 as [|x g9]; [exact I|exact D].
Qed.

Lemma parse_q_found (t : text) (o : option q_data) :
  NOTAMCollector.parse_q t = Ok o ->
  (o = None <-> Re.search NOTAMCollector.q_re t = None).
Proof.
  unfold NOTAMCollector.parse_q.
  destruct (Re.search NOTAMCollector.q_re t) as [m0|] eqn:E.
  - destruct (group_str_binds _ t m0 1 E eq_refl) as (g1 & E1 & _).
    destruct (group_str_binds _ t m0 2 E eq_refl) as (g2 & E2 & _).
    destruct (group_str_binds _ t m0 3 E eq_refl) as (g3 & E3 & _).
    destruct (group_str_binds _ t m0 4 E eq_refl) as (g4 & E4 & _).
    destruct (group_str_binds _ t m0 5 E eq_refl) as (g5 & E5 & _).
    destruct (group_str_binds _ t m0 6 E eq_refl) as (g6 & E6 & _).
    destruct (group_str_binds _ t m0 7 E eq_refl) as (g7 & E7 & _).
    destruct (group_str_binds _ t m0 8 E eq_refl) as (g8 & E8 & _).
    rewrite E1, E2, E3, E4, E5, E6, E7, E8. cbn [bind]. intros H.
    injection H as <-. split; discriminate.
  - intros H. injection H as <-. tauto.
Qed.

(** X12.  The fields of a record [_parse_raw_notam] returns.  ['raw'] is
    the stripped text; the Q-line is present exactly when its pattern is
    found, with fields of the shapes the pattern allows, and ['q_code'] is
    its code; ['location'] is the four capital letters of the A) field
    and, without an A) field, the FIR of the Q-line, so it is absent only
    when both are. *)
Theorem X12_notam_fields (now_year : Z) (t : text) (n : notam) :
  NOTAMCollector._parse_raw_notam now_year t = Some n ->
  notam_raw n = Py.strip t /\
  match q_data_ n with
  | Some q => q_line_form q /\ q_code n = Some (q_code_ q) /\
              Re.search NOTAMCollector.q_re t <> None
  | None => q_code n = None /\ Re.search NOTAMCollector.q_re t = None
  end /\
  match Re.search NOTAMCollector.a_re t with
  | Some m => location n = Re.grp m 1
  | None => location n = option_map fir (q_data_ n)
  end /\
  (forall loc, location n = Some loc -> four_capitals loc) /\
  (location n = None <->
   Re.search NOTAMCollector.a_re t = None /\ q_data_ n = None).
Proof.
  intros H. destruct (raw_notam_record now_year t n H)
    as (m & _ & _ & _ & Eq & Hq & Hloc & _ & _ & _ & _ & _ & Hraw).
  split; [exact Hraw|].
  assert (Hform : forall q, q_data_ n = Some q -> q_line_form q).
  { intros q Hn. rewrite Hn in Eq. exact (parse_q_form t q Eq). }
  assert (Ha : forall m0, Re.search NOTAMCollector.a_re t = Some m0 ->
                 exists loc, Re.grp m0 1 = Some loc /\ four_capitals loc).
  { intros m0 E. destruct (search_sound _ _ _ E) as (pre & _ & M).
    apply a_re_form in M. destruct M as (loc & G & F). exists loc. auto. }
  split.
  { pose proof (parse_q_found t _ Eq) as Hf.
    destruct (q_data_ n) as [q|] eqn:En.
    - split; [exact (Hform q eq_refl)|]. split; [rewrite Hq; reflexivity|].
      intros E. apply Hf in E. discriminate E.
    - split; [rewrite Hq; reflexivity|]. apply Hf. reflexivity. }
  split.
  { destruct (Re.search NOTAMCollector.a_re t); exact Hloc. }
  split.
  { intros loc Hl. rewrite Hloc in Hl.
    destruct (Re.search NOTAMCollector.a_re t) as [m0|] eqn:E.
    - destruct (Ha m0 eq_refl) as (loc' & G & F). rewrite G in Hl.
      injection Hl as <-. exact F.
    - destruct (q_data_ n) as [q|]; [|discriminate].
      injection Hl as <-. exact (proj1 (Hform q eq_refl)). }
  rewrite Hloc. destruct (Re.search NOTAMCollector.a_re t) as [m0|] eqn:E.
  - destruct (Ha m0 eq_refl) as (loc' & G & F). rewrite G.
    split; [discriminate|intros [? _]; discriminate].
  - destruct (q_data_ n); cbn; split; try tauto; try discriminate.
    intros [_ ?]; discriminate.
Qed.

Lemma X12_notam_fields_witness :
  exists n,
    NOTAMCollector._parse_raw_notam 2024
      (str "A1234/24 NOTAMN Q) UAAA/QMRLC/IV/NBO/A/000/999/4321N07655E005 E) RWY CLSD")
      = Some n /\
    (location n = None <->
     Re.search NOTAMCollector.a_re
       (str "A1234/24 NOTAMN Q) UAAA/QMRLC/IV/NBO/A/000/999/4321N07655E005 E) RWY CLSD")
       = None /\ q_data_ n = None) /\
    (forall loc, location n = Some loc -> four_capitals loc).
Proof.
  eexists. split; [vm_compute; reflexivity|].
  match goal with
  | |- (location ?n = None <-> _) /\ _ =>
      destruct (X12_notam_fields 2024
        (str "A1234/24 NOTAMN Q) UAAA/QMRLC/IV/NBO/A/000/999/4321N07655E005 E) RWY CLSD")
        n) as (_ & _ & _ & H4 & H5); [vm_compute; reflexivity|]
  end.
  split; [exact H5|exact H4].
Defined.

Lemma marker_complete b a id ws :
  id_shape id -> blanks ws ->
  exists c, matches (nth 0 NOTAMCollector.markers Re.Eps) b
              (id ++ ws ++ str "NOTAM") a [] c.
Proof.
  intros (l & d4 & d2 & -> & Hl & [D4 L4] & [D2 L2]) [Hws Hne].
  eexists. cbn [nth NOTAMCollector.markers].
  cbv [Re.seqs fold_right Re.plus Re.times].
  eapply M_seq;
    [apply M_Cls; exact Hl
    |eapply M_seq;
       [apply (M_Rep _ _ _ _ _ d4); [exact D4|lia|lia]
       |eapply M_seq;
          [apply (matches_lit "/")
          |eapply M_seq;
             [apply (M_Rep _ _ _ _ _ d2); [exact D2|lia|lia]
             |eapply M_seq;
                [apply (M_Rep _ _ _ _ _ ws);
                   [exact Hws|destruct ws; [contradiction|simpl; lia]|exact I]
                |eapply M_seq; [apply (matches_lit "NOTAM")|apply M_Eps|]|]|]|]|]|].
  all: try reflexivity.
  norm_app. reflexivity.
Qed.

Lemma notam_pattern_form b w a c :
  matches NOTAMCollector.notam_pattern b w a [] c ->
  exists id ws k tail,
    Re.group c 1 = Some (id ++ ws ++ str "NOTAM" ++ [k] ++ tail) /\
    id_shape id /\ blanks ws /\ one_of "NRC" k = true.
Proof.
  intros H. unfold NOTAMCollector.notam_pattern in H. inv_matches H. all: chars.
  all: match goal with
       | H1 : is_upper ?l = true, H2 : forallb is_space ?ws = true,
         H3 : one_of "NRC" ?k = true,
         F4 : forallb is_digit ?d4 = true, H4 : (4 <= length ?d4)%nat,
         F2 : forallb is_digit ?d2 = true, H5 : (2 <= length ?d2)%nat,
         HL : (1 <= length ?ws)%nat
         |- exists _ _ _ _, Re.group ((1%nat, _ ++ ?d4 ++ _ ++ ?d2 ++ ?ws ++ _ ++ _ ++ ?tl ++ _) :: _) 1 = _ /\ _ =>
           exists (l :: d4 ++ str "/" ++ d2), ws, k, tl; split;
             [cbn [Re.group Nat.eqb]; norm_app; reflexivity|];
           split; [exists l, d4, d2; repeat split; auto|];
           split; [split; [exact H2|intros ->; simpl in HL; lia]|exact H3]
       end.
Qed.

(** A text that begins with the number of a NOTAM and its kind gives a
    record with that number and kind. *)
Lemma leading_number (now_year : Z) (id ws tail : text) (k : ascii) :
  id_shape id -> blanks ws -> one_of "NRC" k = true ->
  exists n,
    NOTAMCollector._parse_raw_notam now_year (id ++ ws ++ str "NOTAM" ++ [k] ++ tail)
      = Some n /\
    notam_id n = id /\ notam_type n = [k].
Proof.
  intros Hid Hws Hk.
  set (t := id ++ ws ++ str "NOTAM" ++ [k] ++ tail).
  assert (Hat : id_at t [] id k).
  { exists ws, tail. split; [|auto]. subst t. norm_app. reflexivity. }
  destruct (Re.search NOTAMCollector.id_re t) as [m|] eqn:E.
  - destruct (raw_notam_body_found now_year t m E) as (n & c & Eb & G1 & G2 & _).
    destruct (search_id_leftmost t m E) as (pre' & id' & k' & Hat' & G1' & G2' & Hleft').
    pose proof (Hleft' _ _ _ Hat) as Hl. simpl in Hl.
    destruct pre'; [|simpl in Hl; lia].
    destruct (id_at_unique t [] id id' k k' Hat Hat') as [<- <-].
    exists n. unfold NOTAMCollector._parse_raw_notam. rewrite Eb.
    split; [reflexivity|]. split; congruence.
  - exfalso. destruct Hat as (ws' & post & Et & Hid' & Hws' & Hk').
    destruct (id_re_complete (rev []) post id ws' k Hid' Hws' Hk') as (c & M).
    apply (search_complete _ [] _ post c M). rewrite <- Et. exact E.
Qed.

(** X13.  [_is_notam_text] accepts every text from which
    [_parse_raw_notam] builds a record, and more: A) UAAA alone passes and
    gives no record.  Every block the full-text search of
    [_extract_notam_blocks] cuts begins with a number and a kind, so it
    passes the filter and gives a record with that number and kind. *)
Theorem X13_notam_filter (now_year : Z) :
  (forall t n,
     NOTAMCollector._parse_raw_notam now_year t = Some n ->
     NOTAMCollector._is_notam_text t = true) /\
  (forall full_text,
     Forall (fun b =>
               exists block id k,
                 b = Some block /\ id_at block [] id k /\
                 NOTAMCollector._is_notam_text block = true /\
                 exists n,
                   NOTAMCollector._parse_raw_notam now_year block = Some n /\
                   notam_id n = id /\ notam_type n = [k])
       (NOTAMCollector.full_text_blocks full_text)) /\
  (NOTAMCollector._is_notam_text (str "A) UAAA") = true /\
   NOTAMCollector._parse_raw_notam now_year (str "A) UAAA") = None /\
   NOTAMCollector._is_notam_text (str "A1234/24 NOTAMX") = true /\
   NOTAMCollector._parse_raw_notam now_year (str "A1234/24 NOTAMX") = None /\
   NOTAMCollector._is_notam_text [] = false /\
   NOTAMCollector.full_text_blocks
     (str "x A1234/24 NOTAMN Q) one B0001/24 NOTAMR two")
   = [Some (str "A1234/24 NOTAMN Q) one "); Some (str "B0001/24 NOTAMR two")]).
Proof.
  assert (H1 : forall t n,
             NOTAMCollector._parse_raw_notam now_year t = Some n ->
             NOTAMCollector._is_notam_text t = true).
  { intros t n H. destruct (raw_notam_some now_year t n H) as (m & _ & E & _).
    destruct (search_sound _ _ _ E) as (pre & Et & M).
    destruct (id_re_sound _ _ _ _ M) as (id & ws & k & Ew & Hid & Hws & _).
    destruct (marker_complete (rev pre) ([k] ++ Re.f_rest m) id ws Hid Hws) as (c & Mc).
    apply search_complete in Mc.
    assert (Et' : t = pre ++ (id ++ ws ++ str "NOTAM") ++ [k] ++ Re.f_rest m).
    { rewrite Et, Ew. norm_app. reflexivity. }
    rewrite <- Et' in Mc.
    unfold NOTAMCollector._is_notam_text. cbn [existsb NOTAMCollector.markers].
    cbn [nth NOTAMCollector.markers] in Mc.
    match type of Mc with
    | Re.search ?r _ <> None => destruct (Re.search r t); [reflexivity|contradiction]
    end. }
  split; [exact H1|]. split; [|vm_compute; repeat split].
  intros full_text. unfold NOTAMCollector.full_text_blocks.
  apply Forall_forall. intros b Hb. apply in_map_iff in Hb.
  destruct Hb as (m & <- & Hm). apply finditer_sound in Hm.
  apply notam_pattern_form in Hm.
  destruct Hm as (id & ws & k & tail & G & Hid & Hws & Hk).
  destruct (leading_number now_year id ws tail k Hid Hws Hk) as (n & En & Hn).
  exists (id ++ ws ++ str "NOTAM" ++ [k] ++ tail), id, k.
  split; [exact G|]. split.
  { exists ws, tail. split; [norm_app; reflexivity|auto]. }
  split; [exact (H1 _ n En)|]. exists n. split; [exact En|exact Hn].
Qed.

Lemma X13_notam_filter_witness :
  NOTAMCollector._is_notam_text (str "A1234/24 NOTAMN E) RWY CLSD") = true.
Proof.
  destruct (NOTAMCollector._parse_raw_notam 2024 (str "A1234/24 NOTAMN E) RWY CLSD"))
    as [n|] eqn:E; [|vm_compute in E; discriminate E].
  exact (proj1 (X13_notam_filter 2024) _ n E).
Defined.

(** ** Decoded NOTAMs *)

Lemma kind_letter (k : ascii) :
  one_of "NRC" k = true -> k = "N"%char \/ k = "R"%char \/ k = "C"%char.
Proof.
  unfold one_of. cbn [existsb str list_ascii_of_string]. rewrite orb_false_r.
  intros H. apply orb_prop in H. destruct H as [H|H];
    [left|apply orb_prop in H; destruct H as [H|H]; [right; left|right; right]];
    apply Ascii.eqb_eq in H; exact H.
Qed.

Lemma q_codes_dead_entry (q : text) :
  dict_find Q_CODES q <> Some (str "аэродром: прочее").
Proof.
  set (target := str "аэродром: прочее").
  let v := eval vm_compute in Q_CODES in change Q_CODES with v.
  cbn [dict_find].
  repeat (destruct (Py.text_eqb _ q); [subst target; discriminate|]).
  discriminate.
Qed.

(** X14.  What [NOTAMDecoder.decode] fills.  The severity, its mark and
    the decoded Q-code are present together, exactly when the Q-code is a
    string that is not empty; the mark is one of the three of the table,
    never the default one; the location name is present exactly when the
    location is, and the decoded description exactly when the description
    is a string that is not empty.  For a record of [_parse_raw_notam] the kind text is one
    of the three words of the table, and the severity is present exactly
    when the text holds a Q-line.  The table gives QFAXX its second text,
    and no Q-code is decoded to the first. *)
Theorem X14_decoded_notam :
  (forall n e, severity_emoji (NOTAMDecoder.decode n) = Some e -> In e severity_marks) /\
  (forall n,
     (severity (NOTAMDecoder.decode n) = None <->
      q_code n = None \/ q_code n = Some []) /\
     (severity_emoji (NOTAMDecoder.decode n) = None <->
      severity (NOTAMDecoder.decode n) = None) /\
     (q_decoded (NOTAMDecoder.decode n) = None <->
      severity (NOTAMDecoder.decode n) = None) /\
     (location_name (NOTAMDecoder.decode n) = None <-> location n = None) /\
     (description_decoded (NOTAMDecoder.decode n) = None <->
      description_raw n = None \/ description_raw n = Some []) /\
     (q_decoded (NOTAMDecoder.decode n) = Some (str "аэродром: прочее") ->
      q_code n = Some (str "аэродром: прочее"))) /\
  (forall now_year t n,
     NOTAMCollector._parse_raw_notam now_year t = Some n ->
     (notam_type n = str "N" /\ type_text (NOTAMDecoder.decode n) = str "новый" \/
      notam_type n = str "R" /\ type_text (NOTAMDecoder.decode n) = str "замена" \/
      notam_type n = str "C" /\ type_text (NOTAMDecoder.decode n) = str "отмена") /\
     (severity (NOTAMDecoder.decode n) = None <->
      Re.search NOTAMCollector.q_re t = None)) /\
  (forall n, q_code n = Some (str "QFAXX") ->
     q_decoded (NOTAMDecoder.decode n) = Some (str "средства связи: прочее")).
Proof.
  split; [|split; [|split]].
  - intros n e. unfold NOTAMDecoder.decode. cbn [severity_emoji].
    destruct (NOTAMDecoder.nonempty (q_code n)) as [q|]; [|discriminate].
    cbn [option_map]. intros H. injection H as <-.
    destruct (classify_cases q) as [[_ E]|[(_ & _ & E)|(_ & _ & E)]];
      rewrite E; vm_compute; tauto.
  - intros n. unfold NOTAMDecoder.decode.
    cbn [severity severity_emoji q_decoded location_name description_decoded].
    split; [|split; [|split; [|split; [|split]]]].
    + destruct (q_code n) as [[|x q]|]; cbn; split; intros H;
        try discriminate; auto; destruct H; discriminate.
    + destruct (NOTAMDecoder.nonempty (q_code n)); cbn; split; intros H;
        try discriminate; reflexivity.
    + destruct (NOTAMDecoder.nonempty (q_code n)); cbn; split; intros H;
        try discriminate; reflexivity.
    + unfold NOTAMDecoder._get_location_name.
      destruct (location n) as [l|]; [|tauto].
      destruct (dict_find AIRPORTS l); split; discriminate.
    + destruct (description_raw n) as [[|x w]|];
        cbn [NOTAMDecoder.nonempty option_map]; split; intros H;
        try discriminate; auto; destruct H; discriminate.
    + destruct (q_code n) as [[|x q]|]; cbn [NOTAMDecoder.nonempty option_map];
        try discriminate.
      intros H.
      assert (H' : dict_get Q_CODES (x :: q) (x :: q) = str "аэродром: прочее")
        by congruence.
      clear H. unfold dict_get in H'.
      destruct (dict_find Q_CODES (x :: q)) as [v|] eqn:E.
      * subst v. exfalso. exact (q_codes_dead_entry _ E).
      * rewrite H'. reflexivity.
  - intros now_year t n H.
    destruct (raw_notam_record now_year t n H)
      as (m & Em & _ & G2 & Eq & Hq & _).
    split.
    + destruct (search_sound _ _ _ Em) as (pre & _ & M).
      destruct (id_re_sound _ _ _ _ M) as (id & ws & k & _ & _ & _ & Hk & _ & G2').
      unfold Re.grp in G2. rewrite G2 in G2'. injection G2' as Et.
      unfold NOTAMDecoder.decode. cbn [type_text]. rewrite Et.
      destruct (kind_letter k Hk) as [Ek | [Ek | Ek]]; subst k;
        [left|right; left|right; right]; split; reflexivity.
    + unfold NOTAMDecoder.decode. cbn [severity]. rewrite Hq.
      pose proof (parse_q_found t _ Eq) as Hf.
      destruct (q_data_ n) as [q|] eqn:En.
      * pose proof (parse_q_form t q Eq) as (_ & (l & El & _) & _).
        cbn [option_map q_code_]. rewrite El.
        cbn [str list_ascii_of_string app NOTAMDecoder.nonempty option_map].
        split; [discriminate|]. intros E. apply Hf in E. discriminate E.
      * cbn [option_map NOTAMDecoder.nonempty]. split; [intros _|reflexivity].
        apply Hf. reflexivity.
  - intros n H. unfold NOTAMDecoder.decode. cbn [q_decoded]. rewrite H. reflexivity.
Qed.

Lemma X14_decoded_notam_witness :
  exists n,
    NOTAMCollector._parse_raw_notam 2024 (str "A1234/24 NOTAMR E) RWY CLSD") = Some n /\
    type_text (NOTAMDecoder.decode n) = str "замена" /\
    severity (NOTAMDecoder.decode n) = None.
Proof.
  eexists. split; [vm_compute; reflexivity|].
  match goal with
  | |- type_text (NOTAMDecoder.decode ?n) = _ /\ _ =>
      destruct (proj1 (proj2 (proj2 X14_decoded_notam)) 2024
                  (str "A1234/24 NOTAMR E) RWY CLSD") n) as [Hk Hs];
        [vm_compute; reflexivity|]
  end.
  split.
  - destruct Hk as [[Hn _]|[[_ Ht]|[Hn _]]];
      [vm_compute in Hn; discriminate Hn|exact Ht|vm_compute in Hn; discriminate Hn].
  - apply Hs. vm_compute. reflexivity.
Defined.

(** ** The fields of one line *)

Lemma lstrip_head (s : text) (x : ascii) (r : text) :
  Py.lstrip s = x :: r -> is_space x = false.
Proof.
  induction s as [|c s IH]; cbn [Py.lstrip]; [discriminate|].
  destruct (is_space c) eqn:Hc; [exact IH|].
  intros H. injection H as <- _. exact Hc.
Qed.

Lemma lstrip_fixed (s : text) :
  match s with x :: _ => is_space x = false | [] => True end ->
  Py.lstrip s = s.
Proof. destruct s as [|x s]; [reflexivity|]. cbn [Py.lstrip]. intros ->. reflexivity. Qed.

Lemma lstrip_idem (s : text) : Py.lstrip (Py.lstrip s) = Py.lstrip s.
Proof.
  apply lstrip_fixed. destruct (Py.lstrip s) as [|x r] eqn:E; [exact I|].
  exact (lstrip_head s x r E).
Qed.

(** [s.strip().strip()] is [s.strip()]. *)
Lemma strip_idem (s : text) : Py.strip (Py.strip s) = Py.strip s.
Proof.
  unfold Py.strip, Py.rstrip.
  set (u := Py.lstrip s). set (v := Py.lstrip (rev u)).
  assert (A : Py.lstrip (rev v) = rev v).
  { apply lstrip_fixed. destruct (rev v) as [|x r] eqn:Erv; [exact I|].
    destruct (lstrip_blanks (rev u)) as (sp & _ & E). fold v in E.
    apply (f_equal (@rev ascii)) in E. rewrite rev_involutive, rev_app_distr, Erv in E.
    cbn [app] in E. subst u. exact (lstrip_head s x _ E). }
  rewrite A, rev_involutive. subst v. rewrite lstrip_idem. reflexivity.
Qed.

Lemma forallb_lstrip (p : ascii -> bool) (s : text) :
  forallb p s = true -> forallb p (Py.lstrip s) = true.
Proof.
  intros H. destruct (lstrip_blanks s) as (sp & _ & E).
  rewrite E, forallb_app in H. apply andb_prop in H. apply H.
Qed.

Lemma forallb_rev (p : ascii -> bool) (s : text) :
  forallb p s = true -> forallb p (rev s) = true.
Proof.
  rewrite !forallb_forall. intros H x Hx. apply H. apply in_rev. exact Hx.
Qed.

Lemma forallb_strip (p : ascii -> bool) (s : text) :
  forallb p s = true -> forallb p (Py.strip s) = true.
Proof.
  intros H. unfold Py.strip, Py.rstrip.
  apply forallb_rev, forallb_lstrip, forallb_rev, forallb_lstrip. exact H.
Qed.

Lemma line_re_form (letter : string) b w a c :
  letter = "D"%string \/ letter = "F"%string \/ letter = "G"%string ->
  matches (NOTAMCollector.line_re letter) b w a [] c ->
  exists ws g,
    w = str letter ++ str ")" ++ ws ++ g /\
    forallb is_space ws = true /\ g <> [] /\
    forallb not_newline g = true /\ Re.group c 1 = Some g.
Proof.
  intros [E | [E | E]] H; subst letter; unfold NOTAMCollector.line_re in H;
    inv_matches H; chars.
  all: match goal with
       | H1 : forallb is_space ?ws = true, H2 : forallb not_newline ?g = true,
         H3 : (1 <= length ?g)%nat |- _ =>
           exists ws, g; rewrite ?app_nil_r;
           split; [reflexivity|]; split; [exact H1|];
           split; [intros ->; simpl in H3; lia|]; split; [exact H2|reflexivity]
       end.
Qed.

Lemma stripped_line (letter : string) (t : text) (field : option text) :
  letter = "D"%string \/ letter = "F"%string \/ letter = "G"%string ->
  NOTAMCollector.stripped_group (Re.search (NOTAMCollector.line_re letter) t)
    = Ok field ->
  line_field letter t field.
Proof.
  intros HL H.
  assert (Hm : match Re.search (NOTAMCollector.line_re letter) t with
               | Some m =>
                   exists ws g,
                     Re.f_text m = str letter ++ str ")" ++ ws ++ g /\
                     forallb is_space ws = true /\ g <> [] /\
                     forallb not_newline g = true /\ field = Some (Py.strip g)
               | None => field = None
               end).
  { destruct (Re.search (NOTAMCollector.line_re letter) t) as [m|] eqn:E.
    - destruct (search_sound _ _ _ E) as (pre & _ & M).
      destruct (line_re_form letter _ _ _ _ HL M) as (ws & g & Ew & Hws & Hg & Hn & G).
      exists ws, g. repeat (split; [assumption|]).
      cbn [NOTAMCollector.stripped_group] in H.
      unfold NOTAMCollector.group_str, Re.grp in H. rewrite G in H.
      cbn [bind] in H. congruence.
    - cbn [NOTAMCollector.stripped_group] in H. congruence. }
  split; [exact Hm|].
  intros w Hw. destruct (Re.search (NOTAMCollector.line_re letter) t) as [m|].
  - destruct Hm as (ws & g & _ & _ & _ & Hn & Hf).
    assert (w = Py.strip g) by congruence. subst w.
    split; [apply strip_idem|apply forallb_strip; exact Hn].
  - congruence.
Qed.

(** X15.  The fields D), F) and G) of a record are each read from the
    first place where the letter and a bracket stand in the text: blanks
    are passed over, line breaks among them, and the rest of the line is
    taken and stripped.  So a field is absent exactly when the text holds no such
    place, it never holds a line break and has no blank at either end; and
    a field whose own line is empty takes the next line. *)
Theorem X15_line_fields :
  (forall now_year t n,
     NOTAMCollector._parse_raw_notam now_year t = Some n ->
     line_field "D" t (schedule n) /\
     line_field "F" t (lower_limit n) /\
     line_field "G" t (upper_limit n)) /\
  (forall now_year,
     exists n,
       NOTAMCollector._parse_raw_notam now_year
         (str "A1234/24 NOTAMN" ++ TAFDecoder.newline ++ str "D)" ++
          TAFDecoder.newline ++ str "E) RWY CLSD  ") = Some n /\
       schedule n = Some (str "E) RWY CLSD") /\
       description_raw n = Some (str "RWY CLSD") /\
       lower_limit n = None).
Proof.
  split.
  - intros now_year t n H.
    destruct (raw_notam_record now_year t n H)
      as (m & _ & _ & _ & _ & _ & _ & _ & HD & _ & HF & HG & _).
    split; [|split]; apply stripped_line; auto.
  - intros now_year. eexists. split; [reflexivity|]. repeat split.
Qed.

Lemma X15_line_fields_witness :
  exists n,
    NOTAMCollector._parse_raw_notam 2024 (str "A1234/24 NOTAMN D) DAILY 0600-1800 ")
      = Some n /\
    line_field "D" (str "A1234/24 NOTAMN D) DAILY 0600-1800 ") (schedule n).
Proof.
  eexists. split; [vm_compute; reflexivity|].
  match goal with
  | |- line_field _ ?t (schedule ?n) =>
      exact (proj1 (proj1 X15_line_fields 2024 t n ltac:(vm_compute; reflexivity)))
  end.
Defined.

(** ** Where the description ends *)

Lemma stop_re_sound b a c :
  Re.rmatch stop_re b a c <> [] -> description_stop a.
Proof.
  intros H. destruct (Re.rmatch stop_re b a c) as [|[[b' a'] c'] l] eqn:E;
    [contradiction|].
  destruct (rmatch_sound stop_re b a c b' a' c') as (w & Ha & _ & M);
    [rewrite E; left; reflexivity|].
  unfold stop_re in M. inv_matches M. all: chars.
  - left. lazymatch goal with
    | H1 : forallb is_space ?ws = true, H2 : one_of "FG" ?k = true |- _ =>
        exists ws, k, a'; split; [norm_app; reflexivity|auto]
    end.
  - right. assumption.
Qed.

Lemma stop_re_complete b a c :
  description_stop a -> Re.rmatch stop_re b a c <> [].
Proof.
  intros [(ws & k & post & -> & Hws & Hk)|He] H.
  - assert (M : matches stop_re b (ws ++ [k] ++ str ")") post c c).
    { unfold stop_re. apply M_AltL. cbv [Re.seqs fold_right Re.star].
      eapply M_seq;
        [apply (M_Rep _ _ _ _ _ ws); [exact Hws|lia|exact I]
        |eapply M_seq; [apply M_Cls; exact Hk
                       |eapply M_seq; [apply (matches_lit ")")|apply M_Eps|]|]|];
        reflexivity. }
    apply rmatch_complete in M. revert M H. norm_app. intros M H.
    rewrite H in M. exact M.
  - assert (M : matches stop_re b [] a c c) by (apply M_AltR, M_Eol; exact He).
    apply rmatch_complete in M. cbn [app rev] in M. rewrite H in M. exact M.
Qed.

Lemma run_any (a : text) : Re.run any_char a = length a.
Proof. induction a as [|x a IH]; simpl; [reflexivity|]. rewrite IH. reflexivity. Qed.

(** The first way the description pattern matches at a place: the blanks
    after the bracket, the shortest text after which the description may
    stop, and what follows. *)
Lemma e_re_first b a x l :
  Re.rmatch NOTAMCollector.e_re b a [] = x :: l ->
  exists ws g rest,
    a = str "E)" ++ ws ++ g ++ rest /\ forallb is_space ws = true /\ g <> [] /\
    snd (fst x) = rest /\ snd x = [(1%nat, g)] /\
    description_stop rest /\
    forall g1 g2, g = g1 ++ g2 -> g1 <> [] -> g2 <> [] ->
                  ~ description_stop (g2 ++ rest).
Proof.
  assert (Ee : NOTAMCollector.e_re =
               Re.Seq (Re.Seq (Re.Cls (is_char "E")) (Re.Seq (Re.Cls (is_char ")")) Re.Eps))
                 (Re.Seq (Re.star is_space)
                    (Re.Seq (Re.Grp 1 (Re.Rep any_char 1 None false))
                       (Re.Seq (Re.Ahead stop_re) Re.Eps)))) by reflexivity.
  rewrite Ee. clear Ee. unfold Re.star. cbn [Re.rmatch].
  destruct a as [|x1 [|x2 a]]; cbn [flat_map].
  1: discriminate.
  1: destruct (is_char "E" x1); cbn [flat_map app]; discriminate.
  destruct (is_char "E" x1) eqn:E1; cbn [flat_map app]; [|discriminate].
  destruct (is_char ")" x2) eqn:E2; cbn [flat_map app]; [|discriminate].
  apply is_char_eq in E1, E2. subst x1 x2. rewrite app_nil_r.
  intros H. apply flat_map_first in H.
  destruct H as (l1 & y & l2 & r' & El & _ & Hy).
  assert (Hin : In y (l1 ++ y :: l2))
    by (apply in_or_app; right; left; reflexivity).
  rewrite <- El in Hin.
  apply in_map_iff in Hin. destruct Hin as (k & <- & Hk). clear El l1 l2.
  apply in_counts in Hk. destruct (run_firstn is_space a k) as [Hws _]; [lia|].
  cbn beta iota in Hy. rewrite !flat_map_map in Hy. unfold Re.counts in Hy.
  apply first_of_seq in Hy. destruct Hy as (j & r'' & Hj & Ej & Hmin).
  rewrite run_any in Hj.
  set (a1 := skipn k a) in *.
  assert (Hcap : forall i, (i <= length a1)%nat ->
            firstn (length a1 - length (skipn i a1)) a1 = firstn i a1).
  { intros i Hi. rewrite length_skipn. f_equal. lia. }
  exists (firstn k a), (firstn j a1), (skipn j a1).
  split; [subst a1; rewrite !firstn_skipn; reflexivity|].
  split; [exact Hws|].
  split.
  { intros E. apply (f_equal (@length ascii)) in E.
    rewrite length_firstn in E. simpl in E. lia. }
  match type of Ej with
  | context [Re.rmatch stop_re ?p ?q ?c] =>
      destruct (Re.rmatch stop_re p q c) as [|z zs] eqn:Ez; [discriminate Ej|]
  end.
  cbn [flat_map app] in Ej. injection Ej as <- _. cbn [fst snd].
  split; [reflexivity|]. split; [rewrite Hcap by lia; reflexivity|].
  split.
  { apply (stop_re_sound _ _ _ ltac:(rewrite Ez; discriminate)). }
  intros g1 g2 Eg Hg1 Hg2 Hstop.
  assert (Lg : length (firstn j a1) = j) by (rewrite length_firstn; lia).
  assert (Hi : (1 <= length g1 < j)%nat).
  { rewrite Eg, length_app in Lg.
    destruct g1; [contradiction|]. destruct g2; [contradiction|]. simpl in *. lia. }
  specialize (Hmin (length g1) Hi).
  assert (Es : skipn (length g1) a1 = g2 ++ skipn j a1).
  { rewrite <- (firstn_skipn j a1) at 1. rewrite Eg, <- app_assoc.
    apply skipn_exact. }
  rewrite Es in Hmin.
  match type of Hmin with
  | context [Re.rmatch stop_re ?p ?q ?c] =>
      destruct (Re.rmatch stop_re p q c) as [|z' zs'] eqn:Ez'; [|discriminate Hmin]
  end.
  exact (stop_re_complete _ _ _ Hstop Ez').
Qed.

Lemma e_re_complete b post :
  post <> [] ->
  exists c, matches NOTAMCollector.e_re b (str "E)" ++ post) [] [] c.
Proof.
  intros Hne. eexists. unfold NOTAMCollector.e_re.
  cbv [Re.seqs fold_right Re.star].
  eapply M_seq;
    [apply (matches_lit "E)")
    |eapply M_seq;
       [apply (M_Rep _ _ _ _ _ []); [reflexivity|simpl; lia|exact I]
       |eapply M_seq;
          [apply M_Grp; apply (M_Rep _ _ _ _ _ post);
             [apply forallb_forall; reflexivity
             |destruct post; [contradiction|simpl; lia]|exact I]
          |eapply M_seq;
             [eapply (M_Ahead _ _ [] []); [apply M_AltR, M_Eol; reflexivity|reflexivity]
             |apply M_Eps|]|]|]|].
  all: try reflexivity.
  all: rewrite ?app_nil_r; reflexivity.
Qed.

(** X16.  The description of a record is read at the first E) of the text
    that any character follows: blanks are passed over and the text is
    taken up to the first place where, after blanks, F) or G) stands, or up
    to the end of the text, and is then stripped.  It may run over several
    lines, and it stops at an F) or G) inside a sentence. *)
Theorem X16_description_end :
  (forall now_year t n,
     NOTAMCollector._parse_raw_notam now_year t = Some n ->
     match Re.search NOTAMCollector.e_re t with
     | Some m =>
         exists pre ws g rest,
           t = pre ++ str "E)" ++ ws ++ g ++ rest /\
           forallb is_space ws = true /\ g <> [] /\
           description_raw n = Some (Py.strip g) /\
           description_stop rest /\
           (forall g1 g2, g = g1 ++ g2 -> g1 <> [] -> g2 <> [] ->
                          ~ description_stop (g2 ++ rest)) /\
           (forall pre1 post1, t = pre1 ++ str "E)" ++ post1 -> post1 <> [] ->
                               (length pre <= length pre1)%nat)
     | None =>
         description_raw n = None /\
         forall pre1 post1, t = pre1 ++ str "E)" ++ post1 -> post1 = []
     end) /\
  (forall now_year,
     exists n,
       NOTAMCollector._parse_raw_notam now_year
         (str "A1234/24 NOTAMN E) TWY F) CLSD") = Some n /\
       description_raw n = Some (str "TWY") /\
       lower_limit n = Some (str "CLSD")) /\
  (forall now_year,
     exists n,
       NOTAMCollector._parse_raw_notam now_year
         (str "A1234/24 NOTAMN E) RWY 05/23" ++ TAFDecoder.newline ++
          str "CLSD" ++ TAFDecoder.newline ++ str "G) FL100") = Some n /\
       description_raw n =
         Some (str "RWY 05/23" ++ TAFDecoder.newline ++ str "CLSD")).
Proof.
  split; [|split; intros now_year; eexists; (split; [reflexivity|repeat split])].
  intros now_year t n H.
  destruct (raw_notam_record now_year t n H)
    as (m0 & _ & _ & _ & _ & _ & _ & _ & _ & HE & _).
  destruct (Re.search NOTAMCollector.e_re t) as [m|] eqn:E.
  - destruct (search_from_sound _ _ _ _ E) as (pre & Et & Ep & _ & _).
    rewrite app_nil_r in Ep.
    destruct (search_from_head _ _ _ _ E) as (l & Eh).
    destruct (e_re_first _ _ _ _ Eh) as (ws & g & rest & Ea & Hws & Hg & Hr & Hc & Hstop & Hmin).
    cbn [fst snd] in Hr, Hc.
    exists pre, ws, g, rest. split; [rewrite Et, Ea; reflexivity|].
    split; [exact Hws|]. split; [exact Hg|]. split.
    { cbn [NOTAMCollector.stripped_group] in HE.
      unfold NOTAMCollector.group_str, Re.grp in HE. rewrite Hc in HE.
      cbn [Re.group Nat.eqb bind] in HE. congruence. }
    split; [rewrite <- Hr in *; exact Hstop|]. split; [exact Hmin|].
    intros pre1 post1 Et1 Hne.
    destruct (Nat.le_gt_cases (length pre) (length pre1)) as [Hle|Hgt]; [exact Hle|].
    exfalso. destruct (e_re_complete (rev pre1) post1 Hne) as (c & Mc).
    apply rmatch_complete in Mc.
    assert (F : Re.rmatch NOTAMCollector.e_re (rev pre1 ++ []) (str "E)" ++ post1) [] = []).
    { apply (search_from_first _ _ _ _ E pre1 _ Et1).
      rewrite Ep, length_rev. simpl. lia. }
    rewrite !app_nil_r in *. rewrite F in Mc. exact Mc.
  - cbn [NOTAMCollector.stripped_group] in HE. split; [congruence|].
    intros pre1 post1 Et1. destruct post1 as [|y post1]; [reflexivity|]. exfalso.
    destruct (e_re_complete (rev pre1) (y :: post1) ltac:(discriminate)) as (c & Mc).
    apply (search_complete _ pre1 _ [] c Mc). rewrite app_nil_r, <- Et1. exact E.
Qed.

Lemma X16_description_end_witness :
  exists n g,
    NOTAMCollector._parse_raw_notam 2024 (str "A1234/24 NOTAMN E) RWY CLSD G) FL050")
      = Some n /\
    description_raw n = Some (Py.strip g) /\ g <> [].
Proof.
  destruct (NOTAMCollector._parse_raw_notam 2024
              (str "A1234/24 NOTAMN E) RWY CLSD G) FL050")) as [n|] eqn:En;
    [|vm_compute in En; discriminate En].
  pose proof (proj1 X16_description_end 2024 _ n En) as W.
  destruct (Re.search NOTAMCollector.e_re (str "A1234/24 NOTAMN E) RWY CLSD G) FL050"))
    as [m|] eqn:E; [|vm_compute in E; discriminate E].
  destruct W as (pre & ws & g & rest & _ & _ & Hg & Hd & _).
  exists n, g. auto.
Defined.

(** * The visibility token *)

Lemma vis_re_complete b a x n y :
  is_space x = true -> is_space y = true -> digits 4 4 n ->
  matches TAFDecoder.vis_re b ([x] ++ n ++ [y]) a [] [(1%nat, n)].
Proof.
  intros Hx Hy [D [L1 L2]]. unfold TAFDecoder.vis_re.
  cbv [Re.seqs fold_right Re.times].
  eapply M_seq;
    [apply M_Cls; exact Hx
    |eapply M_seq;
       [apply M_Grp; apply (M_Rep _ _ _ _ _ n); [exact D|exact L1|exact L2]
       |eapply M_seq; [apply M_Cls; exact Hy|apply M_Eps|]|]|].
  all: reflexivity.
Qed.

(** [search] for a visibility finds the leftmost four digits between two
    blanks. *)
Lemma search_vis_leftmost (t : text) (m : Re.found) :
  Re.search TAFDecoder.vis_re t = Some m ->
  exists pre n,
    token_at t pre n /\ Re.grp m 1 = Some n /\
    forall pre1 n1, token_at t pre1 n1 -> (length pre <= length pre1)%nat.
Proof.
  intros H. pose proof (search_from_sound _ _ _ _ H) as (pre & Et & Ep & _ & M).
  rewrite app_nil_r in Ep.
  destruct (vis_re_form _ _ _ _ M) as (x & n & y & Ew & Hx & Hy & D & G).
  exists pre, n. repeat split; try assumption.
  - exists x, y, (Re.f_rest m). rewrite Et, Ew, <- !app_assoc. auto.
  - intros pre1 n1 (x1 & y1 & post1 & Et1 & Hx1 & Hy1 & D1).
    destruct (Nat.le_gt_cases (length pre) (length pre1)) as [Hle|Hgt]; [exact Hle|].
    exfalso.
    pose proof (vis_re_complete (rev pre1) post1 x1 n1 y1 Hx1 Hy1 D1) as Mc.
    apply rmatch_complete in Mc.
    assert (F : Re.rmatch TAFDecoder.vis_re (rev pre1 ++ [])
                  (([x1] ++ n1 ++ [y1]) ++ post1) [] = []).
    { apply (search_from_first _ _ _ _ H pre1).
      - rewrite Et1, <- !app_assoc. reflexivity.
      - rewrite Ep, length_rev. simpl. lia. }
    rewrite app_nil_r in F. rewrite F in Mc. exact Mc.
Qed.

Lemma token_at_unique (t pre n n' : text) :
  token_at t pre n -> token_at t pre n' -> n = n'.
Proof.
  intros (x & y & post & Et & _ & _ & [_ L]) (x' & y' & post' & Et' & _ & _ & [_ L']).
  rewrite Et in Et'. apply app_inv_head in Et'. cbn [app] in Et'.
  injection Et' as _ E. apply app_same_length in E; [apply E|lia].
Qed.

Lemma parse_visibility_at (t pre n : text) :
  ~ stands_in (str "CAVOK") t -> ~ stands_in (str "9999") t ->
  token_at t pre n ->
  (forall pre1 n1, token_at t pre1 n1 -> (length pre <= length pre1)%nat) ->
  exists mt v,
    n = fmt04 mt /\ 0 <= mt < 10000 /\
    TAFDecoder._parse_visibility t = Ok (Some v) /\
    meters v = mt /\ quality v = Some (TAFDecoder.vis_quality mt).
Proof.
  intros H1 H2 Hat Hleft. apply contains_not in H1, H2.
  destruct (Re.search TAFDecoder.vis_re t) as [m|] eqn:Em.
  - destruct (parse_visibility_token t m H1 H2 Em) as (mt & v & Ei & Hmt & Ev & Hm & Hq).
    destruct (search_vis_leftmost t m Em) as (pre' & n' & Hat' & Eg & Hleft').
    assert (Hlen : length pre = length pre')
      by (apply Nat.le_antisymm; [exact (Hleft _ _ Hat')|exact (Hleft' _ _ Hat)]).
    assert (pre = pre').
    { destruct Hat as (x & y & post & Et & _). destruct Hat' as (x' & y' & post' & Et' & _).
      exact (prefix_same_length t pre pre' _ _ Et Et' Hlen). }
    subst pre'. rewrite <- (token_at_unique t pre n n' Hat Hat') in Eg.
    unfold TAFDecoder.int_group in Ei. rewrite Eg in Ei.
    exists mt, v. split; [|auto].
    destruct Hat as (_ & _ & _ & _ & _ & _ & D).
    symmetry. exact (fmt04_int n mt D Ei).
  - exfalso. destruct Hat as (x & y & post & Et & Hx & Hy & D).
    pose proof (vis_re_complete (rev pre) post x n y Hx Hy D) as M.
    apply (search_complete _ pre _ post _ M).
    rewrite <- Em, Et, <- !app_assoc. reflexivity.
Qed.

Lemma parse_visibility_none (t : text) :
  TAFDecoder._parse_visibility t = Ok None <->
  ~ stands_in (str "CAVOK") t /\ ~ stands_in (str "9999") t /\
  forall pre n, ~ token_at t pre n.
Proof.
  rewrite <- !contains_not. unfold TAFDecoder._parse_visibility. split.
  - destruct (Py.contains t (str "CAVOK")); [discriminate|].
    destruct (Py.contains t (str "9999")); [discriminate|].
    destruct (Re.search TAFDecoder.vis_re t) as [m|] eqn:Em.
    + destruct (search_sound _ _ _ Em) as (pre & _ & M). apply vis_re_groups in M.
      destruct (int_group_num m 1 4 4 M) as (mt & E & _); [lia|].
      rewrite E. discriminate.
    + intros _. split; [reflexivity|]. split; [reflexivity|].
      intros pre n (x & y & post & Et & Hx & Hy & D).
      pose proof (vis_re_complete (rev pre) post x n y Hx Hy D) as M.
      apply (search_complete _ pre _ post _ M).
      rewrite <- Em, Et, <- !app_assoc. reflexivity.
  - intros (-> & -> & Hno).
    destruct (Re.search TAFDecoder.vis_re t) as [m|] eqn:Em; [|reflexivity].
    exfalso. destruct (search_vis_leftmost t m Em) as (pre & n & Hat & _).
    exact (Hno pre n Hat).
Qed.

(** The claim C6 as the specification words it fails on a token of four
    digits that begins or ends the text it is read from: the last token of
    the main part of a forecast and the last token of a change group are
    bare tokens of four digits and give no visibility. *)
Lemma C6_token_at_end_not_read :
  TAFDecoder._parse_visibility (str "27005MPS 4000") = Ok None /\
  TAFDecoder._parse_visibility (str "4000 BR") = Ok None /\
  (let d := TAFDecoder.decode
              (str "TAF UAAA 051100Z 0512/0612 27005MPS 6000 BECMG 0514/0516 4000") in
   d_visibility d = None /\ map indicator (changes d) = [str "BECMG"] /\
   map ch_visibility (changes d) = [None]).
Proof. vm_compute. repeat split. Qed.

(** C6, amended.  CAVOK and 9999, wherever they stand in the text that is
    read, both give 10000 metres, with two different notes, CAVOK coming
    first.  Otherwise the visibility is read from the leftmost four digits
    that stand between two blanks inside the text: they give that many
    metres, in the tier good from 5000, moderate from 3000 to 4999, limited
    from 1000 to 2999 and poor below 1000.  A text with none of the three
    gives no visibility, so four digits at the very start or the very end
    of the text are not read. *)
Theorem C6_visibility :
  (forall t, stands_in (str "CAVOK") t ->
     TAFDecoder._parse_visibility t =
     Ok (Some {| meters := 10000; quality := None;
                 v_text := TAFDecoder.cavok_text |})) /\
  (forall t, ~ stands_in (str "CAVOK") t -> stands_in (str "9999") t ->
     TAFDecoder._parse_visibility t =
     Ok (Some {| meters := 10000; quality := None;
                 v_text := TAFDecoder.vis_9999_text |})) /\
  TAFDecoder.cavok_text <> TAFDecoder.vis_9999_text /\
  (forall t pre n,
     ascii_text t ->
     ~ stands_in (str "CAVOK") t -> ~ stands_in (str "9999") t ->
     token_at t pre n ->
     (forall pre1 n1, token_at t pre1 n1 -> (length pre <= length pre1)%nat) ->
     exists mt v,
       n = fmt04 mt /\ 0 <= mt < 10000 /\
       TAFDecoder._parse_visibility t = Ok (Some v) /\
       meters v = mt /\ quality v = Some (TAFDecoder.vis_quality mt)) /\
  (forall t,
     ascii_text t ->
     (TAFDecoder._parse_visibility t = Ok None <->
      ~ stands_in (str "CAVOK") t /\ ~ stands_in (str "9999") t /\
      forall pre n, ~ token_at t pre n)) /\
  (forall n, 0 <= n < 9999 ->
     exists v,
       TAFDecoder._parse_visibility (str " " ++ fmt04 n ++ str " ") = Ok (Some v) /\
       meters v = n /\ quality v = Some (TAFDecoder.vis_quality n)) /\
  (forall mt,
     (5000 <= mt -> TAFDecoder.vis_quality mt = str "хорошая") /\
     (3000 <= mt <= 4999 -> TAFDecoder.vis_quality mt = str "средняя") /\
     (1000 <= mt <= 2999 -> TAFDecoder.vis_quality mt = str "ограниченная") /\
     (mt < 1000 -> TAFDecoder.vis_quality mt = str "плохая")) /\
  (TAFDecoder._parse_visibility (str "TAF UAAA 051100Z 0512/0612 27005MPS CAVOK")
   = Ok (Some {| meters := 10000; quality := None;
                 v_text := TAFDecoder.cavok_text |}) /\
   TAFDecoder._parse_visibility (str "TAF UAAA 051100Z 0512/0612 27005MPS 9999 FEW040")
   = Ok (Some {| meters := 10000; quality := None;
                 v_text := TAFDecoder.vis_9999_text |}) /\
   TAFDecoder._parse_visibility (str "9999 CAVOK")
   = Ok (Some {| meters := 10000; quality := None;
                 v_text := TAFDecoder.cavok_text |}) /\
   option_map (fun v => (meters v, quality v))
     (d_visibility (TAFDecoder.decode
        (str "TAF UAAA 051100Z 0512/0612 27005MPS 4000 BR BKN010")))
   = Some (4000, Some (str "средняя")) /\
   option_map (fun v => (meters v, quality v))
     (d_visibility (TAFDecoder.decode
        (str "TAF UAAA 051100Z 0512/0612 27005MPS 0800 FG VV002")))
   = Some (800, Some (str "плохая"))).
Proof.
  split.
  { intros t H. apply contains_iff in H.
    unfold TAFDecoder._parse_visibility. rewrite H. reflexivity. }
  split.
  { intros t H1 H2. apply contains_not in H1. apply contains_iff in H2.
    unfold TAFDecoder._parse_visibility. rewrite H1, H2. reflexivity. }
  split; [vm_compute; discriminate|].
  split; [intros t pre n _; apply parse_visibility_at|].
  split; [intros t _; apply parse_visibility_none|].
  split.
  { intros n Hn. pose proof (vis_tokens_checked n) as H.
    unfold vis_token_check in H.
    destruct (TAFDecoder._parse_visibility (str " " ++ fmt04 n ++ str " "))
      as [[v|]|]; try (discriminate H; lia).
    assert (Hn' : (n =? 9999) = false) by (apply Z.eqb_neq; lia).
    rewrite Hn' in H. specialize (H ltac:(lia)).
    apply andb_prop in H. destruct H as [Hm Hq]. apply Z.eqb_eq in Hm.
    exists v. split; [reflexivity|]. split; [exact Hm|].
    destruct (quality v) as [q|]; [|discriminate].
    apply text_eqb_eq in Hq. congruence. }
  split; [|vm_compute; repeat split].
  intros mt. unfold TAFDecoder.vis_quality. repeat split; intros H.
  - destruct (5000 <=? mt) eqn:E; [reflexivity|apply Z.leb_gt in E; lia].
  - destruct (5000 <=? mt) eqn:E; [apply Z.leb_le in E; lia|].
    destruct (3000 <=? mt) eqn:E'; [reflexivity|apply Z.leb_gt in E'; lia].
  - destruct (5000 <=? mt) eqn:E; [apply Z.leb_le in E; lia|].
    destruct (3000 <=? mt) eqn:E'; [apply Z.leb_le in E'; lia|].
    destruct (1000 <=? mt) eqn:E''; [reflexivity|apply Z.leb_gt in E''; lia].
  - destruct (5000 <=? mt) eqn:E; [apply Z.leb_le in E; lia|].
    destruct (3000 <=? mt) eqn:E'; [apply Z.leb_le in E'; lia|].
    destruct (1000 <=? mt) eqn:E''; [apply Z.leb_le in E''; lia|reflexivity].
Qed.

Lemma C6_visibility_witness :
  token_at (str "27005MPS 4000 BR") (str "27005MPS") (str "4000") /\
  exists v,
    TAFDecoder._parse_visibility (str "27005MPS 4000 BR") = Ok (Some v) /\
    meters v = 4000 /\ quality v = Some (str "средняя").
Proof.
  assert (Ha : ascii_text (str "27005MPS 4000 BR")) by reflexivity.
  assert (H1 : ~ stands_in (str "CAVOK") (str "27005MPS 4000 BR"))
    by (apply contains_not; reflexivity).
  assert (H2 : ~ stands_in (str "9999") (str "27005MPS 4000 BR"))
    by (apply contains_not; reflexivity).
  assert (Hat : token_at (str "27005MPS 4000 BR") (str "27005MPS") (str "4000")).
  { exists " "%char, " "%char, (str "BR"). repeat split; simpl; lia. }
  assert (Hleft : forall pre1 n1, token_at (str "27005MPS 4000 BR") pre1 n1 ->
                    (length (str "27005MPS") <= length pre1)%nat).
  { intros pre1 n1 (x & y & post & Et & Hx & _).
    destruct (Nat.le_gt_cases 8 (length pre1)) as [Hle|Hgt]; [exact Hle|].
    exfalso.
    do 8 (destruct pre1 as [|? pre1];
          [injection Et as Ex _; subst x; discriminate Hx|injection Et as _ Et]).
    simpl in Hgt. lia. }
  split; [exact Hat|].
  destruct (proj1 (proj2 (proj2 (proj2 C6_visibility))) _ _ _ Ha H1 H2 Hat Hleft)
    as (mt & v & En & _ & Ev & Hm & Hq).
  exists v. split; [exact Ev|].
  vm_compute in Ev. injection Ev as <-. split; reflexivity.
Defined.
